(* ===== verification/_CoqProject ===== *)
-Q . S2P
Prelude.v
Graph.v
GoStrings.v
GoFmt.v
NodeName.v
FS.v
FilePath.v
Config.v
NetIP.v
Subnet.v
Base64.v
Keys.v
JSON.v
JSONFacts.v
JSONStrings.v
JSONObjects.v
Message.v
Gossip.v
GossipConcurrent.v
GossipNet.v
Control.v
ControlSocket.v
Invite.v
Bufio.v
Transport.v
TransportWire.v
Binary.v
Stun.v
Upnp.v
Pcap.v
Compression.v
Dataplane.v
Daemon.v
DaemonJoin.v
Sandbox.v
DaemonInit.v
Script.v
DaemonEvents.v
DaemonConcurrent.v
DaemonRun.v
Discovery.v
Lifecycle.v
Cli.v
CliJoin.v
CliControl.v
Flags.v
Programs.v
Report.v
Mesh.v
Heartbeat.v
EndToEnd.v
