(* ===== verification/Prelude.v ===== *)
(** * gsnet: a verification library

    gsnet is a mesh VPN daemon.  Every node runs [gsnetd]; nodes flood signed
    facts about the topology over TCP connections, keep a graph of nodes,
    edges and subnets, and configure WireGuard tunnels and a VXLAN overlay from
    it.  New nodes join with an invitation URL.  A control socket serves the
    command line tool [gsnet].  This library translates that code (src/internal
    and src/cmd) into executable definitions and proves what makes each
    part correct.

    ** The parts and where they are modelled

    Foundations (Go's standard library as far as the code uses it):
    - [Prelude]: byte strings, machine integers, results and panics, map
      iteration order ([MapOrder]: any order, every entry once), tactics.
    - [GoStrings] (strings, strconv, bufio, utf8), [GoFmt] (fmt.Sscanf,
      padding, durations), [FS] (path/filepath, os over
      a map of files), [FilePath] (facts about cleaned paths), [NetIP]
      (net/netip, net), [Binary] (encoding/binary, slice expressions with their
      panics), [Base64], [Bufio] (bufio.Writer), [Flags] (flag), [JSON] with [JSONFacts], [JSONStrings] and
      [JSONObjects] (encoding/json: marshalling, the scanner, unmarshalling,
      the round trips, and that marshalled text is one line).

    Components:
    - [Graph] models internal/graph: [graph.Graph] is the struct, one
      definition per method; [Reachable] is the breadth-first search.
    - [NodeName], [Config], [Subnet] model internal/nodename, internal/config
      and internal/subnet: parsers, printers, directory loading.
    - [Keys] models internal/keys.  Ed25519, SHA-256, PEM/X.509 and wgctrl keys
      are classes with the laws the code relies on, each with an instance.
    - [Message] models internal/gossip/message.go: envelope, payloads
      ([PayloadCodec]), signed bytes, wire encoding.
    - [Gossip] models internal/gossip/plane.go: the record [Plane] is the
      struct; [Receive], [originate], [apply] and the announcements are single
      steps that return the events they cause (broadcasts, observer calls).
    - [GossipConcurrent] splits [Receive] into its phases and interleaves any
      number of calls; [GossipNet] connects planes by the transport's
      broadcast and delivers envelopes in any order.
    - [Control] models internal/control: messages, greeting, PID file, cookie
      authentication, the session loop over an abstract handler;
      [ControlSocket] the creation of its socket.
    - [Invite] models internal/invite/url.go and file.go; [Transport] models
      internal/invite/crypto.go and internal/transport: the dispatch on the
      first line, the gossip stream, the encrypted INVITE2 exchange on both
      sides ([SessionCrypto] is the interface of X25519, HKDF and
      ChaCha20-Poly1305), and the connection pool; [TransportWire] the listener
      and the bytes that writers put on a connection that may break.
    - [Lifecycle] models starting and stopping of the control server and of
      the transport as two transition systems whose actions interleave: accept
      loop, handlers, the goroutine that closes everything, [Close].
    - [Stun], [Upnp], [Pcap], [Compression] model internal/stun, internal/upnp,
      internal/pcap and internal/compression.
    - [Sandbox] models internal/sandbox: [Apply] as a sequence of system calls
      over the class [OS], whose laws [OSSpec] are the documented effects on a
      view of the process and its threads.
    - [Script] models internal/script: the environment and the command of a
      hook.
    - [Dataplane] models internal/dataplane: the desired state, the Linux
      reconciler in a state and error monad over the class [Kernel], whose
      documented behaviour is [KernelLaws] and whose instance is
      [memkernel.kernel], and the in-memory reconciler.
    - [Daemon] models internal/daemon/paths.go and the parts of daemon.go that
      compute: loading, the desired state, key lookup, announcements, purge,
      dialling; [DaemonJoin] the invitation callbacks; [DaemonInit] init.go and
      fsck.go; [DaemonEvents] everything that happens to a running daemon, as
      events handled on one record, against the interface [Reconciler] with its
      law [ReconcilerSpec] (the in-memory and the Linux reconciler are
      instances); [DaemonConcurrent] the same events, invitations and purges
      included, as goroutines whose actions interleave;
      [Discovery] discovery.go; [DaemonRun] the function [Run] from start to
      end with its deferred calls; [Report] the text of fsck's findings.
    - [Cli], [CliJoin], [CliControl] model cmd/gsnet: the commands on files,
      the join command against the daemon at the other end of the connection,
      and the control client against the server, line by line; [Programs] the
      main functions of cmd/gsnet and cmd/gsnetd.
    - [Mesh], [Heartbeat] and [EndToEnd] hold no code of their own: they compose
      the components above.

    How they interact: [DaemonJoin] is behind the transport's INVITE2 commands
    and writes what [Daemon.lookupPubKey] later reads, which is the verifier of
    [Gossip]; [Gossip] updates the [Graph] that [Daemon.buildState] turns into
    the state [Dataplane] reconciles, on every event of [DaemonEvents].
    [Discovery] runs [Upnp] and [Stun] and announces through [DaemonEvents];
    [DaemonRun] composes [DaemonEvents], [Script], [Sandbox] and [Control];
    [CliJoin] runs [Cli]'s invitation through [Transport] into [DaemonJoin];
    [CliControl] talks to [Control] with [DaemonEvents]'s handler behind it.

    ** What the theorems show

    - Gossip: the plane invariant over every reachable state; what each branch
      of [Receive] does; an accepted version is never accepted again; under
      every interleaving no version is applied or broadcast twice; flooding
      terminates and reaches every connected node; an announced edge travels
      through signing, encoding, decoding and verification into the receiver's
      graph; an announced Hello ends up in the desired state of every daemon the
      connections lead to ([hello_reaches_data_planes]); whatever bytes the
      network takes, a peer reads a prefix of the envelopes
      ([broadcast_prefix]), and one heartbeat makes up for what was lost
      ([heartbeat_repairs]).
    - Messages: what is announced is decoded unchanged and keeps its signed
      bytes; the signed bytes determine the fields.
    - Invitations: files and URLs round-trip; the exchange delivers the file;
      a file the client accepts was signed by the key the URL names; an
      answered JOIN, whatever its cookie and name, deletes the file the cookie
      names, writes the invitee's host file and changes no other
      ([join_consumes_invitation]; the cookie is not checked, so that file need
      not be an invitation, [join_deletes_conf]).
    - From end to end: gsnet invite on one node and gsnet join on another end
      in a tree the new daemon loads ([invite_then_join]), whose daemon and the
      inviter's then hear each other and each hold a WireGuard peer for the
      other ([invite_to_tunnel]); gsnet dump and top print
      exactly the daemon's rows and end, except that dump never ends for the
      kinds the daemon does not know ([dump_command], [top_command]; "dump
      nodes" prints the unreachable nodes too, [dump_lists_unreachable]); set, add and del refine edits of
      the list of entries ([config_edits_refine]); export and import round-trip.
    - Daemon: whatever sequence of events runs, the data plane still realises
      the desired state, or is as a JOIN without a usable key or a reload with
      a refused announcement left it ([data_plane_in_sync],
      [keyless_join_out_of_sync]), and a signal repairs that; under every
      interleaving of its goroutines a desired state is never forgotten, such a
      JOIN apart ([desired_state_handed], [keyless_join_not_handed]), though
      an older one can be handed over last ([stale_data_plane]); a run ends at
      one of ten stages, each with its effects on the daemon, the process, the
      files, the listener and the programs started ([run_stages]), which the
      program's exit status reflects ([gsnetd_main]); an announced
      endpoint is vouched for by a gateway or a STUN server
      ([discovery_round]); loaded numbers are in range ([load_bounds]).
    - Servers: in every interleaving, errors of [Accept] included, their own
      work ends within a measure, and what can keep a stop from completing is
      characterised ([serve_shutdown], [close_shutdown]).
    - Sandbox: which rights the calling thread has left, and that the other
      threads keep theirs ([high_confines]); the masks for every ABI.
    - Control: the handler is not reached without the cookie; formats
      round-trip; serving line by line is serving the whole input.
    - Data plane: a reconciliation that returns leaves exactly the desired
      WireGuard peers and keeps the sessions of those that stay; the managed
      forwarding rows are all wanted, and every wanted row is there that the
      kernel can add beside what it has ([reconcileFDB_rows]; a peer that
      moved is without its row for one round, [moved_row_lost]); the desired
      state has one peer per usable host file with gossip before files.
    - Files: a tree made by [Init] loads, passes [Fsck] and is not overwritten;
      configuration, subnet, capture and compression formats round-trip.
    - Graph: undirectedness (an edge from a node to itself is possible,
      [self_loop_stored]), ownership, reachability, purge.
    - UPnP: the nested search of a device description is the first WAN service
      in document order, and [Discover] the first usable answer.
    - Divergences are theorems too: [truncated_padding_panics],
      [departed_row_stays], [stale_version_applied_last],
      [hello_key_for_other_name], [invite_get_leaks_private_key], [join_race],
      [join_overwrites_own_hello], [zero_weight_lost], [lz4_empty_message],
      [stun_reply_stops_daemon], [shutdown_race], [close_race], [high_user_fails],
      [high_blocks_join], [reload_keeps_signer], [reload_always_succeeds],
      [import_overwrites_key], [relative_control_url], [empty_value_inherited],
      [no_handshake_has_age], [join_deletes_conf], [keyless_join_out_of_sync],
      [keyless_join_not_handed], [moved_row_lost], [dump_lists_unreachable],
      [accept_error_stops].

    ** Bounds and fuel

    Recursion that is not structural takes fuel, and the fuel given is proved
    enough where a theorem depends on it: [Reachable] gets one unit per node
    ([bfs_total]); the decimal printer one per bit ([utoa_fuel_enough]); the
    JSON scanner two per byte; the STUN attribute loop one per byte; the reader
    of captures one per packet; an IPv6 address has at most eight groups; the
    ancestors of a path are bounded by its length.  Loops that wait for the
    outside (discovery, capture, top, dialling) run over the list of what the
    outside does; the runs of the servers are bounded by their measure [mu].
    A buffered writer gets two units per byte ([fill_spec]).  Integers are [Z]
    with conversions ([uint16], [uint32], [to_byte]) written where the code
    converts; [int] is 64 bits wide.

    ** What is not modelled

    Sockets, HTTP, XML, the kernel and the random sources are arguments or
    classes: what they answer is given, and what the code relies on is a law of
    the class.  Time is an argument; deadlines appear as the end of what
    arrives.  Error texts are values, except where they are part of a reply.
    Mutexes appear as the atomicity of the steps they guard.  Permission bits
    are recorded but do not refuse access, and the file system has no symbolic
    links.  Key generation is an argument of the commands that use it.  The
    texts of the errors of other packages inside a message are arguments.  Not
    modelled: log output, the usage text, Plane.Run (which only waits for the
    end), the adapter control.HandlerFunc, and addrToHostNet of the Linux
    reconciler, which is never called.

    Planned next: the interleaving of the daemon's goroutines with those of the
    servers that start them. *)

From Stdlib Require Import Ascii String NArith ZArith Lia.
From stdpp Require Import base tactics list gmap strings fin_maps sorting.

(** ** Byte strings

    A Go [string] and a Go [[]byte] are both finite sequences of bytes.  They
    are modelled by lists of [ascii] (an 8-bit character), so that slicing is
    [take]/[drop], concatenation is [++] and [len] is [length].  Keeping the
    byte type inductive (rather than a [Z] with a side condition) means no
    theorem needs a "this is a byte" hypothesis. *)

Abbreviation byte := ascii (only parsing).
Abbreviation bytes := (list ascii) (only parsing).
Abbreviation gostring := (list ascii) (only parsing).

Definition lit (s : string) : gostring := list_ascii_of_string s.

Declare Scope go_scope.
Delimit Scope go_scope with go.
Open Scope go_scope.

Notation "! s" := (lit s%string) (at level 8, format "! s") : go_scope.
Notation "s =? t" := (bool_decide (s = t)) (at level 70, no associativity) : go_scope.

(** The numeric value of a byte and Go's conversion [byte(x)], which keeps
    the low eight bits. *)
Definition byte_val (b : byte) : Z := Z.of_N (N_of_ascii b).
Definition to_byte (z : Z) : byte := ascii_of_N (Z.to_N (z mod 256)).

(** ** Machine integers

    Go's [int] is 64 bits wide on every platform the daemon supports.  Values
    are integers; conversions between widths are written out. *)
Definition wrap_u (w : Z) (z : Z) : Z := z mod 2 ^ w.
Definition uint8 (z : Z) : Z := wrap_u 8 z.
Definition uint16 (z : Z) : Z := wrap_u 16 z.
Definition uint32 (z : Z) : Z := wrap_u 32 z.
Definition min_int64 : Z := (- 2 ^ 63)%Z.
Definition max_int64 : Z := (2 ^ 63 - 1)%Z.
Definition is_int64 (z : Z) : Prop := (min_int64 <= z <= max_int64)%Z.

#[global] Instance is_int64_dec z : Decision (is_int64 z).
Proof. unfold is_int64. apply _. Defined.

(** ** Fallible computations

    [result E A] is Go's [(A, error)] pair after the usual early return:
    either a value or an error of the component's own error type. *)
Inductive result (E A : Type) : Type :=
| Ok (a : A)
| Err (e : E).
Arguments Ok {E A} a.
Arguments Err {E A} e.

#[global] Instance result_ret {E} : MRet (result E) := fun A a => Ok a.
#[global] Instance result_bind {E} : MBind (result E) :=
  fun A B f m => match m with Ok a => f a | Err e => Err e end.
#[global] Instance result_fmap {E} : FMap (result E) :=
  fun A B f m => match m with Ok a => Ok (f a) | Err e => Err e end.

#[global] Instance result_eq_dec {E A} `{EqDecision E, EqDecision A} :
  EqDecision (result E A).
Proof. solve_decision. Defined.

Definition is_ok {E A} (r : result E A) : bool :=
  match r with Ok _ => true | Err _ => false end.

(** Go's [if v, err := f(); err == nil]: forget which error it was. *)
Definition ok {E A} (r : result E A) : option A :=
  match r with Ok a => Some a | Err _ => None end.

Definition err_map {E F A} (f : E -> F) (r : result E A) : result F A :=
  match r with Ok a => Ok a | Err e => Err (f e) end.

(** A computation that may panic (Go's run-time error on an out-of-range
    slice expression, for instance). *)
Inductive outcome (A : Type) : Type :=
| Returns (a : A)
| Panics.
Arguments Returns {A} a.
Arguments Panics {A}.

#[global] Instance outcome_ret : MRet outcome := fun A a => Returns a.
#[global] Instance outcome_bind : MBind outcome :=
  fun A B f m => match m with Returns a => f a | Panics => Panics end.

(** ** Map iteration order

    Go randomises the order in which [range] visits a map.  Code that ranges
    over a map is therefore parameterised by the order: [map_order n m] is the
    order chosen the [n]-th time a given loop is started, and all that is
    known about it is that it visits every entry of the map exactly once. *)
Class MapOrder := {
  map_order : forall {A : Type}, nat -> gmap gostring A -> list (gostring * A);
  map_order_perm : forall {A : Type} n (m : gmap gostring A),
      map_order n m ≡ₚ map_to_list m
}.

(** The order of [map_to_list] is one possible choice. *)
#[refine, export] Instance canonical_order : MapOrder := {
  map_order := fun A _ m => map_to_list m
}.
Proof. done. Defined.

(** ** Tactics and hints *)

Create HintDb gsnet.
Create Rewrite HintDb gsnet.

(** Case analysis on every [match]/[if] of the goal, closing the easy cases. *)
Ltac crush :=
  repeat (simplify_eq/=; try case_match; try case_decide; try case_bool_decide);
  try done; eauto with gsnet.

(** Use the equation of a monadic computation that returned [Ok]. *)
Ltac inv_ok :=
  repeat match goal with
  | H : Ok _ = Ok _ |- _ => injection H as H; subst
  | H : Err _ = Ok _ |- _ => discriminate H
  | H : Ok _ = Err _ |- _ => discriminate H
  | H : Err _ = Err _ |- _ => injection H as H; subst
  | H : mbind _ ?m = Ok _ |- _ => destruct m eqn:?; cbn in H
  end.

(** ** Bytes and integers *)

Lemma byte_val_range b : (0 <= byte_val b < 256)%Z.
Proof.
  unfold byte_val. pose proof (N_ascii_bounded b). lia.
Qed.

Lemma byte_val_to_byte z : byte_val (to_byte z) = (z mod 256)%Z.
Proof.
  unfold byte_val, to_byte.
  pose proof (Z.mod_pos_bound z 256 ltac:(lia)).
  rewrite N_ascii_embedding; lia.
Qed.

Lemma to_byte_val b : to_byte (byte_val b) = b.
Proof.
  unfold to_byte. rewrite Z.mod_small by apply byte_val_range.
  unfold byte_val. rewrite N2Z.id. apply ascii_N_embedding.
Qed.

#[global] Instance byte_val_inj : Inj (=) (=) byte_val.
Proof. intros a b H. by rewrite <- (to_byte_val a), H, to_byte_val. Qed.

Lemma wrap_u_range w z : (0 <= w)%Z -> (0 <= wrap_u w z < 2 ^ w)%Z.
Proof. intros. apply Z.mod_pos_bound. by apply Z.pow_pos_nonneg. Qed.

Lemma wrap_u_small w z : (0 <= z < 2 ^ w)%Z -> wrap_u w z = z.
Proof. apply Z.mod_small. Qed.

#[export] Hint Rewrite byte_val_to_byte to_byte_val : gsnet.
#[export] Hint Resolve byte_val_range : gsnet.

(** ** Lists *)

Section list_lemmas.
Context {A : Type}.
Implicit Types l k : list A.

Lemma take_app_all l k : take (length l) (l ++ k) = l.
Proof. by rewrite take_app_length. Qed.

Lemma drop_app_all l k : drop (length l) (l ++ k) = k.
Proof. by rewrite drop_app_length. Qed.

Lemma NoDup_perm l k : l ≡ₚ k -> NoDup l -> NoDup k.
Proof. by intros ->. Qed.

Lemma head_filter (P : A -> Prop) `{!forall x, Decision (P x)} l x :
  head (filter P l) = Some x -> P x /\ x ∈ l.
Proof.
  destruct (filter P l) as [|y l'] eqn:E; simpl; [done|].
  intros [= ->]. rewrite <- list_elem_of_filter, E. left.
Qed.
Lemma filter_all (P : A -> Prop) `{!forall x, Decision (P x)} l :
  Forall P l -> filter P l = l.
Proof.
  induction 1 as [|x l Hx _ IH]; [done|]. by rewrite filter_cons_True, IH.
Qed.
End list_lemmas.

(** ** Map iteration *)

Section map_order_lemmas.
Context `{MapOrder} {A : Type}.
Implicit Types m : gmap gostring A.

Lemma elem_of_map_order n m k v : (k, v) ∈ map_order n m <-> m !! k = Some v.
Proof. rewrite (map_order_perm n m). apply elem_of_map_to_list. Qed.

Lemma elem_of_map_order_keys n m k : k ∈ (map_order n m).*1 <-> k ∈ dom m.
Proof.
  rewrite list_elem_of_fmap, elem_of_dom. split.
  - intros ([k' v] & -> & Hin). apply elem_of_map_order in Hin. eauto.
  - intros [v Hv]. exists (k, v). split; [done|]. by apply elem_of_map_order.
Qed.

Lemma NoDup_map_order_keys n m : NoDup (map_order n m).*1.
Proof. rewrite (map_order_perm n m). apply NoDup_fst_map_to_list. Qed.

Lemma length_map_order n m : length (map_order n m) = size m.
Proof. rewrite (map_order_perm n m). apply length_map_to_list. Qed.
End map_order_lemmas.

#[export] Hint Resolve NoDup_map_order_keys : gsnet.
