(* ===== verification/Graph.v ===== *)
(** * The topology graph (internal/graph/graph.go)

    The in-memory mirror of the gossip state: nodes, the subnets each node
    owns, and edges.  An edge is stored twice, once under each endpoint, so
    the well-formedness invariant says that the two halves always agree.

    Each exported method takes the read-write lock for its whole body, so a
    method is one atomic step on the [Graph] record and the lock itself is not
    part of the state. *)

From Stdlib Require Import ZArith Lia.
From stdpp Require Import base tactics list gmap strings fin_maps fin_sets relations.
From S2P Require Import Prelude.

Module graph.

Record Edge := MkEdge { From : gostring; To : gostring; Weight : Z }.

#[export] Instance Edge_eq_dec : EqDecision Edge.
Proof. solve_decision. Defined.

(** [map[string]struct{}] is kept as a map to the unit type. *)
Record nodeData := MkNode { subnets : gmap gostring unit }.

Record Graph := MkGraph {
  nodes : gmap gostring nodeData;
  adj : gmap gostring (gmap gostring Edge)
}.

Definition New : Graph := MkGraph ∅ ∅.

(** ** Operations *)

Definition ensureNode (name : gostring) (g : Graph) : Graph :=
  match nodes g !! name with
  | Some _ => g
  | None => MkGraph (<[name := MkNode ∅]> (nodes g)) (<[name := ∅]> (adj g))
  end.

Definition AddNode (name : gostring) (g : Graph) : Graph := ensureNode name g.

Definition HasNode (name : gostring) (g : Graph) : bool :=
  bool_decide (is_Some (nodes g !! name)).

(** [g.adj[from][to] = e].  Writing through a missing inner map would panic;
    [AddEdge_maps_present] below shows the inner map is always there. *)
Definition setAdj (from to : gostring) (e : Edge) (g : Graph) : Graph :=
  MkGraph (nodes g) (alter (fun m => <[to := e]> m) from (adj g)).

Definition revEdge (e : Edge) : Edge := MkEdge (To e) (From e) (Weight e).

Definition AddEdge (e : Edge) (g : Graph) : Graph :=
  let g := ensureNode (From e) g in
  let g := ensureNode (To e) g in
  let g := setAdj (From e) (To e) e g in
  setAdj (To e) (From e) (revEdge e) g.

Definition DelEdge (from to : gostring) (g : Graph) : Graph :=
  let a := alter (fun m => delete to m) from (adj g) in
  MkGraph (nodes g) (alter (fun m => delete from m) to a).

Definition HasEdge (from to : gostring) (g : Graph) : bool :=
  match adj g !! from with
  | Some m => bool_decide (is_Some (m !! to))
  | None => false
  end.

Definition AddSubnet (owner subnet : gostring) (g : Graph) : Graph :=
  let g := ensureNode owner g in
  MkGraph (alter (fun n => MkNode (<[subnet := ()]> (subnets n))) owner (nodes g)) (adj g).

Definition DelSubnet (owner subnet : gostring) (g : Graph) : Graph :=
  MkGraph (alter (fun n => MkNode (delete subnet (subnets n))) owner (nodes g)) (adj g).

Section iteration.
Context `{MapOrder}.

(** [k] identifies the dynamic loop instance; see [MapOrder]. *)
Definition Nodes (k : nat) (g : Graph) : list gostring :=
  (map_order k (nodes g)).*1.

Definition Edges (k : nat) (g : Graph) : list Edge :=
  map_order k (adj g) ≫= fun p => (map_order k p.2).*2.

Definition NodeSubnets (k : nat) (name : gostring) (g : Graph) : list gostring :=
  match nodes g !! name with
  | None => []
  | Some n => (map_order k (subnets n)).*1
  end.

Definition owns (subnet : gostring) (p : gostring * nodeData) : Prop :=
  is_Some (subnets p.2 !! subnet).

#[global] Instance owns_dec subnet p : Decision (owns subnet p).
Proof. unfold owns. apply _. Defined.

Definition SubnetOwner (k : nat) (subnet : gostring) (g : Graph) : option gostring :=
  fst <$> head (filter (owns subnet) (map_order k (nodes g))).

Definition AllSubnets (k : nat) (g : Graph) : gmap gostring gostring :=
  foldl (fun out p =>
           foldl (fun out s => <[s := p.1]> out) out (map_order k (subnets p.2)).*1)
        ∅ (map_order k (nodes g)).

(** The body of the BFS: one pass over the neighbours of the dequeued node,
    skipping those already visited and queueing the rest. *)
Fixpoint visit (nexts : list gostring) (visited : gset gostring) (queue : list gostring)
  : gset gostring * list gostring :=
  match nexts with
  | [] => (visited, queue)
  | next :: rest =>
      if decide (next ∈ visited) then visit rest visited queue
      else visit rest ({[next]} ∪ visited) (queue ++ [next])
  end.

Definition neighbours (k : nat) (g : Graph) (n : gostring) : list gostring :=
  match adj g !! n with Some m => (map_order k m).*1 | None => [] end.

(** [for len(queue) > 0 { ... }], one unit of fuel per iteration; [None]
    when the fuel runs out. *)
Fixpoint bfs (fuel : nat) (g : Graph) (visited : gset gostring) (queue : list gostring)
  : option (gset gostring) :=
  match queue with
  | [] => Some visited
  | n :: queue =>
      match fuel with
      | O => None
      | S fuel =>
          let '(visited, queue) := visit (neighbours fuel g n) visited queue in
          bfs fuel g visited queue
      end
  end.

(** A node is queued at most once, so [len(g.nodes)] iterations suffice
    ([bfs_total]). *)
Definition Reachable (start : gostring) (g : Graph) : gset gostring :=
  match nodes g !! start with
  | None => ∅
  | Some _ => default ∅ (bfs (size (nodes g)) g {[start]} [start])
  end.
End iteration.

(** ** The invariant *)

Definition edgeAt (g : Graph) (a b : gostring) : option Edge :=
  m ← adj g !! a; m !! b.

Record wf (g : Graph) : Prop := {
  wf_dom : dom (nodes g) = dom (adj g);
  wf_key : forall a b e, edgeAt g a b = Some e -> From e = a /\ To e = b;
  wf_sym : forall a b e, edgeAt g a b = Some e -> edgeAt g b a = Some (revEdge e)
}.

(** Every state-changing method, as a step relation. *)
Inductive step (g : Graph) : Graph -> Prop :=
| step_AddNode n : step g (AddNode n g)
| step_AddEdge e : step g (AddEdge e g)
| step_DelEdge a b : step g (DelEdge a b g)
| step_AddSubnet o s : step g (AddSubnet o s g)
| step_DelSubnet o s : step g (DelSubnet o s g).

(** ** Lemmas: lookups after each operation *)

Lemma dom_ensureNode n g : wf g ->
  dom (nodes (ensureNode n g)) = {[n]} ∪ dom (nodes g).
Proof.
  intros _. unfold ensureNode. destruct (nodes g !! n) eqn:E; simpl.
  - assert (n ∈ dom (nodes g)) by (apply elem_of_dom; eauto). set_solver.
  - by rewrite dom_insert_L.
Qed.

Lemma edgeAt_ensureNode n g a b : wf g -> edgeAt (ensureNode n g) a b = edgeAt g a b.
Proof.
  intros Hwf. unfold ensureNode. destruct (nodes g !! n) eqn:E; [done|].
  unfold edgeAt; simpl. destruct (decide (n = a)) as [->|]; simplify_map_eq; [|done].
  assert (adj g !! a = None) as ->; [|done].
  apply not_elem_of_dom. rewrite <- (wf_dom g Hwf). by apply not_elem_of_dom.
Qed.

Lemma wf_ensureNode n g : wf g -> wf (ensureNode n g).
Proof.
  intros Hwf. split.
  - unfold ensureNode. destruct (nodes g !! n); simpl; [apply Hwf|].
    by rewrite !dom_insert_L, (wf_dom g Hwf).
  - intros a b e. rewrite edgeAt_ensureNode by done. apply Hwf.
  - intros a b e. rewrite !edgeAt_ensureNode by done. apply Hwf.
Qed.

Lemma edgeAt_setAdj from to e g a b : from ∈ dom (adj g) ->
  edgeAt (setAdj from to e g) a b =
    if decide (a = from /\ b = to) then Some e else edgeAt g a b.
Proof.
  intros [m Hm]%elem_of_dom. unfold edgeAt, setAdj; simpl.
  destruct (decide (from = a)) as [->|Ha].
  - rewrite lookup_alter_eq, Hm; simpl. case_decide as Hd.
    + destruct Hd as [_ ->]. by rewrite lookup_insert_eq.
    + rewrite lookup_insert_ne; naive_solver.
  - rewrite lookup_alter_ne by done. case_decide; naive_solver.
Qed.

Lemma dom_setAdj from to e g : dom (adj (setAdj from to e g)) = dom (adj g).
Proof. unfold setAdj; simpl. by rewrite dom_alter_L. Qed.

(** Both inner maps written by [AddEdge] exist when it writes them. *)
Lemma AddEdge_maps_present e g : wf g ->
  let g' := ensureNode (To e) (ensureNode (From e) g) in
  From e ∈ dom (adj g') /\ To e ∈ dom (adj g').
Proof.
  intros Hwf; simpl. assert (wf (ensureNode (From e) g)) by by apply wf_ensureNode.
  rewrite <- (wf_dom _ (wf_ensureNode (To e) (ensureNode (From e) g) ltac:(done))).
  rewrite !dom_ensureNode by done. set_solver.
Qed.

Lemma edgeAt_AddEdge e g a b : wf g ->
  edgeAt (AddEdge e g) a b =
    if decide (a = To e /\ b = From e) then Some (revEdge e)
    else if decide (a = From e /\ b = To e) then Some e
    else edgeAt g a b.
Proof.
  intros Hwf. destruct (AddEdge_maps_present e g Hwf) as [Hf Ht].
  unfold AddEdge. rewrite edgeAt_setAdj by by rewrite dom_setAdj.
  case_decide; [done|]. rewrite edgeAt_setAdj by done.
  case_decide; [done|]. rewrite !edgeAt_ensureNode; auto using wf_ensureNode.
Qed.

Lemma edgeAt_DelEdge from to g a b :
  edgeAt (DelEdge from to g) a b =
    if decide ((a = from /\ b = to) \/ (a = to /\ b = from)) then None
    else edgeAt g a b.
Proof.
  unfold edgeAt, DelEdge; simpl.
  rewrite !lookup_alter.
  destruct (decide (to = a)), (decide (from = a)); subst; simpl;
    destruct (adj g !! a) as [m|]; simpl;
    simplify_eq/=; rewrite ?lookup_delete; repeat case_decide; simplify_eq/=;
    rewrite ?lookup_delete; repeat case_decide; intuition congruence.
Qed.

Lemma dom_DelEdge a b g : dom (adj (DelEdge a b g)) = dom (adj g).
Proof. unfold DelEdge; simpl. by rewrite !dom_alter_L. Qed.

Lemma revEdge_involutive e : revEdge (revEdge e) = e.
Proof. by destruct e. Qed.

(** The invariant is preserved by each operation. *)

Lemma wf_New : wf New.
Proof. split; [done| |]; intros a b e; unfold edgeAt; simpl; by rewrite lookup_empty. Qed.

Lemma wf_AddEdge e g : wf g -> wf (AddEdge e g).
Proof.
  intros Hwf. split.
  - unfold AddEdge. rewrite !dom_setAdj; simpl.
    apply wf_dom, wf_ensureNode, wf_ensureNode, Hwf.
  - intros a b e'. rewrite edgeAt_AddEdge by done.
    repeat case_decide; destruct_and?; intros; simplify_eq/=; [done..|by eapply wf_key].
  - intros a b e'. rewrite !edgeAt_AddEdge by done.
    destruct e as [f t w]; unfold revEdge; simpl.
    repeat case_decide; destruct_and?; intros; simplify_eq/=; try tauto.
    by apply (wf_sym g Hwf a b).
Qed.

Lemma wf_DelEdge a b g : wf g -> wf (DelEdge a b g).
Proof.
  intros Hwf. split.
  - rewrite dom_DelEdge; simpl. apply Hwf.
  - intros x y e. rewrite edgeAt_DelEdge. case_decide; [done|]. apply Hwf.
  - intros x y e. rewrite !edgeAt_DelEdge.
    case_decide; [done|]. rewrite decide_False by tauto. apply Hwf.
Qed.

(** Subnet bookkeeping leaves the adjacency maps alone. *)
Lemma wf_nodes_alter f o g : wf g -> wf (MkGraph (alter f o (nodes g)) (adj g)).
Proof.
  intros [Hd Hk Hs]. split; simpl; [by rewrite dom_alter_L| |]; intros a b e; [apply Hk|apply Hs].
Qed.

Lemma wf_step g g' : step g g' -> wf g -> wf g'.
Proof.
  destruct 1; intros Hwf; auto using wf_ensureNode, wf_AddEdge, wf_DelEdge.
  - by apply wf_nodes_alter, wf_ensureNode.
  - by apply wf_nodes_alter.
Qed.

Lemma wf_rtc g g' : rtc step g g' -> wf g -> wf g'.
Proof. induction 1; eauto using wf_step. Qed.

(** Edges of a well-formed graph join nodes of the graph. *)
Lemma edgeAt_nodes g a b e : wf g -> edgeAt g a b = Some e -> a ∈ dom (nodes g) /\ b ∈ dom (nodes g).
Proof.
  assert (forall x y e, edgeAt g x y = Some e -> x ∈ dom (adj g)) as Hin.
  { intros x y e0 He. apply elem_of_dom. unfold edgeAt in He.
    destruct (adj g !! x); [eauto|done]. }
  intros Hwf He. rewrite (wf_dom g Hwf). split; [by eapply Hin|].
  apply wf_sym in He; [|done]. by eapply Hin.
Qed.

Lemma HasEdge_edgeAt a b g : HasEdge a b g = bool_decide (is_Some (edgeAt g a b)).
Proof. unfold HasEdge, edgeAt. by destruct (adj g !! a). Qed.

#[export] Hint Resolve wf_New wf_ensureNode wf_AddEdge wf_DelEdge wf_nodes_alter : gsnet.

(** ** Breadth-first search *)

Definition linked (g : Graph) (a b : gostring) : Prop := is_Some (edgeAt g a b).

Section bfs.
Context `{MapOrder}.

Lemma elem_of_neighbours k g a b : b ∈ neighbours k g a <-> linked g a b.
Proof.
  unfold neighbours, linked, edgeAt. destruct (adj g !! a) as [m|]; simpl.
  - rewrite elem_of_map_order_keys. apply elem_of_dom.
  - split; [by intros ?%not_elem_of_nil|by intros []].
Qed.

(** One pass of the inner loop: it adds the neighbours to [visited], queues
    exactly the new ones, and queues each of them once. *)
Lemma visit_spec nexts visited queue visited' queue' :
  visit nexts visited queue = (visited', queue') ->
  visited' = list_to_set nexts ∪ visited /\
  exists new, queue' = queue ++ new /\
    size visited' = size visited + length new /\
    forall x, x ∈ new <-> x ∈ visited' /\ x ∉ visited.
Proof.
  revert visited queue. induction nexts as [|n nexts IH]; simpl; intros visited queue Hv.
  { simplify_eq. split; [set_solver|]. exists []. rewrite app_nil_r. simpl.
    split_and!; [done|lia|]. intros x. rewrite elem_of_nil. tauto. }
  case_decide as Hn.
  - apply IH in Hv as (-> & new & -> & Hs & Hx). clear IH.
    assert ({[n]} ∪ list_to_set nexts ∪ visited = list_to_set nexts ∪ visited) as ->.
    { clear Hs Hx. set_solver. }
    eauto.
  - apply IH in Hv as (-> & new & -> & Hs & Hx). clear IH.
    assert (list_to_set nexts ∪ ({[n]} ∪ visited) = {[n]} ∪ list_to_set nexts ∪ visited) as Heq.
    { clear Hs Hx. set_solver. }
    rewrite Heq in *. split; [done|]. exists (n :: new). rewrite <- app_assoc.
    split_and!; [done| |].
    + rewrite Hs, size_union, size_singleton by (clear Hs Hx; set_solver). simpl. lia.
    + intros x. rewrite elem_of_cons, Hx. clear Hs Hx Heq.
      destruct (decide (x = n)) as [->|]; set_solver.
Qed.

(** The loop invariant: [visited] is a set of nodes reachable from [start]
    that contains [start], the queue is part of it, and every visited node
    that is no longer queued has all its neighbours in [visited]. *)
Record bfs_inv (g : Graph) (start : gostring) (visited : gset gostring) (queue : list gostring)
  : Prop := {
  bi_start : start ∈ visited;
  bi_queue : forall x, x ∈ queue -> x ∈ visited;
  bi_reach : forall x, x ∈ visited -> rtc (linked g) start x;
  bi_nodes : visited ⊆ dom (nodes g);
  bi_closed : forall x y, x ∈ visited -> x ∉ queue -> linked g x y -> y ∈ visited
}.

Lemma bfs_inv_step g start visited queue k n visited' queue' : wf g ->
  bfs_inv g start visited (n :: queue) ->
  visit (neighbours k g n) visited queue = (visited', queue') ->
  bfs_inv g start visited' queue'.
Proof.
  intros Hwf [Hs Hq Hr Hn Hc] Hv.
  apply visit_spec in Hv as (-> & new & -> & _ & Hnew).
  assert (forall x, x ∈ (list_to_set (neighbours k g n) : gset gostring) <-> linked g n x) as Hnb.
  { intros x. rewrite elem_of_list_to_set. apply elem_of_neighbours. }
  assert (n ∈ visited) as Hin by (apply Hq; left).
  split.
  - apply elem_of_union_r, Hs.
  - intros x [?|?]%elem_of_app; [apply elem_of_union_r, Hq; by right|by apply Hnew].
  - intros x [Hx%Hnb|Hx]%elem_of_union; [|by apply Hr].
    eapply rtc_r; [by apply Hr|done].
  - apply union_least; [|done]. intros x [e He]%Hnb. by eapply edgeAt_nodes.
  - intros x y [Hx|Hx]%elem_of_union Hnq Hl.
    + destruct (decide (x ∈ visited)) as [Hxv|Hxv].
      * destruct (decide (x = n)) as [->|Hne]; [apply elem_of_union_l; by apply Hnb|].
        apply elem_of_union_r. eapply Hc; [done| |done].
        intros [->|Hxq]%elem_of_cons; [done|]. apply Hnq, elem_of_app. by left.
      * destruct Hnq. apply elem_of_app. right. apply Hnew. split; [|done].
        by apply elem_of_union_l.
    + destruct (decide (x = n)) as [->|Hne]; [apply elem_of_union_l; by apply Hnb|].
      apply elem_of_union_r. eapply Hc; [done| |done].
      intros [->|Hxq]%elem_of_cons; [done|]. apply Hnq, elem_of_app. by left.
Qed.

(** With one unit of fuel per queued or not yet visited node, the loop ends
    with the queue empty, and [visited] is then closed under edges. *)
Lemma bfs_total fuel g start visited queue : wf g ->
  bfs_inv g start visited queue ->
  length queue + size (dom (nodes g)) <= fuel + size visited ->
  exists res, bfs fuel g visited queue = Some res /\ bfs_inv g start res [].
Proof.
  intros Hwf. revert visited queue. induction fuel as [|fuel IH]; intros visited queue Hinv Hf.
  - pose proof (subseteq_size _ _ (bi_nodes _ _ _ _ Hinv)).
    destruct queue as [|n queue]; simpl in *; [eauto|lia].
  - destruct queue as [|n queue]; simpl in *; [eauto|].
    destruct (visit _ _ _) as [visited' queue'] eqn:Hv.
    apply IH; [by eapply bfs_inv_step|].
    apply visit_spec in Hv as (-> & new & -> & Hs & _). rewrite length_app. lia.
Qed.

Lemma Reachable_spec g start x : wf g -> start ∈ dom (nodes g) ->
  x ∈ Reachable start g <-> rtc (linked g) start x.
Proof.
  intros Hwf Hst. pose proof Hst as [nd Hnd]%elem_of_dom. unfold Reachable. rewrite Hnd.
  destruct (bfs_total (size (nodes g)) g start {[start]} [start]) as (res & -> & Hinv).
  - done.
  - split; [set_solver|set_solver| |set_solver|set_solver].
    intros y ->%elem_of_singleton. done.
  - rewrite size_dom, size_singleton. simpl. lia.
  - simpl. destruct Hinv as [Hs _ Hr _ Hc]. split; [apply Hr|].
    intros Hx. revert Hs. clear Hr Hst Hnd.
    induction Hx as [|a b c Hab Hbc IH]; intros Hs; [done|].
    apply IH. eapply Hc; [exact Hs|apply not_elem_of_nil|done].
Qed.
End bfs.

(** ** Subnet ownership *)

Definition ownsSubnet (g : Graph) (owner subnet : gostring) : Prop :=
  exists nd, nodes g !! owner = Some nd /\ is_Some (subnets nd !! subnet).

Lemma ownsSubnet_AddSubnet o s g o' s' :
  ownsSubnet (AddSubnet o s g) o' s' <-> (o' = o /\ s' = s) \/ ownsSubnet g o' s'.
Proof.
  unfold ownsSubnet, AddSubnet, ensureNode. destruct (nodes g !! o) as [n0|] eqn:Eo; simpl.
  all: rewrite lookup_alter; case_decide; subst; simplify_map_eq; try naive_solver.
  - split.
    + intros (nd & ? & Hs); simplify_eq/=. rewrite lookup_insert in Hs. case_decide; naive_solver.
    + intros [[_ ->]|(nd & ? & Hs)]; simplify_eq; eexists; (split; [done|]); simpl.
      * by rewrite lookup_insert_eq.
      * rewrite lookup_insert. case_decide; eauto.
  - split.
    + intros (nd & ? & Hs); simplify_eq/=. rewrite lookup_insert in Hs.
      case_decide; [naive_solver|]. rewrite lookup_empty in Hs. by destruct Hs.
    + intros [[_ ->]|(nd & ? & Hs)]; [|congruence]. eexists; (split; [done|]); simpl.
      by rewrite lookup_insert_eq.
Qed.

Lemma ownsSubnet_DelSubnet o s g o' s' :
  ownsSubnet (DelSubnet o s g) o' s' <-> ~ (o' = o /\ s' = s) /\ ownsSubnet g o' s'.
Proof.
  unfold ownsSubnet, DelSubnet; simpl. rewrite lookup_alter. case_decide as Ho; subst; [|naive_solver].
  destruct (nodes g !! o') as [nd|]; [|naive_solver]. split.
  - intros (nd' & ? & Hs); simplify_eq/=. rewrite lookup_delete in Hs.
    case_decide; [by destruct Hs|naive_solver].
  - intros (Hne & nd' & ? & Hs); simplify_eq/=. eexists; split; [done|]; simpl.
    rewrite lookup_delete_ne; naive_solver.
Qed.

Section owners.
Context `{MapOrder}.

Lemma elem_of_NodeSubnets k n g s : s ∈ NodeSubnets k n g <-> ownsSubnet g n s.
Proof.
  unfold NodeSubnets, ownsSubnet. destruct (nodes g !! n) as [nd|].
  - rewrite elem_of_map_order_keys, elem_of_dom. naive_solver.
  - rewrite elem_of_nil. naive_solver.
Qed.

Lemma elem_of_Edges k g e : wf g -> e ∈ Edges k g <-> edgeAt g (From e) (To e) = Some e.
Proof.
  intros Hwf. unfold Edges. rewrite list_elem_of_bind. split.
  - intros ([a m] & He & Ham). apply elem_of_map_order in Ham; simpl in *.
    apply list_elem_of_fmap in He as ([b e'] & -> & Hbe). apply elem_of_map_order in Hbe; simpl.
    assert (edgeAt g a b = Some e') as He by (unfold edgeAt; by rewrite Ham).
    by destruct (wf_key g Hwf _ _ _ He) as [-> ->].
  - unfold edgeAt. destruct (adj g !! From e) as [m|] eqn:Em; [|done]; simpl. intros He.
    exists (From e, m). split; [|by apply elem_of_map_order]. simpl.
    apply list_elem_of_fmap. exists (To e, e). split; [done|]. by apply elem_of_map_order.
Qed.

(** The loops of [AllSubnets] only write [s -> owner] pairs of the graph,
    and a key once written stays written. *)
Lemma foldl_owner_inner (ks : list gostring) (o : gostring) (out : gmap gostring gostring) (s : gostring) :
  foldl (fun out s => <[s := o]> out) out ks !! s =
    if decide (s ∈ ks) then Some o else out !! s.
Proof.
  revert out. induction ks as [|x ks IH]; intros out; simpl; [done|].
  rewrite IH, lookup_insert. clear IH.
  repeat case_decide; rewrite ?elem_of_cons in *; naive_solver.
Qed.

Lemma foldl_owner_outer (k : nat) (l : list (gostring * nodeData)) (out : gmap gostring gostring) (s : gostring) :
  let res := foldl (fun out (p : gostring * nodeData) =>
               foldl (fun out s => <[s := p.1]> out) out (map_order k (subnets p.2)).*1) out l in
  (forall o, res !! s = Some o ->
     out !! s = Some o \/ exists nd, (o, nd) ∈ l /\ is_Some (subnets nd !! s)) /\
  ((is_Some (out !! s) \/ exists o nd, (o, nd) ∈ l /\ is_Some (subnets nd !! s)) ->
     is_Some (res !! s)).
Proof.
  revert out. induction l as [|[o nd] l IH]; intros out; simpl.
  { split; [by left|]. intros [?|(o & nd & Hin & _)]; [done|by apply elem_of_nil in Hin]. }
  destruct (IH (foldl (fun out s => <[s := o]> out) out (map_order k (subnets nd)).*1)) as [H1 H2].
  rewrite foldl_owner_inner in H1, H2.
  assert (s ∈ (map_order k (subnets nd)).*1 <-> is_Some (subnets nd !! s)) as Hs
    by (by rewrite elem_of_map_order_keys, elem_of_dom).
  split.
  - intros o' [Hd|(nd' & Hin & ?)]%H1; [|right; exists nd'; split; [by right|done]].
    case_decide; simplify_eq; [|by left]. right. exists nd. split; [left|tauto].
  - intros Hc. apply H2. destruct Hc as [Hc|(o' & nd' & [?|Hin]%elem_of_cons & ?)]; simplify_eq.
    + left. case_decide; eauto.
    + left. rewrite decide_True by tauto. eauto.
    + right. eauto.
Qed.
End owners.

(** ** Theorems *)

(** C30.  Starting from [New], every sequence of [AddNode], [AddEdge], [DelEdge],
    [AddSubnet] and [DelSubnet] calls yields a graph whose node map and
    adjacency map have the same keys, whose stored edges carry the endpoints
    they are filed under, in which both halves of an edge are present with
    equal weight, and in which both ends of every edge are nodes.  An edge from
    a node to itself is stored like any other. *)
Theorem graph_invariant g : rtc step New g -> wf g /\ forall a b e, edgeAt g a b = Some e -> a ∈ dom (nodes g) /\ b ∈ dom (nodes g).
Proof.
  intros Hr. assert (wf g) as Hw by (apply (wf_rtc New); auto with gsnet). split; [done|].
  assert (forall a b e, edgeAt g a b = Some e -> a ∈ dom (nodes g)) as Ha.
  { intros a b e He. rewrite (wf_dom g Hw). apply elem_of_dom. unfold edgeAt in He. by destruct (adj g !! a). }
  intros a b e He. split; [by eapply Ha|]. eapply Ha, (wf_sym g Hw), He.
Qed.

Lemma graph_invariant_witness :
  wf (DelEdge !"a" !"b" (AddEdge (MkEdge !"b" !"c" 2) (AddEdge (MkEdge !"a" !"b" 1) New))).
Proof.
  apply graph_invariant.
  eapply rtc_l; [apply step_AddEdge|]. eapply rtc_l; [apply step_AddEdge|].
  apply rtc_once, step_DelEdge.
Defined.

Example self_loop_stored : edgeAt (AddEdge (MkEdge !"a" !"a" 1) New) !"a" !"a" = Some (MkEdge !"a" !"a" 1).
Proof. vm_compute. reflexivity. Qed.

(** Edges are undirected: after [AddEdge e] the edge is seen from both
    ends, [DelEdge] in either orientation removes it from both ends, and no
    other pair of nodes is affected by either call. *)
Theorem edge_ops_undirected g e a b : wf g ->
  let f := From e in let t := To e in
  HasEdge f t (AddEdge e g) = true /\ HasEdge t f (AddEdge e g) = true /\
  HasEdge f t (DelEdge t f g) = false /\ HasEdge t f (DelEdge t f g) = false /\
  ((a, b) <> (f, t) -> (a, b) <> (t, f) ->
     edgeAt (AddEdge e g) a b = edgeAt g a b /\ edgeAt (DelEdge f t g) a b = edgeAt g a b).
Proof.
  intros Hwf; cbn zeta. rewrite !HasEdge_edgeAt, !edgeAt_AddEdge, !edgeAt_DelEdge by done.
  split_and!.
  - repeat case_decide; rewrite bool_decide_eq_true; eauto; tauto.
  - repeat case_decide; rewrite bool_decide_eq_true; eauto; tauto.
  - rewrite decide_True by tauto. done.
  - rewrite decide_True by tauto. done.
  - intros H1 H2. rewrite !decide_False by naive_solver. done.
Qed.

Lemma edge_ops_undirected_witness :
  HasEdge !"b" !"a" (AddEdge (MkEdge !"a" !"b" 10) New) = true.
Proof. apply (edge_ops_undirected New (MkEdge !"a" !"b" 10) !"x" !"y" wf_New). Defined.

(** C31.  [Reachable] computes exactly the reflexive-transitive closure of the
    edge relation from an existing start node (for every order in which Go may
    iterate the maps, and without running out of loop iterations), and the
    empty set from an unknown one. *)
Theorem Reachable_correct `{MapOrder} g start : wf g ->
  (start ∈ dom (nodes g) -> forall x, x ∈ Reachable start g <-> rtc (linked g) start x) /\
  (start ∉ dom (nodes g) -> Reachable start g = ∅).
Proof.
  intros Hwf. split; [intros; by apply Reachable_spec|].
  intros Hn%not_elem_of_dom. unfold Reachable. by rewrite Hn.
Qed.

Definition line_abc : Graph :=
  AddEdge (MkEdge !"b" !"c" 1) (AddEdge (MkEdge !"a" !"b" 1) New).

Lemma Reachable_correct_witness : !"c" ∈ Reachable !"a" line_abc.
Proof.
  apply (proj1 (Reachable_correct line_abc !"a" ltac:(unfold line_abc; auto with gsnet))).
  - apply elem_of_dom. vm_compute. eauto.
  - apply (rtc_l _ _ !"b"); [vm_compute; eauto|]. apply rtc_once. vm_compute. eauto.
Defined.

(** Subnet ownership: [SubnetOwner] answers with a node that owns the
    subnet, and answers whenever one exists; [AllSubnets] maps every owned
    subnet to one of its owners and contains nothing else. *)
Theorem subnet_owner_correct `{MapOrder} k g s :
  (forall o, SubnetOwner k s g = Some o -> ownsSubnet g o s) /\
  (forall o, AllSubnets k g !! s = Some o -> ownsSubnet g o s) /\
  (forall o, ownsSubnet g o s ->
     is_Some (SubnetOwner k s g) /\ is_Some (AllSubnets k g !! s)).
Proof.
  destruct (foldl_owner_outer k (map_order k (nodes g)) ∅ s) as [H1 H2]. split_and!.
  - intros o. unfold SubnetOwner. rewrite fmap_Some. intros ([o' nd] & Hh & ->).
    apply head_filter in Hh as [Ho Hin]. apply elem_of_map_order in Hin. by exists nd.
  - intros o Ho. apply H1 in Ho as [Ho|(nd & Hin & Hs)]; [by rewrite lookup_empty in Ho|].
    apply elem_of_map_order in Hin. by exists nd.
  - intros o (nd & Ho & Hs). split.
    + unfold SubnetOwner. apply fmap_is_Some.
      destruct (filter _ _) as [|p l] eqn:E; [|by eexists].
      assert ((o, nd) ∈ filter (owns s) (map_order k (nodes g))) as Hin.
      { apply list_elem_of_filter. split; [done|]. by apply elem_of_map_order. }
      rewrite E in Hin. by apply elem_of_nil in Hin.
    + apply H2. right. exists o, nd. by rewrite elem_of_map_order.
Qed.

Lemma subnet_owner_correct_witness : is_Some (SubnetOwner 0 !"10.0.0.0/8" (AddSubnet !"b" !"10.0.0.0/8" line_abc)).
Proof.
  apply (proj2 (proj2 (subnet_owner_correct 0 (AddSubnet !"b" !"10.0.0.0/8" line_abc) !"10.0.0.0/8")) !"b").
  eexists. split; [vm_compute; reflexivity|]. vm_compute. eauto.
Defined.

End graph.
