(* ===== verification/GoStrings.v ===== *)
(** * The parts of Go's strings, strconv, unicode/utf8 and bufio packages that gsnet uses

    White space is Unicode white space in UTF-8 ([strings.TrimSpace],
    [strings.Fields]); numbers are parsed at their width ([strconv.Atoi]);
    case-insensitive comparison goes through the Unicode tables, which are an
    interface ([Unicode]) with the facts about ASCII that gsnet relies on. *)

From Stdlib Require Import Ascii String ZArith Lia.
From stdpp Require Import base tactics list gmap strings.
From S2P Require Import Prelude.

Local Open Scope Z_scope.

(** ** UTF-8 *)

Definition RuneError : Z := 0xFFFD.

Definition cont (b : Z) : bool := (0x80 <=? b) && (b <=? 0xBF).

(** [utf8.DecodeRune]: the first rune and its width; an invalid byte is
    [RuneError] of width one. *)
Definition decodeRune (s : gostring) : Z * nat :=
  let bad := (RuneError, 1%nat) in
  match byte_val <$> take 4 s with
  | [] => (RuneError, 0%nat)
  | b0 :: rest =>
      if b0 <? 0x80 then (b0, 1%nat)
      else if b0 <? 0xC2 then bad
      else if b0 <? 0xE0 then
        match rest with
        | b1 :: _ => if cont b1 then ((b0 - 0xC0) * 64 + (b1 - 0x80), 2%nat) else bad
        | _ => bad
        end
      else if b0 <? 0xF0 then
        match rest with
        | b1 :: b2 :: _ =>
            let lo := if (b0 =? 0xE0)%Z then 0xA0 else 0x80 in
            let hi := if (b0 =? 0xED)%Z then 0x9F else 0xBF in
            if (lo <=? b1) && (b1 <=? hi) && cont b2
            then ((b0 - 0xE0) * 4096 + (b1 - 0x80) * 64 + (b2 - 0x80), 3%nat) else bad
        | _ => bad
        end
      else if b0 <? 0xF5 then
        match rest with
        | b1 :: b2 :: b3 :: _ =>
            let lo := if (b0 =? 0xF0)%Z then 0x90 else 0x80 in
            let hi := if (b0 =? 0xF4)%Z then 0x8F else 0xBF in
            if (lo <=? b1) && (b1 <=? hi) && cont b2 && cont b3
            then ((b0 - 0xF0) * 262144 + (b1 - 0x80) * 4096 + (b2 - 0x80) * 64 + (b3 - 0x80), 4%nat)
            else bad
        | _ => bad
        end
      else bad
  end.

(** [for i, r := range s]: the runes of a string with their byte offsets. *)
Fixpoint runesFrom (skip : nat) (pos : Z) (s : gostring) : list (Z * Z) :=
  match s with
  | [] => []
  | _ :: t =>
      match skip with
      | S k => runesFrom k (pos + 1) t
      | O => let '(r, w) := decodeRune s in (pos, r) :: runesFrom (pred w) (pos + 1) t
      end
  end.

Definition runesAt (s : gostring) : list (Z * Z) := runesFrom 0 0 s.
Definition runes (s : gostring) : list Z := (runesAt s).*2.

(** [utf8.AppendRune]. *)
Definition encodeRune (r : Z) : gostring :=
  let r := if (0 <=? r) && (r <=? 0x10FFFF) && negb ((0xD800 <=? r) && (r <=? 0xDFFF))
           then r else RuneError in
  if r <? 0x80 then [to_byte r]
  else if r <? 0x800 then [to_byte (0xC0 + r / 64); to_byte (0x80 + r mod 64)]
  else if r <? 0x10000 then
    [to_byte (0xE0 + r / 4096); to_byte (0x80 + (r / 64) mod 64); to_byte (0x80 + r mod 64)]
  else [to_byte (0xF0 + r / 262144); to_byte (0x80 + (r / 4096) mod 64);
        to_byte (0x80 + (r / 64) mod 64); to_byte (0x80 + r mod 64)].

(** ** Case mapping *)

Definition asciiLower (r : Z) : Z := if (65 <=? r) && (r <=? 90) then r + 32 else r.
Definition isASCII (r : Z) : Prop := 0 <= r < 128.

(** The Unicode case tables of package unicode.  [fold_rune] picks one
    representative of each orbit of [unicode.SimpleFold]. *)
Class Unicode := {
  lower_rune : Z -> Z;
  fold_rune : Z -> Z;
  lower_rune_ascii : forall r, isASCII r -> lower_rune r = asciiLower r;
  fold_rune_ascii : forall r, isASCII r -> fold_rune r = asciiLower r
}.

(** The tables restricted to the runes that map into ASCII. *)
#[refine, export] Instance ascii_unicode : Unicode := {
  lower_rune := fun r => if (r =? 0x212A)%Z then 107 else if (r =? 0x130)%Z then 105 else asciiLower r;
  fold_rune := fun r => if (r =? 0x212A)%Z then 107 else if (r =? 0x17F)%Z then 115 else asciiLower r
}.
Proof.
  all: unfold isASCII; intros r Hr; destruct (Z.eqb_spec r 0x212A); [lia|].
  - by destruct (Z.eqb_spec r 0x130); [lia|].
  - by destruct (Z.eqb_spec r 0x17F); [lia|].
Defined.

Section unicode.
Context `{Unicode}.

Definition ToLower (s : gostring) : gostring :=
  runes s ≫= fun r => encodeRune (lower_rune r).

Definition EqualFold (s t : gostring) : bool :=
  bool_decide (fold_rune <$> runes s = fold_rune <$> runes t).
End unicode.

(** ** White space *)

Definition utf8_bytes (l : list Z) : gostring := to_byte <$> l.

(** The encodings of the runes for which [unicode.IsSpace] holds. *)
Definition spaceRunes : list gostring :=
  utf8_bytes <$>
  [[9]; [10]; [11]; [12]; [13]; [32]; [0xC2; 0x85]; [0xC2; 0xA0]; [0xE1; 0x9A; 0x80];
   [0xE2; 0x80; 0x80]; [0xE2; 0x80; 0x81]; [0xE2; 0x80; 0x82]; [0xE2; 0x80; 0x83];
   [0xE2; 0x80; 0x84]; [0xE2; 0x80; 0x85]; [0xE2; 0x80; 0x86]; [0xE2; 0x80; 0x87];
   [0xE2; 0x80; 0x88]; [0xE2; 0x80; 0x89]; [0xE2; 0x80; 0x8A]; [0xE2; 0x80; 0xA8];
   [0xE2; 0x80; 0xA9]; [0xE2; 0x80; 0xAF]; [0xE2; 0x81; 0x9F]; [0xE3; 0x80; 0x80]].

Definition encLen (encs : list gostring) (s : gostring) : nat :=
  match filter (fun e => e `prefix_of` s) encs with
  | e :: _ => length e
  | [] => 0
  end.

(** Width of the space rune at the start of [s] (0 if there is none), and of
    the one at the end of [s] when [s] is given reversed.  UTF-8 is
    self-synchronising and no space encoding starts with a continuation byte,
    so scanning byte by byte finds the same space runes as decoding. *)
Definition spaceLen : gostring -> nat := encLen spaceRunes.
Definition spaceLenRev : gostring -> nat := encLen (reverse <$> spaceRunes).

Fixpoint dropSpaces (len : gostring -> nat) (skip : nat) (s : gostring) : gostring :=
  match s with
  | [] => []
  | _ :: t =>
      match skip with
      | S k => dropSpaces len k t
      | O => match len s with O => s | S k => dropSpaces len k t end
      end
  end.

Definition TrimSpace (s : gostring) : gostring :=
  reverse (dropSpaces spaceLenRev 0 (reverse (dropSpaces spaceLen 0 s))).

Definition flush (cur : gostring) : list gostring :=
  match cur with [] => [] | _ => [cur] end.

Fixpoint fieldsFrom (skip : nat) (cur : gostring) (s : gostring) : list gostring :=
  match s with
  | [] => flush cur
  | c :: t =>
      match skip with
      | S k => fieldsFrom k cur t
      | O => match spaceLen s with
             | O => fieldsFrom 0 (cur ++ [c]) t
             | S k => flush cur ++ fieldsFrom k [] t
             end
      end
  end.

Definition Fields (s : gostring) : list gostring := fieldsFrom 0 [] s.

(** ** Searching and splitting *)

Definition HasPrefix (s p : gostring) : bool := bool_decide (p `prefix_of` s).

Definition TrimPrefix (s p : gostring) : gostring :=
  if HasPrefix s p then drop (length p) s else s.

Definition HasSuffix (s p : gostring) : bool := bool_decide (p `suffix_of` s).

(** [strings.Cut] at the first occurrence of a byte; [None] if absent. *)
Fixpoint cutByte (c : byte) (s : gostring) : option (gostring * gostring) :=
  match s with
  | [] => None
  | b :: t => if decide (b = c) then Some ([], t)
              else prod_map (cons b) id <$> cutByte c t
  end.

(** Cut at the last occurrence ([strings.LastIndexByte]). *)
Definition cutLastByte (c : byte) (s : gostring) : option (gostring * gostring) :=
  match cutByte c (reverse s) with
  | Some (a, b) => Some (reverse b, reverse a)
  | None => None
  end.

Fixpoint splitByte (c : byte) (s : gostring) : list gostring :=
  match s with
  | [] => [[]]
  | b :: t =>
      match splitByte c t with
      | p :: ps => if decide (b = c) then [] :: p :: ps else (b :: p) :: ps
      | [] => [[b]]
      end
  end.

Definition containsByte (c : byte) (s : gostring) : bool := bool_decide (c ∈ s).

Definition nl : byte := to_byte 10.
Definition cr : byte := to_byte 13.
Definition sp : byte := to_byte 32.

(** [strings.TrimRight(s, "\r\n")]. *)
Fixpoint dropCRLF (s : gostring) : gostring :=
  match s with
  | [] => []
  | b :: t => if decide (b = nl \/ b = cr) then dropCRLF t else s
  end.
Definition TrimRightCRLF (s : gostring) : gostring := reverse (dropCRLF (reverse s)).

(** ** bufio.Scanner with ScanLines

    Lines end in a newline, one trailing carriage return is dropped, and a
    non-empty last line needs no newline.  A line that does not fit the 64 KiB
    buffer together with its newline stops the scan with [ErrTooLong]: the
    result is the lines before it and whether the scan stopped. *)
Definition maxLine : Z := 65535.

Definition dropCR (s : gostring) : gostring :=
  match reverse s with
  | b :: t => if decide (b = cr) then reverse t else s
  | [] => []
  end.

Fixpoint scanSegs (segs : list gostring) : list gostring * bool :=
  match segs with
  | [] => ([], false)
  | [s] => if decide (s = []) then ([], false)
           else if (maxLine <? Z.of_nat (length s)) then ([], true) else ([dropCR s], false)
  | s :: rest =>
      if (maxLine <? Z.of_nat (length s)) then ([], true)
      else let '(ls, e) := scanSegs rest in (dropCR s :: ls, e)
  end.

Definition scanLines (s : gostring) : list gostring * bool := scanSegs (splitByte nl s).

(** [bufio.Reader.ReadString('\n')]: the line including its newline and the
    rest, or [None] at EOF. *)
Definition readLine (s : gostring) : option (gostring * gostring) :=
  match cutByte nl s with
  | Some (a, b) => Some (a ++ [nl], b)
  | None => None
  end.

(** ** strconv *)

Inductive numError := ErrSyntax | ErrRange.

#[global] Instance numError_eq_dec : EqDecision numError.
Proof. solve_decision. Defined.

Definition digitVal (c : byte) : option Z :=
  let v := byte_val c in
  if (48 <=? v) && (v <=? 57) then Some (v - 48)
  else if (97 <=? v) && (v <=? 122) then Some (v - 97 + 10)
  else if (65 <=? v) && (v <=? 90) then Some (v - 65 + 10)
  else None.

Fixpoint uintLoop (base maxVal : Z) (acc : Z) (s : gostring) : result numError Z :=
  match s with
  | [] => Ok acc
  | c :: t =>
      match digitVal c with
      | Some d =>
          if (base <=? d) then Err ErrSyntax
          else let acc := acc * base + d in
               if (maxVal <? acc) then Err ErrRange else uintLoop base maxVal acc t
      | None => Err ErrSyntax
      end
  end.

(** [strconv.ParseUint(s, base, bits)] for an explicit base. *)
Definition ParseUint (base bits : Z) (s : gostring) : result numError Z :=
  match s with
  | [] => Err ErrSyntax
  | _ => uintLoop base (2 ^ bits - 1) 0 s
  end.

(** [strconv.Atoi]: optional sign, decimal digits, 64-bit range. *)
Definition Atoi (s : gostring) : result numError Z :=
  match s with
  | [] => Err ErrSyntax
  | c :: t =>
      let neg := (c =? to_byte 45)%go in
      let digits := if neg || (c =? to_byte 43)%go then t else s in
      un ← ParseUint 10 64 digits;
      if neg then (if 2 ^ 63 <? un then Err ErrRange else Ok (- un))
      else (if 2 ^ 63 <=? un then Err ErrRange else Ok un)
  end.

Definition digitChar (d : Z) : byte := to_byte (48 + d).

Fixpoint utoa (fuel : nat) (n : Z) (acc : gostring) : gostring :=
  match fuel with
  | O => acc
  | S f => let acc := digitChar (n mod 10) :: acc in
           if n <? 10 then acc else utoa f (n / 10) acc
  end.

(** [strconv.Itoa], also [%d]. *)
Definition Itoa (z : Z) : gostring :=
  let fuel := S (Z.to_nat (Z.log2 (Z.abs z))) in
  if z <? 0 then to_byte 45 :: utoa fuel (- z) [] else utoa fuel z [].

Example fields_ex : Fields !"18 4  alice	bob" = [!"18"; !"4"; !"alice"; !"bob"].
Proof. reflexivity. Qed.
Example trim_ex : TrimSpace (utf8_bytes [32; 0xE3; 0x80; 0x80] ++ !"ab c " ++ utf8_bytes [0xC2; 0xA0]) = !"ab c".
Proof. reflexivity. Qed.
Example atoi_ex : (Atoi !"-42", Atoi !"+7", Atoi !"9223372036854775808", Atoi !"1x") =
                  (Ok (-42), Ok 7, Err ErrRange, Err ErrSyntax).
Proof. reflexivity. Qed.
Example itoa_ex : (Itoa 0, Itoa (-907), Itoa 65535) = (!"0", !"-907", !"65535").
Proof. reflexivity. Qed.
Example scan_ex : (scanLines !"") = ([], false).
Proof. reflexivity. Qed.

(** ** Lemmas: white space *)

Definition asciiByte (b : byte) : Prop := byte_val b < 128.

#[global] Instance asciiByte_dec b : Decision (asciiByte b).
Proof. unfold asciiByte. apply _. Defined.

(** A set of encodings is [separable] when none is empty and the ones longer
    than a byte contain no ASCII byte. *)
Definition separable (encs : list gostring) : Prop :=
  Forall (fun e => e <> [] /\ (length e = 1%nat \/ Forall (fun b => ~ asciiByte b) e)) encs.

Lemma separable_space : separable spaceRunes.
Proof. apply (bool_decide_unpack _). vm_compute. exact I. Qed.

Lemma separable_spaceRev : separable (reverse <$> spaceRunes).
Proof. apply (bool_decide_unpack _). vm_compute. exact I. Qed.

Lemma encLen_zero encs s : separable encs ->
  encLen encs s = 0%nat <-> forall e, e ∈ encs -> ~ e `prefix_of` s.
Proof.
  intros Hsep. unfold encLen. split.
  - intros Hz e He Hp. destruct (filter _ encs) as [|e' l] eqn:E.
    + assert (e ∈ filter (fun e => e `prefix_of` s) encs) as Hin by by apply list_elem_of_filter.
      rewrite E in Hin. by apply elem_of_nil in Hin.
    + assert (e' ∈ filter (fun e => e `prefix_of` s) encs) as [_ Hin]%list_elem_of_filter
        by (rewrite E; left).
      eapply Forall_forall in Hsep; [|done]. destruct Hsep as [Hne _]. by destruct e'.
  - intros Hnone. destruct (filter _ encs) as [|e' l] eqn:E; [done|].
    assert (e' ∈ filter (fun e => e `prefix_of` s) encs) as [Hp Hin]%list_elem_of_filter
      by (rewrite E; left).
    by destruct (Hnone e' Hin).
Qed.

Definition asciiHead (x : gostring) : Prop :=
  match x with [] => True | b :: _ => asciiByte b end.

(** Text that does not start with a space rune still does not when it is
    followed by something that starts with an ASCII character. *)
Lemma encLen_app encs k x : separable encs -> k <> [] -> asciiHead x ->
  encLen encs k = 0%nat -> encLen encs (k ++ x) = 0%nat.
Proof.
  intros Hsep Hk Hx. rewrite !encLen_zero by done. intros Hz e He [r Hr].
  apply (Hz e He). destruct (app_eq_inv _ _ _ _ Hr) as [[y [-> Hy]]|[y [-> Hy]]]; [by exists y|].
  destruct y as [|b y]; [exists []; by rewrite !app_nil_r|].
  subst x. simpl in Hx. eapply Forall_forall in Hsep; [|done].
  destruct Hsep as [_ [Hlen|Hall]].
  - rewrite length_app in Hlen. destruct k; simpl in *; [done|lia].
  - exfalso. apply Forall_app in Hall as [_ Hall]. by inversion Hall.
Qed.

Lemma spaceLen_sp t : spaceLen (sp :: t) = 1%nat.
Proof. reflexivity. Qed.
Lemma spaceLenRev_sp t : spaceLenRev (sp :: t) = 1%nat.
Proof. reflexivity. Qed.
Lemma spaceLenRev_nl t : spaceLenRev (nl :: t) = 1%nat.
Proof. reflexivity. Qed.
Lemma spaceLenRev_cr t : spaceLenRev (cr :: t) = 1%nat.
Proof. reflexivity. Qed.

(** Text without leading or trailing white space. *)
Definition trimmed (s : gostring) : Prop :=
  spaceLen s = 0%nat /\ spaceLenRev (reverse s) = 0%nat.

#[global] Instance trimmed_dec s : Decision (trimmed s).
Proof. unfold trimmed. apply _. Defined.

Lemma dropSpaces_id len s : len s = 0%nat -> dropSpaces len 0 s = s.
Proof. destruct s; simpl; [done|]. by intros ->. Qed.

Lemma TrimSpace_id s : trimmed s -> TrimSpace s = s.
Proof.
  intros [H1 H2]. unfold TrimSpace. rewrite (dropSpaces_id spaceLen) by done.
  rewrite dropSpaces_id by done. apply reverse_involutive.
Qed.

Lemma trimmed_app k m v : trimmed k -> trimmed v -> k <> [] -> v <> [] ->
  asciiHead m -> asciiHead (reverse m) -> m <> [] -> trimmed (k ++ m ++ v).
Proof.
  intros [Hk _] [_ Hv] Hkn Hvn Hm1 Hm2 Hmn. split.
  - apply encLen_app; auto using separable_space. by destruct m.
  - rewrite !reverse_app, <- app_assoc. apply encLen_app; auto using separable_spaceRev.
    + intros Hr. apply (f_equal reverse) in Hr. by rewrite reverse_involutive in Hr.
    + destruct (reverse m) eqn:E; [|done]. apply (f_equal reverse) in E.
      by rewrite reverse_involutive in E.
Qed.

Lemma TrimSpace_sp_l v : trimmed v -> TrimSpace (sp :: v) = v.
Proof.
  intros Hv. rewrite <- (TrimSpace_id v) at 2 by done. done.
Qed.

Lemma TrimSpace_sp_r k : trimmed k -> k <> [] -> TrimSpace (k ++ [sp]) = k.
Proof.
  intros [Hk1 Hk2] Hne. unfold TrimSpace.
  rewrite (dropSpaces_id spaceLen) by (apply encLen_app; auto using separable_space; done).
  rewrite reverse_app. simpl. rewrite dropSpaces_id by done. apply reverse_involutive.
Qed.

Lemma TrimSpace_nl k : trimmed k -> k <> [] -> TrimSpace (k ++ [nl]) = k.
Proof.
  intros [Hk1 Hk2] Hne. unfold TrimSpace.
  rewrite (dropSpaces_id spaceLen) by (apply encLen_app; auto using separable_space; done).
  rewrite reverse_app. simpl. rewrite dropSpaces_id by done. apply reverse_involutive.
Qed.

(** *** Fields *)

(** A token: non-empty, with no space rune anywhere in it. *)
Definition token (t : gostring) : Prop :=
  t <> [] /\ Forall (fun i => spaceLen (drop i t) = 0%nat) (seq 0 (length t)).

#[global] Instance token_dec t : Decision (token t).
Proof. unfold token. apply _. Defined.

Lemma fieldsFrom_token cur t x :
  Forall (fun i => spaceLen (drop i t) = 0%nat) (seq 0 (length t)) -> asciiHead x ->
  fieldsFrom 0 cur (t ++ x) = fieldsFrom 0 (cur ++ t) x.
Proof.
  intros Ht Hx. revert cur Ht. induction t as [|c t IH]; intros cur Ht; simpl.
  - by rewrite app_nil_r.
  - simpl in Ht. apply Forall_cons in Ht as [H0 Ht]. simpl in H0.
    assert (spaceLen (c :: t ++ x) = 0%nat) as ->.
    { apply (encLen_app spaceRunes (c :: t) x); auto using separable_space. }
    rewrite IH; [by rewrite <- app_assoc|].
    rewrite <- fmap_S_seq, Forall_fmap in Ht. done.
Qed.

Lemma flush_token t : t <> [] -> flush t = [t].
Proof. by destruct t. Qed.

Lemma Fields_token t : token t -> Fields t = [t].
Proof.
  intros [Hne Ht]. unfold Fields. rewrite <- (app_nil_r t) at 1.
  rewrite fieldsFrom_token by done. by apply flush_token.
Qed.

Lemma Fields_cons t rest : token t -> Fields (t ++ sp :: rest) = t :: Fields rest.
Proof.
  intros [Hne Ht]. unfold Fields. rewrite fieldsFrom_token by done. simpl.
  by rewrite flush_token.
Qed.

(** Tokens joined by single spaces split back into the same tokens. *)
Fixpoint joinSp (ts : list gostring) : gostring :=
  match ts with
  | [] => []
  | [t] => t
  | t :: ts => t ++ sp :: joinSp ts
  end.

Lemma Fields_joinSp ts : Forall token ts -> Fields (joinSp ts) = ts.
Proof.
  induction 1 as [|t ts Ht Hts IH]; [done|].
  destruct ts as [|t' ts]; simpl; [by apply Fields_token|].
  rewrite Fields_cons by done. simpl in IH. by rewrite IH.
Qed.

Lemma joinSp_app_ne (a b : list gostring) : a <> [] -> b <> [] ->
  joinSp (a ++ b) = joinSp a ++ sp :: joinSp b.
Proof.
  intros Ha Hb. induction a as [|x a IH]; [done|].
  destruct a as [|y a].
  - simpl. by destruct b.
  - simpl in *. rewrite IH by done. by rewrite <- app_assoc.
Qed.

Lemma token_spaceLen t : token t -> spaceLen t = 0%nat.
Proof. intros [Hne Ht]. destruct t; [done|]. simpl in Ht. by apply Forall_cons in Ht as [? _]. Qed.

(** ** Lemmas: cutting and splitting *)

Lemma cutByte_Some c s a b : cutByte c s = Some (a, b) <-> s = a ++ c :: b /\ c ∉ a.
Proof.
  split.
  - revert a b. induction s as [|x s IH]; intros a b; simpl; [done|].
    case_decide as Hx; [intros [= <- <-]; subst; split; [done|apply not_elem_of_nil]|].
    destruct (cutByte c s) as [[a' b']|]; simpl; [|done]. intros [= <- <-].
    destruct (IH a' b' eq_refl) as [-> Hn]. split; [done|]. by apply not_elem_of_cons.
  - intros [-> Hn]. induction a as [|x a IH]; simpl.
    + by rewrite decide_True.
    + apply not_elem_of_cons in Hn as [Hx Hn]. rewrite decide_False by done. by rewrite IH.
Qed.

Lemma cutByte_None c s : cutByte c s = None <-> c ∉ s.
Proof.
  induction s as [|x s IH]; simpl; [split; [intros _; apply not_elem_of_nil|done]|].
  rewrite not_elem_of_cons, <- IH. case_decide; [naive_solver|].
  destruct (cutByte c s); simpl; naive_solver.
Qed.

Lemma cutLastByte_Some c s a b : cutLastByte c s = Some (a, b) <-> s = a ++ c :: b /\ c ∉ b.
Proof.
  unfold cutLastByte. split.
  - destruct (cutByte c (reverse s)) as [[x y]|] eqn:E; [|done]. intros [= <- <-].
    apply cutByte_Some in E as [E Hn]. apply (f_equal reverse) in E.
    rewrite reverse_involutive, reverse_app, reverse_cons in E.
    rewrite elem_of_reverse. by rewrite E, <- app_assoc.
  - intros [-> Hn].
    assert (cutByte c (reverse (a ++ c :: b)) = Some (reverse b, reverse a)) as ->.
    { apply cutByte_Some. rewrite elem_of_reverse. split; [|done].
      by rewrite reverse_app, reverse_cons, <- app_assoc. }
    by rewrite !reverse_involutive.
Qed.

Lemma splitByte_ne c s : splitByte c s <> [].
Proof. destruct s; simpl; [done|]. destruct (splitByte c s); [done|]. by case_decide. Qed.

Lemma splitByte_none c l : c ∉ l -> splitByte c l = [l].
Proof.
  induction l as [|x l IH]; simpl; [done|]. rewrite not_elem_of_cons. intros [Hx Hl].
  rewrite IH by done. by rewrite decide_False.
Qed.

Lemma splitByte_app c l rest : c ∉ l -> splitByte c (l ++ c :: rest) = l :: splitByte c rest.
Proof.
  intros Hl. induction l as [|x l IH]; simpl.
  - pose proof (splitByte_ne c rest). destruct (splitByte c rest); [done|]. by rewrite decide_True.
  - apply not_elem_of_cons in Hl as [Hx Hl]. rewrite IH by done. by rewrite decide_False.
Qed.

(** A terminated line that fits the scanner's buffer. *)
Definition scanLine (l : gostring) : Prop := (nl ∉ l) /\ Z.of_nat (length l) <= maxLine.

#[global] Instance scanLine_dec l : Decision (scanLine l).
Proof. unfold scanLine. apply _. Defined.

Lemma scanLines_cons l rest : scanLine l ->
  scanLines (l ++ nl :: rest) = (dropCR l :: (scanLines rest).1, (scanLines rest).2).
Proof.
  intros [Hn Hl]. unfold scanLines. rewrite splitByte_app by done. simpl.
  pose proof (splitByte_ne nl rest). destruct (splitByte nl rest) as [|p ps]; [done|].
  destruct (Z.ltb_spec maxLine (Z.of_nat (length l))); [lia|].
  by destruct (scanSegs (p :: ps)).
Qed.

Lemma dropCR_trimmed l : trimmed l -> dropCR l = l.
Proof.
  intros [_ Hr]. unfold dropCR. destruct (reverse l) as [|b t] eqn:E.
  - apply (f_equal reverse) in E. by rewrite reverse_involutive in E.
  - case_decide; [|done]. subst b. by rewrite spaceLenRev_cr in Hr.
Qed.

(** The lines of a text every line of which is terminated. *)
Definition unlines (ls : list gostring) : gostring := ls ≫= (fun l => l ++ [nl]).

Lemma unlines_cons l ls : unlines (l :: ls) = l ++ nl :: unlines ls.
Proof. unfold unlines. rewrite bind_cons. by rewrite <- app_assoc. Qed.

Lemma unlines_app ls ls' : unlines (ls ++ ls') = unlines ls ++ unlines ls'.
Proof. unfold unlines. apply bind_app. Qed.

Lemma scanLines_unlines ls : Forall scanLine ls -> scanLines (unlines ls) = (dropCR <$> ls, false).
Proof.
  induction 1 as [|l ls Hl Hls IH]; [done|].
  rewrite unlines_cons, scanLines_cons by done. by rewrite IH.
Qed.

(** ** Lemmas: numbers *)

Definition isDigit (base : Z) (c : byte) : Prop :=
  match digitVal c with Some d => 0 <= d < base | None => False end.

Definition digitsVal (base acc : Z) (s : gostring) : Z :=
  foldl (fun a c => a * base + default 0 (digitVal c)) acc s.

Lemma digitsVal_mono base acc s : 1 <= base -> 0 <= acc -> Forall (isDigit base) s ->
  acc <= digitsVal base acc s.
Proof.
  intros Hb Ha Hs. revert acc Ha.
  induction Hs as [|c s Hc Hs IH]; intros acc Ha; unfold digitsVal; simpl; [lia|].
  unfold isDigit in Hc. destruct (digitVal c) as [d|]; [|done]. simpl.
  etrans; [|apply IH]; nia.
Qed.

Lemma uintLoop_spec base maxVal acc s : 1 <= base -> 0 <= acc -> Forall (isDigit base) s ->
  digitsVal base acc s <= maxVal -> uintLoop base maxVal acc s = Ok (digitsVal base acc s).
Proof.
  intros Hb Ha Hs. revert acc Ha. induction Hs as [|c s Hc Hs IH]; intros acc Ha Hm; simpl; [done|].
  unfold digitsVal in Hm; simpl in Hm. unfold isDigit in Hc.
  destruct (digitVal c) as [d|] eqn:Ed; [|done]; simpl in Hm.
  fold (digitsVal base (acc * base + d) s) in Hm.
  pose proof (digitsVal_mono base (acc * base + d) s ltac:(lia) ltac:(nia) Hs).
  destruct (Z.leb_spec base d); [lia|]. destruct (Z.ltb_spec maxVal (acc * base + d)); [lia|].
  rewrite IH by (try nia; done). done.
Qed.

Lemma digitVal_digitChar d : 0 <= d < 10 -> digitVal (digitChar d) = Some d.
Proof.
  intros Hd. unfold digitVal, digitChar. rewrite byte_val_to_byte, Z.mod_small by lia.
  destruct (Z.leb_spec 48 (48 + d)); [|lia]. destruct (Z.leb_spec (48 + d) 57); [|lia]; simpl.
  f_equal; lia.
Qed.

Lemma utoa_spec fuel n acc : 0 <= n < 10 ^ Z.of_nat fuel -> Forall (isDigit 10) acc -> fuel <> 0%nat ->
  Forall (isDigit 10) (utoa fuel n acc) /\ utoa fuel n acc <> [] /\
  digitsVal 10 0 (utoa fuel n acc) = digitsVal 10 n acc.
Proof.
  revert n acc. induction fuel as [|f IH]; intros n acc Hn Hacc Hf; [done|]. cbn [utoa].
  pose proof (Z.mod_pos_bound n 10 ltac:(lia)).
  assert (isDigit 10 (digitChar (n mod 10))) as Hd
    by (unfold isDigit; by rewrite digitVal_digitChar).
  assert (digitsVal 10 (n / 10) (digitChar (n mod 10) :: acc) = digitsVal 10 n acc) as Hstep.
  { unfold digitsVal; simpl. rewrite digitVal_digitChar by done; simpl.
    f_equal. pose proof (Z.div_mod n 10). lia. }
  destruct (Z.ltb_spec n 10).
  - split_and!; [by constructor|done|]. rewrite <- Hstep. by rewrite Z.div_small by lia.
  - rewrite <- Hstep. apply IH; [|by constructor|].
    + rewrite Nat2Z.inj_succ, Z.pow_succ_r in Hn by lia.
      split; [apply Z.div_pos; lia|]. apply Z.div_lt_upper_bound; lia.
    + intros ->. simpl in *. lia.
Qed.

Lemma utoa_fuel_enough z : Z.abs z < 10 ^ Z.of_nat (S (Z.to_nat (Z.log2 (Z.abs z)))).
Proof.
  rewrite Nat2Z.inj_succ, Z2Nat.id by apply Z.log2_nonneg.
  destruct (Z.eq_dec z 0) as [->|]; [done|].
  pose proof (Z.log2_spec (Z.abs z) ltac:(lia)) as [_ Hlt].
  eapply Z.lt_le_trans; [exact Hlt|]. apply Z.pow_le_mono_l. lia.
Qed.

Lemma isDigit_not_sign c : isDigit 10 c -> c <> to_byte 45 /\ c <> to_byte 43.
Proof. intros Hd. split; intros ->; by vm_compute in Hd. Qed.

(** [strconv.Atoi] reads back what [strconv.Itoa] prints. *)
(** What [Atoi] accepts fits an int. *)
Lemma uintLoop_nonneg base maxVal acc s n : 0 < base -> 0 <= acc -> uintLoop base maxVal acc s = Ok n -> 0 <= n.
Proof.
  intros Hb. revert acc. induction s as [|c s IH]; intros acc Ha; cbn [uintLoop]; [by intros [= <-]|].
  assert (forall d, digitVal c = Some d -> 0 <= d) as Hd.
  { unfold digitVal. intros d. repeat case_match; intros [= <-]; rewrite ?andb_true_iff, ?Z.leb_le in *; lia. }
  destruct (digitVal c) as [d|]; [|done]. specialize (Hd d eq_refl). destruct (base <=? d); [done|].
  destruct (maxVal <? _); [done|]. apply IH. nia.
Qed.

Lemma Atoi_range s n : Atoi s = Ok n -> is_int64 n.
Proof.
  unfold Atoi. destruct s as [|c t]; [done|]. cbv zeta. unfold ParseUint.
  destruct (if _ || _ then t else c :: t) as [|c' t']; [done|].
  destruct (uintLoop 10 _ 0 _) as [u|e] eqn:E; [|done]. apply uintLoop_nonneg in E; [|lia..].
  cbn [mbind result_bind]. unfold is_int64, min_int64, max_int64.
  destruct (c =? to_byte 45)%go.
  - destruct (Z.ltb_spec (2 ^ 63) u); [done|]. intros [= <-]. lia.
  - destruct (Z.leb_spec (2 ^ 63) u); [done|]. intros [= <-]. lia.
Qed.

Lemma Atoi_Itoa z : is_int64 z -> Atoi (Itoa z) = Ok z.
Proof.
  intros [Hmin Hmax]. unfold min_int64, max_int64 in *.
  set (fuel := S (Z.to_nat (Z.log2 (Z.abs z)))).
  destruct (utoa_spec fuel (Z.abs z) []) as (Hd & Hne & Hv); [|done|done|].
  { split; [lia|]. apply utoa_fuel_enough. }
  change (digitsVal 10 (Z.abs z) []) with (Z.abs z) in Hv.
  assert (ParseUint 10 64 (utoa fuel (Z.abs z) []) = Ok (Z.abs z)) as Hp.
  { unfold ParseUint. destruct (utoa fuel (Z.abs z) []) eqn:E; [done|]. rewrite <- E in *.
    rewrite uintLoop_spec; [by rewrite Hv|lia|lia|done|rewrite Hv; lia]. }
  unfold Itoa. fold fuel. destruct (Z.ltb_spec z 0) as [Hz|Hz].
  - rewrite Z.abs_neq in * by lia. unfold Atoi.
    rewrite bool_decide_eq_true_2 by done. cbn [orb]. rewrite Hp. cbn.
    destruct (Z.ltb_spec (2 ^ 63) (- z)); [lia|]. by rewrite Z.opp_involutive.
  - rewrite Z.abs_eq in * by lia. unfold Atoi.
    destruct (utoa fuel z []) as [|c t] eqn:E; [done|].
    apply Forall_cons in Hd as [Hc _]. destruct (isDigit_not_sign c Hc) as [H1 H2].
    rewrite !bool_decide_eq_false_2 by done. cbn [orb]. rewrite Hp. cbn.
    destruct (Z.leb_spec (2 ^ 63) z); [lia|done].
Qed.

(** The characters [Itoa] prints. *)
Lemma Itoa_chars z : Itoa z <> [] /\ Forall (fun c => isDigit 10 c \/ c = to_byte 45) (Itoa z).
Proof.
  unfold Itoa. set (fuel := S _).
  destruct (utoa_spec fuel (Z.abs z) []) as (Hd & Hne & _); [|done|done|].
  { split; [lia|]. apply utoa_fuel_enough. }
  assert (Forall (fun c => isDigit 10 c \/ c = to_byte 45) (utoa fuel (Z.abs z) [])) as Hf
    by (eapply Forall_impl; [exact Hd|]; auto).
  destruct (Z.ltb_spec z 0).
  - rewrite Z.abs_neq in * by lia. split; [done|]. constructor; auto.
  - rewrite Z.abs_eq in * by lia. done.
Qed.

(** ** Lemmas: printable ASCII text *)

(** A printable, non-blank ASCII character. *)
Definition plainByte (c : byte) : Prop := 33 <= byte_val c < 127.

#[global] Instance plainByte_dec c : Decision (plainByte c).
Proof. unfold plainByte. apply _. Defined.

Definition headNotPlain (e : gostring) : Prop :=
  match e with [] => False | b :: _ => ~ plainByte b end.

#[global] Instance headNotPlain_dec e : Decision (headNotPlain e).
Proof. destruct e; simpl; apply _. Defined.

Lemma encLen_plain encs b t : separable encs -> Forall headNotPlain encs ->
  plainByte b -> encLen encs (b :: t) = 0%nat.
Proof.
  intros Hsep Hh Hb. apply encLen_zero; [done|]. intros e He [r Hr].
  eapply Forall_forall in Hh; [|done]. destruct e as [|b' e]; simpl in *; [done|].
  by injection Hr as -> _.
Qed.

Lemma spaceLen_plain b t : plainByte b -> spaceLen (b :: t) = 0%nat.
Proof.
  apply encLen_plain; [apply separable_space|].
  apply (bool_decide_unpack _). vm_compute. exact I.
Qed.

Lemma spaceLenRev_plain b t : plainByte b -> spaceLenRev (b :: t) = 0%nat.
Proof.
  apply encLen_plain; [apply separable_spaceRev|].
  apply (bool_decide_unpack _). vm_compute. exact I.
Qed.

Lemma token_plain s : s <> [] -> Forall plainByte s -> token s.
Proof.
  intros Hne Hs. split; [done|]. apply Forall_seq. intros i Hi.
  apply (Forall_drop _ i) in Hs. destruct (drop i s) as [|b t]; [done|].
  apply spaceLen_plain. by apply Forall_cons in Hs as [? _].
Qed.

Lemma trimmed_plain s : Forall plainByte s -> trimmed s.
Proof.
  intros Hs. split.
  - destruct s as [|b s]; [done|]. apply spaceLen_plain. by apply Forall_cons in Hs as [? _].
  - apply Forall_reverse in Hs. destruct (reverse s) as [|b t]; [done|].
    apply spaceLenRev_plain. by apply Forall_cons in Hs as [? _].
Qed.

Lemma isDigit_plain c : isDigit 10 c \/ c = to_byte 45 -> plainByte c.
Proof.
  intros [Hd| ->]; [|by vm_compute]. unfold isDigit, digitVal, plainByte in *.
  repeat match goal with
  | H : context [Z.leb ?a ?b] |- _ => destruct (Z.leb_spec a b); simpl in H
  end; try done; lia.
Qed.

Lemma Itoa_plain z : Itoa z <> [] /\ Forall plainByte (Itoa z).
Proof.
  destruct (Itoa_chars z) as [? Hc]. split; [done|].
  eapply Forall_impl; [exact Hc|]. apply isDigit_plain.
Qed.

Lemma Itoa_token z : token (Itoa z).
Proof. destruct (Itoa_plain z). by apply token_plain. Qed.

Lemma Itoa_notin z c : ~ plainByte c \/ (byte_val c <> 45 /\ (byte_val c < 48 \/ 57 < byte_val c)) ->
  c ∉ Itoa z.
Proof.
  intros Hc Hin. destruct (Itoa_chars z) as [_ Hf].
  eapply Forall_forall in Hf; [|exact Hin].
  destruct Hc as [Hc|[Hc1 Hc2]]; [by apply Hc, isDigit_plain|].
  destruct Hf as [Hd| ->]; [|by vm_compute in Hc1].
  unfold isDigit, digitVal in Hd.
  repeat match goal with
  | H : context [Z.leb ?a ?b] |- _ => destruct (Z.leb_spec a b); simpl in H
  end; try done; lia.
Qed.

(** ** Lemmas: runes of ASCII text, case folding *)

Lemma decodeRune_ascii b t : asciiByte b -> decodeRune (b :: t) = (byte_val b, 1%nat).
Proof.
  unfold asciiByte, decodeRune. intros Hb. cbn [take fmap list_fmap].
  destruct (Z.ltb_spec (byte_val b) 0x80); [done|lia].
Qed.

Lemma runesFrom_ascii s pos : Forall asciiByte s ->
  (runesFrom 0 pos s).*2 = byte_val <$> s.
Proof.
  intros Hs. revert pos. induction Hs as [|b s Hb Hs IH]; intros pos; [done|].
  cbn [runesFrom]. rewrite decodeRune_ascii by done. cbn. f_equal. apply IH.
Qed.

Lemma runes_ascii s : Forall asciiByte s -> runes s = byte_val <$> s.
Proof. apply runesFrom_ascii. Qed.

Lemma encodeRune_ascii r : isASCII r -> encodeRune r = [to_byte r].
Proof.
  unfold isASCII, encodeRune. intros Hr.
  destruct (Z.leb_spec 0 r); [|lia]. destruct (Z.leb_spec r 0x10FFFF); [|lia].
  destruct (Z.leb_spec 0xD800 r); [lia|]. simpl. by destruct (Z.ltb_spec r 0x80); [|lia].
Qed.

Lemma isASCII_byte b : asciiByte b -> isASCII (byte_val b).
Proof. pose proof (byte_val_range b). unfold asciiByte, isASCII. lia. Qed.

Section fold_lemmas.
Context `{Unicode}.

Definition lowerByte (b : byte) : byte := to_byte (asciiLower (byte_val b)).

Lemma ToLower_ascii s : Forall asciiByte s -> ToLower s = lowerByte <$> s.
Proof.
  intros Hs. unfold ToLower. rewrite runes_ascii by done.
  induction Hs as [|b s Hb Hs IH]; [done|]. rewrite !fmap_cons, bind_cons, IH.
  apply isASCII_byte in Hb. rewrite lower_rune_ascii by done.
  rewrite encodeRune_ascii; [done|]. revert Hb. unfold isASCII, asciiLower.
  destruct (Z.leb_spec 65 (byte_val b)); destruct (Z.leb_spec (byte_val b) 90); simpl; lia.
Qed.

Lemma EqualFold_ascii s t : Forall asciiByte s -> Forall asciiByte t ->
  EqualFold s t = bool_decide (lowerByte <$> s = lowerByte <$> t).
Proof.
  intros Hs Ht. unfold EqualFold.
  assert (forall s, Forall asciiByte s -> lowerByte <$> s = to_byte <$> (fold_rune <$> runes s)) as Hl.
  { intros x Hx. rewrite runes_ascii by done. induction Hx as [|b x Hb Hx IH]; [done|].
    rewrite !fmap_cons, IH. unfold lowerByte.
    by rewrite fold_rune_ascii by by apply isASCII_byte. }
  assert (forall s, Forall asciiByte s -> fold_rune <$> runes s = byte_val <$> (lowerByte <$> s)) as Hr.
  { intros x Hx. rewrite runes_ascii by done. induction Hx as [|b x Hb Hx IH]; [done|].
    rewrite !fmap_cons, IH. unfold lowerByte.
    rewrite fold_rune_ascii by by apply isASCII_byte. rewrite byte_val_to_byte.
    rewrite Z.mod_small; [done|]. apply isASCII_byte in Hb. revert Hb. unfold isASCII, asciiLower.
    destruct (Z.leb_spec 65 (byte_val b)); destruct (Z.leb_spec (byte_val b) 90); simpl; lia. }
  apply bool_decide_ext. split.
  - intros Heq. by rewrite !Hl, Heq by done.
  - intros Heq. by rewrite !Hr, Heq by done.
Qed.

Lemma EqualFold_refl s : EqualFold s s = true.
Proof. by apply bool_decide_eq_true. Qed.

Lemma EqualFold_sym s t : EqualFold s t = EqualFold t s.
Proof. apply bool_decide_ext. split; congruence. Qed.

Lemma EqualFold_trans s t u : EqualFold s t = true -> EqualFold s u = EqualFold t u.
Proof. intros Hst%bool_decide_eq_true. apply bool_decide_ext. rewrite Hst. done. Qed.
End fold_lemmas.

#[export] Hint Resolve EqualFold_refl Itoa_token token_plain trimmed_plain : gsnet.

(** ** Lemmas: what trimming and splitting return *)

Lemma encLen_prefix encs p s : separable encs -> p `prefix_of` s ->
  encLen encs s = 0%nat -> encLen encs p = 0%nat.
Proof.
  intros Hsep Hp. rewrite !encLen_zero by done. intros Hs e He Hep.
  apply (Hs e He). by etrans.
Qed.

Lemma dropSpaces_stops len skip s : len [] = 0%nat -> len (dropSpaces len skip s) = 0%nat.
Proof.
  intros Hnil. revert skip. induction s as [|b s IH]; intros skip; simpl; [done|].
  destruct skip as [|k]; [|apply IH]. destruct (len (b :: s)) eqn:E; [done|apply IH].
Qed.

Lemma dropSpaces_suffix len skip s : dropSpaces len skip s `suffix_of` s.
Proof.
  revert skip. induction s as [|b s IH]; intros skip; simpl; [done|].
  destruct skip as [|k]; [destruct (len (b :: s)); [done|]|];
    (etrans; [apply IH|]; by apply suffix_cons_r).
Qed.

Lemma TrimSpace_trimmed s : trimmed (TrimSpace s).
Proof.
  unfold TrimSpace. set (x := dropSpaces spaceLen 0 s). split.
  - assert (spaceLen x = 0%nat) as Hx by by apply dropSpaces_stops.
    eapply encLen_prefix; [apply separable_space| |exact Hx].
    destruct (dropSpaces_suffix spaceLenRev 0 (reverse x)) as [y Hy].
    exists (reverse y). apply (f_equal reverse) in Hy.
    by rewrite reverse_involutive, reverse_app in Hy.
  - rewrite reverse_involutive. by apply dropSpaces_stops.
Qed.

Lemma TrimSpace_sublist s c : c ∈ TrimSpace s -> c ∈ s.
Proof.
  unfold TrimSpace. rewrite elem_of_reverse. intros Hc.
  destruct (dropSpaces_suffix spaceLenRev 0 (reverse (dropSpaces spaceLen 0 s))) as [y Hy].
  assert (c ∈ reverse (dropSpaces spaceLen 0 s)) as Hc2 by (rewrite Hy; apply elem_of_app; by right).
  rewrite elem_of_reverse in Hc2. destruct (dropSpaces_suffix spaceLen 0 s) as [z Hz].
  rewrite Hz. apply elem_of_app. by right.
Qed.

(** The first character survives trimming when it is not white space. *)
Lemma TrimSpace_head s b t : spaceLen s = 0%nat -> TrimSpace s = b :: t -> head s = Some b.
Proof.
  intros Hs. unfold TrimSpace. rewrite (dropSpaces_id spaceLen) by done. intros Ht.
  destruct (dropSpaces_suffix spaceLenRev 0 (reverse s)) as [y Hy].
  apply (f_equal reverse) in Hy. rewrite reverse_involutive, reverse_app, Ht in Hy.
  by rewrite Hy.
Qed.

Lemma token_trimmed t : token t -> trimmed t.
Proof.
  intros Ht. split; [by apply token_spaceLen|]. destruct Ht as [Hne Ht].
  apply (encLen_zero _ _ separable_spaceRev). intros e' He' [r Hr].
  apply list_elem_of_fmap in He' as (e & -> & He).
  apply (f_equal reverse) in Hr. rewrite reverse_involutive, reverse_app, reverse_involutive in Hr.
  assert (e <> []) as Hen.
  { pose proof separable_space as Hsep. eapply Forall_forall in Hsep; [|exact He]. tauto. }
  rewrite Forall_forall in Ht. assert (spaceLen (drop (length (reverse r)) t) = 0%nat) as Hz.
  { apply Ht, elem_of_seq. rewrite Hr, length_app. destruct e; [done|]. simpl. lia. }
  rewrite Hr, drop_app_length in Hz. eapply encLen_zero in Hz; [|apply separable_space|exact He].
  by apply Hz.
Qed.

Lemma fieldsFrom_tokens skip cur s :
  (forall i, (i < length cur)%nat -> spaceLen (drop i (cur ++ s)) = 0%nat) ->
  skip = 0%nat \/ cur = [] ->
  Forall token (fieldsFrom skip cur s).
Proof.
  assert (forall cur s, (forall i, (i < length cur)%nat -> spaceLen (drop i (cur ++ s)) = 0%nat) ->
          Forall token (flush cur)) as Hflush.
  { clear. intros cur s Hc. destruct cur as [|b cur]; [constructor|]. constructor; [|constructor].
    split; [done|]. apply Forall_seq. intros i [_ Hi].
    eapply encLen_prefix; [apply separable_space| |apply (Hc i Hi)].
    rewrite drop_app_le by (simpl in *; lia). by apply prefix_app_r. }
  revert skip cur. induction s as [|c s IH]; intros skip cur Hc Hsk; simpl; [by eapply Hflush|].
  destruct skip as [|k].
  - destruct (spaceLen (c :: s)) as [|k] eqn:E.
    + apply IH; [|by left]. intros i Hi. rewrite <- app_assoc. simpl.
      rewrite length_app in Hi; simpl in Hi.
      destruct (decide (i < length cur)%nat); [by apply Hc|].
      assert (i = length cur) as -> by lia. by rewrite drop_app_length.
    + apply Forall_app. split; [by eapply Hflush|]. apply IH; [simpl; lia|by right].
  - destruct Hsk as [| ->]; [done|]. apply IH; [simpl; lia|by right].
Qed.

Lemma Fields_tokens s : Forall token (Fields s).
Proof. apply fieldsFrom_tokens; [simpl; lia|by left]. Qed.

(** If the text does not start with a space, its first field is a prefix. *)
Lemma fieldsFrom_first cur s f fs : cur <> [] -> fieldsFrom 0 cur s = f :: fs ->
  f `prefix_of` cur ++ s.
Proof.
  revert cur. induction s as [|c s IH]; intros cur Hne; simpl.
  - rewrite flush_token by done. intros [= <- _]. by rewrite app_nil_r.
  - destruct (spaceLen (c :: s)).
    + intros Hf. apply IH in Hf; [by rewrite <- app_assoc in Hf|]. by destruct cur.
    + rewrite flush_token by done. intros [= <- _]. by apply prefix_app_r.
Qed.

Lemma Fields_first s f fs : spaceLen s = 0%nat -> Fields s = f :: fs -> f `prefix_of` s.
Proof.
  unfold Fields. destruct s as [|c s]; simpl; [done|]. intros ->.
  intros Hf. by apply (fieldsFrom_first [c]) in Hf.
Qed.

(** Lines of a scanned text contain no newline. *)
Lemma splitByte_notin c s : Forall (fun p => c ∉ p) (splitByte c s).
Proof.
  induction s as [|b s IH]; simpl.
  - constructor; [apply not_elem_of_nil|done].
  - pose proof (splitByte_ne c s). destruct (splitByte c s) as [|p ps]; [done|].
    apply Forall_cons in IH as [Hp Hps]. case_decide.
    + constructor; [apply not_elem_of_nil|by constructor].
    + constructor; [|done]. set_solver.
Qed.

Lemma dropCR_sublist s c : c ∈ dropCR s -> c ∈ s.
Proof.
  unfold dropCR. destruct (reverse s) as [|b t] eqn:E; [by intros ?%elem_of_nil|].
  case_decide; [|done]. rewrite elem_of_reverse. intros Hc. apply elem_of_reverse.
  rewrite E. by right.
Qed.

Lemma scanLines_notin s : Forall (fun l => nl ∉ l) (scanLines s).1.
Proof.
  unfold scanLines. pose proof (splitByte_notin nl s) as Hs.
  induction Hs as [|p ps Hp Hps IH]; [done|].
  assert (nl ∉ dropCR p) as Hd by (intros Hc; by apply Hp, dropCR_sublist).
  destruct ps as [|q ps].
  - simpl. case_decide; [done|]. destruct (maxLine <? Z.of_nat (length p)); [done|]. by constructor.
  - change (scanSegs (p :: q :: ps)) with
      (if maxLine <? Z.of_nat (length p) then ([], true)
       else let '(ls, e) := scanSegs (q :: ps) in (dropCR p :: ls, e)).
    destruct (maxLine <? Z.of_nat (length p)); [done|].
    destruct (scanSegs (q :: ps)). by constructor.
Qed.

(** ** Lemmas: lines made of tokens *)

Lemma joinSp_ne ts : ts <> [] -> Forall token ts -> joinSp ts <> [].
Proof.
  destruct ts as [|t [|u ts]]; [done|..]; intros _ [[Ht _] _]%Forall_cons; simpl; [done|].
  by destruct t.
Qed.

Lemma trimmed_joinSp ts : Forall token ts -> trimmed (joinSp ts).
Proof.
  induction ts as [|t [|u ts] IH]; intros Hts.
  - by vm_compute.
  - apply Forall_cons in Hts as [Ht _]. by apply token_trimmed.
  - pose proof Hts as [Ht Hu]%Forall_cons.
    change (joinSp (t :: u :: ts)) with (t ++ [sp] ++ joinSp (u :: ts)).
    apply (trimmed_app t [sp]); [by apply token_trimmed|by apply IH|apply Ht| |by vm_compute|by vm_compute|done].
    apply joinSp_ne; [done|exact Hu].
Qed.

Lemma token_no_nl t : token t -> nl ∉ t.
Proof.
  intros [_ Ht] Hin. apply list_elem_of_lookup_1 in Hin as [i Hi].
  rewrite Forall_forall in Ht. specialize (Ht i).
  rewrite elem_of_seq in Ht. pose proof (lookup_lt_Some _ _ _ Hi).
  specialize (Ht ltac:(lia)). rewrite (drop_S _ nl) in Ht by done. by vm_compute in Ht.
Qed.

Lemma joinSp_no_nl ts : Forall token ts -> nl ∉ joinSp ts.
Proof.
  induction ts as [|t [|u ts] IH]; intros Hts.
  - set_solver.
  - apply Forall_cons in Hts as [Ht _]. by apply token_no_nl.
  - apply Forall_cons in Hts as [Ht Hu].
    change (joinSp (t :: u :: ts)) with (t ++ sp :: joinSp (u :: ts)). rewrite elem_of_app, elem_of_cons.
    intros [Hn|[Hn|Hn]]; [by apply (token_no_nl t)|by vm_compute in Hn|by apply IH].
Qed.

(** Reading back a written line of tokens. *)
Lemma TrimSpace_tokenLine ts : ts <> [] -> Forall token ts ->
  TrimSpace (joinSp ts ++ [nl]) = joinSp ts.
Proof. intros Hne Hts. apply TrimSpace_nl; [by apply trimmed_joinSp|by apply joinSp_ne]. Qed.

Lemma readLine_line l rest : nl ∉ l -> readLine (l ++ nl :: rest) = Some (l ++ [nl], rest).
Proof. intros Hl. unfold readLine. by rewrite (proj2 (cutByte_Some nl _ l rest)). Qed.

(** ** Comparing two literal names, ignoring case *)

Definition sameName (a b : string) : bool :=
  bool_decide (lowerByte <$> lit a = lowerByte <$> lit b).
Definition asciiName (a : string) : bool := forallb (fun c => bool_decide (asciiByte c)) (lit a).

Lemma EqualFold_lit `{Unicode} a b : asciiName a && asciiName b = true ->
  EqualFold (lit a) (lit b) = sameName a b.
Proof.
  unfold asciiName. rewrite andb_true_iff, !forallb_forall. intros [Ha Hb].
  assert (forall s, (forall x, List.In x s -> bool_decide (asciiByte x) = true) -> Forall asciiByte s) as Hf.
  { intros s Hs. apply List.Forall_forall. intros x Hx. by eapply bool_decide_eq_true, Hs. }
  by rewrite EqualFold_ascii by auto.
Qed.

Ltac field_names := repeat match goal with
  | |- context [EqualFold (lit ?a) (lit ?b)] =>
      let r := eval vm_compute in (sameName a b) in
      replace (EqualFold (lit a) (lit b)) with r
        by (symmetry; rewrite EqualFold_lit by (vm_compute; reflexivity); vm_compute; reflexivity)
  end.
