(* ===== verification/GoFmt.v ===== *)
(** * Formatting and scanning (fmt, time)

    What cmd/gsnet and internal/control use of Go's fmt and time packages:
    [Sscanf] with %d verbs, padding, and the textual form of a duration. *)

From Stdlib Require Import Ascii String ZArith Lia.
From stdpp Require Import base tactics list strings.
From S2P Require Import Prelude.
From S2P Require Import GoStrings.

Local Open Scope Z_scope.

Module fmt.

(** ** Scanning integers *)

(** [SkipSpace] of a one-line scan: a newline among the blanks is an error. *)
Definition skipSpace (s : gostring) : option gostring :=
  let rest := dropSpaces spaceLen 0 s in
  if bool_decide (nl ∈ take (length s - length rest) s) then None else Some rest.

Definition decimal (c : byte) : bool := (48 <=? byte_val c) && (byte_val c <=? 57).

(** The longest prefix of decimal digits, and what follows. *)
Fixpoint spanDigits (s : gostring) : gostring * gostring :=
  match s with
  | c :: t => if decimal c then let '(d, r) := spanDigits t in (c :: d, r) else ([], s)
  | [] => ([], [])
  end.

Definition takeSign (s : gostring) : gostring * gostring :=
  match s with
  | c :: t => if bool_decide (c = to_byte 43 \/ c = to_byte 45) then ([c], t) else ([], s)
  | [] => ([], [])
  end.

(** The verb %d: the value and the rest of the input; what follows the digits
    is not looked at. *)
Definition scanInt (s : gostring) : option (Z * gostring) :=
  s ← skipSpace s;
  let '(sign, s) := takeSign s in
  let '(ds, rest) := spanDigits s in
  if bool_decide (ds = []) then None
  else match Atoi (sign ++ ds) with Ok z => Some (z, rest) | Err _ => None end.

(** A blank in the format: at least one blank, or the end of the input. *)
Definition matchSpace (s : gostring) : option gostring :=
  match s with
  | [] => Some []
  | c :: _ => if bool_decide (c = nl) || bool_decide (spaceLen s = 0%nat) then None else Some s
  end.

(** [Sscanf(s, "%d", &x)] *)
Definition Sscanf1 (s : gostring) : option Z := fst <$> scanInt s.

(** [Sscanf(s, "%d %d %d", &x, &y, &z)] *)
Definition Sscanf3 (s : gostring) : option (Z * Z * Z) :=
  '(x, s) ← scanInt s; s ← matchSpace s;
  '(y, s) ← scanInt s; s ← matchSpace s;
  '(z, _) ← scanInt s; Some (x, y, z).

(** ** Padding: the width counts runes *)

Definition blanks (width : nat) (s : gostring) : gostring := replicate (width - length (runes s)) sp.
Definition padRight (width : nat) (s : gostring) : gostring := s ++ blanks width s.
Definition padLeft (width : nat) (s : gostring) : gostring := blanks width s ++ s.

(** ** Lemmas *)

Lemma decimal_isDigit c : decimal c = true <-> isDigit 10 c.
Proof.
  unfold decimal, isDigit. destruct c as [[] [] [] [] [] [] [] []]; vm_compute; naive_solver.
Qed.

Lemma spanDigits_stop ds rest : Forall (isDigit 10) ds -> (forall c, head rest = Some c -> decimal c = false) ->
  spanDigits (ds ++ rest) = (ds, rest).
Proof.
  intros Hd Hr. induction Hd as [|c ds Hc _ IH]; cbn [app spanDigits].
  - destruct rest as [|c t]; [done|]. cbn [spanDigits]. by rewrite (Hr c).
  - apply decimal_isDigit in Hc. by rewrite Hc, IH.
Qed.

Lemma skipSpace_id s : spaceLen s = 0%nat -> skipSpace s = Some s.
Proof.
  intros Hs. unfold skipSpace. rewrite dropSpaces_id by done. by rewrite Nat.sub_diag.
Qed.

Lemma Itoa_digits z : 0 <= z -> Forall (isDigit 10) (Itoa z) /\ Itoa z <> [].
Proof.
  intros Hz. unfold Itoa. destruct (Z.ltb_spec z 0); [lia|].
  destruct (utoa_spec (S (Z.to_nat (Z.log2 (Z.abs z)))) z []) as (Hd & Hne & _); [|done..].
  pose proof (utoa_fuel_enough z). rewrite Z.abs_eq in * by lia. lia.
Qed.

(** %d reads back a non-negative number that %d printed, whatever follows it
    other than a digit. *)
Lemma scanInt_Itoa z rest : 0 <= z <= max_int64 -> (forall c, head rest = Some c -> decimal c = false) ->
  scanInt (Itoa z ++ rest) = Some (z, rest).
Proof.
  intros Hz Hr. destruct (Itoa_digits z) as [Hd Hne]; [lia|].
  destruct (Itoa z) as [|c t] eqn:E; [done|]. pose proof Hd as [Hc _]%Forall_cons.
  unfold scanInt. rewrite skipSpace_id.
  2:{ apply spaceLen_plain, isDigit_plain. by left. }
  cbn [mbind option_bind]. cbn [app takeSign].
  rewrite bool_decide_eq_false_2 by (destruct (isDigit_not_sign c Hc); tauto).
  change (c :: t ++ rest) with ((c :: t) ++ rest). rewrite spanDigits_stop by done.
  rewrite bool_decide_eq_false_2 by done. cbn [app]. rewrite <- E, Atoi_Itoa; [done|].
  unfold is_int64, min_int64. unfold max_int64 in *. lia.
Qed.

End fmt.

Module time.

Definition Second : Z := 1000000000.

(** [Duration.Round(time.Second)]; durations are 64-bit nanosecond counts. *)
Definition RoundSecond (d : Z) : Z :=
  let r := Z.rem d Second in
  if d <? 0 then
    let r := - r in
    if 2 * r <? Second then d + r
    else let d1 := d - Second + r in if d1 <? min_int64 then min_int64 else d1
  else if 2 * r <? Second then d - r
  else let d1 := d + Second - r in if max_int64 <? d1 then max_int64 else d1.

(** [Time.Sub] of two wall-clock times given in nanoseconds saturates. *)
Definition Sub (t u : Z) : Z :=
  if max_int64 <? t - u then max_int64 else if t - u <? min_int64 then min_int64 else t - u.

Definition stripZeros (s : gostring) : gostring :=
  reverse ((fix go s := match s with c :: t => if bool_decide (c = to_byte 48) then go t else s | [] => [] end) (reverse s)).

(** The fraction of a second, nine digits without trailing zeros. *)
Definition fracText (ns : Z) : gostring :=
  if ns =? 0 then []
  else to_byte 46 :: stripZeros (replicate (9 - length (Itoa ns)) (to_byte 48) ++ Itoa ns).

(** [Duration.String] for zero and for durations of at least a second. *)
Definition durationString (d : Z) : gostring :=
  let u := Z.abs d in
  if u =? 0 then !"0s"
  else
    let secs := u / Second in
    let mins := secs / 60 in
    (if d <? 0 then !"-" else [])
    ++ (if 60 <=? mins then Itoa (mins / 60) ++ !"h" else [])
    ++ (if 0 <? mins then Itoa (mins mod 60) ++ !"m" else [])
    ++ Itoa (secs mod 60) ++ fracText (u mod Second) ++ !"s".

Example durations :
  (durationString 0, durationString 65000000000, durationString (-3600000000000), durationString max_int64)
  = (!"0s", !"1m5s", !"-1h0m0s", !"2562047h47m16.854775807s").
Proof. reflexivity. Qed.

Example rounding : (RoundSecond 1499999999, RoundSecond 1500000000, RoundSecond (-1500000000), RoundSecond max_int64)
  = (1000000000, 2000000000, -2000000000, max_int64).
Proof. reflexivity. Qed.

(** Rounding never leaves the range of a duration, and moves it by at most
    half a second unless it saturates. *)
Lemma RoundSecond_range d : is_int64 d ->
  is_int64 (RoundSecond d) /\ (2 * Z.abs (RoundSecond d - d) <= Second \/ RoundSecond d = max_int64 \/ RoundSecond d = min_int64).
Proof.
  unfold is_int64, RoundSecond, Second, max_int64, min_int64. intros Hd.
  destruct (Z.ltb_spec d 0).
  - pose proof (Z.rem_bound_pos (- d) 1000000000 ltac:(lia) ltac:(lia)).
    rewrite Z.rem_opp_l in * by lia.
    destruct (Z.ltb_spec (2 * - Z.rem d 1000000000) 1000000000); [lia|].
    destruct (Z.ltb_spec (d - 1000000000 + - Z.rem d 1000000000) (- 2 ^ 63)); lia.
  - pose proof (Z.rem_bound_pos d 1000000000 ltac:(lia) ltac:(lia)).
    destruct (Z.ltb_spec (2 * Z.rem d 1000000000) 1000000000); [lia|].
    destruct (Z.ltb_spec (2 ^ 63 - 1) (d + 1000000000 - Z.rem d 1000000000)); lia.
Qed.

End time.

Example sscanf_ex : (fmt.Sscanf1 !"51820abc", fmt.Sscanf1 !"port", fmt.Sscanf1 !" +7", fmt.Sscanf3 !"4 0 123", fmt.Sscanf3 !"4 0")
  = (Some 51820, None, Some 7, Some (4, 0, 123), None).
Proof. reflexivity. Qed.
