(* ===== verification/NodeName.v ===== *)
(** * Node names (internal/nodename/nodename.go)

    Validation and expansion of node names.  A valid name is also a safe file
    name, which the daemon relies on when it derives [hosts/<name>]. *)

From Stdlib Require Import Ascii String ZArith Lia.
From stdpp Require Import base tactics list gmap strings.
From S2P Require Import Prelude.
From S2P Require Import GoStrings.

Local Open Scope Z_scope.

Module nodename.

Inductive error :=
| ErrEmpty
| ErrInvalidChar (name : gostring) (r : Z) (pos : Z)
| ErrHostname (spec : gostring).

Definition isNameRune (r : Z) : bool :=
  ((97 <=? r) && (r <=? 122)) || ((65 <=? r) && (r <=? 90)) ||
  ((48 <=? r) && (r <=? 57)) || (r =? 95)%Z.

(** The loop of [Validate]: the first rune that is not a name rune. *)
Fixpoint firstBad (rs : list (Z * Z)) : option (Z * Z) :=
  match rs with
  | [] => None
  | (i, r) :: rs => if isNameRune r then firstBad rs else Some (i, r)
  end.

Definition Validate (name : gostring) : result error unit :=
  if decide (name = []) then Err ErrEmpty
  else match firstBad (runesAt name) with
       | Some (i, r) => Err (ErrInvalidChar name r i)
       | None => Ok ()
       end.

Definition sanitize (s : gostring) : gostring :=
  runes s ≫= (fun r => if isNameRune r then encodeRune r else !"_").

(** [os.LookupEnv] and [os.Hostname] belong to the operating system and are
    arguments. *)
Definition Expand (LookupEnv : gostring -> option gostring) (Hostname : option gostring)
    (spec : gostring) : result error gostring :=
  if HasPrefix spec !"$" then
    match LookupEnv (drop 1 spec) with
    | Some val => Ok (sanitize val)
    | None => match Hostname with
              | Some h => Ok (sanitize h)
              | None => Err (ErrHostname spec)
              end
    end
  else Ok spec.

(** ** Lemmas *)

Definition nameByte (b : byte) : Prop := isNameRune (byte_val b) = true.

#[global] Instance nameByte_dec b : Decision (nameByte b).
Proof. unfold nameByte. apply _. Defined.

Lemma isNameRune_range r : isNameRune r = true -> 48 <= r <= 122.
Proof.
  unfold isNameRune.
  destruct (Z.leb_spec 97 r), (Z.leb_spec r 122), (Z.leb_spec 65 r), (Z.leb_spec r 90),
    (Z.leb_spec 48 r), (Z.leb_spec r 57), (Z.eqb_spec r 95); simpl; intros; try done; lia.
Qed.

Lemma nameByte_ascii b : nameByte b -> asciiByte b.
Proof. intros ?%isNameRune_range. unfold asciiByte. lia. Qed.

(** A multi-byte or invalid sequence never decodes to an ASCII rune. *)
Lemma decodeRune_nonascii b t : ~ asciiByte b -> 128 <= (decodeRune (b :: t)).1.
Proof.
  unfold asciiByte, decodeRune, cont. intros Hb. cbn [take fmap list_fmap].
  destruct (Z.ltb_spec (byte_val b) 0x80); [lia|].
  repeat match goal with
  | |- context [Z.ltb ?x ?y] => destruct (Z.ltb_spec x y)
  | |- context [match ?l with [] => _ | _ :: _ => _ end] => destruct l; cbn
  | |- context [Z.eqb ?x ?y] => destruct (Z.eqb_spec x y)
  | |- context [Z.leb ?x ?y] => destruct (Z.leb_spec x y); cbn
  end; unfold RuneError; cbn; lia.
Qed.

Lemma firstBad_nameBytes s pos : firstBad (runesFrom 0 pos s) = None <-> Forall nameByte s.
Proof.
  revert pos. induction s as [|b s IH]; intros pos; [by split|].
  rewrite Forall_cons. cbn [runesFrom].
  destruct (decide (asciiByte b)) as [Hb|Hb].
  - rewrite decodeRune_ascii by done. cbn [firstBad pred]. unfold nameByte at 1.
    destruct (isNameRune (byte_val b)); [rewrite IH; tauto|]. split; [done|by intros [? _]].
  - pose proof (decodeRune_nonascii b s Hb) as Hr.
    destruct (decodeRune (b :: s)) as [r w]; simpl in *.
    destruct (isNameRune r) eqn:E; [apply isNameRune_range in E; lia|].
    split; [done|]. by intros [?%nameByte_ascii _].
Qed.

Lemma Validate_ok name : Validate name = Ok () <-> name <> [] /\ Forall nameByte name.
Proof.
  unfold Validate. case_decide as Hn; [naive_solver|].
  rewrite <- (firstBad_nameBytes name 0). fold (runesAt name).
  destruct (firstBad (runesAt name)) as [[i r]|]; naive_solver.
Qed.

Lemma nameByte_encode r : isNameRune r = true -> Forall nameByte (encodeRune r).
Proof.
  intros Hr. pose proof (isNameRune_range r Hr). rewrite encodeRune_ascii by (unfold isASCII; lia).
  constructor; [|done]. unfold nameByte. by rewrite byte_val_to_byte, Z.mod_small by lia.
Qed.

Lemma sanitize_nameBytes s : Forall nameByte (sanitize s).
Proof.
  unfold sanitize. induction (runes s) as [|r rs IH]; [done|]. rewrite bind_cons.
  apply Forall_app. split; [|done]. destruct (isNameRune r) eqn:E; [by apply nameByte_encode|].
  apply (bool_decide_unpack _). vm_compute. exact I.
Qed.

Lemma sanitize_ne s : s <> [] -> sanitize s <> [].
Proof.
  destruct s as [|b s]; [done|]. intros _. unfold sanitize, runes, runesAt. cbn [runesFrom].
  destruct (decodeRune (b :: s)) as [r w]. rewrite fmap_cons, bind_cons. cbn [snd].
  intros [Hc _]%app_nil. destruct (isNameRune r) eqn:E; [|done].
  pose proof (isNameRune_range r E).
  by rewrite encodeRune_ascii in Hc by (unfold isASCII; lia).
Qed.

(** ** Theorems *)

(** [Validate] accepts exactly the non-empty strings made of ASCII letters,
    digits and underscores; non-ASCII text and invalid UTF-8 are rejected.  In
    particular an accepted name contains no path separator and is neither
    ["."] nor [".."], so [hosts/<name>] stays inside the hosts directory. *)
Theorem Validate_correct name :
  (Validate name = Ok () <-> name <> [] /\ Forall nameByte name) /\
  (Validate name = Ok () -> (to_byte 47 ∉ name) /\ name <> !"." /\ name <> !"..").
Proof.
  split; [apply Validate_ok|]. intros [_ Hf]%Validate_ok. split_and!.
  - intros Hin. eapply Forall_forall in Hf; [|exact Hin]. by vm_compute in Hf.
  - intros ->. apply Forall_cons in Hf as [Hf _]. by vm_compute in Hf.
  - intros ->. apply Forall_cons in Hf as [Hf _]. by vm_compute in Hf.
Qed.

(** [Expand] returns a specification without a dollar sign unchanged, and
    expands ["$VAR"] to a name that [Validate] accepts whenever the variable
    (or, if it is unset, the host name) is not empty. *)
Theorem Expand_valid (env : gostring -> option gostring) (host : option gostring)
    (spec name : gostring) :
  Expand env host spec = Ok name ->
  (HasPrefix spec !"$" = false -> name = spec) /\
  (HasPrefix spec !"$" = true ->
     exists val, (env (drop 1 spec) = Some val \/ env (drop 1 spec) = None /\ host = Some val) /\
                 (val <> [] -> Validate name = Ok ())).
Proof.
  unfold Expand. destruct (HasPrefix spec !"$").
  - intros He. split; [done|]. intros _.
    assert (forall v, v <> [] -> Validate (sanitize v) = Ok ()) as Hv.
    { intros v Hne. apply Validate_ok. auto using sanitize_ne, sanitize_nameBytes. }
    destruct (env (drop 1 spec)) as [v|]; [inv_ok; naive_solver|].
    destruct host as [h|]; inv_ok; naive_solver.
  - intros He. inv_ok. done.
Qed.

Definition ugly_env (v : gostring) : option gostring :=
  if decide (v = !"UGLY") then Some !"foo-bar.baz" else None.

Lemma Expand_valid_witness : Validate !"foo_bar_baz" = Ok ().
Proof.
  assert (Expand ugly_env None !"$UGLY" = Ok !"foo_bar_baz") as He by (vm_compute; reflexivity).
  apply Expand_valid in He as [_ Hd].
  destruct (Hd eq_refl) as (val & [Hv|[_ Hv]] & Hok); [|discriminate Hv].
  apply Hok. intros ->. discriminate Hv.
Defined.

(** The host name is the fallback for every unset variable, not only for
    [$HOST]. *)
Theorem Expand_unset_falls_back (host : gostring) :
  Expand (fun _ => None) (Some host) !"$NOPE" = Ok (sanitize host).
Proof. reflexivity. Qed.

End nodename.
