(* ===== verification/FS.v ===== *)
(** * Paths and the file system

    The parts of path/filepath and os that gsnet uses, over a file system that
    is a finite map from cleaned paths to regular files plus a set of
    directories.  Permissions are recorded (fsck reports them) but access is
    not refused because of them, and there are no symbolic links. *)

From Stdlib Require Import Ascii String ZArith Lia.
From stdpp Require Import base tactics list gmap strings sorting.
From S2P Require Import Prelude.
From S2P Require Import GoStrings.

Local Open Scope Z_scope.

(** ** path/filepath *)

Definition slash : byte := to_byte 47.

Module filepath.

(** One step of [Clean] on the stack of kept components (last first). *)
Definition push (rooted : bool) (stack : list gostring) (c : gostring) : list gostring :=
  if decide (c = [] \/ c = !".") then stack
  else if decide (c = !"..") then
    match stack with
    | top :: rest => if decide (top = !"..") then c :: stack else rest
    | [] => if rooted then [] else [c]
    end
  else c :: stack.

Fixpoint joinSlash (cs : list gostring) : gostring :=
  match cs with
  | [] => []
  | [c] => c
  | c :: cs => c ++ slash :: joinSlash cs
  end.

Definition Clean (p : gostring) : gostring :=
  let rooted := bool_decide (head p = Some slash) in
  let stack := foldl (push rooted) [] (splitByte slash p) in
  let body := joinSlash (reverse stack) in
  if rooted then slash :: body
  else match body with [] => !"." | _ => body end.

Definition Join (elems : list gostring) : gostring :=
  match filter (fun e => e <> []) elems with
  | [] => []
  | es => Clean (joinSlash es)
  end.

(** [filepath.Dir]: everything up to the last slash, cleaned. *)
Definition Dir (p : gostring) : gostring :=
  match cutLastByte slash p with
  | Some (d, _) => Clean (d ++ [slash])
  | None => !"."
  end.

End filepath.

(** ** os *)

Inductive osError := ENOENT | EISDIR | EEXIST | ENOTDIR.

#[global] Instance osError_eq_dec : EqDecision osError.
Proof. solve_decision. Defined.

Record File := MkFile { content : bytes; mode : Z }.

Record FS := MkFS { files : gmap gostring File; dirs : gset gostring }.

Module os.

Definition IsNotExist (e : osError) : bool := bool_decide (e = ENOENT).

Definition ReadFile (fs : FS) (p : gostring) : result osError bytes :=
  match files fs !! p with
  | Some f => Ok (content f)
  | None => if decide (p ∈ dirs fs) then Err EISDIR else Err ENOENT
  end.

(** What [os.Stat] reports: a directory, or a file with its permission bits. *)
Inductive FileInfo := IsDir | IsFile (perm : Z).

Definition Stat (fs : FS) (p : gostring) : result osError FileInfo :=
  match files fs !! p with
  | Some f => Ok (IsFile (mode f))
  | None => if decide (p ∈ dirs fs) then Ok IsDir else Err ENOENT
  end.

(** Creating a file needs its directory; an existing file keeps its mode. *)
Definition WriteFile (fs : FS) (p : gostring) (data : bytes) (perm : Z) : result osError FS :=
  match files fs !! p with
  | Some f => Ok (MkFS (<[p := MkFile data (mode f)]> (files fs)) (dirs fs))
  | None => if decide (p ∈ dirs fs) then Err EISDIR
            else if decide (filepath.Dir p ∈ dirs fs)
            then Ok (MkFS (<[p := MkFile data perm]> (files fs)) (dirs fs))
            else Err ENOENT
  end.

(** [os.OpenFile] with [O_WRONLY|O_CREATE|O_EXCL] followed by one write. *)
Definition CreateExclusive (fs : FS) (p : gostring) (data : bytes) (perm : Z) : result osError FS :=
  match files fs !! p with
  | Some _ => Err EEXIST
  | None => if decide (p ∈ dirs fs) then Err EEXIST
            else if decide (filepath.Dir p ∈ dirs fs)
            then Ok (MkFS (<[p := MkFile data perm]> (files fs)) (dirs fs))
            else Err ENOENT
  end.

(** [os.Remove] of a regular file. *)
Definition Remove (fs : FS) (p : gostring) : result osError FS :=
  match files fs !! p with
  | Some _ => Ok (MkFS (delete p (files fs)) (dirs fs))
  | None => Err ENOENT
  end.

(** The directory and its ancestors, outermost last; [fuel] bounds the depth. *)
Fixpoint ancestors (fuel : nat) (p : gostring) : list gostring :=
  match fuel with
  | O => [p]
  | S f => let d := filepath.Dir p in
           if decide (d = p) then [p] else p :: ancestors f d
  end.

Definition MkdirAll (fs : FS) (p : gostring) : result osError FS :=
  let ds := ancestors (length p) p in
  if decide (Exists (fun d => is_Some (files fs !! d)) ds) then Err ENOTDIR
  else Ok (MkFS (files fs) (list_to_set ds ∪ dirs fs)).

(** Byte-wise lexical order, as [sort.Strings] uses. *)
Fixpoint bytesLe (s t : gostring) : bool :=
  match s, t with
  | [], _ => true
  | _ :: _, [] => false
  | a :: s, b :: t => (byte_val a <? byte_val b) || ((byte_val a =? byte_val b) && bytesLe s t)
  end.

Definition lexLe (s t : gostring) : Prop := bytesLe s t = true.
#[global] Instance lexLe_dec s t : Decision (lexLe s t).
Proof. unfold lexLe. apply _. Defined.

Definition sortStrings (l : list gostring) : list gostring := merge_sort lexLe l.

Definition Base (p : gostring) : gostring :=
  match cutLastByte slash p with Some (_, b) => b | None => p end.

(** The names in a directory with whether each is a directory, sorted. *)
Definition ReadDir (fs : FS) (p : gostring) : result osError (list (gostring * bool)) :=
  if decide (p ∈ dirs fs) then
    let here := fun q : gostring => bool_decide (filepath.Dir q = p) && negb (bool_decide (q = p)) in
    let fnames := Base <$> filter (fun q => here q = true) (elements (dom (files fs))) in
    let dnames := Base <$> filter (fun q => here q = true) (elements (dirs fs)) in
    Ok ((fun n => (n, bool_decide (n ∈ dnames))) <$> sortStrings (fnames ++ dnames))
  else match files fs !! p with Some _ => Err ENOTDIR | None => Err ENOENT end.

End os.

Example clean_ex :
  (filepath.Clean !"/a/./b/../c//d/", filepath.Clean !"a/../../b", filepath.Clean !"", filepath.Clean !"/..")
  = (!"/a/c/d", !"../b", !".", !"/").
Proof. reflexivity. Qed.
Example join_ex : filepath.Join [!"/etc/gsnet/vpn/invitations"; !"../wg.priv"] = !"/etc/gsnet/vpn/wg.priv".
Proof. reflexivity. Qed.
Example dir_ex : (filepath.Dir !"/a/b", filepath.Dir !"/a", filepath.Dir !"a") = (!"/a", !"/", !".").
Proof. reflexivity. Qed.

(** ** Lemmas *)

Lemma ReadFile_WriteFile fs p data perm fs' :
  os.WriteFile fs p data perm = Ok fs' -> os.ReadFile fs' p = Ok data.
Proof.
  unfold os.WriteFile, os.ReadFile. destruct (files fs !! p); [intros [= <-]|repeat case_decide; intros [= <-]];
    simpl; by rewrite lookup_insert_eq.
Qed.

Lemma files_WriteFile fs p data perm fs' q : os.WriteFile fs p data perm = Ok fs' -> q <> p ->
  files fs' !! q = files fs !! q /\ dirs fs' = dirs fs.
Proof.
  unfold os.WriteFile. intros Hw Hq.
  destruct (files fs !! p); [injection Hw as <-|repeat case_decide; inv_ok];
    simpl; by rewrite lookup_insert_ne.
Qed.

Lemma files_Remove fs p fs' q : os.Remove fs p = Ok fs' ->
  files fs' !! q = (if decide (p = q) then None else files fs !! q) /\ dirs fs' = dirs fs.
Proof.
  unfold os.Remove. destruct (files fs !! p); [|done]. intros [= <-]; simpl. by rewrite lookup_delete.
Qed.

Lemma files_MkdirAll fs p fs' : os.MkdirAll fs p = Ok fs' -> files fs' = files fs /\ dirs fs ⊆ dirs fs'.
Proof. unfold os.MkdirAll. case_decide; [done|]. intros [= <-]; simpl. split; [done|set_solver]. Qed.

Lemma CreateExclusive_Ok fs p data perm fs' :
  os.CreateExclusive fs p data perm = Ok fs' ->
  files fs !! p = None /\ files fs' = <[p := MkFile data perm]> (files fs) /\ dirs fs' = dirs fs.
Proof. unfold os.CreateExclusive. destruct (files fs !! p); [done|]. repeat case_decide; by intros [= <-]. Qed.
