(* ===== verification/FilePath.v ===== *)
(** * Cleaned paths

    [filepath.Clean] through the stack of components it keeps: two joined
    paths are equal only if their components are, which is what keeps the
    files of a configuration tree apart. *)

From Stdlib Require Import Ascii String ZArith Lia.
From stdpp Require Import base tactics list gmap strings.
From S2P Require Import Prelude.
From S2P Require Import GoStrings.
From S2P Require Import FS.

Module pathlib.
Import filepath.

Definition rooted (p : gostring) : bool := bool_decide (head p = Some slash).
Definition stackOf (p : gostring) : list gostring := foldl (push (rooted p)) [] (splitByte slash p).

Definition render (r : bool) (st : list gostring) : gostring :=
  let body := joinSlash (reverse st) in
  if r then slash :: body else match body with [] => !"." | _ => body end.

Lemma Clean_render p : Clean p = render (rooted p) (stackOf p).
Proof. reflexivity. Qed.

(** A proper file name: one component that [Clean] keeps. *)
Definition plain (c : gostring) : Prop := c <> [] /\ c <> !"." /\ c <> !".." /\ slash ∉ c.

(** The stacks [Clean] builds: [".."] only at the bottom of a relative path. *)
Inductive normal (r : bool) : list gostring -> Prop :=
| normal_nil : normal r []
| normal_plain c st : plain c -> normal r st -> normal r (c :: st)
| normal_dots st : r = false -> Forall (fun c => c = !"..") st -> normal r (!".." :: st).

Lemma normal_push r st c : slash ∉ c -> normal r st -> normal r (push r st c).
Proof.
  intros Hs Hn. unfold push. case_decide as H1; [done|]. case_decide as H2.
  - subst c. destruct Hn as [|c st [Hp1 [Hp2 [Hp3 Hp4]]] Hn|st Hr Hd].
    + destruct r; [constructor|]. by apply normal_dots.
    + by rewrite decide_False.
    + rewrite decide_True by done. apply normal_dots; [done|]. by constructor.
  - apply normal_plain; [|done]. unfold plain. tauto.
Qed.

Lemma normal_stackOf p : normal (rooted p) (stackOf p).
Proof.
  unfold stackOf. generalize (normal_nil (rooted p)). generalize (@nil gostring).
  pose proof (splitByte_notin slash p) as Hs. induction Hs as [|c cs Hc _ IH]; intros st Hn; [done|].
  cbn [foldl]. apply IH. by apply normal_push.
Qed.

Lemma push_normal r c st : normal r (c :: st) -> push r st c = c :: st.
Proof.
  intros Hn. inversion Hn as [|? ? (H1 & H2 & H3 & H4) _|? Hr Hd]; subst; unfold push.
  - rewrite !decide_False by tauto. done.
  - rewrite decide_False by (intros [|]; done). rewrite decide_True by done.
    destruct st as [|top rest]; [done|]. apply List.Forall_inv in Hd. subst top. by rewrite decide_True.
Qed.

Lemma normal_tail r c st : normal r (c :: st) -> normal r st.
Proof.
  inversion 1 as [|? ? _ Hn|? Hr Hd]; subst; [done|].
  clear -Hd. induction Hd as [|c st -> Hd IH]; constructor; done.
Qed.

Lemma foldl_push_normal r st : normal r st -> foldl (push r) [] (reverse st) = st.
Proof.
  induction st as [|c st IH]; intros Hn; [done|]. rewrite reverse_cons, foldl_app, IH by by eapply normal_tail.
  by apply push_normal.
Qed.

Lemma splitByte_app_sep c a b : splitByte c (a ++ c :: b) = splitByte c a ++ splitByte c b.
Proof.
  induction a as [|x a IH]; cbn [app splitByte].
  - pose proof (splitByte_ne c b). destruct (splitByte c b); [done|]. by rewrite decide_True.
  - rewrite IH. pose proof (splitByte_ne c a). destruct (splitByte c a) as [|q qs]; [done|].
    cbn [app]. by case_decide.
Qed.

Lemma splitByte_joinSlash cs : cs <> [] -> Forall (fun c => slash ∉ c) cs -> splitByte slash (joinSlash cs) = cs.
Proof.
  intros Hne Hf. induction Hf as [|c cs Hc Hf IH]; [done|]. destruct cs as [|c' cs].
  - by apply splitByte_none.
  - change (joinSlash (c :: c' :: cs)) with (c ++ slash :: joinSlash (c' :: cs)).
    rewrite splitByte_app by done. by rewrite IH.
Qed.

Lemma normal_notin r st : normal r st -> Forall (fun c => c <> [] /\ slash ∉ c) st.
Proof.
  assert (slash ∉ !"..") as Hdd by (apply (bool_decide_unpack _); vm_compute; exact I).
  induction 1 as [|c st (H1 & _ & _ & H4) _ IH|st _ Hd]; [constructor|by constructor|].
  constructor; [done|]. eapply Forall_impl; [exact Hd|]. by intros ? ->.
Qed.

Lemma joinSlash_head cs c : head (joinSlash (c :: cs)) = head (c ++ match cs with [] => [] | _ => [slash] end).
Proof. destruct cs as [|c' cs]; cbn [joinSlash]; [by rewrite app_nil_r|]. by destruct c. Qed.

Lemma body_cases r st : normal r st ->
  (st = [] /\ joinSlash (reverse st) = []) \/
  (joinSlash (reverse st) <> [] /\ head (joinSlash (reverse st)) <> Some slash /\
   splitByte slash (joinSlash (reverse st)) = reverse st).
Proof.
  intros Hn. destruct st as [|c0 st0]; [by left|right].
  assert (Forall (fun c => c <> [] /\ slash ∉ c) (reverse (c0 :: st0))) as Hf.
  { apply Forall_reverse. by eapply normal_notin. }
  assert (reverse (c0 :: st0) <> []) as Hne by (rewrite reverse_cons; by destruct (reverse st0)).
  destruct (reverse (c0 :: st0)) as [|c cs] eqn:E; [done|]. clear E Hne Hn.
  pose proof Hf as [[Hc Hs] _]%Forall_cons. split_and!.
  - intros Hj. assert (head (joinSlash (c :: cs)) = None) as Hh by by rewrite Hj.
    rewrite joinSlash_head in Hh. by destruct c.
  - rewrite joinSlash_head. destruct c as [|x c]; [done|]. cbn. intros [= ->]. apply Hs. by left.
  - apply splitByte_joinSlash; [done|]. eapply Forall_impl; [exact Hf|]. by intros ? [_ ?].
Qed.

(** Cleaning a path keeps its stack: paths with different stacks differ. *)
Lemma rooted_render r st : normal r st -> rooted (render r st) = r.
Proof.
  intros Hn. unfold render, rooted. destruct r; [done|]. apply bool_decide_eq_false.
  destruct (body_cases _ _ Hn) as [[-> _]|(Hne & Hh & _)]; [done|]. by destruct (joinSlash _).
Qed.

Lemma stackOf_render r st : normal r st -> stackOf (render r st) = st.
Proof.
  intros Hn. unfold stackOf. rewrite rooted_render by done. unfold render.
  destruct (body_cases _ _ Hn) as [[-> Hb]|(Hne & Hh & Hs)].
  - rewrite Hb. by destruct r.
  - destruct r.
    + change (slash :: joinSlash (reverse st)) with ([] ++ slash :: joinSlash (reverse st)).
      rewrite splitByte_app_sep, Hs. cbn [splitByte app foldl]. by apply foldl_push_normal.
    + destruct (joinSlash (reverse st)) as [|x b] eqn:E; [done|]. rewrite <- E in *. rewrite Hs. by apply foldl_push_normal.
Qed.

Lemma stackOf_Clean p : stackOf (Clean p) = stackOf p /\ rooted (Clean p) = rooted p.
Proof.
  rewrite Clean_render. pose proof (normal_stackOf p). split; [by apply stackOf_render|by apply rooted_render].
Qed.

(** Joining a file name to a directory pushes it. *)
Lemma stackOf_Join d c : plain c -> stackOf (Join [d; c]) = c :: stackOf d /\ rooted (Join [d; c]) = rooted d.
Proof.
  intros (H1 & H2 & H3 & H4). unfold Join.
  assert (push (rooted d) (stackOf d) c = c :: stackOf d) as Hpush by (unfold push; rewrite !decide_False by tauto; done).
  destruct (decide (d = [])) as [->|Hd].
  - rewrite filter_cons_False, filter_cons_True, filter_nil by auto. cbn [joinSlash].
    destruct (stackOf_Clean c) as [-> ->]. unfold stackOf. rewrite splitByte_none by done.
    assert (rooted c = false) as ->.
    { apply bool_decide_eq_false. destruct c as [|x c]; [done|]. intros [= ->]. apply H4. by left. }
    split; [exact Hpush|done].
  - rewrite !filter_cons_True, filter_nil by done. cbn [joinSlash].
    destruct (stackOf_Clean (d ++ slash :: c)) as [-> ->].
    assert (rooted (d ++ slash :: c) = rooted d) as Hr by (by destruct d).
    split; [|exact Hr]. unfold stackOf at 1. rewrite Hr, splitByte_app_sep, foldl_app.
    rewrite (splitByte_none slash c) by done. exact Hpush.
Qed.

(** The directory of a cleaned path pops it. *)
Lemma stackOf_Dir r c st : normal r (c :: st) ->
  stackOf (Dir (render r (c :: st))) = st /\ rooted (Dir (render r (c :: st))) = r.
Proof.
  intros Hn. pose proof (normal_notin _ _ Hn) as [[Hc Hs] _]%Forall_cons.
  pose proof (normal_tail _ _ _ Hn) as Ht.
  assert (forall d, cutLastByte slash (d ++ slash :: c) = Some (d, c)) as Hcut
    by (intros d; by apply cutLastByte_Some).
  destruct (decide (st = [])) as [->|Hst].
  - unfold render, Dir. change (joinSlash (reverse [c])) with c. destruct r.
    + change (slash :: c) with ([] ++ slash :: c). by rewrite Hcut.
    + destruct c as [|x c]; [done|].
      destruct (cutLastByte slash (x :: c)) as [[a b]|] eqn:E; [|done].
      apply cutLastByte_Some in E as [E _]. exfalso. apply Hs. rewrite E, elem_of_app, elem_of_cons. tauto.
  - assert (render r (c :: st) = render r st ++ slash :: c) as ->.
    { unfold render. rewrite reverse_cons.
      assert (forall l, l <> [] -> joinSlash (l ++ [c]) = joinSlash l ++ slash :: c) as Hj.
      { intros l. induction l as [|y [|z l] IHl]; intros Hl; [done|done|].
        change (joinSlash ((y :: z :: l) ++ [c])) with (y ++ slash :: joinSlash ((z :: l) ++ [c])).
        rewrite IHl by done. cbn [joinSlash]. by rewrite <- (assoc_L (++)). }
      rewrite Hj by (intros Hr; apply Hst; rewrite <- (reverse_involutive st), Hr; done).
      destruct r; [done|]. destruct (body_cases _ _ Ht) as [[? _]|(Hne & _)]; [done|].
      by destruct (joinSlash (reverse st)). }
    unfold Dir. rewrite Hcut.
    destruct (stackOf_Clean (render r st ++ [slash])) as [-> ->].
    assert (rooted (render r st ++ [slash]) = rooted (render r st)) as Hr.
    { pose proof (rooted_render _ _ Ht) as Hr'. unfold render in *.
      destruct r; [done|]. destruct (body_cases _ _ Ht) as [[? _]|(Hne & _)]; [done|].
      by destruct (joinSlash (reverse st)). }
    unfold stackOf at 1. rewrite Hr, rooted_render by done. split; [|done].
    rewrite splitByte_app_sep, foldl_app. cbn [splitByte foldl push].
    pose proof (stackOf_render _ _ Ht) as Hs'. unfold stackOf in Hs'. rewrite rooted_render in Hs' by done.
    by rewrite Hs'.
Qed.

(** ** Paths in clean form *)

Definition cleanPath (q : gostring) : Prop := q = render (rooted q) (stackOf q).

Lemma cleanPath_Clean x : cleanPath (Clean x).
Proof. unfold cleanPath. destruct (stackOf_Clean x) as [-> ->]. apply Clean_render. Qed.

Lemma cleanPath_Join d c : c <> [] -> cleanPath (Join [d; c]).
Proof.
  intros Hc. unfold Join. destruct (filter _ _) as [|e es] eqn:Ef; [|apply cleanPath_Clean].
  assert (c ∈ filter (fun e : gostring => e <> []) [d; c]) as Hin
    by (apply list_elem_of_filter; split; [done|set_solver]).
  rewrite Ef in Hin. by apply elem_of_nil in Hin.
Qed.

Lemma cleanPath_Dir x : cleanPath (Dir x).
Proof. unfold Dir. destruct (cutLastByte slash x) as [[d b]|]; [apply cleanPath_Clean|reflexivity]. Qed.

Lemma stackOf_Dir_clean q : cleanPath q -> stackOf (Dir q) = tail (stackOf q).
Proof.
  intros Hq. pose proof (normal_stackOf q) as Hn. destruct (stackOf q) as [|c st] eqn:Es.
  - rewrite Hq, Es. unfold render. cbn. by destruct (rooted q).
  - rewrite Hq, Es. by apply stackOf_Dir.
Qed.

(** The ancestors of a directory are prefixes of its component list. *)
Lemma ancestors_stack n q d : cleanPath q -> d ∈ os.ancestors n q -> exists j, stackOf d = drop j (stackOf q).
Proof.
  revert q. induction n as [|n IH]; intros q Hq; cbn [os.ancestors].
  - intros ->%list_elem_of_singleton. by exists 0.
  - case_decide; [intros ->%list_elem_of_singleton; by exists 0|].
    intros [->|Hd]%elem_of_cons; [by exists 0|].
    apply IH in Hd as [j Hj]; [|apply cleanPath_Dir]. rewrite stackOf_Dir_clean in Hj by done.
    exists (S j). rewrite Hj. by destruct (stackOf q), j.
Qed.

(** ** Files in a directory *)

Lemma Dir_Join d c : plain c -> cleanPath d -> Dir (Join [d; c]) = d.
Proof.
  intros Hc Hd. destruct (stackOf_Join d c Hc) as [Hs Hr].
  assert (cleanPath (Join [d; c])) as Hq by (apply cleanPath_Join; by destruct Hc).
  pose proof (normal_stackOf (Join [d; c])) as Hn. rewrite Hs, Hr in Hn.
  unfold cleanPath in Hq. rewrite Hs, Hr in Hq. destruct (stackOf_Dir _ _ _ Hn) as [H1 H2].
  rewrite Hq, (cleanPath_Dir (render _ _)), H1, H2. by rewrite <- Hd.
Qed.

(** Siblings have the same directory, in clean form or not. *)
Lemma Dir_sibling d c c' : plain c -> plain c' -> Dir (Join [d; c]) = Dir (Join [d; c']).
Proof.
  assert (forall x, plain x -> Dir (Join [d; x]) = render (rooted d) (stackOf d)) as Hx; [|by intros; rewrite !Hx].
  intros x Hx. destruct (stackOf_Join d x Hx) as [Hs Hr].
  assert (cleanPath (Join [d; x])) as Hq by (apply cleanPath_Join; by destruct Hx).
  pose proof (normal_stackOf (Join [d; x])) as Hn. rewrite Hs, Hr in Hn.
  unfold cleanPath in Hq. rewrite Hs, Hr in Hq. destruct (stackOf_Dir _ _ _ Hn) as [H1 H2].
  by rewrite Hq, (cleanPath_Dir (render _ _)), H1, H2.
Qed.

Lemma Dir_ancestor d : d <> [] -> Dir d ∈ os.ancestors (length d) d.
Proof.
  intros Hd. destruct d as [|b d]; [done|]. cbn [length os.ancestors].
  case_decide as E; [rewrite E; left|]. right. destruct (length d); cbn [os.ancestors]; [|case_decide]; left.
Qed.

(** What is not an ancestor: deeper paths, and siblings. *)
Lemma deeper_not_ancestor d q n : cleanPath d -> length (stackOf d) < length (stackOf q) -> q ∉ os.ancestors n d.
Proof.
  intros Hd Hl Hin. apply ancestors_stack in Hin as [j Hj]; [|done]. rewrite Hj, length_drop in Hl. lia.
Qed.

Lemma sibling_not_ancestor d q n : cleanPath d -> length (stackOf d) = length (stackOf q) -> stackOf d <> stackOf q ->
  q ∉ os.ancestors n d.
Proof.
  intros Hd Hl Hne Hin. apply ancestors_stack in Hin as [[|j] Hj]; [by rewrite drop_0 in Hj| |done].
  rewrite Hj, length_drop in Hl. destruct (stackOf d); [|cbn [length] in Hl; lia].
  rewrite Hj in Hne. by destruct j.
Qed.

(** A component that starts with two dots leaves the directory. *)
Lemma Join_dotdot d sub c : plain sub -> plain c -> Join [Join [d; sub]; !"../" ++ c] = Join [d; c].
Proof.
  intros Hs Hc. destruct (stackOf_Join d sub Hs) as [Hst Hr]. destruct (stackOf_Join d c Hc) as [Hst2 Hr2].
  assert (Join [d; sub] <> []) as Hne by (intros He; by rewrite He in Hst).
  assert (cleanPath (Join [d; c])) as Hw by (apply cleanPath_Join; by destruct Hc).
  rewrite Hw, Hst2, Hr2, <- Hr. set (D := Join [d; sub]) in *.
  unfold Join at 1. rewrite !filter_cons_True, filter_nil by (done || discriminate). cbn [joinSlash].
  assert (rooted (D ++ slash :: !"../" ++ c) = rooted D) as Hrr by (by destruct D).
  rewrite Clean_render, Hrr. f_equal. unfold stackOf at 1. rewrite Hrr, splitByte_app_sep, foldl_app.
  change (foldl (push (rooted D)) [] (splitByte slash D)) with (stackOf D). rewrite Hst.
  assert (splitByte slash (!"../" ++ c) = [!".."; c]) as ->.
  { change (!"../" ++ c) with (!".." ++ slash :: c). destruct Hc as (_ & _ & _ & Hc).
    rewrite splitByte_app by (apply (bool_decide_unpack _); vm_compute; exact I). by rewrite splitByte_none. }
  destruct Hs as (Hs1 & Hs2 & Hs3 & _), Hc as (Hc1 & Hc2 & Hc3 & _). cbn [foldl].
  assert (push (rooted D) (sub :: stackOf d) !".." = stackOf d) as ->.
  { unfold push. rewrite decide_False by (intros [|]; discriminate). rewrite decide_True by done. by rewrite decide_False. }
  unfold push. rewrite decide_False by naive_solver. by rewrite decide_False.
Qed.

(** Nothing on the way to [d] is a file. *)
Definition dirFree (fs : FS) (d : gostring) : Prop :=
  Forall (fun a => files fs !! a = None) (os.ancestors (length d) d).

#[global] Instance dirFree_dec fs d : Decision (dirFree fs d).
Proof. unfold dirFree. apply _. Defined.

Lemma MkdirAll_free fs d : dirFree fs d ->
  os.MkdirAll fs d = Ok (MkFS (files fs) (list_to_set (os.ancestors (length d) d) ∪ dirs fs)).
Proof.
  intros Hd. unfold os.MkdirAll. rewrite decide_False; [done|]. rewrite Exists_exists.
  intros (a & Ha & [f Hf]). eapply Forall_forall in Hd; [|exact Ha]. congruence.
Qed.

Lemma ancestors_self n d : d ∈ os.ancestors n d.
Proof. destruct n; cbn [os.ancestors]; [|case_decide]; left. Qed.

Lemma file_not_ancestor d c n : cleanPath d -> plain c -> Join [d; c] ∉ os.ancestors n d.
Proof.
  intros Hd Hc Hin. apply ancestors_stack in Hin as [j Hj]; [|done].
  destruct (stackOf_Join d c Hc) as [Hs _]. rewrite Hs in Hj. apply (f_equal length) in Hj.
  rewrite length_drop in Hj. cbn [length] in Hj. lia.
Qed.

(** [MkdirAll] and then [WriteFile] of a plain name in that directory. *)
Lemma mkdir_write fs d c data perm : cleanPath d -> plain c -> dirFree fs d -> Join [d; c] ∉ dirs fs ->
  exists fs1 fs2 m, os.MkdirAll fs d = Ok fs1 /\ os.WriteFile fs1 (Join [d; c]) data perm = Ok fs2 /\
    files fs1 = files fs /\ files fs2 = <[Join [d; c] := MkFile data m]> (files fs) /\
    dirs fs1 = list_to_set (os.ancestors (length d) d) ∪ dirs fs /\ dirs fs2 = dirs fs1.
Proof.
  intros Hd Hc Hfree Hnd. set (fs1 := MkFS (files fs) (list_to_set (os.ancestors (length d) d) ∪ dirs fs)).
  exists fs1. assert (exists m, os.WriteFile fs1 (Join [d; c]) data perm
    = Ok (MkFS (<[Join [d; c] := MkFile data m]> (files fs)) (dirs fs1))) as [m Hw].
  { unfold os.WriteFile. cbn [files dirs fs1]. destruct (files fs !! Join [d; c]) as [f|]; [by exists (mode f)|].
    exists perm. rewrite decide_False, decide_True; [done| |].
    - rewrite Dir_Join by done. apply elem_of_union_l, elem_of_list_to_set, ancestors_self.
    - rewrite elem_of_union, elem_of_list_to_set. intros [Hin|Hin]; [|done]. by eapply file_not_ancestor. }
  eexists _, m. split_and!; [by apply MkdirAll_free|exact Hw|reflexivity..].
Qed.

(** Writing a file in a directory keeps the ways to that directory and to its
    siblings free. *)
Lemma dirFree_insert fs d q f : dirFree fs d -> q ∉ os.ancestors (length d) d ->
  dirFree (MkFS (<[q := f]> (files fs)) (dirs fs)) d.
Proof.
  intros Hd Hq. apply Forall_forall. intros a Ha. cbn [files]. rewrite lookup_insert_ne by (by intros ->).
  by eapply (Forall_forall (fun a => files fs !! a = None)) in Hd.
Qed.
End pathlib.
