(* ===== verification/Config.v ===== *)
(** * Configuration files (internal/config/parser.go)

    Line-oriented [Key = Value] files: parsing, lookup (case-insensitive on
    keys) and rendering, and loading a primary file with its [conf.d]
    fragments.  The reader is given as the bytes it yields. *)

From Stdlib Require Import Ascii String ZArith Lia.
From stdpp Require Import base tactics list gmap strings.
From S2P Require Import Prelude.
From S2P Require Import GoStrings.
From S2P Require Import FS.

Module config.

Record Entry := MkEntry { Key : gostring; Value : gostring }.

#[global] Instance Entry_eq_dec : EqDecision Entry.
Proof. solve_decision. Defined.

Abbreviation Entries := (list Entry).

Inductive error :=
| ErrMissingValue (line : gostring)
| ErrEmptyKey (line : gostring)
| ErrEmptyValue (line : gostring)
| ErrTooLong
| ErrOS (e : osError).

#[global] Instance error_eq_dec : EqDecision error.
Proof. solve_decision. Defined.

(** The known keys, by their lower-case spelling. *)
Definition canonicalList : list (gostring * gostring) := [
  (!"address", !"Address"); (!"addressfamily", !"AddressFamily");
   (!"autoconnect", !"AutoConnect"); (!"bindtoaddress", !"BindToAddress");
   (!"bindtointerface", !"BindToInterface"); (!"broadcast", !"Broadcast");
   (!"broadcastsubnet", !"BroadcastSubnet"); (!"cipher", !"Cipher"); (!"clampmss", !"ClampMSS");
   (!"compression", !"Compression"); (!"connectto", !"ConnectTo");
   (!"decrementttl", !"DecrementTTL"); (!"device", !"Device");
   (!"devicestandby", !"DeviceStandby"); (!"devicetype", !"DeviceType"); (!"digest", !"Digest");
   (!"directonly", !"DirectOnly"); (!"ed25519publickey", !"Ed25519PublicKey");
   (!"ed25519privatekey", !"Ed25519PrivateKey"); (!"forwarding", !"Forwarding");
   (!"fwmark", !"FWMark"); (!"hostnames", !"Hostnames"); (!"ifconfig", !"Ifconfig");
   (!"iffonequeue", !"IffOneQueue"); (!"indirectdata", !"IndirectData");
   (!"interface", !"Interface"); (!"invitationexpire", !"InvitationExpire");
   (!"keyexpire", !"KeyExpire"); (!"listenaddress", !"ListenAddress");
   (!"localdiscovery", !"LocalDiscovery"); (!"loglevel", !"LogLevel");
   (!"maclength", !"MACLength"); (!"macexpire", !"MACExpire");
   (!"maxconnectionburst", !"MaxConnectionBurst"); (!"maxtimeout", !"MaxTimeout");
   (!"mode", !"Mode"); (!"mtuinfointerval", !"MTUInfoInterval"); (!"name", !"Name");
   (!"netname", !"Netname"); (!"pmtu", !"PMTU"); (!"pmtudiscovery", !"PMTUDiscovery");
   (!"pinginterval", !"PingInterval"); (!"pingtimeout", !"PingTimeout"); (!"port", !"Port");
   (!"priorityinheritance", !"PriorityInheritance"); (!"processpriority", !"ProcessPriority");
   (!"proxy", !"Proxy"); (!"replaywindow", !"ReplayWindow"); (!"route", !"Route");
   (!"sandbox", !"Sandbox"); (!"scriptsextension", !"ScriptsExtension");
   (!"scriptsinterpreter", !"ScriptsInterpreter"); (!"strictsubnets", !"StrictSubnets");
   (!"subnet", !"Subnet"); (!"tcponly", !"TCPOnly"); (!"tunnelserver", !"TunnelServer");
   (!"udpdiscovery", !"UDPDiscovery"); (!"udpdiscoveryinterval", !"UDPDiscoveryInterval");
   (!"udpdiscoverykeepaliveinterval", !"UDPDiscoveryKeepaliveInterval");
   (!"udpdiscoverytimeout", !"UDPDiscoveryTimeout"); (!"udpinfointerval", !"UDPInfoInterval");
   (!"udprcvbuf", !"UDPRcvBuf"); (!"udpsndbuf", !"UDPSndBuf"); (!"upnp", !"UPnP");
   (!"upnpdiscoverwait", !"UPnPDiscoverWait"); (!"upnprefreshperiod", !"UPnPRefreshPeriod");
   (!"weight", !"Weight"); (!"wgpublickey", !"WGPublicKey"); (!"wgprivatekey", !"WGPrivateKey");
   (!"wgendpoint", !"WGEndpoint")].

Definition canonical : gmap gostring gostring := list_to_map canonicalList.

Section config.
Context `{Unicode}.

Definition canonicalKey (k : gostring) : gostring :=
  match canonical !! ToLower k with
  | Some c => c
  | None => k
  end.

Definition eqSign : byte := to_byte 61.

Definition parseLine (s : gostring) : result error Entry :=
  kv ← match cutByte eqSign s with
       | Some (k, v) => Ok (TrimSpace k, TrimSpace v)
       | None =>
           match Fields s with
           | f0 :: _ :: _ => Ok (f0, TrimSpace (drop (length f0) s))
           | _ => Err (ErrMissingValue s)
           end
       end;
  let '(key, value) := kv in
  if decide (key = []) then Err (ErrEmptyKey s)
  else if decide (value = []) then Err (ErrEmptyValue s)
  else Ok (MkEntry (canonicalKey key) value).

(** The body of the scan loop: blank lines and comments are skipped, the
    first malformed line ends the parse. *)
Fixpoint parseLines (ls : list gostring) : result error Entries :=
  match ls with
  | [] => Ok []
  | l :: ls =>
      let line := TrimSpace l in
      if decide (line = [] \/ HasPrefix line !"#" = true) then parseLines ls
      else e ← parseLine line; es ← parseLines ls; Ok (e :: es)
  end.

Definition Parse (r : bytes) : result error Entries :=
  let '(ls, tooLong) := scanLines r in
  es ← parseLines ls;
  if tooLong : bool then Err ErrTooLong else Ok es.

Definition ParseFile (fs : FS) (path : gostring) : result error Entries :=
  match os.ReadFile fs path with
  | Err e => Err (ErrOS e)
  | Ok b => Parse b
  end.

Definition isNotExist (e : error) : bool :=
  match e with ErrOS e => os.IsNotExist e | _ => false end.

Fixpoint loadAll (fs : FS) (confd : gostring) (acc : Entries) (names : list gostring)
  : result error Entries :=
  match names with
  | [] => Ok acc
  | n :: ns => es ← ParseFile fs (filepath.Join [confd; n]); loadAll fs confd (acc ++ es) ns
  end.

Definition LoadDirectory (fs : FS) (primaryPath : gostring) : result error Entries :=
  entries ← match ParseFile fs primaryPath with
            | Ok es => Ok es
            | Err e => if isNotExist e then Ok [] else Err e
            end;
  let confd := filepath.Join [filepath.Dir primaryPath; !"conf.d"] in
  match os.ReadDir fs confd with
  | Err e => if os.IsNotExist e then Ok entries else Err (ErrOS e)
  | Ok des =>
      let names := (filter (fun de => de.2 = false /\ HasSuffix de.1 !".conf" = true) des).*1 in
      loadAll fs confd entries (os.sortStrings names)
  end.

Definition matches (key : gostring) (e : Entry) : Prop := EqualFold (Key e) key = true.

#[global] Instance matches_dec key e : Decision (matches key e).
Proof. unfold matches. apply _. Defined.

Fixpoint GetFirst (es : Entries) (key : gostring) : option gostring :=
  match es with
  | [] => None
  | e :: es => if EqualFold (Key e) key then Some (Value e) else GetFirst es key
  end.

Fixpoint GetAll (es : Entries) (key : gostring) : list gostring :=
  match es with
  | [] => []
  | e :: es => if EqualFold (Key e) key then Value e :: GetAll es key else GetAll es key
  end.

Definition renderLine (e : Entry) : gostring := Key e ++ !" = " ++ Value e.

Definition Render (es : Entries) : gostring := es ≫= (fun e => renderLine e ++ [nl]).
End config.

(** ** Lemmas *)

(** Every canonical spelling is plain ASCII text that maps to itself. *)
Definition canonicalOk (c : gostring) : Prop :=
  c <> [] /\ Forall plainByte c /\ (to_byte 61 ∉ c) /\ head c <> Some (to_byte 35) /\
  canonical !! (lowerByte <$> c) = Some c.

#[global] Instance canonicalOk_dec c : Decision (canonicalOk c).
Proof. unfold canonicalOk. apply _. Defined.

Lemma canonical_ok : Forall (fun p => canonicalOk p.2) canonicalList.
Proof. apply (bool_decide_unpack _). vm_compute. exact I. Qed.

Lemma canonical_lookup k c : canonical !! k = Some c -> canonicalOk c.
Proof.
  intros Hk%elem_of_list_to_map_2.
  pose proof canonical_ok as Hf. by eapply (Forall_forall (fun p => canonicalOk p.2)) in Hf; [|exact Hk].
Qed.

Lemma plain_ascii s : Forall plainByte s -> Forall asciiByte s.
Proof. intros Hs. eapply Forall_impl; [exact Hs|]. unfold plainByte, asciiByte. lia. Qed.

Lemma not_plain_nl : ~ plainByte nl.
Proof. apply (bool_decide_unpack _). vm_compute. exact I. Qed.

Lemma plain_no_nl s : Forall plainByte s -> nl ∉ s.
Proof. intros Hs Hin. eapply Forall_forall in Hs; [|exact Hin]. by apply not_plain_nl. Qed.

Section lemmas.
Context `{Unicode}.
Implicit Types (es : Entries) (e : Entry) (k v : gostring).

Lemma canonicalKey_canonical c k : canonical !! k = Some c -> canonicalKey c = c.
Proof.
  intros (_ & Hp & _ & _ & Hl)%canonical_lookup. unfold canonicalKey.
  rewrite ToLower_ascii by by apply plain_ascii. by rewrite Hl.
Qed.

Lemma canonicalKey_idemp k : canonicalKey (canonicalKey k) = canonicalKey k.
Proof.
  unfold canonicalKey at 2 3. destruct (canonical !! ToLower k) as [c|] eqn:E.
  - by eapply canonicalKey_canonical.
  - unfold canonicalKey. by rewrite E.
Qed.

(** What a parsed entry looks like; it is also what makes an entry survive
    rendering. *)
Record wfEntry (e : Entry) : Prop := {
  wk_ne : Key e <> [];
  wk_trim : trimmed (Key e);
  wk_eq : eqSign ∉ Key e;
  wk_nl : nl ∉ Key e;
  wk_hash : head (Key e) <> Some (to_byte 35);
  wk_canon : canonicalKey (Key e) = Key e;
  wv_ne : Value e <> [];
  wv_trim : trimmed (Value e);
  wv_nl : nl ∉ Value e
}.

(** The rendered line fits the scanner's buffer. *)
Definition fits (e : Entry) : Prop := (Z.of_nat (length (renderLine e)) <= maxLine)%Z.

Lemma Render_unlines es : Render es = unlines (renderLine <$> es).
Proof.
  induction es as [|e es IH]; [done|]. rewrite fmap_cons, unlines_cons, <- IH.
  unfold Render. rewrite bind_cons. by rewrite <- app_assoc.
Qed.

Lemma renderLine_trimmed e : wfEntry e -> trimmed (renderLine e).
Proof. intros []. by apply trimmed_app. Qed.

Lemma scanLine_renderLine e : wfEntry e -> fits e -> scanLine (renderLine e).
Proof.
  intros [] Hf. split; [|done]. unfold renderLine. rewrite !not_elem_of_app.
  split_and!; [done| |done]. apply (bool_decide_unpack _). vm_compute. exact I.
Qed.

Lemma parseLine_renderLine e : wfEntry e -> parseLine (renderLine e) = Ok e.
Proof.
  intros []. unfold parseLine.
  assert (cutByte eqSign (renderLine e) = Some (Key e ++ [sp], sp :: Value e)) as ->.
  { apply cutByte_Some. split; [unfold renderLine; by rewrite <- app_assoc|].
    rewrite not_elem_of_app. split; [done|]. apply (bool_decide_unpack _). vm_compute. exact I. }
  cbn [mbind result_bind]. rewrite TrimSpace_sp_r, TrimSpace_sp_l by done.
  rewrite !decide_False by done. rewrite wk_canon0. by destruct e.
Qed.

Lemma notComment_renderLine e : wfEntry e ->
  ~ (renderLine e = [] \/ HasPrefix (renderLine e) !"#" = true).
Proof.
  intros []. unfold renderLine. destruct (Key e) as [|b k]; [done|].
  intros [|Hp]; [done|]. apply bool_decide_eq_true in Hp as [r Hr]. by injection Hr as ->.
Qed.

Lemma parseLines_render es : Forall wfEntry es -> parseLines (renderLine <$> es) = Ok es.
Proof.
  induction 1 as [|e es He Hes IH]; [done|]. cbn [fmap list_fmap parseLines].
  rewrite TrimSpace_id by by apply renderLine_trimmed.
  rewrite decide_False by by apply notComment_renderLine.
  rewrite parseLine_renderLine by done. cbn [mbind result_bind].
  change (list_fmap _ _ renderLine es) with (renderLine <$> es). by rewrite IH.
Qed.

Lemma Parse_Render es : Forall wfEntry es -> Forall fits es -> Parse (Render es) = Ok es.
Proof.
  intros Hw Hf. unfold Parse. rewrite Render_unlines, scanLines_unlines.
  - assert (dropCR <$> (renderLine <$> es) = renderLine <$> es) as ->.
    { clear Hf. induction Hw as [|e es He Hes IH]; [done|]. rewrite !fmap_cons, IH.
      by rewrite dropCR_trimmed by by apply renderLine_trimmed. }
    by rewrite parseLines_render.
  - apply Forall_fmap. apply Forall_forall. intros e He.
    apply scanLine_renderLine; by eapply Forall_forall.
Qed.

(** Conversely, every entry [Parse] returns is well formed. *)
Lemma wfEntry_make k v (line : gostring) : nl ∉ line -> k <> [] -> v <> [] ->
  trimmed k -> trimmed v -> eqSign ∉ k -> head k <> Some (to_byte 35) ->
  (forall c, c ∈ k \/ c ∈ v -> c ∈ line) ->
  wfEntry (MkEntry (canonicalKey k) v).
Proof.
  intros Hnl Hk Hv Htk Htv Heq Hh Hsub.
  assert (nl ∉ v) by (intros Hc; apply Hnl, Hsub; by right).
  assert (canonicalKey (canonicalKey k) = canonicalKey k) as Hid by apply canonicalKey_idemp.
  unfold canonicalKey at 2 3 in Hid. unfold canonicalKey.
  destruct (canonical !! ToLower k) as [c|] eqn:E.
  - apply canonical_lookup in E as (Hne & Hp & Hq & Hd & _).
    split; simpl; auto using trimmed_plain, plain_no_nl.
  - split; simpl; auto.
Qed.

Lemma parseLine_wf (line : gostring) e : trimmed line -> nl ∉ line -> head line <> Some (to_byte 35) ->
  parseLine line = Ok e -> wfEntry e.
Proof.
  intros [Htl _] Hnl Hh. unfold parseLine.
  destruct (cutByte eqSign line) as [[a b]|] eqn:Ec; cbn [mbind result_bind].
  - apply cutByte_Some in Ec as [-> Ha]. repeat case_decide; try done. intros [= <-].
    eapply wfEntry_make; eauto using TrimSpace_trimmed.
    + intros Hc. by apply Ha, TrimSpace_sublist.
    + intros Hd. apply Hh. destruct (TrimSpace a) as [|x t] eqn:Ea; [done|].
      assert (a <> []) by (by intros ->).
      apply TrimSpace_head in Ea; [|by eapply encLen_prefix; [apply separable_space|by apply prefix_app_r|]].
      destruct a; [done|]. simpl in *. congruence.
    + intros c [Hc%TrimSpace_sublist|Hc%TrimSpace_sublist]; rewrite elem_of_app, elem_of_cons; tauto.
  - apply cutByte_None in Ec. pose proof (Fields_tokens line) as Ht.
    destruct (Fields line) as [|f0 [|f1 fs]] eqn:Ef; try done. cbn.
    repeat case_decide; try done. intros [= <-].
    apply Fields_first in Ef as [r Hr]; [|done]. apply Forall_cons in Ht as [Ht _].
    eapply wfEntry_make; eauto using TrimSpace_trimmed, token_trimmed.
    + intros Hc. apply Ec. rewrite Hr. apply elem_of_app. by left.
    + intros Hd. apply Hh. rewrite Hr. by destruct f0.
    + intros c [Hc|Hc%TrimSpace_sublist]; rewrite Hr, elem_of_app; [by left|].
      rewrite Hr, drop_app_length in Hc. by right.
Qed.

Lemma parseLines_wf (ls : list gostring) es : Forall (fun l : gostring => nl ∉ l) ls -> parseLines ls = Ok es -> Forall wfEntry es.
Proof.
  intros Hls. revert es. induction Hls as [|l ls Hl Hls IH]; intros es; simpl.
  - intros [= <-]. constructor.
  - case_decide as Hc; [apply IH|].
    destruct (parseLine (TrimSpace l)) as [e|] eqn:Ee; simpl; [|done].
    destruct (parseLines ls) as [es'|]; simpl; [|done]. intros [= <-]. constructor; [|by apply IH].
    eapply parseLine_wf; [apply TrimSpace_trimmed| | |exact Ee].
    + intros Hin. by apply Hl, TrimSpace_sublist.
    + intros Hh. apply Hc. right. destruct (TrimSpace l) as [|b t]; [done|].
      injection Hh as ->. apply bool_decide_eq_true. by exists t.
Qed.

Lemma Parse_wf r es : Parse r = Ok es -> Forall wfEntry es.
Proof.
  unfold Parse. pose proof (scanLines_notin r) as Hn. destruct (scanLines r) as [ls []]; simpl in *;
    destruct (parseLines ls) as [es'|] eqn:E; simpl; try done.
  intros [= <-]. by eapply parseLines_wf.
Qed.

Lemma GetFirst_head es k : GetFirst es k = head (GetAll es k).
Proof. induction es as [|e es IH]; simpl; [done|]. by destruct (EqualFold (Key e) k). Qed.

Lemma GetAll_filter es k : GetAll es k = Value <$> filter (matches k) es.
Proof.
  induction es as [|e es IH]; simpl; [done|]. rewrite filter_cons.
  case_decide as Hm; unfold matches in Hm.
  - rewrite Hm, fmap_cons. by f_equal.
  - destruct (EqualFold (Key e) k); [done|]. apply IH.
Qed.

Lemma GetAll_app es1 es2 k : GetAll (es1 ++ es2) k = GetAll es1 k ++ GetAll es2 k.
Proof. by rewrite !GetAll_filter, filter_app, fmap_app. Qed.

(** Case-insensitive keys: only the folded key matters. *)
Lemma GetAll_fold es k k' : EqualFold k k' = true -> GetAll es k = GetAll es k'.
Proof.
  intros Hk. induction es as [|e es IH]; simpl; [done|].
  rewrite IH, (EqualFold_sym (Key e) k), (EqualFold_sym (Key e) k').
  by rewrite (EqualFold_trans _ _ _ Hk).
Qed.

Lemma loadAll_acc fs confd acc names es : loadAll fs confd acc names = Ok es ->
  exists extra, es = acc ++ extra.
Proof.
  revert acc. induction names as [|n ns IH]; intros acc; simpl.
  - intros [= <-]. exists []. by rewrite app_nil_r.
  - destruct (ParseFile fs _) as [e|]; simpl; [|done]. intros [x ->]%IH.
    exists (e ++ x). by rewrite <- app_assoc.
Qed.
End lemmas.

(** ** Theorems *)

Section theorems.
Context `{Unicode}.

(** C36.  Rendering and parsing are inverse on well-formed entries, and every
    entry [Parse] can return is well formed: canonical key without an equals
    sign, trimmed non-empty key and value, no newline.  So parsing, rendering
    and parsing again yields the same entries (for lines that fit the
    scanner's 64 KiB buffer). *)
Theorem Parse_Render_roundtrip (es : Entries) :
  (Forall wfEntry es -> Forall fits es -> Parse (Render es) = Ok es) /\
  (forall r, Parse r = Ok es -> Forall wfEntry es).
Proof. split; [apply Parse_Render|]. intros r. apply Parse_wf. Qed.

(** Lookups in a configuration directory: keys compare
    case-insensitively, [GetFirst] is the first of [GetAll], and a key set
    in the primary file cannot be overridden by a [conf.d] fragment. *)
Theorem LoadDirectory_precedence (fs : FS) (p : gostring) (es0 es : Entries) (k k' : gostring) :
  ParseFile fs p = Ok es0 -> LoadDirectory fs p = Ok es -> EqualFold k k' = true ->
  GetFirst es k = head (GetAll es k') /\
  (exists extra, GetAll es k = GetAll es0 k ++ extra) /\
  (forall v, GetFirst es0 k = Some v -> GetFirst es k' = Some v).
Proof.
  intros Hp. unfold LoadDirectory. rewrite Hp. cbn [mbind result_bind].
  intros Hl Hk. assert (exists extra, es = es0 ++ extra) as [extra ->].
  { destruct (os.ReadDir fs _) as [des|e].
    - by eapply loadAll_acc.
    - destruct (os.IsNotExist e); inv_ok. exists []. by rewrite app_nil_r. }
  rewrite !GetFirst_head, <- !(GetAll_fold _ _ _ Hk), GetAll_app. split_and!; [done|eauto|].
  destruct (GetAll es0 k); [done|]. done.
Qed.
End theorems.

Definition sample_conf : gostring :=
  unlines [!"name = alice"; !"# comment"; !""; !"  connectto   bob"; !"Subnet=10.42.0.0/16"].

Definition sample_entries : Entries :=
  [MkEntry !"Name" !"alice"; MkEntry !"ConnectTo" !"bob"; MkEntry !"Subnet" !"10.42.0.0/16"].

Lemma Parse_Render_roundtrip_witness : Parse (Render sample_entries) = Ok sample_entries.
Proof.
  destruct (Parse_Render_roundtrip sample_entries) as [Hrt Hwf]. apply Hrt.
  - apply (Hwf sample_conf). vm_compute. reflexivity.
  - repeat constructor; vm_compute; discriminate.
Defined.

Definition sample_fs : FS :=
  MkFS (<[!"/etc/gsnet/gsnet.conf" := MkFile !"Name = alice" 420]>
       (<[!"/etc/gsnet/conf.d/10.conf" := MkFile !"NAME = eve" 420]> ∅))
       {[ !"/"; !"/etc"; !"/etc/gsnet"; !"/etc/gsnet/conf.d" ]}.

Lemma LoadDirectory_precedence_witness :
  exists es, LoadDirectory sample_fs !"/etc/gsnet/gsnet.conf" = Ok es /\
             GetAll es !"name" = [!"alice"; !"eve"] /\ GetFirst es !"Name" = Some !"alice".
Proof.
  eexists. split; [vm_compute; reflexivity|]. split; [vm_compute; reflexivity|].
  apply (LoadDirectory_precedence sample_fs !"/etc/gsnet/gsnet.conf"
           [MkEntry !"Name" !"alice"] _ !"NAME" !"Name"); vm_compute; reflexivity.
Defined.

End config.
