(* ===== verification/NetIP.v ===== *)
(** * The parts of net/netip and net that gsnet uses

    Addresses, prefixes and hardware addresses, with the textual forms Go
    parses and prints. *)

From Stdlib Require Import Ascii String ZArith Lia.
From stdpp Require Import base tactics list gmap strings.
From S2P Require Import Prelude.
From S2P Require Import GoStrings.

Local Open Scope Z_scope.

Module netip.

(** An address: the invalid zero value, an IPv4 address as a 32-bit number, or
    an IPv6 address as eight 16-bit groups with a zone. *)
Inductive Addr :=
| AddrZero
| Addr4 (a : Z)
| Addr6 (groups : list Z) (zone : gostring).

#[global] Instance Addr_eq_dec : EqDecision Addr.
Proof. solve_decision. Defined.

Definition IsValid (a : Addr) : bool := match a with AddrZero => false | _ => true end.

Definition BitLen (a : Addr) : Z :=
  match a with AddrZero => 0 | Addr4 _ => 32 | Addr6 _ _ => 128 end.

Definition hasZone (a : Addr) : bool :=
  match a with Addr6 _ z => negb (bool_decide (z = [])) | _ => false end.

Definition withoutZone (a : Addr) : Addr :=
  match a with Addr6 g _ => Addr6 g [] | _ => a end.

Definition groupsVal (gs : list Z) : Z := foldl (fun acc g => acc * 65536 + g) 0 gs.

Definition groupsOf (v : Z) : list Z :=
  (fun i => (v / 65536 ^ (7 - Z.of_nat i)) mod 65536) <$> seq 0 8.

Definition addrVal (a : Addr) : Z :=
  match a with AddrZero => 0 | Addr4 v => v | Addr6 g _ => groupsVal g end.

(** ** Parsing *)

Definition dot : byte := to_byte 46.
Definition colon : byte := to_byte 58.
Definition percent : byte := to_byte 37.
Definition slashB : byte := to_byte 47.

(** One decimal octet: digits only, no leading zero, at most 255. *)
Definition parseOctet (s : gostring) : option Z :=
  match s with
  | [] => None
  | c :: t =>
      if decide (c = to_byte 48 /\ t <> []) then None
      else match uintLoop 10 255 0 s with Ok v => Some v | Err _ => None end
  end.

Definition parseIPv4 (s : gostring) : option Z :=
  match mapM parseOctet (splitByte dot s) with
  | Some [a; b; c; d] => Some (((a * 256 + b) * 256 + c) * 256 + d)
  | _ => None
  end.

(** The leading hexadecimal digits of [s] and the rest. *)
Fixpoint takeHex (s : gostring) : gostring * gostring :=
  match s with
  | [] => ([], [])
  | c :: t => match digitVal c with
              | Some d => if d <? 16 then let '(h, r) := takeHex t in (c :: h, r) else ([], s)
              | None => ([], s)
              end
  end.

(** The loop of [parseIPv6] over the groups; [ell] is the number of groups
    before the ["::"], if one was seen.  At most eight groups are read. *)
Fixpoint ipv6Loop (fuel : nat) (gs : list Z) (ell : option nat) (s : gostring)
  : option (list Z * option nat * gostring) :=
  match fuel with
  | O => Some (gs, ell, s)
  | S f =>
      let '(h, r) := takeHex s in
      if decide (h = [] \/ 4 < length h)%nat then None
      else
        if decide (head r = Some dot) then
          (* a trailing dotted quad *)
          if decide ((ell = None /\ length gs <> 6) \/ 6 < length gs)%nat then None
          else match parseIPv4 s with
               | Some v => Some (gs ++ [v / 65536; v mod 65536], ell, [])
               | None => None
               end
        else
          let gs := gs ++ [digitsVal 16 0 h] in
          match r with
          | [] => Some (gs, ell, [])
          | c :: r =>
              if decide (c <> colon \/ r = []) then None
              else if decide (head r = Some colon) then
                match ell with
                | Some _ => None
                | None => match drop 1 r with
                          | [] => Some (gs, Some (length gs), [])
                          | r => ipv6Loop f gs (Some (length gs)) r
                          end
                end
              else ipv6Loop f gs ell r
          end
  end.

(** Expand the ["::"] to eight groups. *)
Definition expand (gs : list Z) (ell : option nat) : option (list Z) :=
  if decide (length gs = 8)%nat then
    match ell with None => Some gs | Some _ => None end
  else match ell with
       | None => None
       | Some k => Some (take k gs ++ replicate (8 - length gs) 0 ++ drop k gs)
       end.

Definition parseIPv6Body (s : gostring) : option (list Z) :=
  let '(ell, s') := match s with
                    | a :: b :: t => if decide (a = colon /\ b = colon) then (Some 0%nat, t) else (None, s)
                    | _ => (None, s)
                    end in
  match ell, s' with
  | Some _, [] => Some (replicate 8 0)
  | _, _ => match ipv6Loop 8 [] ell s' with
            | Some (gs, ell, []) => expand gs ell
            | _ => None
            end
  end.

Definition parseIPv6 (s : gostring) : option Addr :=
  match cutByte percent s with
  | Some (body, zone) =>
      if decide (zone = []) then None
      else (fun g => Addr6 g zone) <$> parseIPv6Body body
  | None => (fun g => Addr6 g []) <$> parseIPv6Body s
  end.

(** The first of ['.'], [':'] and ['%'] decides the family. *)
Definition ParseAddr (s : gostring) : option Addr :=
  match filter (fun c => c = dot \/ c = colon \/ c = percent) s with
  | c :: _ => if decide (c = dot) then Addr4 <$> parseIPv4 s
              else if decide (c = colon) then parseIPv6 s
              else None
  | [] => None
  end.

(** [bits] is -1 in an invalid prefix, as [Prefix.Bits] reports. *)
Record Prefix := MkPrefix { pAddr : Addr; pBits : Z }.

#[global] Instance Prefix_eq_dec : EqDecision Prefix.
Proof. solve_decision. Defined.

Definition PrefixZero : Prefix := MkPrefix AddrZero (-1).

Definition PrefixFrom (ip : Addr) (bits : Z) : Prefix :=
  if IsValid ip && (0 <=? bits) && (bits <=? BitLen ip)
  then MkPrefix (withoutZone ip) bits else MkPrefix (withoutZone ip) (-1).

Definition pIsValid (p : Prefix) : bool := 0 <=? pBits p.

(** [Atoi] would accept a sign or leading zeroes, so [ParsePrefix] looks for
    them first. *)
Definition signOrZero (b : gostring) : bool :=
  match b with
  | c :: _ :: _ => negb ((49 <=? byte_val c) && (byte_val c <=? 57))
  | _ => false
  end.

Definition ParsePrefix (s : gostring) : option Prefix :=
  '(a, b) ← cutLastByte slashB s;
  ip ← ParseAddr a;
  if hasZone ip then None
  else
    if signOrZero b then None
    else match Atoi b with
         | Ok n => if (0 <=? n) && (n <=? BitLen ip) then Some (PrefixFrom ip n) else None
         | Err _ => None
         end.

(** ** Masks *)

(** Keep the [bits] high bits of a [len]-bit number. *)
Definition maskVal (len bits v : Z) : Z := Z.shiftl (Z.shiftr v (len - bits)) (len - bits).

Definition maskAddr (a : Addr) (bits : Z) : Addr :=
  match a with
  | AddrZero => AddrZero
  | Addr4 v => Addr4 (maskVal 32 bits v)
  | Addr6 g _ => Addr6 (groupsOf (maskVal 128 bits (groupsVal g))) []
  end.

Definition Masked (p : Prefix) : Prefix :=
  if pIsValid p then MkPrefix (maskAddr (pAddr p) (pBits p)) (pBits p) else PrefixZero.

Definition Contains (p : Prefix) (ip : Addr) : bool :=
  pIsValid p && negb (hasZone ip) &&
  match pAddr p, ip with
  | Addr4 a, Addr4 b => Z.shiftr a (32 - pBits p) =? Z.shiftr b (32 - pBits p)
  | Addr6 a _, Addr6 b _ =>
      Z.shiftr (groupsVal a) (128 - pBits p) =? Z.shiftr (groupsVal b) (128 - pBits p)
  | _, _ => false
  end.

(** ** Printing *)

Definition string4 (v : Z) : gostring :=
  Itoa (v / 16777216) ++ !"." ++ Itoa ((v / 65536) mod 256) ++ !"." ++
  Itoa ((v / 256) mod 256) ++ !"." ++ Itoa (v mod 256).

Definition hexChar (d : Z) : byte := if d <? 10 then to_byte (48 + d) else to_byte (87 + d).

(** A group in hexadecimal without leading zeroes. *)
Definition hex16 (g : Z) : gostring :=
  let ds := [g / 4096; (g / 256) mod 16; (g / 16) mod 16; g mod 16] in
  let fix strip (l : list Z) := match l with
                                | 0 :: ((_ :: _) as r) => strip r
                                | _ => l
                                end in
  hexChar <$> strip ds.

(** Length of the run of zero groups at the start of a list. *)
Fixpoint zeroRun (gs : list Z) : nat :=
  match gs with 0 :: t => S (zeroRun t) | _ => 0 end.

(** Start and length of the first longest run of at least two zero groups. *)
Definition longestRun (gs : list Z) : option (nat * nat) :=
  foldl (fun best i =>
           let n := zeroRun (drop i gs) in
           if decide (2 <= n)%nat then
             match best with
             | Some (_, m) => if decide (m < n)%nat then Some (i, n) else best
             | None => Some (i, n)
             end
           else best) None (seq 0 (length gs)).

Fixpoint joinColon (l : list gostring) : gostring :=
  match l with
  | [] => []
  | [x] => x
  | x :: l => x ++ colon :: joinColon l
  end.

Definition string6 (gs : list Z) : gostring :=
  match longestRun gs with
  | None => joinColon (hex16 <$> gs)
  | Some (i, n) => joinColon (hex16 <$> take i gs) ++ !"::" ++ joinColon (hex16 <$> drop (i + n) gs)
  end.

Definition Is4In6 (gs : list Z) : bool := bool_decide (take 6 gs = [0; 0; 0; 0; 0; 65535]).

Definition zoneString (zone : gostring) : gostring :=
  match zone with [] => [] | _ => percent :: zone end.

Definition addrString (a : Addr) : gostring :=
  match a with
  | AddrZero => !"invalid IP"
  | Addr4 v => string4 v
  | Addr6 gs zone =>
      (if Is4In6 gs then !"::ffff:" ++ string4 (groupsVal (drop 6 gs)) else string6 gs) ++
      zoneString zone
  end.

Definition prefixString (p : Prefix) : gostring :=
  if pIsValid p then addrString (pAddr p) ++ !"/" ++ Itoa (pBits p) else !"invalid Prefix".

(** ** Address and port *)

Record AddrPort := MkAddrPort { apAddr : Addr; apPort : Z }.

#[global] Instance AddrPort_eq_dec : EqDecision AddrPort.
Proof. solve_decision. Defined.

Definition AddrPortZero : AddrPort := MkAddrPort AddrZero 0.
Definition apIsValid (a : AddrPort) : bool := IsValid (apAddr a).

Definition addrPortString (a : AddrPort) : gostring :=
  match apAddr a with
  | AddrZero => !"invalid AddrPort"
  | Addr4 v => string4 v ++ !":" ++ Itoa (apPort a)
  | Addr6 _ _ => !"[" ++ addrString (apAddr a) ++ !"]:" ++ Itoa (apPort a)
  end.

(** [ParseAddrPort]: brackets are required for IPv6 and refused for IPv4, and
    the port is a plain decimal 16-bit number. *)
Definition ParseAddrPort (s : gostring) : option AddrPort :=
  '(h, p) ← cutLastByte colon s;
  if decide (h = [] \/ p = []) then None
  else
    '(body, v6) ← (if decide (head h = Some (to_byte 91)) then
                     if decide (2 <= length h /\ last h = Some (to_byte 93))%nat
                     then Some (take (length h - 2) (drop 1 h), true) else None
                   else Some (h, false));
    match ParseUint 10 16 p with
    | Err _ => None
    | Ok port =>
        match ParseAddr body with
        | Some (Addr4 v) => if v6 : bool then None else Some (MkAddrPort (Addr4 v) port)
        | Some (Addr6 g z) => if v6 then Some (MkAddrPort (Addr6 g z) port) else None
        | _ => None
        end
    end.

End netip.

(** ** Hardware addresses (package net) *)

Module net.

Definition xtoi2 (s : gostring) (sep : option byte) : option byte :=
  match s with
  | a :: b :: rest =>
      if match rest, sep with
         | c :: _, Some e => negb (bool_decide (c = e))
         | _, _ => false
         end then None
      else match digitVal a, digitVal b with
           | Some x, Some y => if (x <? 16) && (y <? 16) then Some (to_byte (x * 16 + y)) else None
           | _, _ => None
           end
  | _ => None
  end.

Definition okMACLen (n : nat) : Prop := n = 6%nat \/ n = 8%nat \/ n = 20%nat.

(** [net.ParseMAC]: the colon, hyphen and dot notations of 6, 8 or 20 bytes. *)
Definition ParseMAC (s : gostring) : option bytes :=
  let len := length s in
  if (len <? 14)%nat then None
  else if decide (s !! 2%nat = Some (to_byte 58) \/ s !! 2%nat = Some (to_byte 45)) then
    let n := ((len + 1) / 3)%nat in
    if decide (((len + 1) mod 3 = 0)%nat /\ okMACLen n) then
      mapM (fun i => xtoi2 (drop (3 * i) s) (s !! 2%nat)) (seq 0 n)
    else None
  else if decide (s !! 4%nat = Some (to_byte 46)) then
    let n := (2 * ((len + 1) / 5))%nat in
    if decide (((len + 1) mod 5 = 0)%nat /\ okMACLen n) then
      mapM (fun i =>
              if Nat.even i then xtoi2 (take 2 (drop (5 * (i / 2)) s)) None
              else xtoi2 (drop (5 * (i / 2) + 2) s) (s !! 4%nat)) (seq 0 n)
    else None
  else None.

Definition hexByte (b : byte) : gostring :=
  [netip.hexChar (byte_val b / 16); netip.hexChar (byte_val b mod 16)].

(** [HardwareAddr.String]. *)
Definition macString (m : bytes) : gostring := netip.joinColon (hexByte <$> m).

End net.

Example parse4 : netip.ParseAddr !"192.168.1.5" = Some (netip.Addr4 3232235781).
Proof. reflexivity. Qed.
Example parse4bad : netip.ParseAddr !"192.168.01.5" = None.
Proof. reflexivity. Qed.
Example parse6 : netip.ParseAddr !"fec0::1%eth0" = Some (netip.Addr6 [0xfec0; 0; 0; 0; 0; 0; 0; 1] !"eth0").
Proof. reflexivity. Qed.
Example parse6b : netip.ParseAddr !"::ffff:1.2.3.4" = Some (netip.Addr6 [0; 0; 0; 0; 0; 0xffff; 0x102; 0x304] []).
Proof. reflexivity. Qed.
Example parse6c : (netip.ParseAddr !"1:2:3:4:5:6:7::", netip.ParseAddr !"1::2::3", netip.ParseAddr !"::")
  = (Some (netip.Addr6 [1; 2; 3; 4; 5; 6; 7; 0] []), None, Some (netip.Addr6 (replicate 8 0) [])).
Proof. reflexivity. Qed.
Example print6 : netip.addrString (netip.Addr6 [0xfec0; 0; 0; 1; 0; 0; 0; 0xab] []) = !"fec0:0:0:1::ab".
Proof. reflexivity. Qed.
Example prefix1 : (netip.ParsePrefix !"10.0.0.0/8", netip.ParsePrefix !"10.0.0.0/08")
  = (Some (netip.MkPrefix (netip.Addr4 167772160) 8), None).
Proof. reflexivity. Qed.
Example ap1 : (netip.ParseAddrPort !"1.2.3.4:51820", netip.ParseAddrPort !"[::1]:80", netip.ParseAddrPort !"::1:80")
  = (Some (netip.MkAddrPort (netip.Addr4 16909060) 51820),
     Some (netip.MkAddrPort (netip.Addr6 [0;0;0;0;0;0;0;1] []) 80), None).
Proof. reflexivity. Qed.
Example mac1 : (net.macString <$> net.ParseMAC !"00:1A:2b:3c:4d:5e") = Some !"00:1a:2b:3c:4d:5e".
Proof. reflexivity. Qed.
Example mac2 : (net.macString <$> net.ParseMAC !"001a.2b3c.4d5e") = Some !"00:1a:2b:3c:4d:5e".
Proof. reflexivity. Qed.

(** ** Lemmas *)

Module netip_lemmas.
Import netip.

Lemma parseOctet_Itoa x : 0 <= x < 256 -> parseOctet (Itoa x) = Some x.
Proof.
  intros Hx.
  assert (Forall (fun i => parseOctet (Itoa (Z.of_nat i)) = Some (Z.of_nat i)) (seq 0 256)) as Hf
    by (apply (bool_decide_unpack _); vm_compute; exact I).
  rewrite Forall_seq in Hf. specialize (Hf (Z.to_nat x)). rewrite Z2Nat.id in Hf by lia.
  apply Hf. lia.
Qed.

(** The separators of the textual forms do not occur in numbers. *)
Lemma Itoa_no_sep z c : c ∈ [dot; colon; percent; slashB; to_byte 35] -> c ∉ Itoa z.
Proof.
  intros Hc. apply Itoa_notin. right.
  assert (Forall (fun c => byte_val c <> 45 /\ (byte_val c < 48 \/ 57 < byte_val c))
    [dot; colon; percent; slashB; to_byte 35]) as Hf
    by (apply (bool_decide_unpack _); vm_compute; exact I).
  by eapply Forall_forall in Hf.
Qed.

Lemma string4_octets v : 0 <= v < 2 ^ 32 ->
  0 <= v / 16777216 < 256 /\ 0 <= (v / 65536) mod 256 < 256 /\
  0 <= (v / 256) mod 256 < 256 /\ 0 <= v mod 256 < 256 /\
  v = ((v / 16777216 * 256 + (v / 65536) mod 256) * 256 + (v / 256) mod 256) * 256 + v mod 256.
Proof.
  intros Hv. split_and!; try apply Z.mod_pos_bound; try lia;
    try (apply Z.div_pos; lia); try (apply Z.div_lt_upper_bound; lia).
  assert (v / 65536 = v / 256 / 256) as -> by by rewrite Z.div_div by lia.
  assert (v / 16777216 = v / 256 / 256 / 256) as -> by by rewrite !Z.div_div by lia.
  pose proof (Z.div_mod v 256). pose proof (Z.div_mod (v / 256) 256).
  pose proof (Z.div_mod (v / 256 / 256) 256). lia.
Qed.

Lemma parseIPv4_string4 v : 0 <= v < 2 ^ 32 -> parseIPv4 (string4 v) = Some v.
Proof.
  intros Hv. destruct (string4_octets v Hv) as (H1 & H2 & H3 & H4 & Heq).
  unfold parseIPv4, string4. change !"." with [dot]. cbn [app].
  rewrite !splitByte_app by (apply Itoa_no_sep; set_solver).
  rewrite splitByte_none by (apply Itoa_no_sep; set_solver).
  cbn [mapM]. rewrite !parseOctet_Itoa by done. cbn. by rewrite <- Heq.
Qed.

Lemma filter_sep_Itoa z :
  filter (fun c => c = dot \/ c = colon \/ c = percent) (Itoa z) = [].
Proof.
  destruct (filter _ _) as [|c l] eqn:E; [done|]. exfalso.
  assert (c ∈ c :: l) as Hc by left. rewrite <- E in Hc.
  apply list_elem_of_filter in Hc as [Hs Hc].
  revert Hc. apply Itoa_no_sep. set_solver.
Qed.

Lemma ParseAddr_string4 v : 0 <= v < 2 ^ 32 -> ParseAddr (string4 v) = Some (Addr4 v).
Proof.
  intros Hv. unfold ParseAddr. unfold string4 at 1.
  rewrite filter_app, filter_sep_Itoa. cbn [app]. change !"." with [dot].
  rewrite filter_app. cbn. by rewrite parseIPv4_string4.
Qed.

Lemma string4_no_sep v c : c ∈ [colon; percent; slashB; to_byte 35] -> c ∉ string4 v.
Proof.
  intros Hc. unfold string4. rewrite !not_elem_of_app.
  assert (c ∉ !".") as Hd.
  { assert (Forall (fun c => c ∉ !".") [colon; percent; slashB; to_byte 35]) as Hf
      by (apply (bool_decide_unpack _); vm_compute; exact I).
    by eapply Forall_forall in Hf. }
  split_and!; try done; apply Itoa_no_sep; set_solver.
Qed.

Lemma signOrZero_Itoa n : 0 <= n <= 128 -> signOrZero (Itoa n) = false.
Proof.
  intros Hn.
  assert (Forall (fun i => signOrZero (Itoa (Z.of_nat i)) = false) (seq 0 129)) as Hf
    by (apply (bool_decide_unpack _); vm_compute; exact I).
  rewrite Forall_seq in Hf. specialize (Hf (Z.to_nat n)). rewrite Z2Nat.id in Hf by lia.
  apply Hf. lia.
Qed.

(** IPv4 prefixes survive printing and parsing. *)
Lemma ParsePrefix_string4 v n : 0 <= v < 2 ^ 32 -> 0 <= n <= 32 ->
  ParsePrefix (prefixString (MkPrefix (Addr4 v) n)) = Some (MkPrefix (Addr4 v) n).
Proof.
  intros Hv Hn. unfold prefixString, pIsValid; simpl pBits.
  destruct (Z.leb_spec 0 n); [|lia]. unfold ParsePrefix; simpl pAddr; simpl addrString.
  assert (cutLastByte slashB (string4 v ++ !"/" ++ Itoa n) = Some (string4 v, Itoa n)) as ->.
  { apply cutLastByte_Some. split; [done|]. apply Itoa_no_sep. set_solver. }
  cbn [mbind option_bind]. rewrite ParseAddr_string4 by done. cbn [mbind option_bind hasZone].
  rewrite signOrZero_Itoa by lia. rewrite Atoi_Itoa by (unfold is_int64, min_int64, max_int64; lia).
  unfold PrefixFrom. cbn [BitLen IsValid andb withoutZone].
  assert ((0 <=? n) = true) as -> by (apply Z.leb_le; lia).
  assert ((n <=? 32) = true) as -> by (apply Z.leb_le; lia). done.
Qed.

(** A masked IPv4 prefix contains exactly an interval of addresses. *)
Lemma Contains_interval v n a : 0 <= v < 2 ^ 32 -> 0 <= n <= 32 -> maskVal 32 n v = v ->
  Contains (MkPrefix (Addr4 v) n) (Addr4 a) = true <-> v <= a < v + 2 ^ (32 - n).
Proof.
  intros Hv Hn Hm. unfold Contains, pIsValid; cbn [pBits pAddr hasZone negb andb].
  destruct (Z.leb_spec 0 n); [|lia]. cbn [andb]. rewrite Z.eqb_eq.
  assert (0 < 2 ^ (32 - n)) by (apply Z.pow_pos_nonneg; lia).
  unfold maskVal in Hm. rewrite Z.shiftl_mul_pow2, Z.shiftr_div_pow2 in Hm by lia.
  rewrite !Z.shiftr_div_pow2 by lia.
  pose proof (Z.div_mod a (2 ^ (32 - n)) ltac:(lia)).
  pose proof (Z.mod_pos_bound a (2 ^ (32 - n)) ltac:(lia)).
  split; [intros He; rewrite He in Hm; nia|]. intros [Hl Hu].
  apply Z.div_unique with (a - v); [lia|]. lia.
Qed.

End netip_lemmas.

Module net_lemmas.
Import net.

Lemma digitVal_hexChar d : 0 <= d < 16 -> digitVal (netip.hexChar d) = Some d.
Proof.
  intros Hd.
  assert (Forall (fun i => digitVal (netip.hexChar (Z.of_nat i)) = Some (Z.of_nat i)) (seq 0 16)) as Hf
    by (apply (bool_decide_unpack _); vm_compute; exact I).
  rewrite Forall_seq in Hf. specialize (Hf (Z.to_nat d)). rewrite Z2Nat.id in Hf by lia.
  apply Hf. lia.
Qed.

Lemma hex_digits b : 0 <= byte_val b / 16 < 16 /\ 0 <= byte_val b mod 16 < 16 /\
  to_byte (byte_val b / 16 * 16 + byte_val b mod 16) = b.
Proof.
  pose proof (byte_val_range b). split_and!.
  - apply Z.div_pos; lia.
  - apply Z.div_lt_upper_bound; lia.
  - apply Z.mod_pos_bound; lia.
  - apply Z.mod_pos_bound; lia.
  - rewrite <- (to_byte_val b) at 3. f_equal. pose proof (Z.div_mod (byte_val b) 16). lia.
Qed.

Lemma xtoi2_hexByte b rest : 
  match rest with [] => True | c :: _ => c = to_byte 58 end ->
  xtoi2 (hexByte b ++ rest) (Some (to_byte 58)) = Some b.
Proof.
  intros Hr. destruct (hex_digits b) as (H1 & H2 & H3). unfold hexByte; cbn [app xtoi2].
  rewrite !digitVal_hexChar by done.
  destruct (Z.ltb_spec (byte_val b / 16) 16); [|lia].
  destruct (Z.ltb_spec (byte_val b mod 16) 16); [|lia]. cbn [andb].
  destruct rest as [|c r]; [by rewrite H3|]. subst c. rewrite bool_decide_eq_true_2 by done.
  cbn. by rewrite H3.
Qed.

(** A six-byte hardware address survives printing and parsing. *)
Lemma ParseMAC_macString m : length m = 6%nat -> ParseMAC (macString m) = Some m.
Proof.
  destruct m as [|b0 [|b1 [|b2 [|b3 [|b4 [|b5 [|]]]]]]]; try done. intros _.
  unfold ParseMAC.
  assert (macString [b0; b1; b2; b3; b4; b5] =
    hexByte b0 ++ to_byte 58 :: hexByte b1 ++ to_byte 58 :: hexByte b2 ++ to_byte 58 ::
    hexByte b3 ++ to_byte 58 :: hexByte b4 ++ to_byte 58 :: hexByte b5 ++ []) as -> by done.
  set (s := _ ++ _). assert (length s = 17%nat) as -> by done.
  assert (s !! 2%nat = Some (to_byte 58)) as Hs by done. rewrite Hs.
  rewrite decide_True by by left. rewrite decide_True by (split; [done|by left]).
  change (seq 0 ((17 + 1) / 3)) with [0; 1; 2; 3; 4; 5]%nat. cbn [mapM].
  change (drop (3 * 0) s) with (hexByte b0 ++ drop 2 s).
  change (drop (3 * 1) s) with (hexByte b1 ++ drop 5 s).
  change (drop (3 * 2) s) with (hexByte b2 ++ drop 8 s).
  change (drop (3 * 3) s) with (hexByte b3 ++ drop 11 s).
  change (drop (3 * 4) s) with (hexByte b4 ++ drop 14 s).
  change (drop (3 * 5) s) with (hexByte b5 ++ drop 17 s).
  by rewrite !xtoi2_hexByte by done.
Qed.

End net_lemmas.
