(* ===== verification/Subnet.v ===== *)
(** * Subnets (internal/subnet/subnet.go)

    A subnet is an IP prefix or a hardware address, with a weight; the textual
    form is [body] or [body#weight]. *)

From Stdlib Require Import Ascii String ZArith Lia.
From stdpp Require Import base tactics list gmap strings.
From S2P Require Import Prelude.
From S2P Require Import GoStrings.
From S2P Require Import NetIP.

Local Open Scope Z_scope.

Module subnet.
Import netip.

Definition DefaultWeight : Z := 10.

(** [MAC] is [None] for Go's nil slice. *)
Record Subnet := MkSubnet { sPrefix : Prefix; MAC : option bytes; sWeight : Z }.

#[global] Instance Subnet_eq_dec : EqDecision Subnet.
Proof. solve_decision. Defined.

Inductive error :=
| ErrWeight (s : gostring) (e : numError)
| ErrAddr (s : gostring)
| ErrPrefix (s : gostring)
| ErrHostBits (s : gostring).

Definition ContainsIP (s : Subnet) (addr : Addr) : bool := Contains (sPrefix s) addr.

Definition ContainsMAC (s : Subnet) (mac : bytes) : bool :=
  match MAC s with Some m => bool_decide (m = mac) | None => false end.

Definition hash : byte := to_byte 35.

Definition String (s : Subnet) : gostring :=
  let body := match MAC s with
              | Some m => net.macString m
              | None => prefixString (sPrefix s)
              end in
  if (sWeight s =? 0) || (sWeight s =? DefaultWeight) then body
  else body ++ !"#" ++ Itoa (sWeight s).

Definition splitWeight (s : gostring) : result error (gostring * Z) :=
  match cutByte hash s with
  | None => Ok (s, DefaultWeight)
  | Some (body, w) =>
      match Atoi w with
      | Ok weight => Ok (body, weight)
      | Err e => Err (ErrWeight s e)
      end
  end.

(** One group of the lenient form: one or two hexadecimal digits. *)
Definition macPart (p : gostring) : option byte :=
  if decide (length p = 0 \/ 2 < length p)%nat then None
  else match ParseUint 16 8 p with Ok b => Some (to_byte b) | Err _ => None end.

Definition parseMAC (s : gostring) : option bytes :=
  match net.ParseMAC s with
  | Some mac => Some mac
  | None => let parts := splitByte colon s in
            if decide (length parts = 6)%nat then mapM macPart parts else None
  end.

Definition parseBody (s : gostring) : result error Subnet :=
  match parseMAC s with
  | Some mac => Ok (MkSubnet PrefixZero (Some mac) 0)
  | None =>
      if negb (containsByte slashB s) then
        match ParseAddr s with
        | None => Err (ErrAddr s)
        | Some addr => Ok (MkSubnet (PrefixFrom addr (BitLen addr)) None 0)
        end
      else
        match ParsePrefix s with
        | None => Err (ErrPrefix s)
        | Some p => if decide (Masked p = p) then Ok (MkSubnet p None 0) else Err (ErrHostBits s)
        end
  end.

Definition Parse (s : gostring) : result error Subnet :=
  bw ← splitWeight s;
  let '(body, weight) := bw in
  sub ← parseBody body;
  Ok (MkSubnet (sPrefix sub) (MAC sub) weight).

Example parse_tests :
  (String <$> Parse !"0:1a:2b:3c:4d:5e#3", String <$> Parse !"192.168.1.1",
   String <$> Parse !"fec0:0:0:1::/64", is_ok (Parse !"10.0.0.5/8"), is_ok (Parse !"192.168.1/24"))
  = (Ok !"00:1a:2b:3c:4d:5e#3", Ok !"192.168.1.1/32", Ok !"fec0:0:0:1::/64", false, false).
Proof. vm_compute. reflexivity. Qed.

(** ** Lemmas *)

Lemma mac_no_sep m c : c ∈ [slashB; hash] -> c ∉ net.macString m.
Proof.
  intros Hc. unfold net.macString.
  assert (c <> colon) as Hcol.
  { intros ->. apply (bool_decide_unpack (colon ∉ [slashB; hash])); [by vm_compute|done]. }
  assert (forall d, 0 <= d < 16 -> c <> netip.hexChar d) as Hhex.
  { intros d Hd.
    assert (Forall (fun i => netip.hexChar (Z.of_nat i) ∉ [slashB; hash]) (seq 0 16)) as Hf
      by (apply (bool_decide_unpack _); vm_compute; exact I).
    rewrite Forall_seq in Hf. specialize (Hf (Z.to_nat d)). rewrite Z2Nat.id in Hf by lia.
    intros ->. by apply Hf; [lia|]. }
  assert (forall b, c ∉ net.hexByte b) as Hb.
  { intros b. destruct (net_lemmas.hex_digits b) as (? & ? & _). unfold net.hexByte.
    rewrite !not_elem_of_cons. split_and!; auto. apply not_elem_of_nil. }
  induction m as [|b m IH]; [apply not_elem_of_nil|].
  rewrite fmap_cons. destruct (net.hexByte <$> m) as [|x l] eqn:E; [apply Hb|].
  cbn [joinColon]. rewrite not_elem_of_app, not_elem_of_cons. auto.
Qed.

(** A dot among the first four characters rules out every notation that
    [net.ParseMAC] accepts. *)
Lemma xtoi2_dot a b r sep : a = dot \/ b = dot -> net.xtoi2 (a :: b :: r) sep = None.
Proof.
  assert (digitVal dot = None) as Hd by done. intros Hab. cbn [net.xtoi2].
  destruct (match r, sep with | c :: _, Some e => negb (bool_decide (c = e)) | _, _ => false end); [done|].
  destruct Hab as [->| ->]; rewrite Hd; [done|]. by destruct (digitVal a).
Qed.

Lemma ParseMAC_dot s i : (i < 4)%nat -> s !! i = Some dot -> net.ParseMAC s = None.
Proof.
  intros Hi Hs. unfold net.ParseMAC. destruct (Nat.ltb_spec (length s) 14) as [|Hlen]; [done|].
  destruct s as [|a [|b [|c [|d [|e s]]]]]; simpl in Hlen; try lia.
  assert (forall (f : nat -> option byte) n k, (k < n)%nat -> f k = None -> mapM f (seq 0 n) = None) as Hm.
  { intros f n k Hk Hf. apply mapM_None, Exists_exists. exists k. split; [|done].
    apply elem_of_seq. lia. }
  case_decide as H1; [|case_decide as H2]; [| |done].
  - case_decide as Hn; [|done]. destruct Hn as [_ Hn].
    destruct i as [|[|[|[|]]]]; try lia; simpl in Hs; injection Hs as ->.
    + apply (Hm _ _ 0%nat); [unfold net.okMACLen in Hn; lia|]. apply xtoi2_dot. by left.
    + apply (Hm _ _ 0%nat); [unfold net.okMACLen in Hn; lia|]. apply xtoi2_dot. by right.
    + exfalso. destruct H1 as [H1|H1]; by vm_compute in H1.
    + apply (Hm _ _ 1%nat); [unfold net.okMACLen in Hn; lia|]. apply xtoi2_dot. by left.
  - case_decide as Hn; [|done]. destruct Hn as [_ Hn].
    destruct i as [|[|[|[|]]]]; try lia; simpl in Hs; injection Hs as ->.
    + apply (Hm _ _ 0%nat); [unfold net.okMACLen in Hn; lia|]. apply xtoi2_dot. by left.
    + apply (Hm _ _ 0%nat); [unfold net.okMACLen in Hn; lia|]. apply xtoi2_dot. by right.
    + apply (Hm _ _ 1%nat); [unfold net.okMACLen in Hn; lia|]. apply xtoi2_dot. by left.
    + apply (Hm _ _ 1%nat); [unfold net.okMACLen in Hn; lia|]. apply xtoi2_dot. by right.
Qed.

Lemma length_Itoa_octet x : 0 <= x < 256 -> (length (Itoa x) < 4)%nat.
Proof.
  intros Hx.
  assert (Forall (fun i => (length (Itoa (Z.of_nat i)) < 4)%nat) (seq 0 256)) as Hf
    by (apply (bool_decide_unpack _); vm_compute; exact I).
  rewrite Forall_seq in Hf. specialize (Hf (Z.to_nat x)). rewrite Z2Nat.id in Hf by lia.
  apply Hf. lia.
Qed.

Lemma parseMAC_ipv4 v rest : 0 <= v < 2 ^ 32 -> colon ∉ rest ->
  parseMAC (string4 v ++ rest) = None.
Proof.
  intros Hv Hc. destruct (netip_lemmas.string4_octets v Hv) as (H1 & _).
  unfold parseMAC. rewrite splitByte_none.
  2:{ rewrite not_elem_of_app. split; [|done]. apply netip_lemmas.string4_no_sep. set_solver. }
  rewrite (ParseMAC_dot _ (length (Itoa (v / 16777216)))); [done|by apply length_Itoa_octet|].
  unfold string4. rewrite <- !app_assoc. by rewrite lookup_app_r, Nat.sub_diag by done.
Qed.

(** ** Well-formed subnets *)

(** What [Parse] returns for IPv4 and Ethernet subnets: a hardware address of
    six bytes, or an IPv4 prefix without host bits. *)
Definition wfBody (s : Subnet) : Prop :=
  match MAC s with
  | Some m => length m = 6%nat /\ sPrefix s = PrefixZero
  | None => exists v n, sPrefix s = MkPrefix (Addr4 v) n /\ 0 <= v < 2 ^ 32 /\ 0 <= n <= 32 /\
                        maskVal 32 n v = v
  end.

Definition bodyString (s : Subnet) : gostring :=
  match MAC s with Some m => net.macString m | None => prefixString (sPrefix s) end.

Lemma prefixString4_no_sep v n c : 0 <= n -> c ∈ [colon; hash] ->
  c ∉ prefixString (MkPrefix (Addr4 v) n).
Proof.
  intros Hn Hc. unfold prefixString, pIsValid; cbn [pBits pAddr addrString].
  destruct (Z.leb_spec 0 n); [|lia]. rewrite !not_elem_of_app. split_and!.
  - apply netip_lemmas.string4_no_sep. unfold hash in Hc. set_solver.
  - intros Hin. assert (Forall (fun c => c ∉ !"/") [colon; hash]) as Hf
      by (apply (bool_decide_unpack _); vm_compute; exact I).
    by eapply Forall_forall in Hf.
  - apply netip_lemmas.Itoa_no_sep. unfold hash in Hc. set_solver.
Qed.

Lemma bodyString_no_hash s : wfBody s -> hash ∉ bodyString s.
Proof.
  unfold wfBody, bodyString. destruct (MAC s) as [m|].
  - intros _. apply mac_no_sep. set_solver.
  - intros (v & n & -> & _ & Hn & _). apply prefixString4_no_sep; [lia|set_solver].
Qed.

Lemma parseBody_bodyString s : wfBody s ->
  parseBody (bodyString s) = Ok (MkSubnet (sPrefix s) (MAC s) 0).
Proof.
  unfold wfBody, bodyString, parseBody. destruct (MAC s) as [m|].
  - intros [Hm ->]. unfold parseMAC. by rewrite net_lemmas.ParseMAC_macString.
  - intros (v & n & -> & Hv & Hn & Hm).
    assert (prefixString (MkPrefix (Addr4 v) n) = string4 v ++ !"/" ++ Itoa n) as Hps.
    { unfold prefixString, pIsValid; cbn [pBits pAddr addrString].
      by destruct (Z.leb_spec 0 n); [|lia]. }
    assert (colon ∉ !"/" ++ Itoa n) as Hc.
    { rewrite not_elem_of_app. split; [apply (bool_decide_unpack _); vm_compute; exact I|].
      apply netip_lemmas.Itoa_no_sep. set_solver. }
    rewrite Hps at 1. rewrite parseMAC_ipv4 by done.
    assert (containsByte slashB (prefixString (MkPrefix (Addr4 v) n)) = true) as ->.
    { apply bool_decide_eq_true. rewrite Hps, elem_of_app. right. left. }
    cbn [negb]. rewrite netip_lemmas.ParsePrefix_string4 by done.
    unfold Masked, pIsValid; cbn [pBits pAddr maskAddr]. destruct (Z.leb_spec 0 n); [|lia].
    rewrite decide_True by by rewrite Hm. done.
Qed.

(** ** Theorems *)

(** Parsing the textual form of an IPv4 or Ethernet subnet gives the
    subnet back, for every weight except zero, which [String] does not print:
    a zero weight comes back as the default weight 10. *)
Theorem Parse_String_roundtrip s : wfBody s -> is_int64 (sWeight s) ->
  Parse (String s) =
    Ok (MkSubnet (sPrefix s) (MAC s) (if sWeight s =? 0 then DefaultWeight else sWeight s)).
Proof.
  intros Hwf Hw. pose proof (bodyString_no_hash s Hwf) as Hn.
  unfold Parse, String. fold (bodyString s). unfold splitWeight.
  destruct (Z.eqb_spec (sWeight s) 0) as [H0|H0]; [|destruct (Z.eqb_spec (sWeight s) DefaultWeight) as [H1|H1]];
    cbn [orb].
  - rewrite (proj2 (cutByte_None _ _) Hn). cbn [mbind result_bind].
    by rewrite parseBody_bodyString.
  - rewrite (proj2 (cutByte_None _ _) Hn). cbn [mbind result_bind].
    rewrite parseBody_bodyString by done. cbn [mbind result_bind]. by rewrite H1.
  - assert (cutByte hash (bodyString s ++ !"#" ++ Itoa (sWeight s)) =
            Some (bodyString s, Itoa (sWeight s))) as ->.
    { apply cutByte_Some. by split. }
    rewrite Atoi_Itoa by done. cbn [mbind result_bind]. by rewrite parseBody_bodyString.
Qed.

Lemma Parse_String_roundtrip_witness :
  Parse (String (MkSubnet (MkPrefix (Addr4 3232235776) 24) None 5)) =
    Ok (MkSubnet (MkPrefix (Addr4 3232235776) 24) None 5).
Proof.
  apply (Parse_String_roundtrip (MkSubnet (MkPrefix (Addr4 3232235776) 24) None 5)).
  - exists 3232235776, 24. split; [reflexivity|]. split; [lia|]. split; [lia|]. reflexivity.
  - apply (bool_decide_unpack _). vm_compute. exact I.
Defined.

(** A parsed subnet is an IP prefix or a hardware address, never both; an
    IP subnet has no host bits set and matches no hardware address, a
    hardware-address subnet matches no IP address, and an IPv4 subnet contains
    exactly the addresses from its network address upwards, 2^(32-bits) of
    them. *)
Theorem Parse_kind s sub : Parse s = Ok sub ->
  (forall m, MAC sub = Some m -> sPrefix sub = PrefixZero /\ forall a, ContainsIP sub a = false) /\
  (MAC sub = None -> (forall mac, ContainsMAC sub mac = false) /\
     forall v n a, sPrefix sub = MkPrefix (Addr4 v) n -> 0 <= v < 2 ^ 32 -> 0 <= n <= 32 ->
       maskVal 32 n v = v /\
       (ContainsIP sub (Addr4 a) = true <-> v <= a < v + 2 ^ (32 - n))).
Proof.
  unfold Parse. destruct (splitWeight s) as [[body w]|]; cbn [mbind result_bind]; [|done].
  destruct (parseBody body) as [sub'|] eqn:Eb; cbn [mbind result_bind]; [|done].
  intros [= <-]. cbn [MAC sPrefix]. unfold parseBody in Eb.
  destruct (parseMAC body) as [mac|]; [inv_ok; cbn; split; [|done]; intros m _; split; [done|];
    intros a; unfold ContainsIP, Contains; cbn; done|].
  assert (forall v n a, 0 <= v < 2 ^ 32 -> 0 <= n <= 32 -> maskVal 32 n v = v ->
    maskVal 32 n v = v /\ (Contains (MkPrefix (Addr4 v) n) (Addr4 a) = true <->
      v <= a < v + 2 ^ (32 - n))) as Hint
    by (intros; split; [done|]; by apply netip_lemmas.Contains_interval).
  destruct (negb (containsByte slashB body)).
  - destruct (ParseAddr body) as [addr|]; inv_ok; cbn. split; [done|]. intros _. split; [done|].
    intros v n a Hp Hv Hn. unfold ContainsIP; cbn [sPrefix]. rewrite Hp. apply Hint; try done.
    destruct addr; try done; cbn in Hp; injection Hp as <- <-.
    unfold maskVal. cbn. by rewrite Z.shiftl_0_r.
  - destruct (ParsePrefix body) as [p|]; [|done]. case_decide as Hm; inv_ok; cbn.
    split; [done|]. intros _. split; [done|]. intros v n a -> Hv Hn.
    apply Hint; try done. revert Hm. unfold Masked, pIsValid; cbn [pBits pAddr maskAddr].
    destruct (Z.leb_spec 0 n); [|lia]. intros [= ->]. done.
Qed.

Lemma Parse_kind_witness : exists sub, Parse !"10.0.0.0/8#1" = Ok sub /\
  ContainsIP sub (Addr4 167772165) = true.
Proof.
  assert (Parse !"10.0.0.0/8#1" = Ok (MkSubnet (MkPrefix (Addr4 167772160) 8) None 1)) as Hp
    by (vm_compute; reflexivity).
  eexists. split; [exact Hp|]. apply Parse_kind in Hp as [_ Hp]. destruct (Hp eq_refl) as [_ Hc].
  apply (Hc 167772160 8 167772165 eq_refl); lia.
Defined.

(** A weight of zero does not survive printing. *)
Theorem zero_weight_lost :
  (Parse !"10.0.0.0/8#0", String <$> Parse !"10.0.0.0/8#0") =
  (Ok (MkSubnet (MkPrefix (Addr4 167772160) 8) None 0), Ok !"10.0.0.0/8").
Proof. vm_compute. reflexivity. Qed.

End subnet.
