(* ===== verification/Base64.v ===== *)
(** * encoding/base64

    The two alphabets gsnet uses: [base64.StdEncoding] (padded) for keys in
    configuration files and byte fields of JSON documents, and
    [base64.RawURLEncoding] (URL alphabet, no padding) for the key hash and
    the cookies of invitations.  As in Go, decoding ignores carriage returns
    and newlines anywhere and does not insist that unused trailing bits are
    zero. *)

From Stdlib Require Import Ascii String ZArith Lia.
From stdpp Require Import base tactics list gmap strings.
From S2P Require Import Prelude.
From S2P Require Import GoStrings.

Local Open Scope Z_scope.

Module base64.

(** [StdEncoding] is [MkEncoding 43 47 true], [RawURLEncoding] is
    [MkEncoding 45 95 false]: the bytes for 62 and 63, and padding. *)
Record Encoding := MkEncoding { char62 : Z; char63 : Z; padded : bool }.

Definition StdEncoding : Encoding := MkEncoding 43 47 true.
Definition RawURLEncoding : Encoding := MkEncoding 45 95 false.

Definition padChar : byte := to_byte 61.

Definition encChar (e : Encoding) (v : Z) : byte :=
  to_byte (if v <? 26 then 65 + v
           else if v <? 52 then 71 + v
           else if v <? 62 then v - 4
           else if v =? 62 then char62 e else char63 e).

Definition decChar (e : Encoding) (b : byte) : option Z :=
  let c := byte_val b in
  if (65 <=? c) && (c <=? 90) then Some (c - 65)
  else if (97 <=? c) && (c <=? 122) then Some (c - 71)
  else if (48 <=? c) && (c <=? 57) then Some (c + 4)
  else if c =? char62 e then Some 62
  else if c =? char63 e then Some 63
  else None.

Definition pad (e : Encoding) (n : nat) : bytes :=
  if padded e then replicate n padChar else [].

Fixpoint EncodeToString (e : Encoding) (s : bytes) : gostring :=
  match s with
  | [] => []
  | [a] =>
      let v := byte_val a * 65536 in
      [encChar e (v / 262144); encChar e (v / 4096 mod 64)] ++ pad e 2
  | [a; b] =>
      let v := byte_val a * 65536 + byte_val b * 256 in
      [encChar e (v / 262144); encChar e (v / 4096 mod 64); encChar e (v / 64 mod 64)]
        ++ pad e 1
  | a :: b :: c :: t =>
      let v := byte_val a * 65536 + byte_val b * 256 + byte_val c in
      encChar e (v / 262144) :: encChar e (v / 4096 mod 64)
        :: encChar e (v / 64 mod 64) :: encChar e (v mod 64) :: EncodeToString e t
  end.

(** The sextets of one group, joined: one, two or three bytes. *)
Definition bytes1 (v1 v2 : Z) : bytes := [to_byte ((v1 * 64 + v2) / 16)].
Definition bytes2 (v1 v2 v3 : Z) : bytes :=
  let v := (v1 * 64 + v2) * 64 + v3 in [to_byte (v / 1024); to_byte (v / 4)].
Definition bytes3 (v1 v2 v3 v4 : Z) : bytes :=
  let v := ((v1 * 64 + v2) * 64 + v3) * 64 + v4 in
  [to_byte (v / 65536); to_byte (v / 256); to_byte v].

Definition isNewline (b : byte) : bool := bool_decide (b = nl) || bool_decide (b = cr).

Fixpoint decodeQuanta (e : Encoding) (s : gostring) : option bytes :=
  match s with
  | [] => Some []
  | c1 :: c2 :: c3 :: c4 :: t =>
      v1 ← decChar e c1; v2 ← decChar e c2;
      if padded e && bool_decide (c3 = padChar) then
        if bool_decide (c4 = padChar) && bool_decide (t = [])
        then Some (bytes1 v1 v2) else None
      else
        v3 ← decChar e c3;
        if padded e && bool_decide (c4 = padChar) then
          if bool_decide (t = []) then Some (bytes2 v1 v2 v3) else None
        else
          v4 ← decChar e c4; r ← decodeQuanta e t; Some (bytes3 v1 v2 v3 v4 ++ r)
  | [c1; c2; c3] =>
      if padded e then None
      else v1 ← decChar e c1; v2 ← decChar e c2; v3 ← decChar e c3; Some (bytes2 v1 v2 v3)
  | [c1; c2] =>
      if padded e then None
      else v1 ← decChar e c1; v2 ← decChar e c2; Some (bytes1 v1 v2)
  | [_] => None
  end.

Definition DecodeString (e : Encoding) (s : gostring) : option bytes :=
  decodeQuanta e (filter (fun b => isNewline b = false) s).

End base64.

Module base64_lemmas.
Import base64.

Example encode_ex : EncodeToString StdEncoding !"light w" = !"bGlnaHQgdw==".
Proof. by vm_compute. Qed.
Example decode_ex : DecodeString StdEncoding !"bGlnaHQgdw==" = Some !"light w".
Proof. by vm_compute. Qed.
Example decode_bad : DecodeString StdEncoding !"bGlnaHQgdw=" = None.
Proof. by vm_compute. Qed.

(** The encodings the laws hold for: the two special bytes are ASCII
    punctuation different from the other characters of the alphabet. *)
Definition wfEncoding (e : Encoding) : bool :=
  forallb (fun v => bool_decide (decChar e (encChar e (Z.of_nat v)) = Some (Z.of_nat v))
                    && negb (isNewline (encChar e (Z.of_nat v)))
                    && negb (bool_decide (encChar e (Z.of_nat v) = padChar)))
    (seq 0 64).

Lemma wfEncoding_std : wfEncoding StdEncoding = true.
Proof. by vm_compute. Qed.
Lemma wfEncoding_url : wfEncoding RawURLEncoding = true.
Proof. by vm_compute. Qed.

Lemma wfEncoding_char e v : wfEncoding e = true -> 0 <= v < 64 ->
  decChar e (encChar e v) = Some v /\ isNewline (encChar e v) = false
  /\ encChar e v <> padChar.
Proof.
  unfold wfEncoding. rewrite forallb_forall. intros H Hv.
  specialize (H (Z.to_nat v)). rewrite in_seq, Z2Nat.id in H by lia.
  specialize (H ltac:(lia)). apply andb_true_iff in H as [H H3].
  apply andb_true_iff in H as [H1 H2].
  apply negb_true_iff in H2. apply negb_true_iff, bool_decide_eq_false in H3.
  by apply bool_decide_eq_true in H1.
Qed.

(** Induction three bytes at a time. *)
Lemma triples_ind (P : bytes -> Prop) :
  P [] -> (forall a, P [a]) -> (forall a b, P [a; b]) ->
  (forall a b c t, P t -> P (a :: b :: c :: t)) -> forall s, P s.
Proof.
  intros H0 H1 H2 H3.
  fix IH 1. intros [|a [|b [|c t]]]; [done | apply H1 | apply H2 | apply H3, IH].
Qed.

Ltac sextets := repeat match goal with
  | |- context [byte_val ?a] =>
      lazymatch goal with
      | H : 0 <= byte_val a < 256 |- _ => fail
      | _ => pose proof (byte_val_range a)
      end
  end.

Lemma bytes3_split a b c :
  let v := byte_val a * 65536 + byte_val b * 256 + byte_val c in
  bytes3 (v / 262144) (v / 4096 mod 64) (v / 64 mod 64) (v mod 64) = [a; b; c].
Proof.
  intros v. unfold bytes3.
  assert (E : ((v / 262144 * 64 + v / 4096 mod 64) * 64 + v / 64 mod 64) * 64 + v mod 64 = v).
  { unfold v. sextets. Z.to_euclidean_division_equations. lia. }
  rewrite E. unfold v. sextets.
  f_equal; [|f_equal; [|f_equal]]; apply byte_val_inj; rewrite byte_val_to_byte;
    Z.to_euclidean_division_equations; lia.
Qed.

Lemma bytes2_split a b :
  let v := byte_val a * 65536 + byte_val b * 256 in
  bytes2 (v / 262144) (v / 4096 mod 64) (v / 64 mod 64) = [a; b].
Proof.
  intros v. unfold bytes2.
  assert (E : (v / 262144 * 64 + v / 4096 mod 64) * 64 + v / 64 mod 64
              = byte_val a * 1024 + byte_val b * 4).
  { unfold v. sextets. Z.to_euclidean_division_equations. lia. }
  rewrite E. sextets.
  f_equal; [|f_equal]; apply byte_val_inj; rewrite byte_val_to_byte;
    Z.to_euclidean_division_equations; lia.
Qed.

Lemma bytes1_split a :
  let v := byte_val a * 65536 in bytes1 (v / 262144) (v / 4096 mod 64) = [a].
Proof.
  intros v. unfold bytes1, v. sextets.
  f_equal. apply byte_val_inj. rewrite byte_val_to_byte.
  Z.to_euclidean_division_equations; lia.
Qed.

Section roundtrip.
Context (e : Encoding) (He : wfEncoding e = true).

Lemma pad_newline n : Forall (fun b => isNewline b = false) (pad e n).
Proof.
  unfold pad. destruct (padded e); [|constructor].
  apply Forall_replicate. by vm_compute.
Qed.

Lemma encChar_newline v : 0 <= v < 64 -> isNewline (encChar e v) = false.
Proof. intros Hv. by apply (wfEncoding_char e v He). Qed.

Lemma EncodeToString_no_newline s :
  Forall (fun b => isNewline b = false) (EncodeToString e s).
Proof.
  induction s as [|a|a b|a b c t IH] using triples_ind; cbn [EncodeToString app];
    repeat (constructor || (apply encChar_newline; sextets;
      Z.to_euclidean_division_equations; lia) || apply pad_newline || exact IH).
Qed.

Lemma decodeQuanta_char v {A} (k : Z -> option A) : 0 <= v < 64 ->
  (v' ← decChar e (encChar e v); k v') = k v.
Proof. intros Hv. by destruct (wfEncoding_char e v He Hv) as (-> & _). Qed.

Lemma encChar_pad v : 0 <= v < 64 -> bool_decide (encChar e v = padChar) = false.
Proof. intros Hv. apply bool_decide_eq_false. by apply (wfEncoding_char e v He). Qed.

Lemma decode_encode_quanta s : decodeQuanta e (EncodeToString e s) = Some s.
Proof.
  induction s as [|a|a b|a b c t IH] using triples_ind; [done| | |];
    cbn [EncodeToString app].
  - unfold pad. destruct (padded e) eqn:Hp; cbn [decodeQuanta replicate app];
      rewrite ?Hp, !decodeQuanta_char by (sextets; Z.to_euclidean_division_equations; lia);
      cbn [andb]; rewrite ?bool_decide_eq_true_2 by done; simpl; by rewrite bytes1_split.
  - unfold pad. destruct (padded e) eqn:Hp; cbn [decodeQuanta replicate app];
      rewrite ?Hp; cbn [andb];
      rewrite ?encChar_pad by (sextets; Z.to_euclidean_division_equations; lia);
      rewrite !decodeQuanta_char by (sextets; Z.to_euclidean_division_equations; lia);
      rewrite ?bool_decide_eq_true_2 by done; by rewrite bytes2_split.
  - cbn [decodeQuanta].
    rewrite !encChar_pad by (sextets; Z.to_euclidean_division_equations; lia).
    rewrite !andb_false_r.
    rewrite !decodeQuanta_char by (sextets; Z.to_euclidean_division_equations; lia).
    rewrite IH. cbn [mbind option_bind]. by rewrite bytes3_split.
Qed.

(** Decoding what was encoded gives the bytes back. *)
Lemma DecodeString_EncodeToString s : DecodeString e (EncodeToString e s) = Some s.
Proof.
  unfold DecodeString. rewrite filter_all by apply EncodeToString_no_newline.
  apply decode_encode_quanta.
Qed.
End roundtrip.

#[export] Hint Resolve wfEncoding_std wfEncoding_url : gsnet.

(** The characters of the standard encoding. *)
Definition b64Char (c : byte) : bool :=
  match decChar StdEncoding c with Some _ => true | None => bool_decide (c = padChar) end.

Lemma EncodeToString_chars s : Forall (fun c => b64Char c = true) (EncodeToString StdEncoding s).
Proof.
  assert (Hc : forall v, 0 <= v < 64 -> b64Char (encChar StdEncoding v) = true).
  { intros v Hv. unfold b64Char.
    by destruct (wfEncoding_char StdEncoding v wfEncoding_std Hv) as (-> & _). }
  assert (Hp : b64Char padChar = true) by (by vm_compute).
  induction s as [|a|a b|a b c t IH] using triples_ind; cbn [EncodeToString app pad padded StdEncoding replicate];
    repeat (constructor || exact Hp || exact IH
            || (apply Hc; sextets; Z.to_euclidean_division_equations; lia)).
Qed.

Lemma EncodeToString_nil e s : EncodeToString e s = [] -> s = [].
Proof. by destruct s as [|? [|? [|??]]]. Qed.

Lemma EncodeToString_length e s :
  padded e = true -> length (EncodeToString e s) = (4 * ((length s + 2) / 3))%nat.
Proof.
  intros Hp. induction s as [|a|a b|a b c t IH] using triples_ind;
    cbn [EncodeToString app]; unfold pad; rewrite ?Hp; try done.
  cbn [length]. rewrite IH.
  replace (S (S (S (length t))) + 2)%nat with (length t + 2 + 1 * 3)%nat by lia.
  rewrite Nat.div_add by lia. lia.
Qed.

Lemma EncodeToString_raw_length e s :
  padded e = false -> length (EncodeToString e s) = ((4 * length s + 2) / 3)%nat.
Proof.
  intros Hp. induction s as [|a|a b|a b c t IH] using triples_ind;
    cbn [EncodeToString app]; unfold pad; rewrite ?Hp; try done.
  cbn [length]. rewrite IH.
  replace (4 * S (S (S (length t))) + 2)%nat with (4 * length t + 2 + 4 * 3)%nat by lia.
  rewrite Nat.div_add by lia. lia.
Qed.

End base64_lemmas.
