(* ===== verification/Keys.v ===== *)
(** * Key material (internal/keys/keys.go)

    The cryptographic primitives are interfaces: [Ed25519], [SHA256], [X509]
    (PEM and PKIX containers) and [WGTypes] (the wgctrl key type) state what
    the code relies on.  Each interface has a concrete instance, so that no
    theorem about it is vacuous.  What gsnet does around the primitives
    (length checks, textual forms, the fallbacks of the parsers) is
    translated. *)

From Stdlib Require Import Ascii String ZArith Lia.
From stdpp Require Import base tactics list gmap strings.
From S2P Require Import Prelude.
From S2P Require Import GoStrings.
From S2P Require Import Base64.

(** ** Interfaces *)

(** crypto/ed25519.  A private key is 64 bytes, its last 32 bytes are the
    public key; [genuine] singles out the keys the generator returns. *)
Class Ed25519 := {
  ed_genuine : bytes -> Prop;
  ed_sign : bytes -> bytes -> bytes;
  ed_verify : bytes -> bytes -> bytes -> bool;
  ed_genuine_length : forall priv, ed_genuine priv -> length priv = 64;
  ed_sign_length : forall priv msg, ed_genuine priv -> length (ed_sign priv msg) = 64;
  ed_verify_sign : forall priv msg, ed_genuine priv ->
    ed_verify (drop 32 priv) msg (ed_sign priv msg) = true
}.

(** crypto/sha256: a digest of 32 bytes. *)
Class SHA256 := {
  sha256 : bytes -> bytes;
  sha256_length : forall m, length (sha256 m) = 32
}.

(** encoding/pem and crypto/x509: a PEM block has a type and a body; a DER
    body holds an Ed25519 key or some other key. *)
Inductive anyKey := KeyEd25519 (raw : bytes) | KeyOther.

Class X509 := {
  pem_encode : gostring -> bytes -> bytes;
  pem_decode : bytes -> option (gostring * bytes);
  x509_marshal_pkcs8 : bytes -> option bytes;
  x509_parse_pkcs8 : bytes -> option anyKey;
  x509_marshal_pkix : bytes -> option bytes;
  x509_parse_pkix : bytes -> option anyKey;
  pem_decode_encode : forall ty body, ty ∈ [!"PRIVATE KEY"; !"PUBLIC KEY"] ->
    pem_decode (pem_encode ty body) = Some (ty, body);
  x509_pkcs8_parse : forall k der, length k = 64 ->
    x509_marshal_pkcs8 k = Some der -> x509_parse_pkcs8 der = Some (KeyEd25519 k);
  x509_pkix_parse : forall k der, length k = 32 ->
    x509_marshal_pkix k = Some der -> x509_parse_pkix der = Some (KeyEd25519 k)
}.

(** wgctrl's [wgtypes.Key]: 32 bytes with a textual form. *)
Class WGTypes := {
  wg_parse : gostring -> option bytes;
  wg_string : bytes -> gostring;
  wg_public : bytes -> bytes;
  wg_parse_string : forall k, length k = 32 -> wg_parse (wg_string k) = Some k;
  wg_parse_length : forall s k, wg_parse s = Some k -> length k = 32
}.

Module keys.

Definition PublicKeySize : nat := 32.

Inductive error :=
| errNoPEM | errX509 | errNotEd25519 | errBase64 | errLength (n : nat) | errWG | errGenerate.

#[global] Instance error_eq_dec : EqDecision error.
Proof. solve_decision. Defined.

Record Ed25519Private := MkPriv { privRaw : bytes }.
Record Ed25519Public := MkPub { pubRaw : bytes }.

#[global] Instance Ed25519Private_eq_dec : EqDecision Ed25519Private.
Proof. solve_decision. Defined.
#[global] Instance Ed25519Public_eq_dec : EqDecision Ed25519Public.
Proof. solve_decision. Defined.

(** The zero value [keys.Ed25519Public{}], whose raw key is nil. *)
Definition zeroPublic : Ed25519Public := MkPub [].

Definition toErr {A} (e : error) (o : option A) : result error A :=
  match o with Some a => Ok a | None => Err e end.

(** [gen] is what [ed25519.GenerateKey] returns. *)
Definition GenerateEd25519 (gen : option bytes) : result error Ed25519Private := MkPriv <$> toErr errGenerate gen.

Section ed25519.
Context `{Ed25519}.

(** [raw.Public()] copies the second half of the private key. *)
Definition Public (p : Ed25519Private) : Ed25519Public := MkPub (drop 32 (privRaw p)).

Definition Sign (p : Ed25519Private) (msg : bytes) : bytes := ed_sign (privRaw p) msg.

Definition Verify (p : Ed25519Public) (msg sig : bytes) : bool :=
  if negb (bool_decide (length (pubRaw p) = PublicKeySize)) then false
  else ed_verify (pubRaw p) msg sig.
End ed25519.

Section pem.
Context `{X509}.

Definition MarshalPrivatePEM (p : Ed25519Private) : result error bytes :=
  der ← toErr errX509 (x509_marshal_pkcs8 (privRaw p));
  Ok (pem_encode !"PRIVATE KEY" der).

(** The type line of the PEM block is not looked at. *)
Definition ParseEd25519PrivatePEM (b : bytes) : result error Ed25519Private :=
  match pem_decode b with
  | None => Err errNoPEM
  | Some (_, body) =>
      k ← toErr errX509 (x509_parse_pkcs8 body);
      match k with KeyEd25519 raw => Ok (MkPriv raw) | KeyOther => Err errNotEd25519 end
  end.

Definition MarshalPublicPEM (p : Ed25519Public) : result error bytes :=
  der ← toErr errX509 (x509_marshal_pkix (pubRaw p));
  Ok (pem_encode !"PUBLIC KEY" der).

Definition ParseEd25519PublicPEM (b : bytes) : result error Ed25519Public :=
  match pem_decode b with
  | None => Err errNoPEM
  | Some (_, body) =>
      k ← toErr errX509 (x509_parse_pkix body);
      match k with KeyEd25519 raw => Ok (MkPub raw) | KeyOther => Err errNotEd25519 end
  end.
End pem.

Definition Hash `{SHA256} (p : Ed25519Public) : gostring :=
  base64.EncodeToString base64.RawURLEncoding (sha256 (pubRaw p)).

Definition Raw (p : Ed25519Public) : bytes := pubRaw p.

Definition String (p : Ed25519Public) : gostring :=
  base64.EncodeToString base64.StdEncoding (pubRaw p).

Definition ParseEd25519PublicBase64 (s : gostring) : result error Ed25519Public :=
  match base64.DecodeString base64.StdEncoding s with
  | None => Err errBase64
  | Some b =>
      if negb (bool_decide (length b = PublicKeySize)) then Err (errLength (length b))
      else Ok (MkPub b)
  end.

Definition ParseEd25519PublicBase64ish (b : bytes) : result error Ed25519Public :=
  if bool_decide (length b = PublicKeySize) then Ok (MkPub b)
  else ParseEd25519PublicBase64 b.

(** ** WireGuard keys *)

Record WGPrivate := MkWGPriv { wgPrivRaw : bytes }.
Record WGPublic := MkWGPub { wgPubRaw : bytes }.

#[global] Instance WGPublic_eq_dec : EqDecision WGPublic.
Proof. solve_decision. Defined.

(** [gen] is what [wgtypes.GeneratePrivateKey] returns. *)
Definition GenerateWireGuard (gen : option bytes) : result error WGPrivate := MkWGPriv <$> toErr errGenerate gen.

(** The raw keys, as the data plane takes them. *)
Definition WGKey (p : WGPrivate) : bytes := wgPrivRaw p.
Definition WGPublicKey (p : WGPublic) : bytes := wgPubRaw p.

Section wireguard.
Context `{WGTypes}.

Definition WGPublicOf (p : WGPrivate) : WGPublic := MkWGPub (wg_public (wgPrivRaw p)).
Definition WGPrivateString (p : WGPrivate) : gostring := wg_string (wgPrivRaw p).
Definition WGPublicString (p : WGPublic) : gostring := wg_string (wgPubRaw p).

Definition ParseWireGuardPrivate (s : gostring) : result error WGPrivate :=
  MkWGPriv <$> toErr errWG (wg_parse s).
Definition ParseWireGuardPublic (s : gostring) : result error WGPublic :=
  MkWGPub <$> toErr errWG (wg_parse s).
End wireguard.

(** ** Facts *)

Lemma GenerateEd25519_raw p : GenerateEd25519 (Some (privRaw p)) = Ok p.
Proof. by destruct p. Qed.

Lemma GenerateWireGuard_raw p : GenerateWireGuard (Some (wgPrivRaw p)) = Ok p.
Proof. by destruct p. Qed.

Lemma ParseBase64_length s p :
  ParseEd25519PublicBase64 s = Ok p -> length (pubRaw p) = PublicKeySize.
Proof.
  unfold ParseEd25519PublicBase64. destruct (base64.DecodeString _ s); [|done].
  case_bool_decide; simpl; by intros [= <-].
Qed.

(** Every key the lenient parser accepts has the right size, so [Verify]
    never reaches the primitive with a short key. *)
Lemma ParseBase64ish_length b p :
  ParseEd25519PublicBase64ish b = Ok p -> length (pubRaw p) = PublicKeySize.
Proof.
  unfold ParseEd25519PublicBase64ish. case_bool_decide; [by intros [= <-]|].
  apply ParseBase64_length.
Qed.

Lemma ParseBase64_String p : length (pubRaw p) = PublicKeySize ->
  ParseEd25519PublicBase64 (String p) = Ok p.
Proof.
  intros Hl. unfold ParseEd25519PublicBase64, String.
  rewrite base64_lemmas.DecodeString_EncodeToString by auto with gsnet.
  rewrite bool_decide_eq_true_2 by done. by destruct p.
Qed.

(** The base64 text of a 32-byte key is 44 characters long, so it is never
    mistaken for a raw key. *)
Lemma String_length p : length (pubRaw p) = PublicKeySize -> length (String p) = 44.
Proof.
  intros Hl. unfold String. by rewrite base64_lemmas.EncodeToString_length, Hl.
Qed.

Lemma Public_length `{Ed25519} p : ed_genuine (privRaw p) ->
  length (pubRaw (Public p)) = PublicKeySize.
Proof. intros Hg. simpl. by rewrite length_drop, ed_genuine_length. Qed.

Lemma Verify_Sign `{Ed25519} p msg : ed_genuine (privRaw p) ->
  Verify (Public p) msg (Sign p msg) = true.
Proof.
  intros Hg. unfold Verify. rewrite bool_decide_eq_true_2 by by apply Public_length.
  by apply ed_verify_sign.
Qed.

Lemma ParsePrivatePEM_Marshal `{Ed25519, X509} p pem : ed_genuine (privRaw p) ->
  MarshalPrivatePEM p = Ok pem -> ParseEd25519PrivatePEM pem = Ok p.
Proof.
  intros Hg. unfold MarshalPrivatePEM, ParseEd25519PrivatePEM.
  destruct (x509_marshal_pkcs8 (privRaw p)) as [der|] eqn:E; [|done].
  intros [= <-]. rewrite pem_decode_encode by set_solver.
  rewrite (x509_pkcs8_parse _ _ (ed_genuine_length _ Hg) E). by destruct p.
Qed.
End keys.


Module toy.

(** A signature that anyone can compute: the public key followed by the
    length of the message.  It satisfies the laws of [Ed25519]. *)
Definition tag (msg : bytes) : bytes := take 32 (msg ++ replicate 32 (to_byte 0)).

Lemma tag_length msg : length (tag msg) = 32.
Proof. unfold tag. rewrite length_take, length_app, length_replicate. lia. Qed.

#[refine, export] Instance ed25519 : Ed25519 := {
  ed_genuine := fun priv => length priv = 64;
  ed_sign := fun priv msg => drop 32 priv ++ tag msg;
  ed_verify := fun pub msg sig => bool_decide (sig = pub ++ tag msg)
}.
Proof.
  - done.
  - intros priv msg H. rewrite length_app, length_drop, tag_length. lia.
  - intros. by apply bool_decide_eq_true_2.
Defined.

#[refine, export] Instance sha : SHA256 := { sha256 := tag }.
Proof. apply tag_length. Defined.

#[refine, export] Instance x509 : X509 := {
  pem_encode := fun ty body => ty ++ !":" ++ body;
  pem_decode := fun b => cutByte (to_byte 58) b;
  x509_marshal_pkcs8 := Some;
  x509_parse_pkcs8 := fun d => Some (KeyEd25519 d);
  x509_marshal_pkix := Some;
  x509_parse_pkix := fun d => Some (KeyEd25519 d)
}.
Proof.
  - intros ty body Hty. apply cutByte_Some. split; [done|].
    assert (Hall : Forall (fun t => to_byte 58 ∉ t) [!"PRIVATE KEY"; !"PUBLIC KEY"])
      by (apply (bool_decide_unpack _); vm_compute; exact I).
    by eapply Forall_forall in Hall.
  - by intros k der _ [= <-].
  - by intros k der _ [= <-].
Defined.

(** [wgtypes] with the textual form wgctrl documents: standard base64. *)
#[refine, export] Instance wgtypes : WGTypes := {
  wg_parse := fun s =>
    b ← base64.DecodeString base64.StdEncoding s;
    if bool_decide (length b = 32) then Some b else None;
  wg_string := base64.EncodeToString base64.StdEncoding;
  wg_public := tag
}.
Proof.
  - intros k Hk. rewrite base64_lemmas.DecodeString_EncodeToString by auto with gsnet. simpl.
    by rewrite bool_decide_eq_true_2.
  - intros s k. destruct (base64.DecodeString _ s) as [b|]; simpl; [|done].
    case_bool_decide; [by intros [= <-]|done].
Defined.
End toy.

(** For every key the generator returns, each form in which its public
    half travels (raw bytes in a Hello, base64 in a host file or in a Hello)
    parses back to that public key, and the parsed key accepts the signatures
    of the private key; whatever [ParseEd25519PublicBase64ish] accepts is 32
    bytes long. *)
Theorem public_key_forms `{Ed25519} priv msg : ed_genuine (keys.privRaw priv) ->
  let pub := keys.Public priv in
  keys.ParseEd25519PublicBase64 (keys.String pub) = Ok pub
  /\ keys.ParseEd25519PublicBase64ish (keys.Raw pub) = Ok pub
  /\ keys.ParseEd25519PublicBase64ish (keys.String pub) = Ok pub
  /\ keys.Verify pub msg (keys.Sign priv msg) = true
  /\ (forall b p, keys.ParseEd25519PublicBase64ish b = Ok p ->
        length (keys.pubRaw p) = keys.PublicKeySize).
Proof.
  intros Hg pub. pose proof (keys.Public_length priv Hg) as Hl.
  pose proof (keys.ParseBase64_String pub Hl) as Hp.
  split_and!; [done | | | by apply keys.Verify_Sign | apply keys.ParseBase64ish_length].
  - unfold keys.ParseEd25519PublicBase64ish, keys.Raw.
    rewrite bool_decide_eq_true_2 by done. by destruct pub.
  - unfold keys.ParseEd25519PublicBase64ish. rewrite bool_decide_eq_false_2; [done|].
    by rewrite keys.String_length.
Qed.

Definition demoPriv : keys.Ed25519Private := keys.MkPriv ((fun n => to_byte (Z.of_nat n)) <$> seq 0 64).

Lemma public_key_forms_witness :
  keys.ParseEd25519PublicBase64ish (keys.String (keys.Public demoPriv)) = Ok (keys.Public demoPriv).
Proof.
  apply (@public_key_forms toy.ed25519 demoPriv []). vm_compute. reflexivity.
Defined.
