(* ===== verification/JSON.v ===== *)
(** * encoding/json, as far as gsnet uses it

    Gossip envelopes and their payloads are JSON objects whose fields are
    strings, integers, byte strings and raw messages.  This file models
    [json.Marshal] of such fields (HTML-safe escaping, base64 for byte
    strings, compaction of raw messages) and [json.Unmarshal] into them:
    validation of the whole input by the scanner, case-insensitive field
    names, [null], repeated and unknown members, and the nesting limit. *)

From Stdlib Require Import Ascii String ZArith Lia.
From stdpp Require Import base tactics list gmap strings.
From S2P Require Import Prelude.
From S2P Require Import GoStrings.
From S2P Require Import Base64.

Local Open Scope Z_scope.

Module json.

Definition quote : byte := to_byte 34.
Definition backslash : byte := to_byte 92.
Definition comma : byte := to_byte 44.
Definition colon : byte := to_byte 58.
Definition lbrace : byte := to_byte 123.
Definition rbrace : byte := to_byte 125.
Definition lbracket : byte := to_byte 91.
Definition rbracket : byte := to_byte 93.
Definition letter_u : byte := to_byte 117.

(** ** The scanner

    [scanX s] recognises an X at the head of [s] and returns what follows. *)

Definition isWs (b : byte) : bool :=
  bool_decide (byte_val b ∈ [32; 9; 13; 10]).

Fixpoint skipWs (s : bytes) : bytes :=
  match s with
  | c :: t => if isWs c then skipWs t else s
  | [] => []
  end.

Definition isDec (b : byte) : bool := (48 <=? byte_val b) && (byte_val b <=? 57).

Fixpoint spanDigits (s : bytes) : bytes * bytes :=
  match s with
  | c :: t => if isDec c then prod_map (cons c) id (spanDigits t) else ([], s)
  | [] => ([], [])
  end.

(** At least one digit. *)
Definition digits1 (s : bytes) : option bytes :=
  match spanDigits s with ([], _) => None | (_, r) => Some r end.

Definition dropSign (signs : list Z) (s : bytes) : bytes :=
  match s with
  | c :: t => if bool_decide (byte_val c ∈ signs) then t else s
  | [] => []
  end.

Definition scanExp (s : bytes) : option bytes :=
  match s with
  | c :: t => if bool_decide (byte_val c ∈ [101; 69]) then digits1 (dropSign [43; 45] t) else Some s
  | [] => Some []
  end.

Definition scanFrac (s : bytes) : option bytes :=
  match s with
  | c :: t => if bool_decide (byte_val c = 46) then digits1 t ≫= scanExp else scanExp s
  | [] => Some []
  end.

Definition scanNumber (s : bytes) : option bytes :=
  match dropSign [45] s with
  | c :: t =>
      if bool_decide (byte_val c = 48) then scanFrac t
      else if isDec c then scanFrac (spanDigits t).2
      else None
  | [] => None
  end.

Definition hexVal (b : byte) : option Z :=
  v ← digitVal b; if v <? 16 then Some v else None.

Definition isHex (b : byte) : bool := match hexVal b with Some _ => true | None => false end.

Definition escapable : list Z := [98; 102; 110; 114; 116; 92; 47; 34].

(** The body of a string literal (between the quotes, escapes unchanged) and
    what follows the closing quote. *)
Fixpoint scanString (s : bytes) : option (bytes * bytes) :=
  match s with
  | [] => None
  | c :: t =>
      if bool_decide (c = quote) then Some ([], t)
      else if bool_decide (c = backslash) then
        match t with
        | e :: t1 =>
            if bool_decide (e = letter_u) then
              match t1 with
              | h1 :: h2 :: h3 :: h4 :: t2 =>
                  if isHex h1 && isHex h2 && isHex h3 && isHex h4
                  then prod_map (fun r => c :: e :: h1 :: h2 :: h3 :: h4 :: r) id <$> scanString t2
                  else None
              | _ => None
              end
            else if bool_decide (byte_val e ∈ escapable)
            then prod_map (fun r => c :: e :: r) id <$> scanString t1
            else None
        | [] => None
        end
      else if byte_val c <? 32 then None
      else prod_map (cons c) id <$> scanString t
  end.

Definition scanLiteral (w s : bytes) : option bytes :=
  if bool_decide (take (length w) s = w) then Some (drop (length w) s) else None.

(** One value, one comma-separated member list up to the closing brace, one
    element list up to the closing bracket; [d] levels of nesting are left. *)
Fixpoint scanValue (fuel : nat) (d : Z) (s : bytes) : option bytes :=
  match fuel with
  | O => None
  | S f =>
      match skipWs s with
      | [] => None
      | c :: t =>
          if bool_decide (c = quote) then snd <$> scanString t
          else if bool_decide (c = lbrace) then
            if d <=? 0 then None else
            match skipWs t with
            | c' :: r => if bool_decide (c' = rbrace) then Some r else scanMembers f (d - 1) t
            | [] => None
            end
          else if bool_decide (c = lbracket) then
            if d <=? 0 then None else
            match skipWs t with
            | c' :: r => if bool_decide (c' = rbracket) then Some r else scanElems f (d - 1) t
            | [] => None
            end
          else if bool_decide (byte_val c = 116) then scanLiteral !"true" (c :: t)
          else if bool_decide (byte_val c = 102) then scanLiteral !"false" (c :: t)
          else if bool_decide (byte_val c = 110) then scanLiteral !"null" (c :: t)
          else scanNumber (c :: t)
      end
  end
with scanMembers (fuel : nat) (d : Z) (s : bytes) : option bytes :=
  match fuel with
  | O => None
  | S f =>
      match skipWs s with
      | c :: t =>
          if bool_decide (c = quote) then
            '(_, r) ← scanString t;
            match skipWs r with
            | c1 :: r1 =>
                if bool_decide (c1 = colon) then
                  r2 ← scanValue f d r1;
                  match skipWs r2 with
                  | c2 :: r3 =>
                      if bool_decide (c2 = comma) then scanMembers f d r3
                      else if bool_decide (c2 = rbrace) then Some r3 else None
                  | [] => None
                  end
                else None
            | [] => None
            end
          else None
      | [] => None
      end
  end
with scanElems (fuel : nat) (d : Z) (s : bytes) : option bytes :=
  match fuel with
  | O => None
  | S f =>
      r2 ← scanValue f d s;
      match skipWs r2 with
      | c2 :: r3 =>
          if bool_decide (c2 = comma) then scanElems f d r3
          else if bool_decide (c2 = rbracket) then Some r3 else None
      | [] => None
      end
  end.

Definition maxNestingDepth : Z := 10000.

(** Two steps per byte are enough ([scan_fuel] below). *)
Definition fuelFor (s : bytes) : nat := 2 * length s + 2.

Definition scan (d : Z) (s : bytes) : option bytes := scanValue (fuelFor s) d s.

(** [json.Valid], with the nesting limit as an argument. *)
Definition valid (d : Z) (s : bytes) : bool :=
  match scan d s with Some r => bool_decide (skipWs r = []) | None => false end.

(** ** Strings *)

Definition hexChar (d : Z) : byte := if d <? 10 then to_byte (48 + d) else to_byte (87 + d).

(** One byte below 0x80, as [appendString] writes it with HTML escaping on. *)
Definition escapeByte (c : byte) : bytes :=
  let v := byte_val c in
  if bool_decide (v ∈ [34; 92]) then [backslash; c]
  else if v =? 8 then !"\b" else if v =? 12 then !"\f" else if v =? 10 then !"\n"
  else if v =? 13 then !"\r" else if v =? 9 then !"\t"
  else if (v <? 32) || bool_decide (v ∈ [60; 62; 38])
  then !"\u00" ++ [hexChar (v / 16); hexChar (v mod 16)]
  else [c].

(** [escapeFrom n s]: the first [n] bytes belong to a rune already examined. *)
Fixpoint escapeFrom (skip : nat) (s : gostring) : bytes :=
  match s with
  | [] => []
  | c :: t =>
      match skip with
      | S k => c :: escapeFrom k t
      | O =>
          if byte_val c <? 128 then escapeByte c ++ escapeFrom 0 t
          else
            let '(r, w) := decodeRune s in
            if (r =? RuneError) && bool_decide (w = 1%nat) then !"\ufffd" ++ escapeFrom 0 t
            else if (r =? 0x2028) || (r =? 0x2029) then
              match t with
              | _ :: _ :: t' => !"\u202" ++ hexChar (r mod 16) :: escapeFrom 0 t'
              | _ => []
              end
            else c :: escapeFrom (pred w) t
      end
  end.

Definition marshalString (s : gostring) : bytes := quote :: escapeFrom 0 s ++ [quote].

Definition escChar (e : byte) : byte :=
  let v := byte_val e in
  if v =? 98 then to_byte 8 else if v =? 102 then to_byte 12 else if v =? 110 then nl
  else if v =? 114 then cr else if v =? 116 then to_byte 9 else e.

Definition hex4 (h1 h2 h3 h4 : byte) : Z :=
  let h b := default 0 (hexVal b) in ((h h1 * 16 + h h2) * 16 + h h3) * 16 + h h4.

Definition isHigh (r : Z) : bool := (0xD800 <=? r) && (r <? 0xDC00).
Definition isLow (r : Z) : bool := (0xDC00 <=? r) && (r <? 0xE000).

(** The value of a string literal's body: escapes resolved, surrogate pairs
    joined, lone surrogates and invalid UTF-8 replaced by U+FFFD. *)
Fixpoint unquoteFrom (skip : nat) (s : bytes) : gostring :=
  match s with
  | [] => []
  | c :: t =>
      match skip with
      | S k => c :: unquoteFrom k t
      | O =>
          if bool_decide (c = backslash) then
            match t with
            | e :: t1 =>
                if bool_decide (e = letter_u) then
                  match t1 with
                  | h1 :: h2 :: h3 :: h4 :: t2 =>
                      let r := hex4 h1 h2 h3 h4 in
                      if isHigh r || isLow r then
                        match t2 with
                        | b :: u :: g1 :: g2 :: g3 :: g4 :: t3 =>
                            let r2 := hex4 g1 g2 g3 g4 in
                            if bool_decide (b = backslash) && bool_decide (u = letter_u)
                               && isHigh r && isLow r2
                            then encodeRune ((r - 0xD800) * 1024 + (r2 - 0xDC00) + 0x10000)
                                   ++ unquoteFrom 0 t3
                            else encodeRune RuneError ++ unquoteFrom 0 t2
                        | _ => encodeRune RuneError ++ unquoteFrom 0 t2
                        end
                      else encodeRune r ++ unquoteFrom 0 t2
                  | _ => []
                  end
                else escChar e :: unquoteFrom 0 t1
            | [] => []
            end
          else if byte_val c <? 128 then c :: unquoteFrom 0 t
          else
            let '(r, w) := decodeRune s in
            if (r =? RuneError) && bool_decide (w = 1%nat)
            then encodeRune RuneError ++ unquoteFrom 0 t
            else c :: unquoteFrom (pred w) t
      end
  end.

Definition unquote (body : bytes) : gostring := unquoteFrom 0 body.

(** ** Marshalling of the field types gsnet uses *)

Definition marshalInt (z : Z) : bytes := Itoa z.

(** A nil byte slice is [null]; the empty list stands for nil. *)
Definition marshalBytes (b : bytes) : bytes :=
  if bool_decide (b = []) then !"null"
  else quote :: base64.EncodeToString base64.StdEncoding b ++ [quote].

(** [json.Compact] with HTML escaping: white space outside strings goes, and
    <, >, & and U+2028/9 are escaped. *)
Fixpoint compactFrom (inStr esc : bool) (s : bytes) : bytes :=
  match s with
  | [] => []
  | c :: t =>
      let v := byte_val c in
      if negb inStr && isWs c then compactFrom inStr esc t
      else
        let inStr' := if bool_decide (c = quote) && negb (inStr && esc) then negb inStr else inStr in
        let esc' := inStr && negb esc && bool_decide (c = backslash) in
        if bool_decide (v ∈ [60; 62; 38])
        then !"\u00" ++ hexChar (v / 16) :: hexChar (v mod 16) :: compactFrom inStr' esc' t
        else match t with
             | c1 :: c2 :: t' =>
                 if (v =? 0xE2) && (byte_val c1 =? 0x80) && bool_decide (byte_val c2 ∈ [0xA8; 0xA9])
                 then !"\u202" ++ hexChar (byte_val c2 mod 16) :: compactFrom inStr' esc' t'
                 else c :: compactFrom inStr' esc' t
             | _ => c :: compactFrom inStr' esc' t
             end
  end.

(** A nil [json.RawMessage] is written as [null], an invalid one is an error. *)
Definition marshalRaw (m : bytes) : option bytes :=
  if bool_decide (m = []) then Some !"null"
  else if valid maxNestingDepth m then Some (compactFrom false false m) else None.

Definition member (name value : bytes) : bytes := marshalString name ++ colon :: value.

(** The members of an object, already marshalled. *)
Fixpoint joinMembers (ms : list (bytes * bytes)) : bytes :=
  match ms with
  | [] => []
  | [(n, v)] => member n v
  | (n, v) :: t => member n v ++ comma :: joinMembers t
  end.

Definition object (ms : list (bytes * bytes)) : bytes := lbrace :: joinMembers ms ++ [rbrace].

(** [omitempty]. *)
Definition omitEmpty (name : bytes) (empty : bool) (value : bytes) : list (bytes * bytes) :=
  if empty then [] else [(name, value)].

(** ** Unmarshalling *)

Definition rawOf (s rest : bytes) : bytes := take (length s - length rest) s.

(** The members of a valid object, after its opening brace: names with
    escapes resolved, values as they stand in the text. *)
Fixpoint members (fuel : nat) (s : bytes) : list (gostring * bytes) :=
  match fuel with
  | O => []
  | S f =>
      match skipWs s with
      | c :: t =>
          if bool_decide (c = quote) then
            match scanString t with
            | Some (k, r) =>
                let v := skipWs (drop 1 (skipWs r)) in
                match scan maxNestingDepth v with
                | Some r2 => (unquote k, rawOf v r2) :: members f (drop 1 (skipWs r2))
                | None => []
                end
            | None => []
            end
          else []
      | [] => []
      end
  end.

(** The elements of a valid array, after its opening bracket. *)
Fixpoint elements (fuel : nat) (s : bytes) : list bytes :=
  match fuel with
  | O => []
  | S f =>
      let v := skipWs s in
      match scan maxNestingDepth v with
      | Some r2 => rawOf v r2 :: elements f (drop 1 (skipWs r2))
      | None => []
      end
  end.

Inductive error := errSyntax | errType.

#[global] Instance error_eq_dec : EqDecision error.
Proof. solve_decision. Defined.

Definition isNull (v : bytes) : bool :=
  match v with c :: _ => bool_decide (byte_val c = 110) | [] => false end.

(** Storing the JSON value [v] in a Go variable that holds [old]. *)
Definition decodeString (v : bytes) (old : gostring) : option gostring :=
  if isNull v then Some old
  else match v with
       | c :: t => if bool_decide (c = quote) then (fun p => unquote p.1) <$> scanString t else None
       | [] => None
       end.

Definition isNumber (v : bytes) : bool :=
  match v with c :: _ => bool_decide (byte_val c = 45) || isDec c | [] => false end.

Definition decodeInt (v : bytes) (old : Z) : option Z :=
  if isNull v then Some old else if isNumber v then ok (Atoi v) else None.

(** An element of a byte array: an unsigned 8-bit number ([null] leaves the
    zero of a fresh element). *)
Definition decodeUint8 (v : bytes) : option byte :=
  if isNull v then Some (to_byte 0)
  else if isNumber v then to_byte <$> ok (ParseUint 10 8 v) else None.

Definition decodeBytes (v : bytes) (old : bytes) : option bytes :=
  if isNull v then Some []
  else match v with
       | c :: t =>
           if bool_decide (c = quote) then
             '(body, _) ← scanString t; base64.DecodeString base64.StdEncoding (unquote body)
           else if bool_decide (c = lbracket) then mapM decodeUint8 (elements (length v) t)
           else None
       | [] => None
       end.

Definition decodeRaw (v : bytes) (old : bytes) : option bytes := Some v.

(** [json.Unmarshal(s, &x)] for a struct [x]: [set x name v] stores the value
    [v] in the field that [name] selects, and fails on a type mismatch.  A
    mismatch does not stop decoding, but the result is an error either way.
    A document that is [null] changes nothing. *)
Definition unmarshalObject {A} (set : A -> gostring -> bytes -> option A) (x : A) (s : bytes)
  : result error A :=
  if negb (valid maxNestingDepth s) then Err errSyntax
  else match skipWs s with
       | c :: t =>
           if isNull (c :: t) then Ok x
           else if bool_decide (c = lbrace) then
             match foldl (fun acc '(n, v) => x ← acc; set x n v) (Some x) (members (length s) t) with
             | Some x' => Ok x'
             | None => Err errType
             end
           else Err errType
       | [] => Err errSyntax
       end.

End json.
