(* ===== verification/JSONFacts.v ===== *)
(** * Facts about the JSON model

    The scanner is insensitive to what follows a value and to the amount of
    fuel; string literals, objects and raw messages survive a round trip. *)

From Stdlib Require Import Ascii String ZArith Lia.
From stdpp Require Import base tactics list gmap strings.
From S2P Require Import Prelude.
From S2P Require Import GoStrings.
From S2P Require Import Base64.
From S2P Require Import JSON.

Local Open Scope Z_scope.
Import json.

(** ** Lists of bytes followed by something else *)

Definition numChar (b : byte) : bool :=
  isDec b || bool_decide (byte_val b ∈ [46; 101; 69; 43; 45]).

(** [t] cannot continue a number. *)
Definition stops (t : bytes) : bool :=
  match t with c :: _ => negb (numChar c) | [] => true end.

Lemma skipWs_app s t : skipWs s <> [] -> skipWs (s ++ t) = skipWs s ++ t.
Proof.
  induction s as [|c s IH]; [done|]. cbn [skipWs app]. by destruct (isWs c).
Qed.

Lemma skipWs_cons s c t u : skipWs s = c :: t -> skipWs (s ++ u) = c :: t ++ u.
Proof. intros E. rewrite skipWs_app by by rewrite E. by rewrite E. Qed.

Lemma skipWs_length s : (length (skipWs s) <= length s)%nat.
Proof.
  induction s as [|c s IH]; [done|]. cbn [skipWs]. destruct (isWs c); simpl in *; lia.
Qed.

Lemma skipWs_idemp s : skipWs (skipWs s) = skipWs s.
Proof.
  induction s as [|c s IH]; [done|]. cbn [skipWs]. destruct (isWs c) eqn:E; [done|].
  cbn [skipWs]. by rewrite E.
Qed.

Lemma spanDigits_app s t : stops t = true ->
  spanDigits (s ++ t) = ((spanDigits s).1, (spanDigits s).2 ++ t).
Proof.
  intros Ht. induction s as [|c s IH]; cbn [spanDigits app].
  - destruct t as [|c t]; [done|]. cbn [spanDigits]. simpl in Ht.
    unfold numChar in Ht. by destruct (isDec c).
  - destruct (isDec c); [|done]. rewrite IH. by destruct (spanDigits s).
Qed.

Lemma spanDigits_length s : (length (spanDigits s).2 <= length s)%nat.
Proof.
  induction s as [|c s IH]; [done|]. cbn [spanDigits].
  destruct (isDec c); [|done]. destruct (spanDigits s); simpl in *; lia.
Qed.

Lemma digits1_app s t r : stops t = true -> digits1 s = Some r -> digits1 (s ++ t) = Some (r ++ t).
Proof.
  intros Ht. unfold digits1. rewrite spanDigits_app by done.
  destruct (spanDigits s) as [[|? ?] ?]; simpl; [done|]. by intros [= <-].
Qed.

Lemma digits1_length s r : digits1 s = Some r -> (length r <= length s)%nat.
Proof.
  unfold digits1. pose proof (spanDigits_length s).
  destruct (spanDigits s) as [[|? ?] ?]; simpl in *; [done|]. by intros [= <-].
Qed.

Lemma stops_not t l : stops t = true ->
  Forall (fun z => 48 <= z <= 57 \/ z ∈ [46; 101; 69; 43; 45]) l ->
  match t with c :: _ => bool_decide (byte_val c ∈ l) = false | [] => True end.
Proof.
  destruct t as [|c t]; [done|]. simpl. intros Ht Hl. apply bool_decide_eq_false_2.
  intros Hin. rewrite Forall_forall in Hl. apply Hl in Hin. apply negb_true_iff in Ht.
  unfold numChar, isDec in Ht. apply orb_false_iff in Ht as [Hd Hn].
  apply bool_decide_eq_false in Hn. destruct Hin as [Hin|]; [|done].
  destruct (Z.leb_spec 48 (byte_val c)), (Z.leb_spec (byte_val c) 57); simpl in *; lia || done.
Qed.

Lemma dropSign_app l s t : s <> [] -> dropSign l (s ++ t) = dropSign l s ++ t.
Proof. destruct s as [|c s]; [done|]. intros _. simpl. by case_bool_decide. Qed.

Lemma dropSign_length l s : (length (dropSign l s) <= length s)%nat.
Proof. destruct s; simpl; [done|]. case_bool_decide; simpl; lia. Qed.

Lemma scanExp_app s t r : stops t = true -> scanExp s = Some r -> scanExp (s ++ t) = Some (r ++ t).
Proof.
  intros Ht. destruct s as [|c s]; simpl.
  - intros [= <-]. simpl. destruct t as [|c t]; [done|]. simpl.
    pose proof (stops_not (c :: t) [101; 69] Ht) as Hn. simpl in Hn.
    rewrite Hn; [done|]. repeat constructor; right; set_solver.
  - case_bool_decide; [|by intros [= <-]]. intros Hd.
    destruct s as [|c' s]; [done|]. rewrite dropSign_app by done. by apply digits1_app.
Qed.

Lemma scanExp_length s r : scanExp s = Some r -> (length r <= length s)%nat.
Proof.
  destruct s as [|c s]; simpl; [by intros [= <-]|]. case_bool_decide; [|by intros [= <-]].
  intros Hd%digits1_length. pose proof (dropSign_length [43; 45] s). lia.
Qed.

Lemma scanFrac_app s t r : stops t = true -> scanFrac s = Some r -> scanFrac (s ++ t) = Some (r ++ t).
Proof.
  intros Ht. destruct s as [|c s]; cbn [scanFrac app].
  - intros [= <-]. simpl. destruct t as [|c t]; [done|]. cbn [scanFrac].
    pose proof (stops_not (c :: t) [46] Ht) as Hn. simpl in Hn.
    rewrite bool_decide_eq_false_2.
    + by apply (scanExp_app [] (c :: t) []).
    + intros E. rewrite bool_decide_eq_false in Hn. apply Hn; [|rewrite E; set_solver].
      repeat constructor; right; set_solver.
  - case_bool_decide; [|by apply (scanExp_app (c :: s))].
    destruct (digits1 s) as [r1|] eqn:E; [|done]. simpl.
    rewrite (digits1_app _ _ _ Ht E). by apply scanExp_app.
Qed.

Lemma scanFrac_length s r : scanFrac s = Some r -> (length r <= length s)%nat.
Proof.
  destruct s as [|c s]; cbn [scanFrac]; [by intros [= <-]|].
  case_bool_decide; [|apply scanExp_length].
  destruct (digits1 s) as [r1|] eqn:E; [|done]. simpl. intros Hr%scanExp_length.
  apply digits1_length in E. lia.
Qed.

Lemma scanNumber_app s t r : stops t = true ->
  scanNumber s = Some r -> scanNumber (s ++ t) = Some (r ++ t).
Proof.
  intros Ht. unfold scanNumber. destruct s as [|c0 s]; [done|].
  rewrite dropSign_app by done. destruct (dropSign _ _) as [|c u]; [done|]. simpl.
  case_bool_decide; [by apply scanFrac_app|].
  destruct (isDec c); [|done]. rewrite spanDigits_app by done. by apply scanFrac_app.
Qed.

Lemma scanNumber_length s r : scanNumber s = Some r -> (length r < length s)%nat.
Proof.
  unfold scanNumber. pose proof (dropSign_length [45] s).
  destruct (dropSign _ s) as [|c u]; [done|]. simpl in *.
  case_bool_decide; [intros Hr%scanFrac_length; lia|].
  destruct (isDec c); [|done]. intros Hr%scanFrac_length. pose proof (spanDigits_length u). lia.
Qed.

Lemma scanLiteral_app w s t r : scanLiteral w s = Some r -> scanLiteral w (s ++ t) = Some (r ++ t).
Proof.
  unfold scanLiteral. case_bool_decide as E; [|done]. intros [= <-].
  assert (length w <= length s)%nat.
  { apply (f_equal length) in E. rewrite length_take in E. lia. }
  rewrite take_app_le, E, bool_decide_eq_true_2 by done. by rewrite drop_app_le.
Qed.

Lemma scanLiteral_length w s r : w <> [] -> scanLiteral w s = Some r -> (length r < length s)%nat.
Proof.
  unfold scanLiteral. case_bool_decide as E; [|done]. intros Hw [= <-].
  destruct s; [destruct w; [done|simpl in E; done]|].
  rewrite length_drop. destruct w; [done|]. simpl. lia.
Qed.

(** Strong induction on the length of a byte string. *)
Lemma length_ind (P : bytes -> Prop) :
  (forall s, (forall u, (length u < length s)%nat -> P u) -> P s) -> forall s, P s.
Proof.
  intros H s. assert (forall n u, (length u < n)%nat -> P u) as Hn;
    [|apply (Hn (S (length s))); lia].
  induction n as [|n IH]; [lia|]. intros u Hu. apply H. intros v Hv. apply IH. lia.
Qed.

Lemma scanString_app s b r t : scanString s = Some (b, r) -> scanString (s ++ t) = Some (b, r ++ t).
Proof.
  revert b r. induction s as [[|c s] IH] using length_ind; intros b r; [done|].
  cbn [scanString app]. case_bool_decide; [by intros [= <- <-]|].
  case_bool_decide.
  - destruct s as [|e s]; [done|]. cbn [app]. case_bool_decide.
    + destruct s as [|h1 [|h2 [|h3 [|h4 s]]]]; try done. cbn [app].
      destruct (_ && _); [|done]. destruct (scanString s) as [[b' r']|] eqn:E; [|done].
      apply IH in E; [|simpl; lia]. rewrite E. simpl. by intros [= <- <-].
    + case_bool_decide; [|done]. destruct (scanString s) as [[b' r']|] eqn:E; [|done].
      apply IH in E; [|simpl; lia]. rewrite E. simpl. by intros [= <- <-].
  - destruct (_ <? _); [done|]. destruct (scanString s) as [[b' r']|] eqn:E; [|done].
    apply IH in E; [|simpl; lia]. rewrite E. simpl. by intros [= <- <-].
Qed.

Lemma scanString_length s b r : scanString s = Some (b, r) -> (length r < length s)%nat.
Proof.
  revert b r. induction s as [[|c s] IH] using length_ind; intros b r; [done|].
  cbn [scanString]. case_bool_decide; [intros [= <- <-]; simpl; lia|].
  case_bool_decide.
  - destruct s as [|e s]; [done|]. case_bool_decide.
    + destruct s as [|h1 [|h2 [|h3 [|h4 s]]]]; try done.
      destruct (_ && _); [|done]. destruct (scanString s) as [[b' r']|] eqn:E; [|done].
      apply IH in E; [|simpl; lia]. intros [= <- <-]. simpl in *. lia.
    + case_bool_decide; [|done]. destruct (scanString s) as [[b' r']|] eqn:E; [|done].
      apply IH in E; [|simpl; lia]. intros [= <- <-]. simpl in *. lia.
  - destruct (_ <? _); [done|]. destruct (scanString s) as [[b' r']|] eqn:E; [|done].
    apply IH in E; [|simpl; lia]. intros [= <- <-]. simpl in *. lia.
Qed.

(** ** The scanner *)

(** Consuming input: whatever a scanner returns is shorter than its input. *)
Lemma scan_shorter fuel :
  (forall d s r, scanValue fuel d s = Some r -> (length r < length s)%nat)
  /\ (forall d s r, scanMembers fuel d s = Some r -> (length r < length s)%nat)
  /\ (forall d s r, scanElems fuel d s = Some r -> (length r < length s)%nat).
Proof.
  induction fuel as [|f (IHv & IHm & IHe)]; [done|]. split_and!; intros d s r.
  - cbn [scanValue]. pose proof (skipWs_length s) as Hs.
    destruct (skipWs s) as [|c t]; [done|].
    case_bool_decide.
    { destruct (scanString t) as [[b r']|] eqn:E; [|done]. intros [= <-].
      apply scanString_length in E. simpl in *. lia. }
    pose proof (skipWs_length t) as Ht.
    case_bool_decide; [|case_bool_decide].
    1,2: destruct (_ <=? _); [done|]; destruct (skipWs t) as [|c' r']; [done|];
      case_bool_decide; [intros [= <-]; simpl in *; lia|].
    { intros Hr%IHm. simpl in *. lia. }
    { intros Hr%IHe. simpl in *. lia. }
    do 3 (case_bool_decide; [intros Hr%scanLiteral_length; [simpl in *; lia|done]|]).
    intros Hr%scanNumber_length. simpl in *. lia.
  - cbn [scanMembers]. pose proof (skipWs_length s) as Hs.
    destruct (skipWs s) as [|c t]; [done|]. case_bool_decide; [|done].
    destruct (scanString t) as [[b r0]|] eqn:E; [|done]. simpl. apply scanString_length in E.
    pose proof (skipWs_length r0) as H0. destruct (skipWs r0) as [|c1 r1]; [done|].
    case_bool_decide; [|done]. destruct (scanValue f d r1) as [r2|] eqn:E2; [|done]. simpl.
    apply IHv in E2. pose proof (skipWs_length r2) as H2'. destruct (skipWs r2) as [|c2 r3]; [done|].
    case_bool_decide; [intros Hr%IHm; simpl in *; lia|].
    case_bool_decide; [|done]. intros [= <-]. simpl in *. lia.
  - cbn [scanElems]. destruct (scanValue f d s) as [r2|] eqn:E2; [|done]. simpl.
    apply IHv in E2. pose proof (skipWs_length r2) as H2'. destruct (skipWs r2) as [|c2 r3]; [done|].
    case_bool_decide; [intros Hr%IHe; simpl in *; lia|].
    case_bool_decide; [|done]. intros [= <-]. simpl in *. lia.
Qed.

(** Two fuels that both cover the input give the same answer. *)
Lemma scan_fuel f :
  (forall g d s, (2 * length s < f)%nat -> (2 * length s < g)%nat ->
     scanValue f d s = scanValue g d s)
  /\ (forall g d s, (2 * length s < f)%nat -> (2 * length s < g)%nat ->
     scanMembers f d s = scanMembers g d s)
  /\ (forall g d s, (2 * length s + 1 < f)%nat -> (2 * length s + 1 < g)%nat ->
     scanElems f d s = scanElems g d s).
Proof.
  induction f as [|f (IHv & IHm & IHe)]; [split_and!; intros; lia|].
  split_and!; intros [|g] d s Hf Hg; try lia.
  - cbn [scanValue]. pose proof (skipWs_length s) as Hs.
    destruct (skipWs s) as [|c t]; [done|]. simpl in Hs.
    case_bool_decide; [done|].
    case_bool_decide; [|case_bool_decide; [|done]];
      (destruct (_ <=? _); [done|]; destruct (skipWs t) as [|c' r']; [done|];
       case_bool_decide; [done|]); [apply IHm | apply IHe]; lia.
  - cbn [scanMembers]. pose proof (skipWs_length s) as Hs.
    destruct (skipWs s) as [|c t]; [done|]. case_bool_decide; [|done].
    destruct (scanString t) as [[b r0]|] eqn:E; [|done]. simpl. apply scanString_length in E.
    pose proof (skipWs_length r0) as H0. destruct (skipWs r0) as [|c1 r1]; [done|].
    case_bool_decide; [|done]. simpl in *. rewrite (IHv g) by lia.
    destruct (scanValue g d r1) as [r2|] eqn:E2; [|done]. simpl.
    apply scan_shorter in E2. pose proof (skipWs_length r2) as H2'.
    destruct (skipWs r2) as [|c2 r3]; [done|]. simpl in *.
    case_bool_decide; [apply IHm; lia|done].
  - cbn [scanElems]. rewrite (IHv g) by lia.
    destruct (scanValue g d s) as [r2|] eqn:E2; [|done]. simpl.
    apply scan_shorter in E2. pose proof (skipWs_length r2) as H2'.
    destruct (skipWs r2) as [|c2 r3]; [done|]. simpl in *.
    case_bool_decide; [apply IHe; lia|done].
Qed.

Lemma scan_enough f d s : (2 * length s < f)%nat -> scanValue f d s = scan d s.
Proof. intros Hf. apply scan_fuel; unfold fuelFor; lia. Qed.

(** What follows a value does not matter, unless it could continue a number. *)
Lemma scan_app_fuel fuel t : stops t = true ->
  (forall d s r, scanValue fuel d s = Some r -> scanValue fuel d (s ++ t) = Some (r ++ t))
  /\ (forall d s r, scanMembers fuel d s = Some r -> scanMembers fuel d (s ++ t) = Some (r ++ t))
  /\ (forall d s r, scanElems fuel d s = Some r -> scanElems fuel d (s ++ t) = Some (r ++ t)).
Proof.
  intros Ht. induction fuel as [|f (IHv & IHm & IHe)]; [done|]. split_and!; intros d s r.
  - cbn [scanValue]. destruct (skipWs s) as [|c u] eqn:Es; [done|].
    rewrite (skipWs_cons _ _ _ _ Es).
    case_bool_decide.
    { destruct (scanString u) as [[b r']|] eqn:E; [|done]. intros [= <-].
      by rewrite (scanString_app _ _ _ _ E). }
    case_bool_decide; [|case_bool_decide].
    1,2: destruct (_ <=? _); [done|]; destruct (skipWs u) as [|c' r'] eqn:Eu; [done|];
      rewrite (skipWs_cons _ _ _ _ Eu); case_bool_decide; [by intros [= <-]|by auto].
    do 3 (case_bool_decide; [apply (scanLiteral_app _ (c :: u))|]).
    by apply (scanNumber_app (c :: u)).
  - cbn [scanMembers]. destruct (skipWs s) as [|c u] eqn:Es; [done|].
    rewrite (skipWs_cons _ _ _ _ Es). case_bool_decide; [|done].
    destruct (scanString u) as [[b r0]|] eqn:E; [|done]. rewrite (scanString_app _ _ _ _ E). simpl.
    destruct (skipWs r0) as [|c1 r1] eqn:E0; [done|]. rewrite (skipWs_cons _ _ _ _ E0).
    case_bool_decide; [|done]. destruct (scanValue f d r1) as [r2|] eqn:E2; [|done].
    rewrite (IHv _ _ _ E2). simpl.
    destruct (skipWs r2) as [|c2 r3] eqn:E3; [done|]. rewrite (skipWs_cons _ _ _ _ E3).
    case_bool_decide; [by auto|]. case_bool_decide; [|done]. by intros [= <-].
  - cbn [scanElems]. destruct (scanValue f d s) as [r2|] eqn:E2; [|done].
    rewrite (IHv _ _ _ E2). simpl.
    destruct (skipWs r2) as [|c2 r3] eqn:E3; [done|]. rewrite (skipWs_cons _ _ _ _ E3).
    case_bool_decide; [by auto|]. case_bool_decide; [|done]. by intros [= <-].
Qed.

Lemma scan_app d s r t : stops t = true -> scan d s = Some r -> scan d (s ++ t) = Some (r ++ t).
Proof.
  intros Ht Hs. unfold scan at 1. unfold fuelFor.
  apply scan_app_fuel; [done|]. rewrite scan_enough; [done|]. rewrite length_app. lia.
Qed.
