(* ===== verification/JSONStrings.v ===== *)
(** * JSON string literals survive a round trip

    A string in valid UTF-8 is written as a literal that the scanner accepts,
    that compaction leaves alone, and whose value is the string again. *)

From Stdlib Require Import Ascii String ZArith Lia.
From stdpp Require Import base tactics list gmap strings.
From S2P Require Import Prelude.
From S2P Require Import GoStrings.
From S2P Require Import JSON.
From S2P Require Import JSONFacts.

Local Open Scope Z_scope.
Import json.

(** ** Valid UTF-8 *)

(** [utf8.ValidString]. *)
Fixpoint validFrom (skip : nat) (s : gostring) : bool :=
  match s with
  | [] => true
  | _ :: t =>
      match skip with
      | S k => validFrom k t
      | O => let '(r, w) := decodeRune s in
             negb ((r =? RuneError) && bool_decide (w = 1%nat)) && validFrom (pred w) t
      end
  end.

Definition validUTF8 (s : gostring) : bool := validFrom 0 s.

Lemma validFrom_ascii s : Forall asciiByte s -> validFrom 0 s = true.
Proof.
  induction 1 as [|b s Hb Hs IH]; [done|]. cbn [validFrom].
  rewrite decodeRune_ascii by done. cbn [pred]. rewrite IH, andb_true_r.
  unfold asciiByte, RuneError in *. destruct (Z.eqb_spec (byte_val b) 65533); [lia|done].
Qed.

Lemma validFrom_drop k s : validFrom k s = validFrom 0 (drop k s).
Proof.
  revert k. induction s as [|c s IH]; intros [|k]; try done. cbn [validFrom drop]. apply IH.
Qed.

(** The encoding of one rune outside ASCII. *)
Record multi (chunk : bytes) (r : Z) : Prop := {
  multi_decode : forall t, decodeRune (chunk ++ t) = (r, length chunk);
  multi_length : (2 <= length chunk)%nat;
  multi_head : forall c t, chunk = c :: t -> 128 <= byte_val c;
  multi_tail : forall c t, chunk = c :: t -> Forall (fun b => 128 <= byte_val b < 192) t;
  multi_sep : r = 0x2028 \/ r = 0x2029 <->
    exists c, chunk = [to_byte 0xE2; to_byte 0x80; c] /\ byte_val c ∈ [0xA8; 0xA9]
}.

Lemma byte_of_val b z : byte_val b = z -> b = to_byte z.
Proof. intros <-. by rewrite to_byte_val. Qed.

Ltac zbool := repeat match goal with
  | H : context [?a <? ?b] |- _ => destruct (Z.ltb_spec a b); simpl in H
  | H : context [?a <=? ?b] |- _ => destruct (Z.leb_spec a b); simpl in H
  | H : context [?a =? ?b] |- _ => destruct (Z.eqb_spec a b); simpl in H
  end.

Ltac zgoal := repeat match goal with
  | |- context [?a <? ?b] => destruct (Z.ltb_spec a b); try lia; simpl
  | |- context [?a <=? ?b] => destruct (Z.leb_spec a b); try lia; simpl
  | |- context [?a =? ?b] => destruct (Z.eqb_spec a b); try lia; simpl
  end.

Lemma elem2 (x a b : Z) : x ∈ [a; b] <-> x = a \/ x = b.
Proof. set_solver. Qed.

Lemma sep_two b0 b1 r : r < 0x800 ->
  r = 0x2028 \/ r = 0x2029 <->
    exists c, [b0; b1] = [to_byte 0xE2; to_byte 0x80; c] /\ byte_val c ∈ [0xA8; 0xA9].
Proof. intros Hr. split; [lia|]. by intros (c & [=] & _). Qed.

Lemma sep_four b0 b1 b2 b3 r : 0x10000 <= r ->
  r = 0x2028 \/ r = 0x2029 <->
    exists c, [b0; b1; b2; b3] = [to_byte 0xE2; to_byte 0x80; c] /\ byte_val c ∈ [0xA8; 0xA9].
Proof. intros Hr. split; [lia|]. by intros (c & [=] & _). Qed.

Lemma sep_three b0 b1 b2 : 0xE0 <= byte_val b0 < 0xF0 ->
  128 <= byte_val b1 < 192 -> 128 <= byte_val b2 < 192 ->
  let r := (byte_val b0 - 0xE0) * 4096 + (byte_val b1 - 0x80) * 64 + (byte_val b2 - 0x80) in
  r = 0x2028 \/ r = 0x2029 <->
    exists c, [b0; b1; b2] = [to_byte 0xE2; to_byte 0x80; c] /\ byte_val c ∈ [0xA8; 0xA9].
Proof.
  intros H0 H1 H2 r. split.
  - intros Hr. assert (byte_val b0 = 0xE2) as E0 by (unfold r in Hr; lia).
    assert (byte_val b1 = 0x80) as E1 by (unfold r in Hr; lia).
    exists b2. rewrite (byte_of_val _ _ E0), (byte_of_val _ _ E1). split; [done|].
    apply elem2. unfold r in Hr. lia.
  - intros (c & [= -> -> ->] & Hc). apply elem2 in Hc. unfold r.
    rewrite !byte_val_to_byte. vm_compute (_ mod 256). lia.
Qed.

Lemma decodeRune_multi c s r w : 128 <= byte_val c ->
  decodeRune (c :: s) = (r, w) -> (r =? RuneError) && bool_decide (w = 1%nat) = false ->
  exists chunk rest, c :: s = chunk ++ rest /\ length chunk = w /\ multi chunk r.
Proof.
  intros Hc Hd Hok. pose proof (byte_val_range c) as Rc.
  assert ((RuneError, 1%nat) = (r, w) -> False) as Hbad.
  { intros [= <- <-]. by vm_compute in Hok. }
  unfold decodeRune in Hd. cbn [take fmap list_fmap] in Hd.
  destruct (Z.ltb_spec (byte_val c) 128); [lia|].
  destruct (Z.ltb_spec (byte_val c) 194); [by apply Hbad in Hd|].
  destruct (Z.ltb_spec (byte_val c) 224).
  { destruct s as [|b1 s]; [by apply Hbad in Hd|]. cbn in Hd.
    destruct (cont (byte_val b1)) eqn:Ec; [|by apply Hbad in Hd]. injection Hd as <- <-.
    exists [c; b1], s. split_and!; [done..|].
    assert (128 <= byte_val b1 < 192) by (clear Hok; unfold cont in Ec; zbool; done || lia).
    split.
    - intros t. unfold decodeRune. cbn [take app fmap list_fmap].
      destruct (Z.ltb_spec (byte_val c) 128); [lia|]. destruct (Z.ltb_spec (byte_val c) 194); [lia|].
      destruct (Z.ltb_spec (byte_val c) 224); [|lia]. cbn. by rewrite Ec.
    - simpl; lia.
    - by intros ?? [= <- <-].
    - intros ?? [= <- <-]. repeat constructor; lia.
    - apply sep_two. lia. }
  destruct (Z.ltb_spec (byte_val c) 240).
  { destruct s as [|b1 [|b2 s]]; [by apply Hbad in Hd..|]. cbn in Hd.
    match type of Hd with (if ?x then _ else _) = _ => destruct x eqn:Ec end;
      [|by apply Hbad in Hd]. injection Hd as <- <-.
    exists [c; b1; b2], s. split_and!; [done..|].
    assert (128 <= byte_val b1 < 192 /\ 128 <= byte_val b2 < 192) as [R1 R2]
      by (clear Hok; unfold cont in Ec; zbool; done || lia).
    split.
    - intros t. unfold decodeRune. cbn [take app fmap list_fmap].
      destruct (Z.ltb_spec (byte_val c) 128); [lia|]. destruct (Z.ltb_spec (byte_val c) 194); [lia|].
      destruct (Z.ltb_spec (byte_val c) 224); [lia|]. destruct (Z.ltb_spec (byte_val c) 240); [|lia].
      cbn. by rewrite Ec.
    - simpl; lia.
    - by intros ?? [= <- <-].
    - intros ?? [= <- <-]. repeat constructor; lia.
    - by apply sep_three. }
  destruct (Z.ltb_spec (byte_val c) 245); [|by apply Hbad in Hd].
  destruct s as [|b1 [|b2 [|b3 s]]]; [by apply Hbad in Hd..|]. cbn in Hd.
  match type of Hd with (if ?x then _ else _) = _ => destruct x eqn:Ec end;
    [|by apply Hbad in Hd]. injection Hd as <- <-.
  exists [c; b1; b2; b3], s. split_and!; [done..|].
  assert (128 <= byte_val b1 < 192 /\ 128 <= byte_val b2 < 192 /\ 128 <= byte_val b3 < 192
          /\ (byte_val c = 240 -> 144 <= byte_val b1)) as (R1 & R2 & R3 & R4)
    by (clear Hok; unfold cont in Ec; zbool; done || lia).
  split.
  - intros t. unfold decodeRune. cbn [take app fmap list_fmap].
    destruct (Z.ltb_spec (byte_val c) 128); [lia|]. destruct (Z.ltb_spec (byte_val c) 194); [lia|].
    destruct (Z.ltb_spec (byte_val c) 224); [lia|]. destruct (Z.ltb_spec (byte_val c) 240); [lia|].
    destruct (Z.ltb_spec (byte_val c) 245); [|lia]. cbn. by rewrite Ec.
  - simpl; lia.
  - by intros ?? [= <- <-].
  - intros ?? [= <- <-]. repeat constructor; lia.
  - apply sep_four. destruct (decide (byte_val c = 240)); [|lia]. specialize (R4 e). lia.
Qed.

(** Induction on a valid string, rune by rune. *)
Lemma utf8_ind (P : gostring -> Prop) :
  P [] ->
  (forall c s, byte_val c < 128 -> P s -> P (c :: s)) ->
  (forall chunk r s, multi chunk r -> P s -> P (chunk ++ s)) ->
  forall s, validUTF8 s = true -> P s.
Proof.
  intros H0 H1 H2. induction s as [[|c s] IH] using length_ind; [done|].
  unfold validUTF8. cbn [validFrom]. intros Hv.
  destruct (decide (byte_val c < 128)) as [Hc|Hc].
  - rewrite decodeRune_ascii in Hv by done. apply andb_true_iff in Hv as [_ Hv].
    apply H1; [done|]. apply IH; [simpl; lia|done].
  - destruct (decodeRune (c :: s)) as [r w] eqn:E. apply andb_true_iff in Hv as [Hok Hv].
    apply negb_true_iff in Hok.
    destruct (decodeRune_multi c s r w ltac:(lia) E Hok) as (chunk & rest & Es & Hl & Hm).
    rewrite Es. apply H2 with r; [done|].
    pose proof (multi_length _ _ Hm). destruct chunk as [|c' chunk]; [simpl in *; lia|].
    injection Es as <- ->. rewrite validFrom_drop in Hv. simpl in Hl.
    replace (pred w) with (length chunk) in Hv by lia. rewrite drop_app_length in Hv.
    apply IH; [|done]. simpl. rewrite length_app. lia.
Qed.

(** ** Escaping *)

Ltac all_ascii c Hc :=
  destruct c as [[] [] [] [] [] [] [] []]; try (exfalso; vm_compute in Hc; discriminate Hc).

(** The three consumers of an escaped ASCII byte. *)
Lemma escapeByte_scan c u : byte_val c < 128 ->
  scanString (escapeByte c ++ u) = prod_map (app (escapeByte c)) id <$> scanString u.
Proof. intros Hc. all_ascii c Hc; reflexivity. Qed.

Lemma escapeByte_unquote c u : byte_val c < 128 ->
  unquoteFrom 0 (escapeByte c ++ u) = c :: unquoteFrom 0 u.
Proof. intros Hc. all_ascii c Hc; reflexivity. Qed.

Lemma escapeByte_compact c u : byte_val c < 128 ->
  compactFrom true false (escapeByte c ++ u) = escapeByte c ++ compactFrom true false u.
Proof. intros Hc. all_ascii c Hc; destruct u as [|? [|? ?]]; reflexivity. Qed.

Definition isSep (r : Z) : bool := (r =? 0x2028) || (r =? 0x2029).

Lemma escapeFrom_skip k t s : length t = k -> escapeFrom k (t ++ s) = t ++ escapeFrom 0 s.
Proof.
  revert k. induction t as [|c t IH]; intros [|k]; try done. cbn [escapeFrom app length].
  intros [= Hk]. by rewrite IH.
Qed.

Lemma unquoteFrom_skip k t s : length t = k -> unquoteFrom k (t ++ s) = t ++ unquoteFrom 0 s.
Proof.
  revert k. induction t as [|c t IH]; intros [|k]; try done. cbn [unquoteFrom app length].
  intros [= Hk]. by rewrite IH.
Qed.

Lemma multi_cons chunk r : multi chunk r -> exists c t, chunk = c :: t /\ t <> [].
Proof.
  intros Hm. pose proof (multi_length _ _ Hm). destruct chunk as [|c [|c' t]]; simpl in *; [lia..|].
  by exists c, (c' :: t).
Qed.

Lemma multi_ok chunk r : multi chunk r -> (r =? RuneError) && bool_decide (length chunk = 1%nat) = false.
Proof.
  intros Hm. pose proof (multi_length _ _ Hm).
  rewrite (bool_decide_eq_false_2 (length chunk = 1%nat)) by lia. apply andb_false_r.
Qed.

Lemma escape_multi chunk r s : multi chunk r ->
  escapeFrom 0 (chunk ++ s) =
    (if isSep r then !"\u202" ++ [hexChar (r mod 16)] else chunk) ++ escapeFrom 0 s.
Proof.
  intros Hm. pose proof (multi_ok _ _ Hm) as Hok. pose proof (multi_decode _ _ Hm s) as Hd.
  destruct (multi_cons _ _ Hm) as (c & t & Ec & Ht).
  pose proof (multi_head _ _ Hm c t Ec). rewrite Ec in Hd. subst chunk. cbn [app escapeFrom] in *.
  destruct (Z.ltb_spec (byte_val c) 128); [lia|]. rewrite Hd, Hok. unfold isSep.
  destruct ((r =? 0x2028) || (r =? 0x2029)) eqn:Es.
  - apply orb_true_iff in Es. rewrite !Z.eqb_eq in Es.
    apply (multi_sep _ _ Hm) in Es as (c2 & [= -> ->] & _). done.
  - by rewrite escapeFrom_skip.
Qed.

Lemma high_not_special c : 128 <= byte_val c ->
  c <> quote /\ c <> backslash /\ isWs c = false /\ ~ byte_val c ∈ [60; 62; 38].
Proof.
  intros Hc. split_and!; try (intros ->; by vm_compute in Hc).
  - unfold isWs. apply bool_decide_eq_false_2. set_unfold. lia.
  - set_unfold. lia.
Qed.

Lemma scanString_high t u : Forall (fun b => 128 <= byte_val b) t ->
  scanString (t ++ u) = prod_map (app t) id <$> scanString u.
Proof.
  induction 1 as [|c t Hc Ht IH]; cbn [app].
  - by destruct (scanString u) as [[??]|].
  - destruct (high_not_special c Hc) as (H1 & H2 & _). cbn [scanString].
    rewrite !bool_decide_eq_false_2 by done. destruct (Z.ltb_spec (byte_val c) 32); [lia|].
    rewrite IH. by destruct (scanString u) as [[??]|].
Qed.

Lemma multi_high chunk r : multi chunk r -> Forall (fun b => 128 <= byte_val b) chunk.
Proof.
  intros Hm. destruct (multi_cons _ _ Hm) as (c & t & Ec & _). rewrite Ec. constructor.
  - by eapply multi_head.
  - eapply Forall_impl; [by eapply multi_tail|]. simpl. lia.
Qed.

Lemma isSep_spec r : isSep r = true -> r = 0x2028 \/ r = 0x2029.
Proof. unfold isSep. rewrite orb_true_iff, !Z.eqb_eq. done. Qed.

Lemma multi_scan chunk r u : multi chunk r ->
  let e := if isSep r then !"\u202" ++ [hexChar (r mod 16)] else chunk in
  scanString (e ++ u) = prod_map (app e) id <$> scanString u.
Proof.
  intros Hm. destruct (isSep r) eqn:Es.
  - apply isSep_spec in Es as [-> | ->]; reflexivity.
  - by apply scanString_high, multi_high with r.
Qed.

Lemma multi_unquote chunk r u : multi chunk r ->
  unquoteFrom 0 ((if isSep r then !"\u202" ++ [hexChar (r mod 16)] else chunk) ++ u)
  = chunk ++ unquoteFrom 0 u.
Proof.
  intros Hm. destruct (isSep r) eqn:Es.
  - apply isSep_spec in Es. pose proof Es as Hs. apply (multi_sep _ _ Hm) in Hs as (c & -> & Hc).
    pose proof (multi_decode _ _ Hm []) as Hd.
    apply elem2 in Hc as [Hc | Hc]; apply byte_of_val in Hc; subst c; vm_compute in Hd;
      injection Hd as <-; reflexivity.
  - pose proof (multi_ok _ _ Hm) as Hok. pose proof (multi_decode _ _ Hm u) as Hd.
    destruct (multi_cons _ _ Hm) as (c & t & Ec & _).
    pose proof (multi_head _ _ Hm c t Ec) as Hh. subst chunk. cbn [app unquoteFrom] in *.
    destruct (high_not_special c Hh) as (H1 & H2 & _). rewrite bool_decide_eq_false_2 by done.
    destruct (Z.ltb_spec (byte_val c) 128); [lia|]. rewrite Hd, Hok. by rewrite unquoteFrom_skip.
Qed.

(** A byte that compaction inside a string copies. *)
Lemma compact_copy c u : 128 <= byte_val c -> byte_val c <> 0xE2 ->
  compactFrom true false (c :: u) = c :: compactFrom true false u.
Proof.
  intros Hc Hn. destruct (high_not_special c Hc) as (H1 & H2 & _ & H4). cbn [compactFrom negb andb].
  rewrite !bool_decide_eq_false_2 by done. cbn [andb].
  destruct u as [|c1 [|c2 u]]; try done. by destruct (Z.eqb_spec (byte_val c) 0xE2).
Qed.

Lemma compact_copy_tail t u : Forall (fun b => 128 <= byte_val b < 192) t ->
  compactFrom true false (t ++ u) = t ++ compactFrom true false u.
Proof.
  induction 1 as [|c t Hc Ht IH]; [done|]. cbn [app]. rewrite compact_copy by lia. by rewrite IH.
Qed.

Lemma multi_three chunk r c t : multi chunk r -> chunk = c :: t -> byte_val c = 0xE2 -> length t = 2%nat.
Proof.
  intros Hm -> Hc. pose proof (multi_decode _ _ Hm []) as Hd. pose proof (multi_length _ _ Hm) as Hl.
  rewrite app_nil_r in Hd. unfold decodeRune in Hd. cbn [take fmap list_fmap] in Hd.
  rewrite Hc in Hd. cbn [Z.ltb Z.eqb Z.compare Pos.compare Pos.compare_cont Pos.eqb] in Hd.
  destruct t as [|b1 [|b2 t]]; cbn in Hd; try (simpl in *; lia).
  - injection Hd as _ Hd. simpl in Hd. lia.
  - match type of Hd with (if ?x then _ else _) = _ => destruct x end;
      injection Hd as _ Hd; simpl in *; lia.
Qed.

Lemma multi_compact chunk r u : multi chunk r ->
  let e := if isSep r then !"\u202" ++ [hexChar (r mod 16)] else chunk in
  compactFrom true false (e ++ u) = e ++ compactFrom true false u.
Proof.
  intros Hm. destruct (isSep r) eqn:Es; simpl.
  - apply isSep_spec in Es as [-> | ->]; destruct u as [|? [|? ?]]; reflexivity.
  - destruct (multi_cons _ _ Hm) as (c & t & Ec & _).
    pose proof (multi_head _ _ Hm c t Ec) as Hh. pose proof (multi_tail _ _ Hm c t Ec) as Ht.
    destruct (decide (byte_val c = 0xE2)) as [Hc|Hc]; last first.
    { subst chunk. cbn [app]. rewrite compact_copy by done. by rewrite compact_copy_tail. }
    pose proof (multi_three _ _ c t Hm Ec Hc) as Hl. destruct t as [|b1 [|b2 [|? ?]]]; try done.
    assert ((byte_val b1 =? 0x80) = true -> bool_decide (byte_val b2 ∈ [0xA8; 0xA9]) = false) as Hn.
    { intros E1%Z.eqb_eq. apply bool_decide_eq_false_2. intros Hin.
      assert (r = 0x2028 \/ r = 0x2029) as Hr.
      { apply (multi_sep _ _ Hm). exists b2. rewrite Ec.
        by rewrite (byte_of_val _ _ Hc), (byte_of_val _ _ E1). }
      unfold isSep in Es. by destruct Hr as [-> | ->]. }
    rewrite Ec. cbn [app compactFrom negb andb].
    destruct (high_not_special c Hh) as (H1 & H2 & _ & H4).
    rewrite (bool_decide_eq_false_2 (c = quote)), (bool_decide_eq_false_2 (c = backslash)),
      (bool_decide_eq_false_2 (byte_val c ∈ [60; 62; 38])) by done. cbn [andb].
    replace ((byte_val c =? 0xE2) && (byte_val b1 =? 0x80) && bool_decide (byte_val b2 ∈ [0xA8; 0xA9]))
      with false.
    + f_equal. exact (compact_copy_tail [b1; b2] u Ht).
    + symmetry. destruct (byte_val b1 =? 0x80); rewrite ?andb_false_r, ?andb_true_r; [|done].
      rewrite Hn by done. apply andb_false_r.
Qed.

(** Concatenation of valid strings. *)
Lemma validUTF8_app a b : validUTF8 a = true -> validUTF8 b = true -> validUTF8 (a ++ b) = true.
Proof.
  intros Ha Hb. revert a Ha. apply utf8_ind; [done| |]; unfold validUTF8.
  - intros c s Hc IH. cbn [app validFrom]. rewrite decodeRune_ascii by done. cbn [pred].
    rewrite IH, andb_true_r. unfold RuneError.
    destruct (Z.eqb_spec (byte_val c) 65533); [lia|done].
  - intros chunk r s Hm IH. rewrite <- app_assoc.
    pose proof (multi_decode _ _ Hm (s ++ b)) as Hd. pose proof (multi_ok _ _ Hm) as Hok.
    destruct (multi_cons _ _ Hm) as (c & t & -> & _). cbn [app validFrom] in *.
    rewrite Hd, Hok. cbn [negb andb length pred]. rewrite validFrom_drop, drop_app_length. done.
Qed.

(** ** The three laws of [marshalString] *)

Lemma scanString_escape s t : validUTF8 s = true ->
  scanString (escapeFrom 0 s ++ quote :: t) = Some (escapeFrom 0 s, t).
Proof.
  intros Hs. revert s Hs. apply utf8_ind; [done| |].
  - intros c s Hc IH. cbn [escapeFrom]. destruct (Z.ltb_spec (byte_val c) 128); [|lia].
    rewrite <- app_assoc, escapeByte_scan, IH by done. done.
  - intros chunk r s Hm IH. rewrite (escape_multi _ _ _ Hm), <- app_assoc.
    rewrite (multi_scan _ _ _ Hm), IH. done.
Qed.

Lemma unquote_escape s : validUTF8 s = true -> unquote (escapeFrom 0 s) = s.
Proof.
  unfold unquote. intros Hs. revert s Hs. apply utf8_ind; [done| |].
  - intros c s Hc IH. cbn [escapeFrom]. destruct (Z.ltb_spec (byte_val c) 128); [|lia].
    by rewrite escapeByte_unquote, IH.
  - intros chunk r s Hm IH. rewrite (escape_multi _ _ _ Hm), (multi_unquote _ _ _ Hm). by rewrite IH.
Qed.

Lemma compact_escape s t : validUTF8 s = true ->
  compactFrom true false (escapeFrom 0 s ++ t) = escapeFrom 0 s ++ compactFrom true false t.
Proof.
  intros Hs. revert s Hs. apply utf8_ind; [done| |].
  - intros c s Hc IH. cbn [escapeFrom]. destruct (Z.ltb_spec (byte_val c) 128); [|lia].
    rewrite <- !app_assoc, escapeByte_compact, IH by done. done.
  - intros chunk r s Hm IH. rewrite (escape_multi _ _ _ Hm), <- !app_assoc.
    by rewrite (multi_compact _ _ _ Hm), IH.
Qed.
