(* ===== verification/JSONObjects.v ===== *)
(** * JSON objects survive a round trip

    [value d v]: [v] is the text of one JSON value that nests at most [d]
    deep.  [compacted v]: compaction leaves [v] alone, whatever follows.
    Objects built by [object] from such values are values again, and
    [unmarshalObject] hands the same members, in order, to the field setter. *)

From Stdlib Require Import Ascii String ZArith Lia.
From stdpp Require Import base tactics list gmap strings.
From S2P Require Import Prelude.
From S2P Require Import GoStrings.
From S2P Require Import Base64.
From S2P Require Import JSON.
From S2P Require Import JSONFacts.
From S2P Require Import JSONStrings.

Local Open Scope Z_scope.
Import json.

Definition tight (v : bytes) : bool :=
  match v with c :: _ => negb (isWs c) | [] => false end.

Definition value (d : Z) (v : bytes) : Prop := tight v = true /\ scan d v = Some [].
Definition compacted (v : bytes) : Prop :=
  forall t, compactFrom false false (v ++ t) = v ++ compactFrom false false t.

#[global] Instance value_dec d v : Decision (value d v).
Proof. unfold value. apply _. Defined.

Lemma skipWs_tight v : tight v = true -> skipWs v = v.
Proof. destruct v as [|c v]; [done|]. simpl. by destruct (isWs c). Qed.

Lemma tight_app v t : tight v = true -> tight (v ++ t) = true.
Proof. by destruct v. Qed.

Lemma value_scan d v t : value d v -> stops t = true -> scan d (v ++ t) = Some t.
Proof. intros [_ Hs] Ht. by apply (scan_app _ _ _ _ Ht) in Hs. Qed.

(** A deeper limit accepts more. *)
Lemma scan_depth_fuel f :
  (forall d d' s r, d <= d' -> scanValue f d s = Some r -> scanValue f d' s = Some r)
  /\ (forall d d' s r, d <= d' -> scanMembers f d s = Some r -> scanMembers f d' s = Some r)
  /\ (forall d d' s r, d <= d' -> scanElems f d s = Some r -> scanElems f d' s = Some r).
Proof.
  induction f as [|f (IHv & IHm & IHe)]; [done|]. split_and!; intros d d' s r Hd.
  - cbn [scanValue]. destruct (skipWs s) as [|c t]; [done|]. case_bool_decide; [done|].
    case_bool_decide; [|case_bool_decide; [|done]];
      (destruct (Z.leb_spec d 0); [done|]; destruct (Z.leb_spec d' 0); [lia|];
       destruct (skipWs t) as [|c' r']; [done|]; case_bool_decide; [done|]).
    + apply IHm; lia.
    + apply IHe; lia.
  - cbn [scanMembers]. destruct (skipWs s) as [|c t]; [done|]. case_bool_decide; [|done].
    destruct (scanString t) as [[b r0]|]; [|done]. simpl.
    destruct (skipWs r0) as [|c1 r1]; [done|]. case_bool_decide; [|done].
    destruct (scanValue f d r1) as [r2|] eqn:E; [|done]. rewrite (IHv _ _ _ _ Hd E). simpl.
    destruct (skipWs r2) as [|c2 r3]; [done|]. case_bool_decide; [by apply IHm|done].
  - cbn [scanElems].
    destruct (scanValue f d s) as [r2|] eqn:E; [|done]. rewrite (IHv _ _ _ _ Hd E). simpl.
    destruct (skipWs r2) as [|c2 r3]; [done|]. case_bool_decide; [by apply IHe|done].
Qed.

Lemma value_depth d d' v : d <= d' -> value d v -> value d' v.
Proof. intros Hd [Ht Hs]. split; [done|]. by eapply scan_depth_fuel. Qed.

Lemma value_valid d v : value d v -> valid d v = true.
Proof. intros [_ Hs]. unfold valid. by rewrite Hs. Qed.

(** A document that is valid as a whole and carries no white space around it. *)
Lemma valid_value d v : valid d v = true -> tight v = true ->
  (forall r, scan d v = Some r -> r = []) -> value d v.
Proof.
  unfold valid. intros Hv Ht Hr. split; [done|].
  destruct (scan d v) as [r|] eqn:E; [|done]. by rewrite (Hr r).
Qed.

(** ** Strings, integers, byte strings *)

Lemma value_string d s : validUTF8 s = true -> value d (marshalString s).
Proof.
  intros Hs. split; [done|]. unfold scan, marshalString, fuelFor. cbn [length Nat.mul Nat.add].
  rewrite <- plus_n_Sm. cbn [scanValue skipWs].
  replace (isWs quote) with false by done. rewrite bool_decide_eq_true_2 by done.
  by rewrite scanString_escape.
Qed.

Lemma compact_quote inStr u : compactFrom inStr false (quote :: u) = quote :: compactFrom (negb inStr) false u.
Proof. destruct inStr, u as [|? [|? ?]]; reflexivity. Qed.

Lemma compacted_string s : validUTF8 s = true -> compacted (marshalString s).
Proof.
  intros Hs t. unfold marshalString. cbn [app]. rewrite compact_quote. cbn [negb].
  rewrite <- !app_assoc, compact_escape by done. cbn [app]. by rewrite compact_quote.
Qed.

Lemma decodeString_marshal s old : validUTF8 s = true -> decodeString (marshalString s) old = Some s.
Proof.
  intros Hs. unfold decodeString, marshalString. cbn [isNull].
  rewrite bool_decide_eq_false_2 by (by vm_compute). rewrite bool_decide_eq_true_2 by done.
  rewrite scanString_escape by done. cbn. by rewrite unquote_escape.
Qed.

(** A decimal number without superfluous zeros. *)
Definition decimal (s : bytes) : Prop :=
  s = !"0" \/ exists c t, s = c :: t /\ isDec c = true /\ byte_val c <> 48 /\ Forall (fun b => isDec b = true) t.

Lemma isDec_digitChar d : 0 <= d < 10 -> isDec (digitChar d) = true /\ byte_val (digitChar d) = 48 + d.
Proof.
  intros Hd. unfold isDec, digitChar. rewrite byte_val_to_byte, Z.mod_small by lia.
  destruct (Z.leb_spec 48 (48 + d)), (Z.leb_spec (48 + d) 57); lia || done.
Qed.

Lemma utoa_head f n acc : 0 < n < 10 ^ Z.of_nat f -> Forall (fun b => isDec b = true) acc ->
  exists c t, utoa f n acc = c :: t /\ isDec c = true /\ byte_val c <> 48
              /\ Forall (fun b => isDec b = true) t.
Proof.
  revert n acc. induction f as [|f IH]; intros n acc Hn Hacc; [simpl in Hn; lia|].
  cbn [utoa]. pose proof (Z.mod_pos_bound n 10 ltac:(lia)).
  destruct (isDec_digitChar (n mod 10)) as [Hd Hv]; [lia|]. destruct (Z.ltb_spec n 10).
  - eexists _, _. split_and!; [done..| |done]. rewrite Hv, Z.mod_small by lia. lia.
  - apply IH; [|by constructor]. rewrite Nat2Z.inj_succ, Z.pow_succ_r in Hn by lia.
    split; [apply Z.div_str_pos; lia|]. apply Z.div_lt_upper_bound; lia.
Qed.

Lemma utoa_decimal z : decimal (utoa (S (Z.to_nat (Z.log2 (Z.abs z)))) (Z.abs z) []).
Proof.
  destruct (decide (z = 0)) as [->|Hz]; [by left|]. right. apply utoa_head; [|done].
  split; [lia|]. apply utoa_fuel_enough.
Qed.

Lemma Itoa_decimal z : exists s, decimal s /\ (Itoa z = s \/ Itoa z = to_byte 45 :: s).
Proof.
  exists (utoa (S (Z.to_nat (Z.log2 (Z.abs z)))) (Z.abs z) []). split; [apply utoa_decimal|].
  unfold Itoa. destruct (Z.ltb_spec z 0); [right; by rewrite Z.abs_neq by lia|left; by rewrite Z.abs_eq by lia].
Qed.

Lemma spanDigits_all t : Forall (fun b => isDec b = true) t -> spanDigits t = (t, []).
Proof. induction 1 as [|c t Hc _ IH]; [done|]. cbn [spanDigits]. by rewrite Hc, IH. Qed.

Lemma decimal_head s : decimal s ->
  exists c t, s = c :: t /\ isDec c = true /\ Forall (fun b => isDec b = true) t.
Proof.
  intros [-> | (c & t & -> & Hc & _ & Ht)]; [|by eauto].
  exists (to_byte 48), []. by vm_compute.
Qed.

Lemma isDec_range b : isDec b = true -> 48 <= byte_val b <= 57.
Proof. unfold isDec. destruct (Z.leb_spec 48 (byte_val b)), (Z.leb_spec (byte_val b) 57); done. Qed.

Lemma scanNumber_decimal s : decimal s -> scanNumber s = Some [] /\ scanNumber (to_byte 45 :: s) = Some [].
Proof.
  intros Hs. assert (dropSign [45] s = s) as Hd.
  { destruct (decimal_head s Hs) as (c & t & -> & Hc & _). apply isDec_range in Hc. simpl.
    apply bool_decide_eq_false_2 || rewrite bool_decide_eq_false_2; [done|]. set_unfold. lia. }
  unfold scanNumber. rewrite Hd. cbn [dropSign].
  rewrite (bool_decide_eq_true_2 (byte_val (to_byte 45) ∈ [45]))
    by (apply (bool_decide_unpack _); by vm_compute).
  destruct Hs as [-> | (c & t & -> & Hc & Hn & Ht)]; [by vm_compute|].
  rewrite bool_decide_eq_false_2, Hc, spanDigits_all by done. done.
Qed.

Lemma number_dispatch f d c t : (48 <= byte_val c <= 57 \/ byte_val c = 45) ->
  scanValue (S f) d (c :: t) = scanNumber (c :: t).
Proof.
  intros Hc. cbn [scanValue skipWs].
  assert (isWs c = false) as -> by (unfold isWs; apply bool_decide_eq_false_2; set_unfold; lia).
  assert (forall z, 57 < z < 256 \/ z = 34 -> c <> to_byte z) as Hne.
  { intros z Hz ->. rewrite byte_val_to_byte, Z.mod_small in Hc by lia. lia. }
  unfold quote, lbrace, lbracket. rewrite !bool_decide_eq_false_2; [done|..]; try lia; apply Hne; lia.
Qed.

Lemma isWs_number c : (48 <= byte_val c <= 57 \/ byte_val c = 45) -> isWs c = false.
Proof. intros Hc. unfold isWs; apply bool_decide_eq_false_2; set_unfold; lia. Qed.

Lemma Itoa_head z : exists c t, Itoa z = c :: t /\ (48 <= byte_val c <= 57 \/ byte_val c = 45)
  /\ scanNumber (Itoa z) = Some [].
Proof.
  destruct (Itoa_decimal z) as (s & Hs & E). destruct (scanNumber_decimal s Hs) as [H1 H2].
  destruct (decimal_head s Hs) as (c & t & Es & Hc & _). apply isDec_range in Hc.
  destruct E as [E|E]; rewrite E; [by rewrite Es in *; eauto 10|].
  exists (to_byte 45), s. split_and!; [done|by right|done].
Qed.

Lemma value_int d z : value d (marshalInt z).
Proof.
  destruct (Itoa_head z) as (c & t & E & Hc & Hs). unfold marshalInt. split.
  - rewrite E. simpl. by rewrite (isWs_number c Hc).
  - unfold scan, fuelFor. rewrite E in *. rewrite Nat.add_comm. cbn [Nat.add].
    by rewrite number_dispatch.
Qed.

(** Outside strings, compaction copies what is neither white space nor a
    quote nor a character with an escape. *)
Definition inert (c : byte) : Prop :=
  isWs c = false /\ c <> quote /\ ~ byte_val c ∈ [60; 62; 38] /\ byte_val c <> 0xE2.

#[global] Instance inert_dec c : Decision (inert c).
Proof. unfold inert. apply _. Defined.

Lemma compact_inert v t : Forall inert v ->
  compactFrom false false (v ++ t) = v ++ compactFrom false false t.
Proof.
  induction 1 as [|c v (H1 & H2 & H3 & H4) _ IH]; [done|]. cbn [app compactFrom negb andb].
  rewrite H1, (bool_decide_eq_false_2 (c = quote)), (bool_decide_eq_false_2 (byte_val c ∈ _)) by done.
  cbn [andb]. rewrite <- IH. destruct (v ++ t) as [|c1 [|c2 u]]; try done.
  by destruct (Z.eqb_spec (byte_val c) 0xE2).
Qed.

Lemma inert_range c : 42 <= byte_val c <= 58 -> inert c.
Proof.
  intros Hc. split_and!; [| |set_unfold; lia|lia].
  - unfold isWs; apply bool_decide_eq_false_2; set_unfold; lia.
  - intros ->. unfold quote in Hc. rewrite byte_val_to_byte, Z.mod_small in Hc; lia.
Qed.

Lemma compacted_int z : compacted (marshalInt z).
Proof.
  intros t. apply compact_inert. destruct (Itoa_decimal z) as (s & Hs & E).
  destruct (decimal_head s Hs) as (c & u & Es & Hc & Hu).
  assert (Forall inert s) as Hi.
  { rewrite Es. constructor; [apply isDec_range in Hc; apply inert_range; lia|].
    eapply Forall_impl; [exact Hu|]. intros b Hb%isDec_range. apply inert_range; lia. }
  unfold marshalInt. destruct E as [-> | ->]; [done|]. constructor; [|done]. apply inert_range.
  rewrite byte_val_to_byte, Z.mod_small; lia.
Qed.

Lemma decodeInt_marshal z old : is_int64 z -> decodeInt (marshalInt z) old = Some z.
Proof.
  intros Hz. destruct (Itoa_head z) as (c & t & E & Hc & _). unfold decodeInt, marshalInt.
  pose proof (Atoi_Itoa z Hz) as Ha. rewrite E in *. cbn [isNull isNumber].
  rewrite bool_decide_eq_false_2 by lia.
  replace (bool_decide (byte_val c = 45) || isDec c) with true; [by rewrite Ha|].
  symmetry. apply orb_true_iff. destruct Hc as [Hc|Hc]; [right|left; by apply bool_decide_eq_true_2].
  unfold isDec. destruct (Z.leb_spec 48 (byte_val c)), (Z.leb_spec (byte_val c) 57); lia || done.
Qed.

(** Base64 text needs no escaping. *)
Lemma escape_b64 s : Forall (fun c => base64_lemmas.b64Char c = true) s -> escapeFrom 0 s = s.
Proof.
  assert (forall c, base64_lemmas.b64Char c = true -> byte_val c < 128 /\ escapeByte c = [c]) as Hc.
  { intros c Hc. destruct c as [[] [] [] [] [] [] [] []]; vm_compute in Hc |- *; done. }
  induction 1 as [|c s Hb _ IH]; [done|]. destruct (Hc c Hb) as [H1 H2]. cbn [escapeFrom].
  destruct (Z.ltb_spec (byte_val c) 128); [|lia]. by rewrite H2, IH.
Qed.

Lemma b64_ascii s : Forall (fun c => base64_lemmas.b64Char c = true) s -> Forall asciiByte s.
Proof.
  intros Hs. eapply Forall_impl; [exact Hs|]. intros c Hc.
  destruct c as [[] [] [] [] [] [] [] []]; vm_compute in Hc |- *; done.
Qed.

(** A non-empty byte string is the string literal of its base64 text. *)
Lemma marshalBytes_string b : b <> [] ->
  marshalBytes b = marshalString (base64.EncodeToString base64.StdEncoding b)
  /\ validUTF8 (base64.EncodeToString base64.StdEncoding b) = true.
Proof.
  intros Hb. pose proof (base64_lemmas.EncodeToString_chars b) as Hc.
  unfold marshalBytes, marshalString. rewrite bool_decide_eq_false_2 by done.
  rewrite escape_b64 by done. split; [done|]. by apply validFrom_ascii, b64_ascii.
Qed.

Lemma value_null d : value d !"null".
Proof. by split. Qed.

Lemma compacted_null : compacted !"null".
Proof. intros t. apply compact_inert. apply (bool_decide_unpack _). vm_compute. exact I. Qed.

Lemma value_bytes d b : value d (marshalBytes b).
Proof.
  destruct (decide (b = [])) as [->|Hb]; [apply value_null|].
  destruct (marshalBytes_string b Hb) as [-> Hv]. by apply value_string.
Qed.

Lemma compacted_bytes b : compacted (marshalBytes b).
Proof.
  destruct (decide (b = [])) as [->|Hb]; [apply compacted_null|].
  destruct (marshalBytes_string b Hb) as [-> Hv]. by apply compacted_string.
Qed.

Lemma decodeBytes_marshal b old : decodeBytes (marshalBytes b) old = Some b.
Proof.
  destruct (decide (b = [])) as [->|Hb]; [done|].
  destruct (marshalBytes_string b Hb) as [-> Hv]. unfold decodeBytes, marshalString. cbn [isNull].
  rewrite bool_decide_eq_false_2 by (by vm_compute). rewrite bool_decide_eq_true_2 by done.
  rewrite scanString_escape by done. cbn. rewrite unquote_escape by done.
  apply base64_lemmas.DecodeString_EncodeToString, base64_lemmas.wfEncoding_std.
Qed.

#[export] Hint Resolve value_string value_int value_bytes value_null : gsnet.
#[export] Hint Resolve compacted_string compacted_int compacted_bytes compacted_null : gsnet.

(** ** Objects *)

Definition okMember (d : Z) (m : bytes * bytes) : Prop := validUTF8 m.1 = true /\ value d m.2.

Lemma joinMembers_cons n v ms : joinMembers ((n, v) :: ms) =
  member n v ++ (if bool_decide (ms = []) then [] else comma :: joinMembers ms).
Proof. destruct ms as [|[? ?] ?]; simpl; [by rewrite app_nil_r|done]. Qed.

(** The text of one member followed by [u], as the scanner meets it. *)
Lemma member_app n v u : member n v ++ u = quote :: escapeFrom 0 n ++ quote :: colon :: v ++ u.
Proof. unfold member, marshalString. simpl. by rewrite <- !app_assoc. Qed.

Lemma scanMembers_step f d n v u : okMember d (n, v) -> (2 * length (member n v ++ u) < S f)%nat ->
  stops u = true ->
  scanMembers (S f) d (member n v ++ u) =
    match skipWs u with
    | c2 :: r3 => if bool_decide (c2 = comma) then scanMembers f d r3
                  else if bool_decide (c2 = rbrace) then Some r3 else None
    | [] => None
    end.
Proof.
  intros [Hn Hv] Hf Hu. simpl in Hn, Hv. rewrite member_app in *. cbn [scanMembers skipWs].
  replace (isWs quote) with false by done. rewrite bool_decide_eq_true_2 by done.
  rewrite scanString_escape by done. cbn [mbind option_bind skipWs].
  replace (isWs colon) with false by done. rewrite bool_decide_eq_true_2 by done.
  rewrite scan_enough; [by rewrite (value_scan _ _ _ Hv Hu)|].
  simpl in Hf. rewrite !length_app in Hf. simpl in Hf. rewrite length_app in *. lia.
Qed.

Lemma scanMembers_join f d ms t : ms <> [] -> Forall (okMember d) ms ->
  (2 * length (joinMembers ms ++ rbrace :: t) < f)%nat ->
  scanMembers f d (joinMembers ms ++ rbrace :: t) = Some t.
Proof.
  intros Hne Hms. revert f Hne. induction Hms as [|[n v] ms Hm Hms IH]; intros f Hne Hf; [done|].
  destruct f as [|f]; [lia|]. rewrite joinMembers_cons, <- app_assoc in *.
  case_bool_decide as E; cbn [app] in *.
  - by rewrite scanMembers_step.
  - rewrite scanMembers_step by done. cbn [skipWs]. replace (isWs comma) with false by done.
    rewrite bool_decide_eq_true_2 by done. apply IH; [done|].
    rewrite length_app in Hf. simpl in Hf. lia.
Qed.

Lemma joinMembers_tight n v ms t : exists u, joinMembers ((n, v) :: ms) ++ t = quote :: u.
Proof. rewrite joinMembers_cons, <- app_assoc, member_app. eauto. Qed.

Lemma value_object d ms : 0 < d -> Forall (okMember (d - 1)) ms -> value d (object ms).
Proof.
  intros Hd Hms. split; [done|]. unfold scan, object, fuelFor.
  replace (2 * length (lbrace :: joinMembers ms ++ [rbrace]) + 2)%nat
    with (S (2 * length (joinMembers ms ++ [rbrace]) + 3)) by (simpl; lia).
  cbn [scanValue skipWs]. replace (isWs lbrace) with false by done.
  rewrite bool_decide_eq_false_2, bool_decide_eq_true_2 by done.
  destruct (Z.leb_spec d 0); [lia|]. destruct ms as [|[n v] ms]; [done|].
  destruct (joinMembers_tight n v ms [rbrace]) as [u Eu]. rewrite Eu at 1. cbn [skipWs].
  replace (isWs quote) with false by done. rewrite bool_decide_eq_false_2 by done.
  apply scanMembers_join; [done..|]. lia.
Qed.

Lemma compact_inert1 c t : inert c -> compactFrom false false (c :: t) = c :: compactFrom false false t.
Proof. intros Hc. exact (compact_inert [c] t ltac:(by constructor)). Qed.

Lemma inert_punct : Forall inert [lbrace; rbrace; comma; colon].
Proof. apply (bool_decide_unpack _). vm_compute. exact I. Qed.

Lemma compacted_object ms :
  Forall (fun m => validUTF8 m.1 = true /\ compacted m.2) ms -> compacted (object ms).
Proof.
  intros Hms t. pose proof inert_punct as Hp. rewrite !Forall_cons in Hp.
  destruct Hp as (Hl & Hr & Hc & Hk & _).
  assert (forall u, compactFrom false false (joinMembers ms ++ u) = joinMembers ms ++ compactFrom false false u) as Hj.
  { induction Hms as [|[n v] ms [Hn Hv] Hms IH]; intros u; [done|]. simpl in Hn, Hv.
    rewrite joinMembers_cons, <- !app_assoc. unfold member. rewrite <- !app_assoc.
    rewrite compacted_string by done. f_equal. cbn [app]. rewrite compact_inert1 by done. f_equal.
    rewrite Hv. f_equal. case_bool_decide; [done|]. cbn [app]. rewrite compact_inert1 by done.
    by rewrite IH. }
  unfold object. cbn [app]. rewrite compact_inert1 by done. rewrite <- !app_assoc, Hj. cbn [app].
  by rewrite compact_inert1.
Qed.

(** A compacted value is a raw message that marshals to itself. *)
Lemma marshalRaw_id v : value maxNestingDepth v -> compacted v -> marshalRaw v = Some v.
Proof.
  intros Hv Hc. unfold marshalRaw. rewrite bool_decide_eq_false_2 by (intros ->; by destruct Hv).
  rewrite value_valid by done. specialize (Hc []). rewrite !app_nil_r in Hc. by rewrite Hc.
Qed.

Lemma rawOf_app v u : rawOf (v ++ u) u = v.
Proof.
  unfold rawOf. rewrite length_app. replace (length v + length u - length u)%nat with (length v) by lia.
  apply take_app_length.
Qed.

Lemma members_join f ms t : skipWs t = [] -> Forall (okMember maxNestingDepth) ms -> (length ms < f)%nat ->
  members f (joinMembers ms ++ rbrace :: t) = ms.
Proof.
  intros Ht Hms. revert f. induction Hms as [|[n v] ms [Hn Hv] Hms IH]; intros [|f] Hf; try (simpl in Hf; lia).
  - done.
  - simpl in Hn, Hv. rewrite joinMembers_cons, <- app_assoc, member_app. cbn [members skipWs].
    replace (isWs quote) with false by done. rewrite bool_decide_eq_true_2 by done.
    rewrite scanString_escape by done. cbn [skipWs]. replace (isWs colon) with false by done.
    cbn [drop]. rewrite drop_0, skipWs_tight by (destruct Hv; by apply tight_app).
    rewrite unquote_escape by done. rewrite (value_scan _ _ _ Hv) by by case_bool_decide.
    rewrite rawOf_app. f_equal. case_bool_decide as E.
    + subst ms. cbn [app skipWs]. replace (isWs rbrace) with false by done. cbn [drop]. rewrite drop_0.
      destruct f; [done|]. cbn [members]. by rewrite Ht.
    + cbn [app skipWs]. replace (isWs comma) with false by done. cbn [drop]. rewrite drop_0.
      apply IH. simpl in Hf. lia.
Qed.

Lemma joinMembers_length ms : (length ms <= length (joinMembers ms))%nat.
Proof.
  induction ms as [|[n v] ms IH]; [done|]. rewrite joinMembers_cons, length_app.
  unfold member, marshalString. simpl. case_bool_decide as E; [subst; simpl|simpl]; lia.
Qed.

(** Unmarshalling an object, with white space after it, hands its members to
    the setter, in order. *)
Lemma unmarshal_object_ws {A} (set : A -> gostring -> bytes -> option A) x ms t :
  skipWs t = [] -> stops t = true -> Forall (okMember (maxNestingDepth - 1)) ms ->
  unmarshalObject set x (object ms ++ t) =
    match foldl (fun acc '(n, v) => x ← acc; set x n v) (Some x) ms with
    | Some x' => Ok x' | None => Err errType end.
Proof.
  intros Ht Hst Hms. unfold unmarshalObject.
  assert (value maxNestingDepth (object ms)) as Hv by (apply value_object; done).
  replace (valid maxNestingDepth (object ms ++ t)) with true.
  2:{ unfold valid. rewrite (value_scan _ _ _ Hv Hst). symmetry. by apply bool_decide_eq_true. }
  cbn [negb]. rewrite skipWs_tight by done. unfold object at 1. cbn [app].
  replace (isNull _) with false by done. rewrite bool_decide_eq_true_2 by done.
  rewrite <- app_assoc. cbn [app]. rewrite members_join; [done|done| |].
  - eapply Forall_impl; [exact Hms|]. intros m [Hn Hv']. split; [done|].
    eapply value_depth; [|exact Hv']. unfold maxNestingDepth. lia.
  - unfold object. simpl. rewrite !length_app. pose proof (joinMembers_length ms). simpl. lia.
Qed.

Lemma unmarshal_object {A} (set : A -> gostring -> bytes -> option A) x ms :
  Forall (okMember (maxNestingDepth - 1)) ms ->
  unmarshalObject set x (object ms) =
    match foldl (fun acc '(n, v) => x ← acc; set x n v) (Some x) ms with
    | Some x' => Ok x' | None => Err errType end.
Proof. intros Hms. rewrite <- (app_nil_r (object ms)). by apply unmarshal_object_ws. Qed.

(** ** Marshalled text is one line *)

(** What the wire protocol, whose messages are lines, relies on. *)
Definition oneLine (v : bytes) : Prop := nl ∉ v.

#[global] Instance oneLine_dec v : Decision (oneLine v).
Proof. unfold oneLine. apply _. Defined.

Lemma oneLine_app a b : oneLine a -> oneLine b -> oneLine (a ++ b).
Proof. unfold oneLine. set_solver. Qed.

Lemma oneLine_high s : Forall (fun c => byte_val c <> 10) s -> oneLine s.
Proof. intros Hs Hin. eapply Forall_forall in Hs; [|exact Hin]. by apply Hs. Qed.

Lemma escapeByte_line c : byte_val c < 128 -> oneLine (escapeByte c).
Proof. intros Hc. all_ascii c Hc; by apply (bool_decide_unpack _). Qed.

Lemma escape_line s : validUTF8 s = true -> oneLine (escapeFrom 0 s).
Proof.
  revert s. apply (utf8_ind (fun s => oneLine (escapeFrom 0 s))).
  - by apply (bool_decide_unpack _).
  - intros c t Hc IH. cbn [escapeFrom]. destruct (Z.ltb_spec (byte_val c) 128); [|lia].
    apply oneLine_app; [by apply escapeByte_line|done].
  - intros chunk r t Hm IH. rewrite (escape_multi _ _ _ Hm). apply oneLine_app; [|done].
    destruct (isSep r) eqn:Es.
    + unfold isSep in Es. apply orb_true_iff in Es as [->%Z.eqb_eq| ->%Z.eqb_eq]; by apply (bool_decide_unpack _).
    + apply oneLine_high. eapply Forall_impl; [by eapply multi_high|]. simpl. lia.
Qed.

Lemma oneLine_cons c v : c <> nl -> oneLine v -> oneLine (c :: v).
Proof. unfold oneLine. rewrite elem_of_cons. naive_solver. Qed.

Lemma oneLine_single c : c <> nl -> oneLine [c].
Proof. intros Hc. by apply oneLine_cons; [|apply (bool_decide_unpack _)]. Qed.

Lemma oneLine_string s : validUTF8 s = true -> oneLine (marshalString s).
Proof.
  intros Hs. apply oneLine_cons; [done|]. apply oneLine_app; [by apply escape_line|by apply oneLine_single].
Qed.

Lemma oneLine_int z : oneLine (marshalInt z).
Proof.
  apply oneLine_high. unfold marshalInt. eapply Forall_impl; [apply Itoa_plain|].
  intros c Hc. unfold plainByte in Hc. lia.
Qed.

Lemma oneLine_bytes b : oneLine (marshalBytes b).
Proof.
  destruct (decide (b = [])) as [->|Hb]; [by apply (bool_decide_unpack _)|].
  destruct (marshalBytes_string b Hb) as [-> Hv]. by apply oneLine_string.
Qed.

Lemma oneLine_object ms : Forall (fun m => validUTF8 m.1 = true /\ oneLine m.2) ms -> oneLine (object ms).
Proof.
  intros Hms. apply oneLine_cons; [done|]. apply oneLine_app; [|by apply oneLine_single].
  induction Hms as [|[n v] ms [Hn Hv] _ IH]; [by apply (bool_decide_unpack _)|]. cbn [fst snd] in Hn, Hv.
  rewrite joinMembers_cons. apply oneLine_app.
  - apply oneLine_app; [by apply oneLine_string|by apply oneLine_cons].
  - case_bool_decide; [by apply (bool_decide_unpack _)|by apply oneLine_cons].
Qed.

#[export] Hint Resolve oneLine_string oneLine_int oneLine_bytes : gsnet.
