(* ===== verification/Message.v ===== *)
(** * Gossip messages (internal/gossip/message.go)

    The envelope, its payload records, the bytes that are signed and the wire
    encoding. *)

From Stdlib Require Import Ascii String ZArith Lia.
From stdpp Require Import base tactics list gmap strings.
From S2P Require Import Prelude.
From S2P Require Import GoStrings.
From S2P Require Import JSON.
From S2P Require Import JSONFacts.
From S2P Require Import JSONStrings.
From S2P Require Import JSONObjects.

Local Open Scope Z_scope.

Module message.

(** ** Kinds *)

Definition KindHello : gostring := !"hello".
Definition KindAddEdge : gostring := !"add_edge".
Definition KindDelEdge : gostring := !"del_edge".
Definition KindAddSubnet : gostring := !"add_subnet".
Definition KindDelSubnet : gostring := !"del_subnet".
Definition KindAddNode : gostring := !"add_node".
Definition KindDelNode : gostring := !"del_node".
Definition KindPing : gostring := !"ping".
Definition KindPong : gostring := !"pong".

Record Envelope := MkEnvelope {
  ID : gostring;
  Origin : gostring;
  Kind : gostring;
  TS : Z;
  Payload : bytes;
  Signature : bytes
}.

#[global] Instance Envelope_eq_dec : EqDecision Envelope.
Proof. solve_decision. Defined.

Definition emptyEnvelope : Envelope := MkEnvelope [] [] [] 0 [] [].

(** [byte(e.TS >> i)] for i = 56, 48, ..., 0, most significant byte first. *)
Definition tsBytes (ts : Z) : bytes :=
  (fun i => to_byte (Z.shiftr ts i)) <$> [56; 48; 40; 32; 24; 16; 8; 0].

Definition nul : byte := to_byte 0.

Definition SigningBytes (e : Envelope) : bytes :=
  ID e ++ [nul] ++ Origin e ++ [nul] ++ Kind e ++ [nul] ++ tsBytes (TS e) ++ [nul] ++ Payload e.

(** ** Payloads *)

Record Hello := MkHello {
  Name : gostring;
  Ed25519Public : bytes;
  WGPublic : gostring;
  Endpoint : gostring;
  InnerAddr : gostring;
  UnderlayAddr : gostring
}.

Record AddEdge := MkAddEdge { aeFrom : gostring; aeTo : gostring; aeWeight : Z }.
Record DelEdge := MkDelEdge { deFrom : gostring; deTo : gostring }.
Record AddSubnet := MkAddSubnet { asOwner : gostring; asSubnet : gostring }.
Record DelSubnet := MkDelSubnet { dsOwner : gostring; dsSubnet : gostring }.

Definition emptyHello : Hello := MkHello [] [] [] [] [] [].

Definition isEmpty (s : gostring) : bool := bool_decide (s = []).

Definition marshalHello (h : Hello) : bytes := json.object
  ([(!"name", json.marshalString (Name h));
    (!"ed25519_pub", json.marshalBytes (Ed25519Public h));
    (!"wg_pub", json.marshalString (WGPublic h))]
   ++ json.omitEmpty !"endpoint" (isEmpty (Endpoint h)) (json.marshalString (Endpoint h))
   ++ json.omitEmpty !"inner_addr" (isEmpty (InnerAddr h)) (json.marshalString (InnerAddr h))
   ++ json.omitEmpty !"underlay_addr" (isEmpty (UnderlayAddr h)) (json.marshalString (UnderlayAddr h))).

Definition marshalAddEdge (e : AddEdge) : bytes := json.object
  [(!"from", json.marshalString (aeFrom e)); (!"to", json.marshalString (aeTo e));
   (!"weight", json.marshalInt (aeWeight e))].
Definition marshalDelEdge (e : DelEdge) : bytes := json.object
  [(!"from", json.marshalString (deFrom e)); (!"to", json.marshalString (deTo e))].
Definition marshalAddSubnet (s : AddSubnet) : bytes := json.object
  [(!"owner", json.marshalString (asOwner s)); (!"subnet", json.marshalString (asSubnet s))].
Definition marshalDelSubnet (s : DelSubnet) : bytes := json.object
  [(!"owner", json.marshalString (dsOwner s)); (!"subnet", json.marshalString (dsSubnet s))].

(** [json.Marshal] of an envelope: an error only if the payload is not JSON. *)
Definition Encode (e : Envelope) : option bytes :=
  p ← json.marshalRaw (Payload e);
  Some (json.object
    ([(!"id", json.marshalString (ID e)); (!"origin", json.marshalString (Origin e));
      (!"kind", json.marshalString (Kind e)); (!"ts", json.marshalInt (TS e));
      (!"payload", p)]
     ++ json.omitEmpty !"sig" (bool_decide (Signature e = [])) (json.marshalBytes (Signature e)))).

Section decode.
Context `{Unicode}.

(** Field selection: the first field whose name matches, ignoring case. *)
Definition setEnvelope (e : Envelope) (n : gostring) (v : bytes) : option Envelope :=
  let 'MkEnvelope i o k t p s := e in
  if EqualFold n !"id" then (fun x => MkEnvelope x o k t p s) <$> json.decodeString v i
  else if EqualFold n !"origin" then (fun x => MkEnvelope i x k t p s) <$> json.decodeString v o
  else if EqualFold n !"kind" then (fun x => MkEnvelope i o x t p s) <$> json.decodeString v k
  else if EqualFold n !"ts" then (fun x => MkEnvelope i o k x p s) <$> json.decodeInt v t
  else if EqualFold n !"payload" then (fun x => MkEnvelope i o k t x s) <$> json.decodeRaw v p
  else if EqualFold n !"sig" then (fun x => MkEnvelope i o k t p x) <$> json.decodeBytes v s
  else Some e.

Definition setHello (h : Hello) (n : gostring) (v : bytes) : option Hello :=
  let 'MkHello a b c d e f := h in
  if EqualFold n !"name" then (fun x => MkHello x b c d e f) <$> json.decodeString v a
  else if EqualFold n !"ed25519_pub" then (fun x => MkHello a x c d e f) <$> json.decodeBytes v b
  else if EqualFold n !"wg_pub" then (fun x => MkHello a b x d e f) <$> json.decodeString v c
  else if EqualFold n !"endpoint" then (fun x => MkHello a b c x e f) <$> json.decodeString v d
  else if EqualFold n !"inner_addr" then (fun x => MkHello a b c d x f) <$> json.decodeString v e
  else if EqualFold n !"underlay_addr" then (fun x => MkHello a b c d e x) <$> json.decodeString v f
  else Some h.

Definition setAddEdge (e : AddEdge) (n : gostring) (v : bytes) : option AddEdge :=
  let 'MkAddEdge a b w := e in
  if EqualFold n !"from" then (fun x => MkAddEdge x b w) <$> json.decodeString v a
  else if EqualFold n !"to" then (fun x => MkAddEdge a x w) <$> json.decodeString v b
  else if EqualFold n !"weight" then (fun x => MkAddEdge a b x) <$> json.decodeInt v w
  else Some e.

(** Two string fields with the given names: the other payloads. *)
Definition setPair (n1 n2 : gostring) (e : gostring * gostring) (n : gostring) (v : bytes)
  : option (gostring * gostring) :=
  let '(a, b) := e in
  if EqualFold n n1 then (fun x => (x, b)) <$> json.decodeString v a
  else if EqualFold n n2 then (fun x => (a, x)) <$> json.decodeString v b
  else Some e.

Definition unmarshalHello (b : bytes) : result json.error Hello :=
  json.unmarshalObject setHello emptyHello b.
Definition unmarshalAddEdge (b : bytes) : result json.error AddEdge :=
  json.unmarshalObject setAddEdge (MkAddEdge [] [] 0) b.
Definition unmarshalDelEdge (b : bytes) : result json.error DelEdge :=
  (fun p => MkDelEdge p.1 p.2) <$> json.unmarshalObject (setPair !"from" !"to") ([], []) b.
Definition unmarshalAddSubnet (b : bytes) : result json.error AddSubnet :=
  (fun p => MkAddSubnet p.1 p.2) <$> json.unmarshalObject (setPair !"owner" !"subnet") ([], []) b.
Definition unmarshalDelSubnet (b : bytes) : result json.error DelSubnet :=
  (fun p => MkDelSubnet p.1 p.2) <$> json.unmarshalObject (setPair !"owner" !"subnet") ([], []) b.

Inductive error := errJSON (e : json.error) | errMissingFields.

Definition Decode (b : bytes) : result error Envelope :=
  match json.unmarshalObject setEnvelope emptyEnvelope b with
  | Err e => Err (errJSON e)
  | Ok e => if bool_decide (Kind e = []) || bool_decide (Origin e = [])
            then Err errMissingFields else Ok e
  end.
End decode.

Definition NewID (origin : gostring) (seq : Z) : gostring := origin ++ !"/" ++ Itoa seq.

(** ** The bytes that are signed *)

Lemma tsBytes_length ts : length (tsBytes ts) = 8%nat.
Proof. done. Qed.

(** Agreement above bit [n + 8] and on the byte at bit [n] extends down to bit [n]. *)
Lemma shiftr_byte_step a b n : 0 <= n ->
  Z.shiftr a (n + 8) = Z.shiftr b (n + 8) -> to_byte (Z.shiftr a n) = to_byte (Z.shiftr b n) ->
  Z.shiftr a n = Z.shiftr b n.
Proof.
  intros Hn. rewrite <- !Z.shiftr_shiftr by lia.
  set (x := Z.shiftr a n). set (y := Z.shiftr b n). intros Hq Hb.
  apply (f_equal byte_val) in Hb. rewrite !byte_val_to_byte in Hb.
  rewrite !Z.shiftr_div_pow2 in Hq by lia. change (2 ^ 8) with 256 in Hq.
  Z.to_euclidean_division_equations. lia.
Qed.

Lemma shiftr_top a b : is_int64 a -> is_int64 b ->
  to_byte (Z.shiftr a 56) = to_byte (Z.shiftr b 56) -> Z.shiftr a 56 = Z.shiftr b 56.
Proof.
  unfold is_int64, min_int64, max_int64. intros Ha Hb E.
  apply (f_equal byte_val) in E. rewrite !byte_val_to_byte in E.
  rewrite !Z.shiftr_div_pow2 in * by lia.
  assert (forall z, - 2 ^ 63 <= z <= 2 ^ 63 - 1 -> -128 <= z / 2 ^ 56 < 128) as Hr.
  { intros z Hz. split; [apply Z.div_le_lower_bound; lia|apply Z.div_lt_upper_bound; lia]. }
  pose proof (Hr a Ha) as Ra. pose proof (Hr b Hb) as Rb. clear Hr Ha Hb.
  set (x := a / 2 ^ 56) in *. set (y := b / 2 ^ 56) in *. clearbody x y.
  Z.to_euclidean_division_equations. lia.
Qed.

Lemma tsBytes_inj a b : is_int64 a -> is_int64 b -> tsBytes a = tsBytes b -> a = b.
Proof.
  intros Ha Hb E. unfold tsBytes in E. cbn [fmap list_fmap] in E.
  injection E as E0 E1 E2 E3 E4 E5 E6 E7.
  apply shiftr_top in E0; [|done..].
  apply shiftr_byte_step in E1, E2, E3, E4, E5, E6, E7; try done.
Qed.

(** A string without a byte, that byte, and a rest: the split is unique. *)
Lemma split_at_inj (c : byte) (a b s t : bytes) : c ∉ a -> c ∉ b ->
  a ++ c :: s = b ++ c :: t -> a = b /\ s = t.
Proof.
  intros Ha Hb E.
  assert (cutByte c (a ++ c :: s) = Some (a, s)) as H1 by (by apply cutByte_Some).
  assert (cutByte c (b ++ c :: t) = Some (b, t)) as H2 by (by apply cutByte_Some).
  rewrite E, H2 in H1. by injection H1 as -> ->.
Qed.

(** Header fields without NUL bytes: what the daemon itself mints. *)
Definition nulFree (e : Envelope) : Prop :=
  (nul ∉ ID e) /\ (nul ∉ Origin e) /\ (nul ∉ Kind e) /\ is_int64 (TS e).

#[global] Instance nulFree_dec e : Decision (nulFree e).
Proof. unfold nulFree. apply _. Defined.

Lemma SigningBytes_fields e1 e2 : nulFree e1 -> nulFree e2 ->
  SigningBytes e1 = SigningBytes e2 ->
  ID e1 = ID e2 /\ Origin e1 = Origin e2 /\ Kind e1 = Kind e2 /\ TS e1 = TS e2
  /\ Payload e1 = Payload e2.
Proof.
  intros (I1 & O1 & K1 & T1) (I2 & O2 & K2 & T2). unfold SigningBytes. cbn [app].
  intros [-> E]%split_at_inj; [|done..]. apply split_at_inj in E as [-> E]; [|done..].
  apply split_at_inj in E as [-> E]; [|done..].
  apply app_inj_1 in E as [Et E]; [|done]. apply tsBytes_inj in Et as ->; [|done..].
  by injection E as ->.
Qed.

(** ** Wire round trips *)

Definition utf8Fields (l : list gostring) : Prop := Forall (fun s => validUTF8 s = true) l.

(** Envelopes that JSON can carry: text fields in UTF-8, a 64-bit time stamp,
    and a payload that is one compact JSON value. *)
Record encodable (e : Envelope) : Prop := {
  enc_text : utf8Fields [ID e; Origin e; Kind e];
  enc_ts : is_int64 (TS e);
  enc_payload : value (json.maxNestingDepth - 1) (Payload e);
  enc_compact : json.marshalRaw (Payload e) = Some (Payload e)
}.

(** Decode one marshalled member after the other. *)
Ltac decode_members := field_names;
  repeat (cbn [fmap option_fmap option_map mbind option_bind json.decodeRaw];
          rewrite ?decodeString_marshal, ?decodeInt_marshal, ?decodeBytes_marshal by done);
  cbn [fmap option_fmap option_map mbind option_bind json.decodeRaw].

Ltac ok_members := repeat (apply List.Forall_nil || apply List.Forall_cons);
  (split; cbn [fst snd]; [by vm_compute | auto with gsnet]).

(** Unmarshalling the wire form, with white space after it. *)
Lemma unmarshal_Encode `{Unicode} e b t : encodable e -> json.skipWs t = [] -> stops t = true ->
  Encode e = Some b -> json.unmarshalObject setEnvelope emptyEnvelope (b ++ t) = Ok e.
Proof.
  destruct e as [i o k ts p s]. intros [Htx Hts Hp Hc] Hws Hst. simpl in *.
  apply Forall_cons in Htx as [Hi Htx]. apply Forall_cons in Htx as [Hor Htx].
  apply Forall_cons in Htx as [Hki _].
  unfold Encode. cbn [Payload ID Origin Kind TS Signature].
  rewrite Hc. cbn [mbind option_bind]. intros Hb. apply (inj Some) in Hb as <-.
  case_bool_decide as Hs; cbn [json.omitEmpty app]; rewrite unmarshal_object_ws by (done || ok_members);
    cbn [foldl]; unfold emptyEnvelope, setEnvelope; decode_members; by subst.
Qed.

Lemma Decode_Encode `{Unicode} e b : encodable e -> Kind e <> [] -> Origin e <> [] ->
  Encode e = Some b -> Decode b = Ok e.
Proof.
  intros He Hk Ho Hb. unfold Decode. rewrite <- (app_nil_r b), (unmarshal_Encode e b []) by done.
  by rewrite !bool_decide_eq_false_2.
Qed.

(** ** The payload interface

    What [originate] needs from a payload record: it marshals to one compact
    JSON value, and a receiver that unmarshals the value gets the record
    back.  [carried] says which records JSON represents exactly. *)
Class PayloadCodec `{Unicode} (A : Type) := {
  marshalP : A -> bytes;
  unmarshalP : bytes -> result json.error A;
  carried : A -> Prop;
  unmarshalP_marshalP : forall a, carried a -> unmarshalP (marshalP a) = Ok a;
  marshalP_value : forall a, carried a -> value (json.maxNestingDepth - 1) (marshalP a);
  marshalP_compacted : forall a, carried a -> compacted (marshalP a);
  marshalP_line : forall a, carried a -> oneLine (marshalP a)
}.

Ltac ok_compacted := apply compacted_object;
  repeat (apply List.Forall_nil || apply List.Forall_cons);
  (split; cbn [fst snd]; [by vm_compute | auto with gsnet]).

Ltac ok_line := apply oneLine_object;
  repeat (apply List.Forall_nil || apply List.Forall_cons);
  (split; cbn [fst snd]; [by vm_compute | auto with gsnet]).

Ltac split_utf8 H := unfold utf8Fields in H; rewrite ?Forall_cons in H; destruct_and? H.

Section codecs.
Context `{Unicode}.

Lemma pair_codec n1 n2 a b : asciiName n1 = true -> asciiName n2 = true ->
  sameName n1 n2 = false -> validUTF8 a = true -> validUTF8 b = true ->
  json.unmarshalObject (setPair (lit n1) (lit n2)) ([], [])
    (json.object [(lit n1, json.marshalString a); (lit n2, json.marshalString b)]) = Ok (a, b).
Proof.
  intros H1 H2 Hn Ha Hb.
  assert (forall n, asciiName n = true -> validUTF8 (lit n) = true) as Hu.
  { intros n Hn'. apply validFrom_ascii, List.Forall_forall. intros c Hc.
    eapply (proj1 (forallb_forall _ _)) in Hn'; [|exact Hc]. by apply bool_decide_eq_true in Hn'. }
  rewrite unmarshal_object.
  2:{ repeat (apply List.Forall_nil || apply List.Forall_cons);
      (split; cbn [fst snd]; [auto | auto with gsnet]). }
  cbn [foldl mbind option_bind]. unfold setPair.
  rewrite !EqualFold_lit by (rewrite ?H1, ?H2; done).
  replace (sameName n1 n1) with true by (symmetry; by apply bool_decide_eq_true).
  replace (sameName n2 n2) with true by (symmetry; by apply bool_decide_eq_true).
  replace (sameName n2 n1) with false.
  2:{ symmetry. unfold sameName in *. rewrite bool_decide_eq_false in *. congruence. }
  rewrite decodeString_marshal by done. cbn [fmap option_fmap option_map mbind option_bind].
  by rewrite decodeString_marshal.
Qed.

#[refine, global] Instance Hello_codec : PayloadCodec Hello := {
  marshalP := marshalHello;
  unmarshalP := unmarshalHello;
  carried h := utf8Fields [Name h; WGPublic h; Endpoint h; InnerAddr h; UnderlayAddr h]
}.
Proof.
  - intros [n k w e i u] Hc. split_utf8 Hc. unfold marshalHello, unmarshalHello, isEmpty.
    cbn [Name Ed25519Public WGPublic Endpoint InnerAddr UnderlayAddr] in *.
    repeat case_bool_decide; subst; cbn [json.omitEmpty app]; rewrite unmarshal_object by ok_members;
      cbn [foldl]; unfold emptyHello, setHello; by decode_members.
  - intros [n k w e i u] Hc. split_utf8 Hc. apply value_object; [done|]. unfold isEmpty. simpl in *.
    repeat case_bool_decide; cbn [json.omitEmpty app]; ok_members.
  - intros [n k w e i u] Hc. split_utf8 Hc. unfold marshalHello, isEmpty. simpl in *.
    repeat case_bool_decide; cbn [json.omitEmpty app]; ok_compacted.
  - intros [n k w e i u] Hc. split_utf8 Hc. unfold marshalHello, isEmpty. simpl in *.
    repeat case_bool_decide; cbn [json.omitEmpty app]; ok_line.
Defined.

#[refine, global] Instance AddEdge_codec : PayloadCodec AddEdge := {
  marshalP := marshalAddEdge;
  unmarshalP := unmarshalAddEdge;
  carried e := utf8Fields [aeFrom e; aeTo e] /\ is_int64 (aeWeight e)
}.
Proof.
  - intros [f t w] [Hc Hw]. split_utf8 Hc. simpl in *.
    unfold marshalAddEdge, unmarshalAddEdge. cbn [aeFrom aeTo aeWeight].
    rewrite unmarshal_object by ok_members. cbn [foldl]. unfold setAddEdge. by decode_members.
  - intros [f t w] [Hc Hw]. split_utf8 Hc. apply value_object; [done|]. simpl in *. ok_members.
  - intros [f t w] [Hc Hw]. split_utf8 Hc. simpl in *. ok_compacted.
  - intros [f t w] [Hc Hw]. split_utf8 Hc. simpl in *. ok_line.
Defined.

#[refine, global] Instance DelEdge_codec : PayloadCodec DelEdge := {
  marshalP := marshalDelEdge;
  unmarshalP := unmarshalDelEdge;
  carried e := utf8Fields [deFrom e; deTo e]
}.
Proof.
  - intros [f t] Hc. split_utf8 Hc. unfold marshalDelEdge, unmarshalDelEdge.
    cbn [deFrom deTo] in *. by rewrite pair_codec.
  - intros [f t] Hc. split_utf8 Hc. apply value_object; [done|]. simpl in *. ok_members.
  - intros [f t] Hc. split_utf8 Hc. simpl in *. ok_compacted.
  - intros [f t] Hc. split_utf8 Hc. simpl in *. ok_line.
Defined.

#[refine, global] Instance AddSubnet_codec : PayloadCodec AddSubnet := {
  marshalP := marshalAddSubnet;
  unmarshalP := unmarshalAddSubnet;
  carried s := utf8Fields [asOwner s; asSubnet s]
}.
Proof.
  - intros [f t] Hc. split_utf8 Hc. unfold marshalAddSubnet, unmarshalAddSubnet.
    cbn [asOwner asSubnet] in *. by rewrite pair_codec.
  - intros [f t] Hc. split_utf8 Hc. apply value_object; [done|]. simpl in *. ok_members.
  - intros [f t] Hc. split_utf8 Hc. simpl in *. ok_compacted.
  - intros [f t] Hc. split_utf8 Hc. simpl in *. ok_line.
Defined.

#[refine, global] Instance DelSubnet_codec : PayloadCodec DelSubnet := {
  marshalP := marshalDelSubnet;
  unmarshalP := unmarshalDelSubnet;
  carried s := utf8Fields [dsOwner s; dsSubnet s]
}.
Proof.
  - intros [f t] Hc. split_utf8 Hc. unfold marshalDelSubnet, unmarshalDelSubnet.
    cbn [dsOwner dsSubnet] in *. by rewrite pair_codec.
  - intros [f t] Hc. split_utf8 Hc. apply value_object; [done|]. simpl in *. ok_members.
  - intros [f t] Hc. split_utf8 Hc. simpl in *. ok_compacted.
  - intros [f t] Hc. split_utf8 Hc. simpl in *. ok_line.
Defined.
End codecs.

(** The encoding of an envelope whose payload is one line is one line. *)
Lemma Encode_line e b : encodable e -> oneLine (Payload e) -> Encode e = Some b -> oneLine b.
Proof.
  destruct e as [i o k ts p s]. intros [Htx _ _ Hp] Hl. split_utf8 Htx. unfold Encode. simpl in *. rewrite Hp.
  cbn [mbind option_bind]. intros Hb. apply (inj Some) in Hb as <-.
  case_bool_decide; cbn [json.omitEmpty app]; ok_line.
Qed.

(** An envelope around a marshalled payload can be encoded. *)
Lemma encodable_payload `{PayloadCodec A} i o k ts (a : A) sig :
  carried a -> utf8Fields [i; o; k] -> is_int64 ts ->
  encodable (MkEnvelope i o k ts (marshalP a) sig).
Proof.
  intros Ha Ht Hts. pose proof (marshalP_value a Ha) as Hv. split; try done.
  apply marshalRaw_id; [|by apply marshalP_compacted].
  eapply value_depth; [|exact Hv]. unfold json.maxNestingDepth. lia.
Qed.

(** C29.  A fact survives the wire: the envelope around a marshalled payload
    encodes without error, every receiver decodes exactly the envelope that
    was sent (so the signed bytes and the signature are those of the origin,
    however often intermediaries re-encode it), and unmarshalling the payload
    gives the record the origin announced. *)
Theorem wire_transparent `{PayloadCodec A} i o k ts (a : A) sig :
  carried a -> utf8Fields [i; o; k] -> is_int64 ts -> o <> [] -> k <> [] ->
  let e := MkEnvelope i o k ts (marshalP a) sig in
  exists b, Encode e = Some b /\ Decode b = Ok e
    /\ (forall e', Decode b = Ok e' -> Encode e' = Some b /\ SigningBytes e' = SigningBytes e)
    /\ unmarshalP (Payload e) = Ok a.
Proof.
  intros Ha Ht Hts Ho Hk e.
  assert (encodable e) as He by by apply encodable_payload.
  assert (exists b, Encode e = Some b) as [b Hb].
  { unfold Encode. rewrite (enc_compact _ He). eauto. }
  exists b. pose proof (Decode_Encode e b He Hk Ho Hb) as Hd. split_and!; [done|done| |].
  - rewrite Hd. by intros e' [= <-].
  - by apply unmarshalP_marshalP.
Qed.

Definition demoEnvelope : Envelope :=
  MkEnvelope !"a/edge/b" !"a" KindAddEdge 1700000000000000000
    (marshalAddEdge (MkAddEdge !"a" !"b <&> c" 10)) [to_byte 1; to_byte 2].

Lemma wire_transparent_witness :
  exists b, Encode demoEnvelope = Some b /\ Decode b = Ok demoEnvelope.
Proof.
  destruct (wire_transparent !"a/edge/b" !"a" KindAddEdge 1700000000000000000
              (MkAddEdge !"a" !"b <&> c" 10) [to_byte 1; to_byte 2]) as (b & H1 & H2 & _).
  - apply (bool_decide_unpack _). vm_compute. exact I.
  - apply (bool_decide_unpack _). vm_compute. exact I.
  - apply (bool_decide_unpack _). vm_compute. exact I.
  - discriminate.
  - discriminate.
  - exists b. split; [exact H1 | exact H2].
Defined.

(** C28.  Two envelopes whose signed bytes agree agree on every signed field,
    as long as ID, origin and kind contain no NUL byte and the time stamps
    are 64-bit integers: a signature cannot be moved to another envelope of
    that form. *)
Theorem SigningBytes_injective e1 e2 : nulFree e1 -> nulFree e2 ->
  SigningBytes e1 = SigningBytes e2 ->
  ID e1 = ID e2 /\ Origin e1 = Origin e2 /\ Kind e1 = Kind e2 /\ TS e1 = TS e2
  /\ Payload e1 = Payload e2.
Proof. apply SigningBytes_fields. Qed.

Lemma SigningBytes_injective_witness :
  SigningBytes demoEnvelope = SigningBytes (MkEnvelope (ID demoEnvelope) (Origin demoEnvelope)
    (Kind demoEnvelope) (TS demoEnvelope) (Payload demoEnvelope) [])
  /\ TS demoEnvelope = 1700000000000000000.
Proof.
  split; [reflexivity|].
  apply (SigningBytes_injective demoEnvelope
    (MkEnvelope !"a/edge/b" !"a" KindAddEdge 1700000000000000000 (Payload demoEnvelope) [])).
  - apply (bool_decide_unpack _). vm_compute. exact I.
  - apply (bool_decide_unpack _). vm_compute. exact I.
  - reflexivity.
Defined.

(** Without that restriction the encoding is ambiguous: the NUL separators
    can be shifted between fields. *)
Theorem SigningBytes_ambiguous :
  exists e1 e2, SigningBytes e1 = SigningBytes e2 /\ ID e1 <> ID e2 /\ Origin e1 <> Origin e2.
Proof.
  exists (MkEnvelope !"x" (!"a" ++ nul :: !"b") !"k" 0 [] []),
         (MkEnvelope (!"x" ++ nul :: !"a") !"b" !"k" 0 [] []).
  split; [reflexivity|]. split; discriminate.
Qed.

End message.
