(* ===== verification/Gossip.v ===== *)
(** * The gossip plane (internal/gossip/plane.go)

    The state of a [Plane] and its operations.  A method that talks to the
    outside world returns, beside the new state, the list of events it
    caused: envelopes handed to the transport and calls of the observer, in
    the order in which they happen.  The clock and the transport's answers are
    arguments.  Every operation is first modelled as one atomic step; the
    interleaving of goroutines that call [Receive] concurrently is modelled
    by the step relation of [Module concurrent]. *)

From Stdlib Require Import Ascii String ZArith Lia.
From stdpp Require Import base tactics list gmap strings.
From S2P Require Import Prelude.
From S2P Require Import Graph.
From S2P Require Import GoStrings.
From S2P Require Import NetIP.
From S2P Require Import JSON.
From S2P Require Import JSONStrings.
From S2P Require Import Keys.
From S2P Require Import Message.

Local Open Scope Z_scope.
Import message.

Module gossip.

(** [pubKeyFor] is the verifier the daemon installs (a lookup in hosts/);
    [listener] tells whether an observer is installed. *)
Record Plane := MkPlane {
  NodeName : gostring;
  G : graph.Graph;
  seen : gmap gostring Z;
  outbox : gmap gostring Envelope;
  listener : bool;
  edPriv : option keys.Ed25519Private;
  pubKeyFor : option (gostring -> option keys.Ed25519Public);
  pubKeys : gmap gostring keys.Ed25519Public;
  endpoints : gmap gostring gostring;
  inners : gmap gostring netip.Addr;
  underlays : gmap gostring netip.Addr
}.

Definition NewPlane (nodeName : gostring) (g : graph.Graph) : Plane :=
  MkPlane nodeName g ∅ ∅ false None None ∅ ∅ ∅ ∅.

(** What an operation does to the outside. *)
Inductive event :=
| Broadcasts (e : Envelope)
| Notifies (e : Envelope).

Inductive error :=
| errSignature (kind origin : gostring)
| errTransport (n : nat).

(** *** Field updates *)

Definition setG g (p : Plane) : Plane :=
  MkPlane (NodeName p) g (seen p) (outbox p) (listener p) (edPriv p) (pubKeyFor p)
    (pubKeys p) (endpoints p) (inners p) (underlays p).
Definition setSeen m (p : Plane) : Plane :=
  MkPlane (NodeName p) (G p) m (outbox p) (listener p) (edPriv p) (pubKeyFor p)
    (pubKeys p) (endpoints p) (inners p) (underlays p).
Definition setOutbox m (p : Plane) : Plane :=
  MkPlane (NodeName p) (G p) (seen p) m (listener p) (edPriv p) (pubKeyFor p)
    (pubKeys p) (endpoints p) (inners p) (underlays p).
Definition setPubKeys m (p : Plane) : Plane :=
  MkPlane (NodeName p) (G p) (seen p) (outbox p) (listener p) (edPriv p) (pubKeyFor p)
    m (endpoints p) (inners p) (underlays p).
Definition setAddrs es ins us (p : Plane) : Plane :=
  MkPlane (NodeName p) (G p) (seen p) (outbox p) (listener p) (edPriv p) (pubKeyFor p)
    (pubKeys p) es ins us.

Definition EndpointOf (p : Plane) (origin : gostring) : gostring :=
  default [] (endpoints p !! origin).
Definition InnerAddrOf (p : Plane) (origin : gostring) : netip.Addr :=
  default netip.AddrZero (inners p !! origin).
Definition UnderlayAddrOf (p : Plane) (origin : gostring) : netip.Addr :=
  default netip.AddrZero (underlays p !! origin).

Definition SetSigner (priv : keys.Ed25519Private) (p : Plane) : Plane :=
  MkPlane (NodeName p) (G p) (seen p) (outbox p) (listener p) (Some priv) (pubKeyFor p)
    (pubKeys p) (endpoints p) (inners p) (underlays p).
Definition SetVerifier (f : gostring -> option keys.Ed25519Public) (p : Plane) : Plane :=
  MkPlane (NodeName p) (G p) (seen p) (outbox p) (listener p) (edPriv p) (Some f)
    (pubKeys p) (endpoints p) (inners p) (underlays p).
Definition OnMessage (p : Plane) : Plane :=
  MkPlane (NodeName p) (G p) (seen p) (outbox p) true (edPriv p) (pubKeyFor p)
    (pubKeys p) (endpoints p) (inners p) (underlays p).

Definition OutboxSize (p : Plane) : nat := size (outbox p).
Definition SeenSize (p : Plane) : nat := size (seen p).

(** *** Claiming *)

(** The new state and whether the caller won. *)
Definition claim (id : gostring) (ts : Z) (p : Plane) : Plane * bool :=
  match seen p !! id with
  | Some prev => if ts <=? prev then (p, false) else (setSeen (<[id := ts]> (seen p)) p, true)
  | None => (setSeen (<[id := ts]> (seen p)) p, true)
  end.

Definition rememberPubKey (name : gostring) (pub : keys.Ed25519Public) (p : Plane) : Plane :=
  setPubKeys (<[name := pub]> (pubKeys p)) p.

(** The address of a bare address or of a CIDR prefix; the zero address if
    neither parses. *)
Definition parseHelloAddr (s : gostring) : netip.Addr :=
  if bool_decide (s = []) then netip.AddrZero
  else match netip.ParsePrefix s with
       | Some pfx => netip.pAddr pfx
       | None => default netip.AddrZero (netip.ParseAddr s)
       end.

Section operations.
Context `{Unicode, Ed25519, MapOrder}.

(** *** Signatures *)

Definition sign (p : Plane) (env : Envelope) : Envelope :=
  match edPriv p with
  | None => env
  | Some priv => MkEnvelope (ID env) (Origin env) (Kind env) (TS env) (Payload env)
                   (keys.Sign priv (SigningBytes env))
  end.

Definition verify (p : Plane) (env : Envelope) : bool :=
  let learned := pubKeys p !! Origin env in
  match pubKeyFor p, learned with
  | None, None => true
  | _, _ =>
      let pub := match pubKeyFor p with
                 | Some lookup => default keys.zeroPublic (lookup (Origin env))
                 | None => keys.zeroPublic
                 end in
      let pub := if bool_decide (length (keys.Raw pub) = 0%nat)
                 then match learned with Some k => k | None => pub end else pub in
      if bool_decide (length (keys.Raw pub) = 0%nat) then false
      else keys.Verify pub (SigningBytes env) (Signature env)
  end.

(** *** Applying an accepted envelope *)

Definition learnHello (h : Hello) (p : Plane) : Plane :=
  let p := setG (graph.AddNode (Name h) (G p)) p in
  let p := match keys.ParseEd25519PublicBase64ish (Ed25519Public h) with
           | Ok pub => rememberPubKey (Name h) pub p
           | Err _ => p
           end in
  let inner := parseHelloAddr (InnerAddr h) in
  let underlay := parseHelloAddr (UnderlayAddr h) in
  setAddrs
    (if bool_decide (Endpoint h = []) then endpoints p else <[Name h := Endpoint h]> (endpoints p))
    (if netip.IsValid inner then <[Name h := inner]> (inners p) else inners p)
    (if netip.IsValid underlay then <[Name h := underlay]> (underlays p) else underlays p) p.

(** Delete every listed edge that touches [name]. *)
Definition delEdgesOf (name : gostring) (es : list graph.Edge) (g : graph.Graph) : graph.Graph :=
  foldl (fun g e => if bool_decide (graph.From e = name) || bool_decide (graph.To e = name)
                    then graph.DelEdge (graph.From e) (graph.To e) g else g) g es.

Definition forgetNode (k : nat) (name : gostring) (p : Plane) : Plane :=
  let p := setG (delEdgesOf name (graph.Edges k (G p)) (G p)) p in
  setPubKeys (delete name (pubKeys p))
    (setAddrs (delete name (endpoints p)) (delete name (inners p)) (delete name (underlays p)) p).

(** The [switch] of [apply]: [None] for the early returns. *)
Definition applyKind (k : nat) (env : Envelope) (p : Plane) : option Plane :=
  if bool_decide (Kind env = KindAddNode) then
    h ← ok (unmarshalHello (Payload env)); Some (learnHello h p)
  else if bool_decide (Kind env = KindDelNode) then
    h ← ok (unmarshalHello (Payload env));
    if bool_decide (Name h = []) then None else Some (forgetNode k (Name h) p)
  else if bool_decide (Kind env = KindAddEdge) then
    e ← ok (unmarshalAddEdge (Payload env));
    Some (setG (graph.AddEdge (graph.MkEdge (aeFrom e) (aeTo e) (aeWeight e)) (G p)) p)
  else if bool_decide (Kind env = KindDelEdge) then
    e ← ok (unmarshalDelEdge (Payload env));
    Some (setG (graph.DelEdge (deFrom e) (deTo e) (G p)) p)
  else if bool_decide (Kind env = KindAddSubnet) then
    s ← ok (unmarshalAddSubnet (Payload env));
    Some (setG (graph.AddSubnet (asOwner s) (asSubnet s) (G p)) p)
  else if bool_decide (Kind env = KindDelSubnet) then
    s ← ok (unmarshalDelSubnet (Payload env));
    Some (setG (graph.DelSubnet (dsOwner s) (dsSubnet s) (G p)) p)
  else Some p.

Definition apply (k : nat) (env : Envelope) (p : Plane) : Plane * list event :=
  match applyKind k env p with
  | None => (p, [])
  | Some p' => (p', if listener p' then [Notifies env] else [])
  end.

(** *** Entry points

    [bcast n e] is the transport's answer to the [n]-th broadcast of the
    call: [None] for success. *)

Definition Receive (bcast : nat -> Envelope -> option nat) (k : nat) (env : Envelope) (p : Plane)
  : Plane * list event * result error unit :=
  if negb (verify p env) then (p, [], Err (errSignature (Kind env) (Origin env)))
  else
    let '(p, won) := claim (ID env) (TS env) p in
    if negb won then (p, [], Ok ())
    else
      let '(p, evs) := apply k env p in
      (p, evs ++ [Broadcasts env],
       match bcast 0%nat env with None => Ok () | Some n => Err (errTransport n) end).

(** [body] is the marshalled payload, [now] the value of [TSNow]. *)
Definition originate (bcast : nat -> Envelope -> option nat) (k : nat) (now : Z)
    (id kind : gostring) (body : bytes) (p : Plane) : Plane * list event * result error unit :=
  let env := sign p (MkEnvelope id (NodeName p) kind now body []) in
  let p := setSeen (<[id := TS env]> (seen p)) (setOutbox (<[id := env]> (outbox p)) p) in
  let '(p, evs) := apply k env p in
  (p, evs ++ [Broadcasts env],
   match bcast 0%nat env with None => Ok () | Some n => Err (errTransport n) end).

Fixpoint resend (bcast : nat -> Envelope -> option nat) (n : nat) (envs : list Envelope)
  : list event * result error unit :=
  match envs with
  | [] => ([], Ok ())
  | e :: t =>
      match bcast n e with
      | Some x => ([Broadcasts e], Err (errTransport x))
      | None => let '(evs, r) := resend bcast (S n) t in (Broadcasts e :: evs, r)
      end
  end.

Definition ResendOutbox (bcast : nat -> Envelope -> option nat) (k : nat) (p : Plane)
  : list event * result error unit :=
  resend bcast 0 (map_order k (outbox p)).*2.

Section announce.
Context (bcast : nat -> Envelope -> option nat) (k : nat) (now : Z) (p : Plane).

Definition AnnounceHello (h : Hello) :=
  originate bcast k now (NodeName p ++ !"/hello") KindAddNode (marshalHello h) p.
Definition AnnounceAddEdge (to : gostring) (weight : Z) :=
  originate bcast k now (NodeName p ++ !"/edge/" ++ to) KindAddEdge
    (marshalAddEdge (MkAddEdge (NodeName p) to weight)) p.
Definition AnnounceDelEdge (to : gostring) :=
  originate bcast k now (NodeName p ++ !"/edge/" ++ to) KindDelEdge
    (marshalDelEdge (MkDelEdge (NodeName p) to)) p.
Definition AnnounceAddSubnet (subnet : gostring) :=
  originate bcast k now (NodeName p ++ !"/subnet/" ++ subnet) KindAddSubnet
    (marshalAddSubnet (MkAddSubnet (NodeName p) subnet)) p.
Definition AnnounceDelSubnet (subnet : gostring) :=
  originate bcast k now (NodeName p ++ !"/subnet/" ++ subnet) KindDelSubnet
    (marshalDelSubnet (MkDelSubnet (NodeName p) subnet)) p.
End announce.
End operations.

(** ** Lemmas *)

(** The fields that [apply] never touches. *)
Record sameCore (p q : Plane) : Prop := {
  core_name : NodeName q = NodeName p;
  core_seen : seen q = seen p;
  core_outbox : outbox q = outbox p;
  core_listener : listener q = listener p;
  core_priv : edPriv q = edPriv p;
  core_lookup : pubKeyFor q = pubKeyFor p
}.

#[global] Instance sameCore_refl : Reflexive sameCore.
Proof. by intros p. Qed.
#[global] Instance sameCore_trans : Transitive sameCore.
Proof. intros p q r [] []. split; congruence. Qed.

Section lemmas.
Context `{Unicode, Ed25519, MapOrder}.
Implicit Types p q : Plane.

Lemma learnHello_core h p : sameCore p (learnHello h p).
Proof. unfold learnHello. by destruct (keys.ParseEd25519PublicBase64ish _). Qed.

Lemma applyKind_core k env p p' : applyKind k env p = Some p' -> sameCore p p'.
Proof.
  unfold applyKind. repeat case_bool_decide;
    repeat match goal with |- context [ok ?r] => destruct (ok r); simpl; [|done] end;
    repeat case_bool_decide; intros [= <-]; done || apply learnHello_core.
Qed.

Lemma apply_core k env p : sameCore p (apply k env p).1.
Proof.
  unfold apply. destruct (applyKind k env p) eqn:E; [by apply applyKind_core in E|done].
Qed.

(** Every change [apply] makes to the graph is a sequence of its mutators. *)
Lemma delEdgesOf_steps name es g : rtc graph.step g (delEdgesOf name es g).
Proof.
  unfold delEdgesOf. revert g. induction es as [|e es IH]; intros g; simpl; [done|].
  destruct (_ || _); [|apply IH]. eapply rtc_l; [|apply IH]. constructor.
Qed.

Lemma learnHello_G h p : G (learnHello h p) = graph.AddNode (Name h) (G p).
Proof. unfold learnHello. by destruct (keys.ParseEd25519PublicBase64ish _). Qed.

Lemma applyKind_steps k env p p' : applyKind k env p = Some p' -> rtc graph.step (G p) (G p').
Proof.
  unfold applyKind. repeat case_bool_decide;
    repeat match goal with |- context [ok ?r] => destruct (ok r); simpl; [|done] end;
    repeat case_bool_decide; intros [= <-]; rewrite ?learnHello_G; simpl;
    try apply delEdgesOf_steps; try done; apply rtc_once; constructor.
Qed.

Lemma apply_steps k env p : rtc graph.step (G p) (G (apply k env p).1).
Proof.
  unfold apply. destruct (applyKind k env p) eqn:E; [by apply applyKind_steps in E|done].
Qed.

(** [apply] itself broadcasts nothing. *)
Lemma apply_events k env p ev : ev ∈ (apply k env p).2 -> ev = Notifies env.
Proof.
  unfold apply. destruct (applyKind k env p) as [p'|]; simpl; [|set_solver].
  destruct (listener p'); set_solver.
Qed.

(** *** Claims *)

Definition fresh (p : Plane) (id : gostring) (ts : Z) : Prop :=
  match seen p !! id with Some prev => prev < ts | None => True end.

#[global] Instance fresh_dec p id ts : Decision (fresh p id ts).
Proof. unfold fresh. destruct (seen p !! id); apply _. Defined.

Lemma claim_fresh id ts p : fresh p id ts -> claim id ts p = (setSeen (<[id := ts]> (seen p)) p, true).
Proof.
  unfold fresh, claim. destruct (seen p !! id) as [prev|]; [|done].
  intros Hlt. by destruct (Z.leb_spec ts prev); [lia|].
Qed.

Lemma claim_stale id ts p : ~ fresh p id ts -> claim id ts p = (p, false).
Proof.
  unfold fresh, claim. destruct (seen p !! id) as [prev|]; [|done].
  intros Hlt. by destruct (Z.leb_spec ts prev); [|lia].
Qed.

(** [Receive] on an accepted envelope. *)
Lemma Receive_accept bcast k env p : verify p env = true -> fresh p (ID env) (TS env) ->
  let q := setSeen (<[ID env := TS env]> (seen p)) p in
  Receive bcast k env p =
    ((apply k env q).1, (apply k env q).2 ++ [Broadcasts env],
     match bcast 0%nat env with None => Ok () | Some n => Err (errTransport n) end).
Proof.
  intros Hv Hf q. unfold Receive. rewrite Hv. cbn [negb].
  rewrite claim_fresh by done. cbn [negb]. fold q. by destruct (apply k env q).
Qed.

Lemma Receive_reject bcast k env p : verify p env = false ->
  Receive bcast k env p = (p, [], Err (errSignature (Kind env) (Origin env))).
Proof. intros Hv. unfold Receive. by rewrite Hv. Qed.

Lemma Receive_stale bcast k env p : verify p env = true -> ~ fresh p (ID env) (TS env) ->
  Receive bcast k env p = (p, [], Ok ()).
Proof. intros Hv Hf. unfold Receive. rewrite Hv. cbn [negb]. by rewrite claim_stale. Qed.

(** *** The order on dedup tables *)

Definition seen_le (p q : Plane) : Prop :=
  forall id ts, seen p !! id = Some ts -> exists ts', seen q !! id = Some ts' /\ ts <= ts'.

#[global] Instance seen_le_refl : Reflexive seen_le.
Proof. intros p id ts Hs. exists ts. split; [done|lia]. Qed.
#[global] Instance seen_le_trans : Transitive seen_le.
Proof.
  intros p q r Hpq Hqr id ts Hs. destruct (Hpq _ _ Hs) as (t1 & Ht1 & ?).
  destruct (Hqr _ _ Ht1) as (t2 & ? & ?). exists t2. split; [done|lia].
Qed.

Lemma Receive_seen bcast k env p :
  let q := (Receive bcast k env p).1.1 in
  seen q = if verify p env && bool_decide (fresh p (ID env) (TS env))
           then <[ID env := TS env]> (seen p) else seen p.
Proof.
  simpl. destruct (verify p env) eqn:Hv; simpl; [|by rewrite Receive_reject].
  case_bool_decide; [|by rewrite Receive_stale].
  rewrite Receive_accept by done. simpl. by rewrite (core_seen _ _ (apply_core _ _ _)).
Qed.

Lemma Receive_monotone bcast k env p : seen_le p (Receive bcast k env p).1.1.
Proof.
  intros id ts Hs. rewrite Receive_seen. destruct (verify p env); simpl; [|exists ts; split; [done|lia]].
  case_bool_decide as Hf; [|exists ts; split; [done|lia]].
  destruct (decide (id = ID env)) as [->|]; simplify_map_eq; [|exists ts; split; [done|lia]].
  unfold fresh in Hf. rewrite Hs in Hf. exists (TS env). split; [done|lia].
Qed.

(** After [Receive] of a verified envelope, its version is no longer fresh. *)
Lemma Receive_claims bcast k env p : verify p env = true ->
  ~ fresh (Receive bcast k env p).1.1 (ID env) (TS env).
Proof.
  intros Hv. unfold fresh. rewrite Receive_seen, Hv. simpl.
  case_bool_decide as Hf; [rewrite lookup_insert_eq; lia|]. exact Hf.
Qed.

Lemma fresh_antitone p q id ts : seen_le p q -> ~ fresh p id ts -> ~ fresh q id ts.
Proof.
  unfold fresh. intros Hle. destruct (seen p !! id) as [t|] eqn:E; [|done].
  destruct (Hle _ _ E) as (t' & -> & ?). lia.
Qed.

(** *** Own facts *)

Lemma originate_unfold bcast k now id kind body p :
  let env := sign p (MkEnvelope id (NodeName p) kind now body []) in
  let q := setSeen (<[id := now]> (seen p)) (setOutbox (<[id := env]> (outbox p)) p) in
  originate bcast k now id kind body p =
    ((apply k env q).1, (apply k env q).2 ++ [Broadcasts env],
     match bcast 0%nat env with None => Ok () | Some n => Err (errTransport n) end).
Proof.
  intros env q. unfold originate. fold env.
  replace (TS env) with now by (unfold env, sign; by destruct (edPriv p)).
  fold q. by destruct (apply k env q).
Qed.

Lemma sign_fields p env :
  ID (sign p env) = ID env /\ Origin (sign p env) = Origin env /\ Kind (sign p env) = Kind env
  /\ TS (sign p env) = TS env /\ Payload (sign p env) = Payload env
  /\ SigningBytes (sign p env) = SigningBytes env.
Proof. unfold sign. by destruct (edPriv p). Qed.

(** Well-formed outbox entries: filed under their ID, ours, signed by a key
    that was installed, and recorded as seen. *)
Record ownFact (p : Plane) (id : gostring) (e : Envelope) : Prop := {
  own_id : ID e = id;
  own_origin : Origin e = NodeName p;
  own_sig : Signature e = [] \/ exists priv, Signature e = keys.Sign priv (SigningBytes e);
  own_seen : exists ts, seen p !! id = Some ts /\ TS e <= ts
}.

Record wf (p : Plane) : Prop := {
  wf_graph : graph.wf (G p);
  wf_outbox : forall id e, outbox p !! id = Some e -> ownFact p id e;
  wf_keys : forall n pub, pubKeys p !! n = Some pub -> length (keys.Raw pub) = keys.PublicKeySize;
  wf_addrs : (forall n a, inners p !! n = Some a -> netip.IsValid a = true)
             /\ (forall n a, underlays p !! n = Some a -> netip.IsValid a = true)
             /\ (forall n s, endpoints p !! n = Some s -> s <> [])
}.

(** Everything that changes a plane. *)
Inductive step (p : Plane) : Plane -> Prop :=
| step_receive bcast k env : step p (Receive bcast k env p).1.1
| step_originate bcast k now id kind body : step p (originate bcast k now id kind body p).1.1
| step_signer priv : step p (SetSigner priv p)
| step_verifier f : step p (SetVerifier f p)
| step_observer : step p (OnMessage p)
| step_graph g : graph.step (G p) g -> step p (setG g p).

(** Addresses and keys learned from a Hello are usable. *)
Definition wfLearned (p : Plane) : Prop :=
  (forall n pub, pubKeys p !! n = Some pub -> length (keys.Raw pub) = keys.PublicKeySize)
  /\ (forall n a, inners p !! n = Some a -> netip.IsValid a = true)
  /\ (forall n a, underlays p !! n = Some a -> netip.IsValid a = true)
  /\ (forall n s, endpoints p !! n = Some s -> s <> []).

Lemma insert_all {A} (P : A -> Prop) (m : gmap gostring A) k v :
  (forall n x, m !! n = Some x -> P x) -> P v -> forall n x, <[k := v]> m !! n = Some x -> P x.
Proof. intros Hm Hv n x. destruct (decide (n = k)); intros; simplify_map_eq; eauto. Qed.

Lemma delete_all {A} (P : A -> Prop) (m : gmap gostring A) k :
  (forall n x, m !! n = Some x -> P x) -> forall n x, delete k m !! n = Some x -> P x.
Proof. intros Hm n x. destruct (decide (n = k)); intros; simplify_map_eq; eauto. Qed.

Lemma wfLearned_hello h p : wfLearned p -> wfLearned (learnHello h p).
Proof.
  intros (Hk & Hi & Hu & He). unfold learnHello.
  destruct (keys.ParseEd25519PublicBase64ish (Ed25519Public h)) as [pub|] eqn:Ep; simpl.
  - split_and!; simpl.
    + apply (insert_all (fun k => length (keys.Raw k) = _)); [done|].
      by apply keys.ParseBase64ish_length in Ep.
    + destruct (netip.IsValid (parseHelloAddr (InnerAddr h))) eqn:E; [|done].
      by apply (insert_all (fun a => netip.IsValid a = true)).
    + destruct (netip.IsValid (parseHelloAddr (UnderlayAddr h))) eqn:E; [|done].
      by apply (insert_all (fun a => netip.IsValid a = true)).
    + case_bool_decide; [done|]. by apply (insert_all (fun s => s <> [])).
  - split_and!; simpl; [done|..].
    + destruct (netip.IsValid (parseHelloAddr (InnerAddr h))) eqn:E; [|done].
      by apply (insert_all (fun a => netip.IsValid a = true)).
    + destruct (netip.IsValid (parseHelloAddr (UnderlayAddr h))) eqn:E; [|done].
      by apply (insert_all (fun a => netip.IsValid a = true)).
    + case_bool_decide; [done|]. by apply (insert_all (fun s => s <> [])).
Qed.

Lemma wfLearned_forget k n p : wfLearned p -> wfLearned (forgetNode k n p).
Proof.
  intros (Hk & Hi & Hu & He). split_and!; simpl.
  - by apply (delete_all (fun k => length (keys.Raw k) = _)).
  - by apply (delete_all (fun a => netip.IsValid a = true)).
  - by apply (delete_all (fun a => netip.IsValid a = true)).
  - by apply (delete_all (fun s => s <> [])).
Qed.

Lemma wfLearned_apply k env p : wfLearned p -> wfLearned (apply k env p).1.
Proof.
  intros Hw. unfold apply. destruct (applyKind k env p) as [p'|] eqn:E; [|done]. simpl.
  revert E. unfold applyKind. repeat case_bool_decide;
    repeat match goal with |- context [ok ?r] => destruct (ok r); simpl; [|done] end;
    repeat case_bool_decide; intros [= <-]; auto using wfLearned_hello, wfLearned_forget.
Qed.

Lemma wfLearned_wf p : wf p -> wfLearned p.
Proof. intros [? ? ? (? & ? & ?)]. by split_and!. Qed.

Lemma ownFact_core p q id e : NodeName q = NodeName p -> seen_le p q -> ownFact p id e -> ownFact q id e.
Proof.
  intros Hn Hs [Hi Ho Hg (ts & Ht & Hle)]. destruct (Hs _ _ Ht) as (ts' & Hts' & ?).
  split; try congruence. exists ts'. split; [done|lia].
Qed.

(** Applying an envelope keeps a plane well formed. *)
Lemma wf_apply k env p : wf p -> wf (apply k env p).1.
Proof.
  intros Hw. pose proof (wfLearned_apply k env p (wfLearned_wf _ Hw)) as (Hk & Hi & Hu & He).
  pose proof (apply_core k env p) as [Hn Hs Ho _ _ _]. destruct Hw as [Hg Hout _ _].
  split; [by eapply graph.wf_rtc; [apply apply_steps|]| |done|done].
  intros id e. rewrite Ho. intros He'. apply (ownFact_core p); [exact Hn| |by apply Hout].
  intros i t Ht. rewrite Hs. exists t. split; [done|lia].
Qed.

Lemma wf_setSeen p id ts : fresh p id ts -> wf p -> wf (setSeen (<[id := ts]> (seen p)) p).
Proof.
  intros Hf [Hg Hout Hk Ha]. split; [done| |done|done]. intros i e He.
  apply (ownFact_core p); [done| |by apply Hout]. intros j t Ht. simpl.
  destruct (decide (j = id)) as [->|]; simplify_map_eq; [|exists t; split; [done|lia]].
  unfold fresh in Hf. rewrite Ht in Hf. exists ts. split; [done|lia].
Qed.

Lemma wf_Receive bcast k env p : wf p -> wf (Receive bcast k env p).1.1.
Proof.
  intros Hw. destruct (verify p env) eqn:Hv; [|by rewrite Receive_reject].
  destruct (decide (fresh p (ID env) (TS env))); [|by rewrite Receive_stale].
  rewrite Receive_accept by done. by apply wf_apply, wf_setSeen.
Qed.

Lemma wf_originate bcast k now id kind body p : wf p -> wf (originate bcast k now id kind body p).1.1.
Proof.
  intros [Hg Hout Hk Ha]. rewrite originate_unfold. apply wf_apply. split; try done. simpl.
  intros i e. set (env := MkEnvelope id (NodeName p) kind now body []).
  destruct (sign_fields p env) as (E1 & E2 & _ & E4 & _ & E6).
  destruct (decide (i = id)) as [->|Hne].
  - rewrite lookup_insert_eq. intros [= <-]. split; simpl.
    + by rewrite E1.
    + by rewrite E2.
    + rewrite E6. unfold sign. destruct (edPriv p) as [priv|]; [right; by exists priv|by left].
    + exists now. rewrite lookup_insert_eq, E4. split; [done|simpl; lia].
  - rewrite lookup_insert_ne by done. intros He. destruct (Hout _ _ He) as [Hi Ho Hs (ts & Ht & ?)].
    split; try done. exists ts. simpl. by rewrite lookup_insert_ne.
Qed.

Lemma wf_planeStep p q : step p q -> wf p -> wf q.
Proof.
  intros Hst Hw. destruct Hst; [by apply wf_Receive|by apply wf_originate|..];
    destruct Hw as [Hg Hout Hk Ha]; split; try done; simpl;
    try (intros i e He; destruct (Hout i e He); by split).
  eapply graph.wf_step; eauto.
Qed.

Lemma wf_NewPlane n g : graph.wf g -> wf (NewPlane n g).
Proof. intros Hg. split; [done|..]; simpl; try (intros; simplify_map_eq). split_and!; intros; simplify_map_eq. Qed.


(** A signed envelope passes the check of a plane that knows the key. *)
Lemma verify_signed p q env priv lookup : edPriv p = Some priv -> ed_genuine (keys.privRaw priv) ->
  pubKeyFor q = Some lookup -> lookup (Origin env) = Some (keys.Public priv) ->
  verify q (sign p env) = true.
Proof.
  intros Hp Hg Hl Hk. destruct (sign_fields p env) as (_ & Ho & _ & _ & _ & Hb).
  assert (length (keys.Raw (keys.Public priv)) = keys.PublicKeySize) as Hlen by by apply keys.Public_length.
  unfold verify. rewrite Hl, Ho, Hk. simpl default.
  rewrite (bool_decide_eq_false_2 (length (keys.Raw (keys.Public priv)) = 0%nat))
    by (rewrite Hlen; discriminate).
  rewrite (bool_decide_eq_false_2 (length (keys.Raw (keys.Public priv)) = 0%nat))
    by (rewrite Hlen; discriminate).
  rewrite Hb. unfold sign. rewrite Hp. simpl. by apply keys.Verify_Sign.
Qed.

Lemma applyKind_AddEdge k env e p : Kind env = KindAddEdge -> unmarshalAddEdge (Payload env) = Ok e ->
  applyKind k env p = Some (setG (graph.AddEdge (graph.MkEdge (aeFrom e) (aeTo e) (aeWeight e)) (G p)) p).
Proof. intros Hk Hu. unfold applyKind. rewrite Hk, Hu. done. Qed.

Lemma applyKind_DelEdge k env e p : Kind env = KindDelEdge -> unmarshalDelEdge (Payload env) = Ok e ->
  applyKind k env p = Some (setG (graph.DelEdge (deFrom e) (deTo e) (G p)) p).
Proof. intros Hk Hu. unfold applyKind. rewrite Hk, Hu. done. Qed.

Lemma apply_G k env p p' : applyKind k env p = Some p' -> G (apply k env p).1 = G p'.
Proof. intros E. unfold apply. by rewrite E. Qed.
End lemmas.

Section properties.
Context `{Unicode, Ed25519, MapOrder}.

(** C1.  Every plane reachable from a new one by receiving, originating and
    configuration calls is well formed: its graph satisfies the graph
    invariant; each outbox entry is filed under its own ID, carries the
    node's name as origin, is unsigned or carries a signature over exactly
    its signed bytes, and is recorded in the dedup table with a time stamp at
    least its own; learned keys are 32 bytes long, learned addresses valid
    and learned endpoints not empty. *)
Theorem plane_invariant n g p : graph.wf g -> rtc step (NewPlane n g) p -> wf p.
Proof.
  intros Hg Hr. pose proof (wf_NewPlane n g Hg) as Hw.
  induction Hr; eauto using wf_planeStep.
Qed.

(** C14.  [Receive], branch by branch.  An envelope that fails verification
    or whose version is not newer than the one seen changes nothing and
    causes no event (the first is an error, the second is not).  Otherwise
    the version is recorded, the payload is applied, and the very envelope is
    broadcast exactly once, after the observer was called at most once. *)
Theorem Receive_branches bcast k env p :
  let '(q, evs, r) := Receive bcast k env p in
  let p1 := setSeen (<[ID env := TS env]> (seen p)) p in
  (verify p env = false -> q = p /\ evs = [] /\ r = Err (errSignature (Kind env) (Origin env)))
  /\ (verify p env = true -> ~ fresh p (ID env) (TS env) -> q = p /\ evs = [] /\ r = Ok ())
  /\ (verify p env = true -> fresh p (ID env) (TS env) ->
       q = default p1 (applyKind k env p1)
       /\ seen q = <[ID env := TS env]> (seen p) /\ outbox q = outbox p
       /\ (evs = [Broadcasts env] \/ evs = [Notifies env; Broadcasts env])
       /\ (r = Ok () <-> bcast 0%nat env = None)).
Proof.
  destruct (Receive bcast k env p) as [[q evs] r] eqn:E. intros p1. split_and!.
  - intros Hv. rewrite Receive_reject in E by done. by injection E as <- <- <-.
  - intros Hv Hf. rewrite Receive_stale in E by done. by injection E as <- <- <-.
  - intros Hv Hf. rewrite Receive_accept in E by done. fold p1 in E. injection E as <- <- <-.
    destruct (apply_core k env p1) as [_ Hs Ho _ _ _].
    split_and!; [|done|done| |by destruct (bcast _ _)].
    + unfold apply. by destruct (applyKind k env p1).
    + unfold apply. destruct (applyKind k env p1) as [p'|]; simpl; [|by left].
      destruct (listener p'); [by right|by left].
Qed.

(** C2.  Deduplication is permanent: once a verified envelope was received,
    no later sequence of received envelopes makes its plane accept that ID
    with the same or an older time stamp again, and the table of seen
    versions only grows. *)
Theorem dedup_permanent bcast k env p q :
  verify p env = true ->
  rtc (fun a b => exists bcast k e, b = (Receive bcast k e a).1.1) (Receive bcast k env p).1.1 q ->
  seen_le p q
  /\ forall bcast' k' e, ID e = ID env -> TS e <= TS env ->
       (Receive bcast' k' e q).1 = (q, []).
Proof.
  intros Hv Hr.
  assert (seen_le (Receive bcast k env p).1.1 q) as Hle.
  { induction Hr as [|a b c (b' & k' & e & ->) _ IH]; [done|].
    etransitivity; [apply Receive_monotone|exact IH]. }
  split; [etransitivity; [apply Receive_monotone|exact Hle]|].
  intros b' k' e Hi Ht.
  assert (~ fresh q (ID e) (TS e)) as Hn.
  { pose proof (fresh_antitone _ _ _ _ Hle (Receive_claims bcast k env p Hv)) as Hn.
    unfold fresh in *. rewrite Hi. destruct (seen q !! ID env); [lia|done]. }
  destruct (verify q e) eqn:Hq; [by rewrite Receive_stale|by rewrite Receive_reject].
Qed.

(** An announced edge arrives.  When a node with a genuine signing key
    announces an edge, the envelope it broadcasts survives the wire, and a
    receiver whose verifier knows the node's public key and has not seen a
    same or newer version accepts it: its graph then holds exactly that edge,
    in both directions, and it passes the envelope on unchanged. *)
Theorem announced_edge_arrives bcast k now p q to w priv lookup :
  edPriv p = Some priv -> ed_genuine (keys.privRaw priv) ->
  utf8Fields [NodeName p; to] ->
  NodeName p <> [] -> is_int64 now -> is_int64 w ->
  wf q -> pubKeyFor q = Some lookup -> lookup (NodeName p) = Some (keys.Public priv) ->
  fresh q (NodeName p ++ !"/edge/" ++ to) now ->
  exists env b,
    last (AnnounceAddEdge bcast k now p to w).1.2 = Some (Broadcasts env)
    /\ Encode env = Some b /\ Decode b = Ok env
    /\ let '(q', evs, _) := Receive bcast k env q in
       graph.edgeAt (G q') (NodeName p) to = Some (graph.MkEdge (NodeName p) to w)
       /\ is_Some (graph.edgeAt (G q') to (NodeName p))
       /\ last evs = Some (Broadcasts env).
Proof.
  intros Hp Hg Hu Hne Hnow Hw Hq Hl Hk Hf.
  set (id := NodeName p ++ !"/edge/" ++ to) in *. set (a := MkAddEdge (NodeName p) to w).
  set (env0 := MkEnvelope id (NodeName p) KindAddEdge now (marshalAddEdge a) []).
  assert (carried a) as Ha by (split; [exact Hu|exact Hw]).
  assert (utf8Fields [id; NodeName p; KindAddEdge]) as Hu'.
  { unfold utf8Fields in *. rewrite !Forall_cons in *. destruct Hu as (Hn & Ht & _).
    split_and!; [|done|done|done]. by apply validUTF8_app, validUTF8_app. }
  destruct (wire_transparent id (NodeName p) KindAddEdge now a (keys.Sign priv (SigningBytes env0)))
    as (b & He & Hd & _ & Hup); [done|done|done|done|done|].
  exists (sign p env0), b. unfold sign at 2 3. rewrite Hp. split_and!; [|exact He|exact Hd|].
  - unfold AnnounceAddEdge. rewrite originate_unfold. fold id a. fold env0. cbn [fst snd].
    apply last_snoc.
  - rewrite Receive_accept; last first.
    { destruct (sign_fields p env0) as (-> & _ & _ & -> & _). exact Hf. }
    { by eapply verify_signed. }
    destruct (sign_fields p env0) as (Ei & Eo & Ek & Et & Ep & _).
    set (q1 := setSeen _ q).
    assert (applyKind k (sign p env0) q1 = Some (setG (graph.AddEdge (graph.MkEdge (NodeName p) to w) (G q1)) q1)) as Ea.
    { apply (applyKind_AddEdge _ _ a); [by rewrite Ek|]. rewrite Ep. exact Hup. }
    rewrite (apply_G _ _ _ _ Ea). simpl G. pose proof (wf_graph _ Hq) as Hwg.
    rewrite !graph.edgeAt_AddEdge by done. split_and!; [| |apply last_snoc].
    + case_decide as Hd'; [|by rewrite decide_True by done].
      simpl in Hd'. destruct Hd' as [-> _]. done.
    + rewrite decide_True by done. eauto.
Qed.
End properties.

(** ** Concrete planes *)

Module demo.
Import toy.

Definition priv : keys.Ed25519Private := demoPriv.
Definition noErr (n : nat) (e : Envelope) : option nat := None.

(** Node "a" signs; node "b" knows the key of "a". *)
Definition planeA : Plane := SetSigner priv (NewPlane !"a" graph.New).
Definition lookupA (n : gostring) : option keys.Ed25519Public :=
  if bool_decide (n = !"a") then Some (keys.Public priv) else None.
Definition planeB : Plane := SetVerifier lookupA (NewPlane !"b" graph.New).

Definition addAB (ts : Z) : Envelope :=
  sign planeA (MkEnvelope !"a/edge/b" !"a" KindAddEdge ts
    (marshalAddEdge (MkAddEdge !"a" !"b" 1)) []).
Definition delAB (ts : Z) : Envelope :=
  sign planeA (MkEnvelope !"a/edge/b" !"a" KindDelEdge ts (marshalDelEdge (MkDelEdge !"a" !"b")) []).

Example receive_add : graph.HasEdge !"b" !"a" (G (Receive noErr 0 (addAB 5) planeB).1.1) = true.
Proof. by vm_compute. Qed.

Lemma wf_planeB : wf planeB.
Proof.
  eapply wf_planeStep; [apply step_verifier|]. apply wf_NewPlane, graph.wf_New.
Qed.
End demo.

Import demo toy.

Lemma plane_invariant_witness :
  wf (Receive noErr 0 (addAB 5) planeB).1.1.
Proof.
  apply (plane_invariant !"b" graph.New).
  - exact graph.wf_New.
  - eapply rtc_l; [apply (step_verifier (NewPlane !"b" graph.New) lookupA)|].
    apply rtc_once. apply step_receive.
Defined.

Lemma Receive_branches_witness :
  let '(q, evs, r) := Receive noErr 0 (addAB 5) planeB in
  seen q = <[!"a/edge/b" := 5]> (seen planeB) /\ r = Ok ().
Proof.
  pose proof (Receive_branches noErr 0 (addAB 5) planeB) as Hb.
  destruct (Receive noErr 0 (addAB 5) planeB) as [[q evs] r]. destruct Hb as (_ & _ & Hacc).
  destruct Hacc as (_ & Hs & _ & _ & Hr); [vm_compute; reflexivity|vm_compute; exact I|].
  split; [exact Hs|by apply Hr].
Defined.

Lemma dedup_permanent_witness :
  let q := (Receive noErr 0 (delAB 7) (Receive noErr 0 (addAB 5) planeB).1.1).1.1 in
  (Receive noErr 0 (addAB 4) q).1 = (q, []).
Proof.
  intros q. apply (dedup_permanent noErr 0 (addAB 5) planeB q).
  - vm_compute. reflexivity.
  - apply rtc_once. exists noErr, 0%nat, (delAB 7). reflexivity.
  - reflexivity.
  - vm_compute. discriminate.
Defined.

Lemma announced_edge_arrives_witness :
  exists env b, last (AnnounceAddEdge noErr 0 5 planeA !"b" 1).1.2 = Some (Broadcasts env)
    /\ Encode env = Some b /\ Decode b = Ok env.
Proof.
  destruct (announced_edge_arrives noErr 0 5 planeA planeB !"b" 1 priv lookupA)
    as (env & b & H1 & H2 & H3 & _).
  - reflexivity.
  - vm_compute. reflexivity.
  - apply (bool_decide_unpack _). vm_compute. exact I.
  - discriminate.
  - apply (bool_decide_unpack _). vm_compute. exact I.
  - apply (bool_decide_unpack _). vm_compute. exact I.
  - exact wf_planeB.
  - reflexivity.
  - vm_compute. reflexivity.
  - exact I.
  - exists env, b. split; [exact H1|]. split; [exact H2|exact H3].
Defined.


(** The key a Hello carries is stored under the name in its payload, not
    under the origin whose signature was checked: a node that "b" trusts can
    install its own key for a name "b" has no host file for, and from then on
    sign as that name. *)
Theorem hello_key_for_other_name :
  exists hello forged,
    Origin hello = !"a" /\ Origin forged = !"v" /\ lookupA !"v" = None
    /\ verify planeB forged = false
    /\ verify (Receive noErr 0 hello planeB).1.1 forged = true.
Proof.
  exists (sign planeA (MkEnvelope !"a/hello" !"a" KindAddNode 5
            (marshalHello (MkHello !"v" (keys.Raw (keys.Public priv)) !"k" [] [] [])) [])),
         (sign planeA (MkEnvelope !"v/edge/w" !"v" KindAddEdge 6
            (marshalAddEdge (MkAddEdge !"v" !"w" 1)) [])).
  repeat split; vm_compute; reflexivity.
Qed.

(** [originate] records its own time stamp without comparing it with the one
    seen: after the clock was set back, a version that was already dropped
    as stale is accepted a second time. *)
Theorem clock_set_back_reopens :
  exists p env, (Receive noErr 0 env p).1.2 = []
    /\ (Receive noErr 0 env (AnnounceAddEdge noErr 0 3 p !"b" 1).1.1).1.2 <> [].
Proof.
  exists (Receive noErr 0 (addAB 5) planeA).1.1, (addAB 5). split; vm_compute; [reflexivity|discriminate].
Qed.

End gossip.
