(* ===== verification/GossipConcurrent.v ===== *)
(** * Concurrent calls of Receive (internal/gossip/plane.go)

    Each peer connection delivers envelopes from its own goroutine, so calls
    of [Plane.Receive] interleave.  A call is a thread that goes through the
    phases of [Receive]: read the key and verify, claim under the lock, apply,
    broadcast.  One step of the relation lets one thread perform one phase;
    the plane, and in particular its dedup table, is shared. *)

From Stdlib Require Import Ascii String ZArith Lia.
From stdpp Require Import base tactics list gmap strings.
From S2P Require Import Prelude.
From S2P Require Import Graph.
From S2P Require Import GoStrings.
From S2P Require Import Keys.
From S2P Require Import Message.
From S2P Require Import Gossip.

Local Open Scope Z_scope.
Import message gossip.

Module concurrent.

Inductive phase := Verifying | Claiming | Applying | Broadcasting | Dropped | Rejected | Finished.

#[global] Instance phase_eq_dec : EqDecision phase.
Proof. solve_decision. Defined.

Definition thread : Type := Envelope * phase.

(** [applied] and [sent] record the envelopes applied and broadcast so far. *)
Record State := MkState {
  plane : Plane;
  threads : list thread;
  applied : list Envelope;
  sent : list Envelope
}.

Definition init (p : Plane) : State := MkState p [] [] [].

Section steps.
Context `{Unicode, Ed25519, MapOrder}.

(** The phase that follows, and the effect on the shared state. *)
Definition perform (k : nat) (env : Envelope) (ph : phase) (s : State) : option (phase * State) :=
  match ph with
  | Verifying => Some (if verify (plane s) env then Claiming else Rejected, s)
  | Claiming =>
      let '(p, won) := claim (ID env) (TS env) (plane s) in
      Some (if won then Applying else Dropped, MkState p (threads s) (applied s) (sent s))
  | Applying =>
      Some (Broadcasting, MkState (apply k env (plane s)).1 (threads s) (env :: applied s) (sent s))
  | Broadcasting => Some (Finished, MkState (plane s) (threads s) (applied s) (env :: sent s))
  | Dropped | Rejected | Finished => None
  end.

Definition setThread (i : nat) (t : thread) (s : State) : State :=
  MkState (plane s) (<[i := t]> (threads s)) (applied s) (sent s).

Inductive step (s : State) : State -> Prop :=
| step_spawn env :
    step s (MkState (plane s) (threads s ++ [(env, Verifying)]) (applied s) (sent s))
| step_thread k i env ph ph' s' :
    threads s !! i = Some (env, ph) -> perform k env ph s = Some (ph', s') ->
    step s (setThread i (env, ph') s').

Definition reachable (p : Plane) (s : State) : Prop := rtc step (init p) s.

(** No call is under way. *)
Definition quiescent (s : State) : Prop :=
  Forall (fun t => t.2 ∈ [Dropped; Rejected; Finished]) (threads s).

#[global] Instance quiescent_dec s : Decision (quiescent s).
Proof. unfold quiescent. apply _. Defined.

Definition key (e : Envelope) : gostring * Z := (ID e, TS e).

(** The envelopes of the threads in phase [ph]. *)
Definition inPhase (ph : phase) (ts : list thread) : list Envelope :=
  (filter (fun t : thread => t.2 = ph) ts).*1.

(** Everything that won its claim: applied already, or about to be. *)
Definition won (s : State) : list Envelope := applied s ++ inPhase Applying (threads s).

(** ** Threads *)

Lemma inPhase_app ph ts us : inPhase ph (ts ++ us) = inPhase ph ts ++ inPhase ph us.
Proof. unfold inPhase. by rewrite filter_app, fmap_app. Qed.

(** Moving thread [i] to another phase takes its envelope out of the old
    phase and puts it into the new one. *)
Lemma inPhase_insert ph ts i env old new : ts !! i = Some (env, old) ->
  inPhase ph (<[i := (env, new)]> ts)
    ++ (if decide (ph = old) then [env] else [])
  ≡ₚ inPhase ph ts ++ (if decide (ph = new) then [env] else []).
Proof.
  intros (l1 & l2 & -> & ->)%list_elem_of_split_length.
  rewrite insert_app_r_alt, Nat.sub_diag by done. cbn [insert list_insert].
  rewrite !inPhase_app. unfold inPhase at 2 4. rewrite !filter_cons. cbn [snd].
  repeat case_decide; subst; try congruence; rewrite ?fmap_cons; cbn [fst];
    solve_Permutation.
Qed.

Lemma phase_same ph ts i env old new : ts !! i = Some (env, old) -> ph <> old -> ph <> new ->
  inPhase ph (<[i := (env, new)]> ts) ≡ₚ inPhase ph ts.
Proof.
  intros Hi Hn1 Hn2. pose proof (inPhase_insert ph ts i env old new Hi) as Hp.
  rewrite !decide_False, !app_nil_r in Hp by done. done.
Qed.

Lemma phase_in ts i env old new : ts !! i = Some (env, old) -> new <> old ->
  inPhase new (<[i := (env, new)]> ts) ≡ₚ env :: inPhase new ts.
Proof.
  intros Hi Hn. pose proof (inPhase_insert new ts i env old new Hi) as Hp.
  rewrite decide_False, decide_True, app_nil_r in Hp by done. rewrite Hp. solve_Permutation.
Qed.

Lemma phase_out ts i env old new : ts !! i = Some (env, old) -> old <> new ->
  env :: inPhase old (<[i := (env, new)]> ts) ≡ₚ inPhase old ts.
Proof.
  intros Hi Hn. pose proof (inPhase_insert old ts i env old new Hi) as Hp.
  rewrite decide_True, decide_False, app_nil_r in Hp by done. rewrite <- Hp. solve_Permutation.
Qed.

(** ** The invariant *)

Definition recorded (p : Plane) (e : Envelope) : Prop :=
  exists t, seen p !! ID e = Some t /\ TS e <= t.

(** The phases after a claim was decided. *)
Definition decided (ph : phase) : Prop := ph ∈ [Applying; Broadcasting; Dropped; Finished].

Record inv (s : State) : Prop := {
  inv_nodup : NoDup (key <$> won s);
  inv_won : forall e, e ∈ won s -> recorded (plane s) e;
  inv_seen : forall id t, seen (plane s) !! id = Some t -> (id, t) ∈ key <$> won s;
  inv_sent : applied s ≡ₚ sent s ++ inPhase Broadcasting (threads s);
  inv_decided : forall e ph, (e, ph) ∈ threads s -> decided ph -> recorded (plane s) e
}.

Lemma inv_init p : seen p = ∅ -> inv (init p).
Proof.
  intros Hs. split; simpl; try set_solver.
  - constructor.
  - intros id t. rewrite Hs. by rewrite lookup_empty.
Qed.

(** A change that leaves [won] and the dedup table as they were. *)
Lemma inv_transfer s s' : inv s -> won s' ≡ₚ won s -> seen (plane s') = seen (plane s) ->
  applied s' ≡ₚ sent s' ++ inPhase Broadcasting (threads s') ->
  (forall e ph, (e, ph) ∈ threads s' -> decided ph -> recorded (plane s) e) -> inv s'.
Proof.
  intros [Hn Hw Hs _ _] Ew Es Ha Hd. split; [| | |done|].
  - by rewrite Ew.
  - intros e. rewrite Ew. unfold recorded. rewrite Es. apply Hw.
  - intros id t. rewrite Es, Ew. apply Hs.
  - unfold recorded. rewrite Es. apply Hd.
Qed.

Lemma elem_of_insert_thread (ts : list thread) i t t' x :
  ts !! i = Some t -> x ∈ <[i := t']> ts -> x = t' \/ x ∈ ts.
Proof.
  intros Hi (j & Hj)%list_elem_of_lookup_1. destruct (decide (j = i)) as [->|].
  - rewrite list_lookup_insert_eq in Hj by by eapply lookup_lt_Some. left. congruence.
  - rewrite list_lookup_insert_ne in Hj by done. right. by eapply list_elem_of_lookup_2.
Qed.

Lemma recorded_claim p id ts e : fresh p id ts -> recorded p e ->
  recorded (setSeen (<[id := ts]> (seen p)) p) e.
Proof.
  intros Hf (t & Ht & Hle). unfold recorded. simpl. destruct (decide (ID e = id)) as [<-|Hne].
  - rewrite lookup_insert_eq. unfold fresh in Hf. rewrite Ht in Hf. exists ts. split; [done|lia].
  - rewrite lookup_insert_ne by done. eauto.
Qed.

(** A thread wins its claim. *)
Lemma inv_claim s i env : inv s -> threads s !! i = Some (env, Claiming) ->
  fresh (plane s) (ID env) (TS env) ->
  inv (setThread i (env, Applying)
        (MkState (setSeen (<[ID env := TS env]> (seen (plane s))) (plane s))
           (threads s) (applied s) (sent s))).
Proof.
  intros Hinv Hi Hf. pose proof Hinv as [Hn Hw Hs Ha Hd].
  assert (won (setThread i (env, Applying) (MkState (setSeen (<[ID env := TS env]> (seen (plane s))) (plane s))
           (threads s) (applied s) (sent s))) ≡ₚ env :: won s) as Ew.
  { unfold won. simpl. rewrite (phase_in _ _ _ _ _ Hi) by done. solve_Permutation. }
  assert (recorded (setSeen (<[ID env := TS env]> (seen (plane s))) (plane s)) env) as Hr.
  { exists (TS env). simpl. rewrite lookup_insert_eq. split; [done|lia]. }
  split.
  - rewrite Ew. simpl. constructor; [|done]. intros (e & Ek & He)%list_elem_of_fmap.
    destruct (Hw e He) as (t & Ht & Hle). injection Ek as Ei Et.
    unfold fresh in Hf. rewrite Ei, Ht in Hf. lia.
  - intros e. rewrite Ew. intros [->|He]%elem_of_cons; [done|]. by apply recorded_claim, Hw.
  - intros id t. rewrite Ew. simpl. destruct (decide (id = ID env)) as [->|].
    + rewrite lookup_insert_eq. intros [= <-]. left.
    + rewrite lookup_insert_ne by done. intros Ht. right. by apply Hs.
  - simpl. rewrite phase_same by done. done.
  - intros e ph [[= -> ->]|He]%(elem_of_insert_thread _ _ _ _ _ Hi) Hdec; [done|].
    by eapply recorded_claim, Hd.
Qed.

Lemma inv_step s s' : step s s' -> inv s -> inv s'.
Proof.
  intros [env|k i env ph ph' s1 Hi Hp] Hinv; pose proof Hinv as [Hn Hw Hs Ha Hd].
  { apply (inv_transfer s); try done; unfold won; simpl.
    - by rewrite inPhase_app, app_nil_r.
    - rewrite inPhase_app. cbn. by rewrite app_nil_r.
    - intros e ph [He|[= -> ->]%list_elem_of_singleton]%elem_of_app Hdec; [by eapply Hd|].
      unfold decided in Hdec. set_solver. }
  assert (forall ph'' s2 e ph0, threads s2 = threads s -> (e, ph0) ∈ threads (setThread i (env, ph'') s2) ->
            decided ph0 -> (decided ph'' -> recorded (plane s) env) -> recorded (plane s) e) as Hdec.
  { intros ph'' s2 e ph0 E2. simpl. rewrite E2.
    intros [[= -> ->]|He]%(elem_of_insert_thread _ _ _ _ _ Hi) Hph Hr; [by auto|by eapply Hd]. }
  destruct ph; simpl in Hp; try done.
  - injection Hp as <- <-. apply (inv_transfer s); try done.
    + unfold won. simpl. by rewrite phase_same by (done || by destruct (verify _ _)).
    + simpl. by rewrite phase_same by (done || by destruct (verify _ _)).
    + intros e ph He Hph. eapply Hdec; [done|exact He|done|].
      unfold decided. destruct (verify _ _); set_solver.
  - destruct (decide (fresh (plane s) (ID env) (TS env))) as [Hf|Hf].
    + rewrite claim_fresh in Hp by done. injection Hp as <- <-. by apply inv_claim.
    + rewrite claim_stale in Hp by done. injection Hp as <- <-. apply (inv_transfer s); try done.
      * unfold won. simpl. by rewrite phase_same.
      * simpl. by rewrite phase_same.
      * intros e ph He Hph. eapply (Hdec _ _ e ph); [|exact He|done|]; [done|]. intros _.
        unfold fresh, recorded in *. destruct (seen (plane s) !! ID env) as [t|]; [|done].
        exists t. split; [done|lia].
  - injection Hp as <- <-. apply (inv_transfer s); try done.
    + unfold won. simpl. rewrite <- (phase_out _ _ _ _ Broadcasting Hi) by done. solve_Permutation.
    + simpl. apply (core_seen _ _ (apply_core k env (plane s))).
    + simpl. rewrite (phase_in _ _ _ _ _ Hi), Ha by done. solve_Permutation.
    + intros e ph He Hph. eapply (Hdec _ _ e ph); [|exact He|done|]; [done|]. intros _.
      apply Hd with Applying; [by eapply list_elem_of_lookup_2|]. unfold decided. set_solver.
  - injection Hp as <- <-. apply (inv_transfer s); try done.
    + unfold won. simpl. by rewrite phase_same.
    + simpl. rewrite Ha, <- (phase_out _ _ _ _ Finished Hi) by done. solve_Permutation.
    + intros e ph He Hph. eapply (Hdec _ _ e ph); [|exact He|done|]; [done|]. intros _.
      apply Hd with Broadcasting; [by eapply list_elem_of_lookup_2|]. unfold decided. set_solver.
Qed.

Lemma inv_reachable p s : seen p = ∅ -> reachable p s -> inv s.
Proof.
  intros Hs Hr. pose proof (inv_init p Hs) as Hi. unfold reachable in Hr.
  induction Hr; eauto using inv_step.
Qed.

(** ** Schedules

    An executable scheduler: start a call, or let a thread perform a phase. *)
Inductive action := Spawn (env : Envelope) | Run (i : nat).

Definition exec (a : action) (s : State) : State :=
  match a with
  | Spawn env => MkState (plane s) (threads s ++ [(env, Verifying)]) (applied s) (sent s)
  | Run i =>
      match threads s !! i with
      | Some (env, ph) =>
          match perform 0 env ph s with
          | Some (ph', s') => setThread i (env, ph') s'
          | None => s
          end
      | None => s
      end
  end.

Lemma exec_steps a s : rtc step s (exec a s).
Proof.
  destruct a as [env|i]; [apply rtc_once; constructor|]. simpl.
  destruct (threads s !! i) as [[env ph]|] eqn:E; [|done].
  destruct (perform 0 env ph s) as [[ph' s']|] eqn:Ep; [|done].
  apply rtc_once. by econstructor.
Qed.

Definition schedule (l : list action) (s : State) : State := foldl (fun s a => exec a s) s l.

Lemma schedule_reachable l p : reachable p (schedule l (init p)).
Proof.
  unfold reachable, schedule. generalize (init p). induction l as [|a l IH]; intros s; simpl; [done|].
  etransitivity; [apply exec_steps|apply IH].
Qed.

(** C3.  However calls of [Receive] interleave, no version of a fact (ID
    and time stamp) is applied or broadcast twice.  Once no call is under
    way, everything applied was broadcast, and for every call that was not
    rejected by verification the plane has applied that fact at the version
    recorded in its dedup table, which is at least the version received. *)
Theorem receive_exactly_once p s : seen p = ∅ -> reachable p s ->
  NoDup (key <$> applied s) /\ NoDup (key <$> sent s)
  /\ (quiescent s ->
       sent s ≡ₚ applied s
       /\ forall e ph, (e, ph) ∈ threads s -> ph <> Rejected ->
            exists e', e' ∈ applied s /\ ID e' = ID e /\ TS e <= TS e'
              /\ seen (plane s) !! ID e = Some (TS e')).
Proof.
  intros Hs Hr. destruct (inv_reachable p s Hs Hr) as [Hn Hw Hse Ha Hd].
  assert (NoDup (key <$> applied s)) as Hna.
  { unfold won in Hn. rewrite fmap_app, NoDup_app in Hn. apply Hn. }
  split_and!; [done| |].
  { rewrite Ha, fmap_app, NoDup_app in Hna. apply Hna. }
  intros Hq. unfold quiescent in Hq. rewrite Forall_forall in Hq.
  assert (forall ph, ph ∉ [Dropped; Rejected; Finished] -> inPhase ph (threads s) = []) as Hnone.
  { intros ph Hph. unfold inPhase. destruct (filter _ (threads s)) as [|t l] eqn:E; [done|].
    assert (t ∈ filter (fun t : thread => t.2 = ph) (threads s)) as Hin by (rewrite E; left).
    apply list_elem_of_filter in Hin as [<- Hin]. by apply Hq in Hin. }
  split; [by rewrite Ha, Hnone, app_nil_r by set_solver|].
  intros e ph He Hph. pose proof (Hq _ He) as Hfin. simpl in Hfin.
  destruct (Hd e ph He) as (t & Ht & Hle); [unfold decided; set_solver|].
  pose proof (Hse _ _ Ht) as Hin. unfold won in Hin. rewrite (Hnone Applying), app_nil_r in Hin by set_solver.
  apply list_elem_of_fmap in Hin as (e' & Ek & He'). injection Ek as Ei Et.
  exists e'. by rewrite <- Ei, <- Et.
Qed.
End steps.

Import gossip.demo toy.

(** Two calls for the same fact: an edge added at time 5, deleted at time 7. *)
Definition inOrder : list action :=
  [Spawn (addAB 5); Run 0; Run 0; Run 0; Run 0; Spawn (delAB 7); Run 1; Run 1; Run 1; Run 1].

Lemma receive_exactly_once_witness :
  let s := schedule inOrder (init planeB) in
  NoDup (key <$> applied s) /\ sent s ≡ₚ applied s
  /\ graph.HasEdge !"a" !"b" (G (plane s)) = false.
Proof.
  intros s. destruct (receive_exactly_once planeB s) as (H1 & _ & H3).
  - reflexivity.
  - apply schedule_reachable.
  - destruct H3 as [H3 _]; [apply (bool_decide_unpack _); vm_compute; exact I|].
    split; [exact H1|]. split; [exact H3|]. vm_compute. reflexivity.
Defined.

(** The first call is overtaken between its claim and its apply. *)
Definition overtaken : list action :=
  [Spawn (addAB 5); Run 0; Run 0; Spawn (delAB 7); Run 1; Run 1; Run 1; Run 1; Run 0; Run 0].

(** Claims are ordered, applications are not: when the call that won the
    claim for the older version is overtaken between its claim and its
    apply, the older version is applied last.  Here both calls have
    completed and the dedup table holds the deletion, yet the deleted edge is
    in the graph, and no further copy of either envelope will be accepted. *)
Theorem stale_version_applied_last :
  exists s, reachable planeB s /\ quiescent s
    /\ seen (plane s) !! !"a/edge/b" = Some 7
    /\ Kind <$> applied s = [KindAddEdge; KindDelEdge]
    /\ graph.HasEdge !"a" !"b" (G (plane s)) = true
    /\ (Receive noErr 0 (delAB 7) (plane s)).1.2 = [].
Proof.
  exists (schedule overtaken (init planeB)). split; [apply schedule_reachable|].
  split; [apply (bool_decide_unpack _); vm_compute; exact I|].
  repeat split; vm_compute; reflexivity.
Qed.

End concurrent.
