(* ===== verification/GossipNet.v ===== *)
(** * A network of gossip planes

    Planes connected by the TCP transport (internal/transport/transport.go,
    [Server.Broadcast]): a broadcast writes the envelope to every connection,
    the connection it came from included.  The connections are a fixed
    relation between nodes; envelopes in flight may be delivered in any
    order.  Flooding a fact terminates, and when nothing is in flight any
    more every node connected to the origin has the fact. *)

From Stdlib Require Import Ascii String ZArith Lia.
From stdpp Require Import base tactics list gmap strings.
From S2P Require Import Prelude.
From S2P Require Import Graph.
From S2P Require Import GoStrings.
From S2P Require Import Keys.
From S2P Require Import Message.
From S2P Require Import Gossip.

Import message gossip.

Module net.

(** Nodes are numbered; [wire] holds the envelopes in flight with their
    destination. *)
Record Net := MkNet { planes : list Plane; wire : list (nat * Envelope) }.

Definition noErr (n : nat) (e : Envelope) : option nat := None.

(** The envelopes among the events of a call. *)
Definition broadcasts (evs : list event) : list Envelope :=
  omap (fun ev => match ev with Broadcasts e => Some e | Notifies _ => None end) evs.

Section network.
Context `{Unicode, Ed25519, MapOrder}.
Context (peers : nat -> list nat).

(** [Server.Broadcast] of node [i]. *)
Definition fanout (i : nat) (envs : list Envelope) : list (nat * Envelope) :=
  e ← envs; (fun m => (m, e)) <$> peers i.

(** Delivery of one envelope that is in flight. *)
Inductive deliver (s : Net) : Net -> Prop :=
| deliver_one w1 w2 i env p k :
    wire s = w1 ++ (i, env) :: w2 -> planes s !! i = Some p ->
    deliver s (MkNet (<[i := (Receive noErr k env p).1.1]> (planes s))
                 (w1 ++ w2 ++ fanout i (broadcasts (Receive noErr k env p).1.2))).

(** Node [i] originates a fact. *)
Definition launch (i k : nat) (now : Z) (id kind : gostring) (body : bytes) (s : Net) : option Net :=
  p ← planes s !! i;
  let '(p', evs, _) := originate noErr k now id kind body p in
  Some (MkNet (<[i := p']> (planes s)) (wire s ++ fanout i (broadcasts evs))).

(** ** Freshness of a version at a node *)

Definition has (id : gostring) (ts : Z) (p : Plane) : Prop := ~ fresh p id ts.

Lemma has_spec id ts p : has id ts p <-> exists t, seen p !! id = Some t /\ (ts <= t)%Z.
Proof.
  unfold has, fresh. destruct (seen p !! id) as [t|] eqn:E; [|naive_solver].
  split; [intros; exists t; split; [done|lia]|intros (t' & [= <-] & ?); lia].
Qed.

Lemma has_Receive id ts k env p : has id ts p -> has id ts (Receive noErr k env p).1.1.
Proof. apply fresh_antitone, Receive_monotone. Qed.

(** A plane whose verifier knows the origin's key decides on that key alone. *)
Definition trusts (e : Envelope) (p : Plane) : Prop :=
  exists f pub, pubKeyFor p = Some f /\ f (Origin e) = Some pub
    /\ length (keys.Raw pub) <> 0 /\ keys.Verify pub (SigningBytes e) (Signature e) = true.

Lemma trusts_verify e p : trusts e p -> verify p e = true.
Proof.
  intros (f & pub & Hf & Hp & Hl & Hv). unfold verify. rewrite Hf, Hp. simpl default.
  rewrite (bool_decide_eq_false_2 (length (keys.Raw pub) = 0)) by done.
  by rewrite (bool_decide_eq_false_2 (length (keys.Raw pub) = 0)).
Qed.

Lemma Receive_lookup k env p : pubKeyFor (Receive noErr k env p).1.1 = pubKeyFor p.
Proof.
  destruct (verify p env) eqn:Hv; [|by rewrite Receive_reject].
  destruct (decide (fresh p (ID env) (TS env))); [|by rewrite Receive_stale].
  rewrite Receive_accept by done. simpl. by rewrite (core_lookup _ _ (apply_core _ _ _)).
Qed.

Lemma trusts_Receive e k env p : trusts e p -> trusts e (Receive noErr k env p).1.1.
Proof. unfold trusts. by rewrite Receive_lookup. Qed.

(** [Receive] broadcasts the envelope it was given, or nothing. *)
Lemma broadcasts_apply k env p : broadcasts (apply k env p).2 = [].
Proof.
  unfold apply. destruct (applyKind k env p) as [p'|]; [|done]. simpl. by destruct (listener p').
Qed.

Lemma broadcasts_app a b : broadcasts (a ++ b) = broadcasts a ++ broadcasts b.
Proof. apply omap_app. Qed.

Lemma broadcasts_Receive k env p :
  broadcasts (Receive noErr k env p).1.2 =
    if verify p env && bool_decide (fresh p (ID env) (TS env)) then [env] else [].
Proof.
  destruct (verify p env) eqn:Hv; simpl; [|by rewrite Receive_reject].
  case_bool_decide; [|by rewrite Receive_stale].
  rewrite Receive_accept by done. simpl. by rewrite broadcasts_app, broadcasts_apply.
Qed.

(** ** Convergence *)

Section fact.
Context (id : gostring) (ts : Z).

(** A message in flight that would bring the fact to node [m]. *)
Definition coming (m : nat) (w : list (nat * Envelope)) : Prop :=
  exists e, (m, e) ∈ w /\ ID e = id /\ (ts <= TS e)%Z.

Record inv (s : Net) : Prop := {
  inv_trust : forall m e p, (m, e) ∈ wire s -> ID e = id -> p ∈ planes s -> trusts e p;
  inv_next : forall i p, planes s !! i = Some p -> has id ts p ->
    forall m, m ∈ peers i -> (exists q, planes s !! m = Some q /\ has id ts q) \/ coming m (wire s)
}.

Lemma elem_of_fanout m e i envs : (m, e) ∈ fanout i envs <-> e ∈ envs /\ m ∈ peers i.
Proof.
  unfold fanout. rewrite list_elem_of_bind. setoid_rewrite list_elem_of_fmap. naive_solver.
Qed.

Lemma coming_deliver m w1 w2 i env l :
  coming m (w1 ++ (i, env) :: w2) ->
  coming m (w1 ++ w2 ++ l) \/ (m = i /\ ID env = id /\ (ts <= TS env)%Z).
Proof.
  intros (e & He & Hi & Ht). rewrite elem_of_app, elem_of_cons in He.
  destruct He as [He|[[= -> ->]|He]]; [left|right; done|left];
    exists e; rewrite !elem_of_app; auto.
Qed.

(** After delivery of a trusted message about the fact, its node has it. *)
Lemma has_delivered k env p : ID env = id -> (ts <= TS env)%Z -> trusts env p ->
  has id ts (Receive noErr k env p).1.1.
Proof.
  intros <- Ht Htr. pose proof (Receive_claims noErr k env p (trusts_verify _ _ Htr)) as Hc.
  apply has_spec. apply has_spec in Hc as (t & Hs & ?). exists t. split; [done|lia].
Qed.

Lemma lookup_insert_plane (l : list Plane) i x y j : l !! i = Some x ->
  <[i := y]> l !! j = if decide (j = i) then Some y else l !! j.
Proof.
  intros Hi. case_decide; subst; [|by rewrite list_lookup_insert_ne].
  apply list_lookup_insert_eq. by eapply lookup_lt_Some.
Qed.

(** A node that has just learned the fact was brought it by the message it
    accepted. *)
Lemma just_learned k env p : ~ has id ts p -> has id ts (Receive noErr k env p).1.1 ->
  verify p env = true /\ fresh p (ID env) (TS env) /\ ID env = id /\ (ts <= TS env)%Z.
Proof.
  intros Hnot. rewrite has_spec. intros (t & Hs & Ht).
  assert (seen p !! id = Some t -> False) as Hold by (intros E; apply Hnot, has_spec; eauto).
  rewrite Receive_seen in Hs. destruct (verify p env) eqn:Hv; simpl in Hs; [|by destruct Hold].
  case_bool_decide as Hf; [|by destruct Hold].
  destruct (decide (id = ID env)) as [->|Hn].
  - rewrite lookup_insert_eq in Hs. by injection Hs as <-.
  - rewrite lookup_insert_ne in Hs by done. by destruct Hold.
Qed.

Lemma trust_deliver s s' : deliver s s' -> inv s ->
  forall m e p, (m, e) ∈ wire s' -> ID e = id -> p ∈ planes s' -> trusts e p.
Proof.
  intros [w1 w2 i env p k Hw Hp] [Htr _] m e x He Hid Hx. simpl in *.
  assert (forall z, z ∈ planes s -> trusts e z) as Hall.
  { rewrite app_assoc in He. apply elem_of_app in He as [He|He].
    - intros z Hz. apply (Htr m); [|done|done]. rewrite Hw. set_solver.
    - apply elem_of_fanout in He as [He _]. rewrite broadcasts_Receive in He.
      destruct (_ && _); [|set_solver]. apply list_elem_of_singleton in He as ->.
      intros z Hz. apply (Htr i); [|done|done]. rewrite Hw. set_solver. }
  apply list_elem_of_lookup_1 in Hx as (j & Hj). rewrite (lookup_insert_plane _ _ p) in Hj by done.
  case_decide; simplify_eq; [apply trusts_Receive|]; apply Hall; by eapply list_elem_of_lookup_2.
Qed.

(** What is known of node [m] survives a delivery to node [i]: it has the
    fact, or the fact is on its way, unless the delivery brings it. *)
Lemma next_deliver s w1 w2 i env p k m : inv s ->
  wire s = w1 ++ (i, env) :: w2 -> planes s !! i = Some p ->
  let q := (Receive noErr k env p).1.1 in
  let l := fanout i (broadcasts (Receive noErr k env p).1.2) in
  (exists y, planes s !! m = Some y /\ has id ts y) \/ coming m (wire s) ->
  (exists y, <[i := q]> (planes s) !! m = Some y /\ has id ts y) \/ coming m (w1 ++ w2 ++ l).
Proof.
  intros [Htr _] Hw Hp q l. rewrite (lookup_insert_plane _ _ p) by done.
  intros [(y & Hy & Hh)|Hc].
  - left. case_decide; [|eauto]. subst. exists q. split; [done|]. apply has_Receive. naive_solver.
  - rewrite Hw in Hc. destruct (coming_deliver _ _ _ _ _ l Hc) as [?|(-> & He & Ht)]; [by right|].
    left. rewrite decide_True by done. exists q. split; [done|].
    apply has_delivered; [done|done|]. apply (Htr i); [|done|by eapply list_elem_of_lookup_2].
    rewrite Hw. set_solver.
Qed.

Lemma inv_deliver s s' : deliver s s' -> inv s -> inv s'.
Proof.
  intros Hd Hi. split; [by eapply trust_deliver|]. destruct Hd as [w1 w2 i env p k Hw Hp]. simpl.
  intros j x Hj Hx m Hm. rewrite (lookup_insert_plane _ _ p) in Hj by done.
  destruct (decide (j = i)) as [->|Hne].
  - injection Hj as <-. destruct (decide (has id ts p)) as [Hhas|Hnot].
    + eapply next_deliver; [done..|]. by eapply (inv_next s).
    + destruct (just_learned k env p Hnot Hx) as (Hv & Hf & Hid & Ht).
      right. exists env. split_and!; [|done|done]. rewrite !elem_of_app. right; right.
      apply elem_of_fanout. split; [|done]. rewrite broadcasts_Receive, Hv.
      rewrite bool_decide_eq_true_2 by done. set_solver.
  - eapply next_deliver; [done..|]. by eapply (inv_next s).
Qed.

Lemma inv_delivers s s' : rtc deliver s s' -> inv s -> inv s'.
Proof. induction 1; eauto using inv_deliver. Qed.

(** Connections, followed from node to node. *)
Definition connected : relation nat := rtc (fun i j => j ∈ peers i).

Lemma quiet_converged s i j p : inv s -> wire s = [] -> planes s !! i = Some p -> has id ts p ->
  connected i j -> exists q, planes s !! j = Some q /\ has id ts q.
Proof.
  intros [_ Hnx] Hw Hp Hh Hc. revert p Hp Hh.
  induction Hc as [i|i m j Hm _ IH]; intros p Hp Hh; [eauto|].
  destruct (Hnx i p Hp Hh m Hm) as [(q & Hq & Hhq)|(e & He & _)]; [eauto|].
  rewrite Hw in He. set_solver.
Qed.

(** A node that has the fact keeps it. *)
Lemma has_delivers s s' i p : rtc deliver s s' -> planes s !! i = Some p -> has id ts p ->
  exists p', planes s' !! i = Some p' /\ has id ts p'.
Proof.
  intros Hr. revert p. induction Hr as [|a b c Hd _ IH]; intros p Hp Hh; [eauto|].
  destruct Hd as [w1 w2 m env pm km Hwm Hpm]. simpl in IH. destruct (decide (i = m)) as [->|Hne].
  - eapply IH; [by rewrite (lookup_insert_plane _ _ pm), decide_True|]. apply has_Receive. naive_solver.
  - eapply IH; [|exact Hh]. by rewrite (lookup_insert_plane _ _ pm), decide_False.
Qed.

(** A launch of a fact that nobody has yet establishes the invariant. *)
Lemma inv_launch i k kind body s s' : launch i k ts id kind body s = Some s' ->
  (forall p, p ∈ planes s -> fresh p id ts) ->
  (forall m e p, (m, e) ∈ wire s -> ID e = id -> p ∈ planes s -> trusts e p) ->
  (forall p, planes s !! i = Some p -> forall q, q ∈ planes s ->
     trusts (sign p (MkEnvelope id (NodeName p) kind ts body [])) q) ->
  inv s' /\ exists p, planes s' !! i = Some p /\ has id ts p.
Proof.
  unfold launch. intros Hl Hfr Htw Hte. destruct (planes s !! i) as [p|] eqn:Hp; [|done]. simpl in Hl.
  rewrite originate_unfold in Hl. set (env := sign p _) in *. set (q := setSeen _ _) in *.
  apply (inj Some) in Hl as <-. rewrite broadcasts_app, broadcasts_apply, app_nil_l.
  change (broadcasts [Broadcasts env]) with [env].
  destruct (apply_core k env q) as [_ Hs _ _ _ Hlk].
  assert (has id ts (apply k env q).1) as Hhas.
  { apply has_spec. rewrite Hs. exists ts. simpl. rewrite lookup_insert_eq. split; [done|lia]. }
  assert (ID env = id /\ TS env = ts) as [Eid Ets].
  { unfold env. destruct (sign_fields p (MkEnvelope id (NodeName p) kind ts body [])) as (-> & _ & _ & -> & _). done. }
  split; [split|].
  - intros m e x He Hid Hx. cbn [planes wire] in *.
    assert (forall z, z ∈ planes s -> trusts e z) as Hall.
    { apply elem_of_app in He as [He|He]; [by eauto|]. apply elem_of_fanout in He as [He _].
      apply list_elem_of_singleton in He as ->. by apply Hte. }
    apply list_elem_of_lookup_1 in Hx as (j & Hj). rewrite (lookup_insert_plane _ _ p) in Hj by done.
    case_decide; simplify_eq; [|by eapply Hall, list_elem_of_lookup_2].
    unfold trusts. rewrite Hlk. simpl. by eapply Hall, list_elem_of_lookup_2.
  - intros j x Hj Hx m Hm. cbn [planes wire] in *. rewrite (lookup_insert_plane _ _ p) in Hj by done.
    case_decide; [|destruct Hx; by eapply Hfr, list_elem_of_lookup_2]. subst j.
    right. exists env. split_and!; [|done|lia]. apply elem_of_app. right.
    apply elem_of_fanout. split; [set_solver|done].
  - exists (apply k env q).1. simpl. by rewrite (lookup_insert_plane _ _ p), decide_True.
Qed.
End fact.

(** ** Termination

    Every delivery that passes an envelope on uses up one version at one
    node; the number of versions about is that of the envelopes in flight at
    the start, since planes pass on envelopes unchanged. *)

Definition keysOf (w : list (nat * Envelope)) : list (gostring * Z) :=
  (fun x => (ID x.2, TS x.2)) <$> w.

Definition freshCount (K : list (gostring * Z)) (p : Plane) : nat :=
  length (filter (fun x : gostring * Z => fresh p x.1 x.2) K).

Definition potential (K : list (gostring * Z)) (D : nat) (s : Net) : nat :=
  sum_list (freshCount K <$> planes s) * (D + 1) + length (wire s).

Section filters.
Context {A : Type} (P Q : A -> Prop) `{!forall x, Decision (P x), !forall x, Decision (Q x)}.
Context (Himp : forall y, Q y -> P y).

Lemma filter_le l : length (filter Q l) <= length (filter P l).
Proof.
  induction l as [|y l IH]; [done|]. rewrite !filter_cons.
  repeat case_decide; simpl; try lia. naive_solver.
Qed.

Lemma filter_lt l x : x ∈ l -> P x -> ~ Q x -> length (filter Q l) < length (filter P l).
Proof.
  intros Hx Hp Hq. induction l as [|y l IH]; [set_solver|]. rewrite !filter_cons.
  apply elem_of_cons in Hx as [<-|Hx].
  - rewrite (decide_True (P := P x)), (decide_False (P := Q x)) by done. simpl.
    pose proof (filter_le l). lia.
  - specialize (IH Hx). repeat case_decide; simpl; try lia. naive_solver.
Qed.
End filters.

Lemma sum_list_insert (l : list nat) i x y : l !! i = Some x ->
  sum_list (<[i := y]> l) + x = sum_list l + y.
Proof.
  revert i. induction l as [|z l IH]; intros [|i] Hi; simplify_eq/=; [lia|]. specialize (IH i Hi). lia.
Qed.

Lemma fresh_Receive k env p x : fresh (Receive noErr k env p).1.1 x.1 x.2 -> fresh p x.1 x.2.
Proof.
  intros Hf. destruct (decide (fresh p x.1 x.2)) as [|Hn]; [done|].
  by destruct (fresh_antitone _ _ _ _ (Receive_monotone noErr k env p) Hn).
Qed.

(** One delivery: versions are used up, or the network only gets quieter. *)
Lemma freshCount_Receive K k env p : (ID env, TS env) ∈ K ->
  freshCount K (Receive noErr k env p).1.1 + length (broadcasts (Receive noErr k env p).1.2)
    <= freshCount K p.
Proof.
  intros HK. rewrite broadcasts_Receive.
  destruct (verify p env) eqn:Hv; cbn [andb length]; [|rewrite Nat.add_0_r; apply filter_le; intros x; apply fresh_Receive].
  case_bool_decide as Hf; cbn [length]; [|rewrite Nat.add_0_r; apply filter_le; intros x; apply fresh_Receive].
  enough (freshCount K (Receive noErr k env p).1.1 < freshCount K p) by lia.
  apply (filter_lt _ _ (fresh_Receive k env p) K (ID env, TS env)); [done|done|].
  by apply Receive_claims.
Qed.

Lemma length_fanout i envs : length (fanout i envs) = length envs * length (peers i).
Proof.
  unfold fanout. induction envs as [|e envs IH]; [done|]. cbn [mbind list_bind length].
  rewrite length_app, length_fmap. cbn [mbind list_bind] in IH. rewrite IH. lia.
Qed.

Lemma potential_deliver K D s s' : (forall i, length (peers i) <= D) ->
  (forall x, x ∈ keysOf (wire s) -> x ∈ K) -> deliver s s' ->
  potential K D s' < potential K D s /\ (forall x, x ∈ keysOf (wire s') -> x ∈ K).
Proof.
  intros HD HK [w1 w2 i env p k Hw Hp].
  assert ((ID env, TS env) ∈ K) as Hin 
    by (apply HK; rewrite Hw; unfold keysOf; rewrite fmap_app, fmap_cons, elem_of_app, elem_of_cons; auto).
  split.
  - pose proof (freshCount_Receive K k env p Hin) as Hc.
    set (q := (Receive noErr k env p).1.1) in *. set (b := broadcasts _) in *.
    unfold potential. simpl planes. simpl wire.
    assert ((freshCount K <$> planes s) !! i = Some (freshCount K p)) as Hl by (by rewrite list_lookup_fmap, Hp).
    pose proof (sum_list_insert _ _ _ (freshCount K q) Hl) as Hsum. rewrite <- list_fmap_insert in Hsum.
    rewrite Hw, !length_app, length_fanout. simpl length. specialize (HD i).
    assert (length b * length (peers i) <= length b * D) by (apply Nat.mul_le_mono_l; lia).
    set (S1 := sum_list _) in *. set (S2 := sum_list (freshCount K <$> planes s)) in *. nia.
  - simpl. intros x. unfold keysOf. rewrite !fmap_app, !elem_of_app.
    unfold keysOf in HK. rewrite Hw in HK. setoid_rewrite fmap_app in HK. setoid_rewrite elem_of_app in HK.
    setoid_rewrite fmap_cons in HK. setoid_rewrite elem_of_cons in HK.
    intros [Hx|[Hx|Hx]]; [by auto|by auto|].
    apply list_elem_of_fmap in Hx as ([m e] & -> & He). apply elem_of_fanout in He as [He _].
    rewrite broadcasts_Receive in He. destruct (_ && _); [|set_solver].
    apply list_elem_of_singleton in He as ->. done.
Qed.

Lemma deliver_bounded n D s s' K : (forall i, length (peers i) <= D) ->
  (forall x, x ∈ keysOf (wire s) -> x ∈ K) -> nsteps deliver n s s' -> n <= potential K D s.
Proof.
  intros HD HK Hn. induction Hn as [|n s s1 s2 Hd _ IH]; [lia|].
  destruct (potential_deliver K D s s1 HD HK Hd) as [Hlt HK']. specialize (IH HK'). lia.
Qed.

(** Something in flight to an existing node can be delivered. *)
Lemma deliver_progress s m e : (m, e) ∈ wire s -> m < length (planes s) -> exists s', deliver s s'.
Proof.
  intros (w1 & w2 & Hw)%list_elem_of_split Hm. apply lookup_lt_is_Some in Hm as [p Hp].
  eexists. by apply (deliver_one s w1 w2 m e p 0).
Qed.

(** C4.  Flooding converges.  A node originates a fact that no node has yet
    (all planes accept its envelope by the key their verifier knows).  Then
    every run of deliveries, in any order and with any other traffic in
    flight, is finite, with at most as many deliveries as [potential] says;
    and in every state it reaches in which nothing is in flight, each node
    that the connections lead to from the origin has recorded the fact, at
    the announced version or a newer one. *)
Theorem flooding_converges i k now id kind body s s1 D :
  launch i k now id kind body s = Some s1 ->
  (forall p, p ∈ planes s -> fresh p id now) ->
  (forall m e p, (m, e) ∈ wire s -> ID e = id -> p ∈ planes s -> trusts e p) ->
  (forall p, planes s !! i = Some p -> forall q, q ∈ planes s ->
     trusts (sign p (MkEnvelope id (NodeName p) kind now body [])) q) ->
  (forall j, length (peers j) <= D) ->
  (forall n s2, nsteps deliver n s1 s2 -> n <= potential (keysOf (wire s1)) D s1)
  /\ (forall s2, rtc deliver s1 s2 -> wire s2 = [] -> forall j, connected i j ->
       exists q t, planes s2 !! j = Some q /\ seen q !! id = Some t /\ (now <= t)%Z).
Proof.
  intros Hl Hfr Htw Hte HD. split; [intros n s2; by apply deliver_bounded|].
  intros s2 Hr Hw j Hc.
  destruct (inv_launch id now i k kind body s s1 Hl Hfr Htw Hte) as (Hi & p & Hp & Hh).
  pose proof (inv_delivers id now _ _ Hr Hi) as Hi2.
  destruct (has_delivers id now s1 s2 i p Hr Hp Hh) as (p2 & Hp2 & Hh2).
  destruct (quiet_converged id now s2 i j p2 Hi2 Hw Hp2 Hh2 Hc) as (q & Hq & Hhq).
  apply has_spec in Hhq as (t & Ht & Hle). eauto.
Qed.
End network.

(** ** Three nodes in a line *)

Import gossip.demo toy.

Definition line (i : nat) : list nat := match i with 0 => [1] | 1 => [0; 2] | _ => [1] end.

Definition node (n : gostring) : Plane :=
  SetVerifier lookupA (if bool_decide (n = !"a") then planeA else NewPlane n graph.New).

Definition net3 : Net := MkNet [node !"a"; node !"b"; node !"c"] [].

(** Node "a" launches the edge a-b at time 5. *)
Definition launched : Net :=
  default net3 (launch line 0 0 5 !"a/edge/b" KindAddEdge
                  (marshalAddEdge (MkAddEdge !"a" !"b" 1)) net3).

Lemma trusts_node n : trusts (sign (node !"a") (MkEnvelope !"a/edge/b" !"a" KindAddEdge 5
    (marshalAddEdge (MkAddEdge !"a" !"b" 1)) [])) (node n).
Proof.
  exists lookupA, (keys.Public priv). split; [reflexivity|]. split; [vm_compute; reflexivity|].
  split; vm_compute; [discriminate|reflexivity].
Qed.

Lemma flooding_converges_witness :
  (forall n s2, nsteps (deliver line) n launched s2 -> n <= 16)
  /\ (forall s2, rtc (deliver line) launched s2 -> wire s2 = [] ->
       exists q t, planes s2 !! 2 = Some q /\ seen q !! !"a/edge/b" = Some t /\ (5 <= t)%Z).
Proof.
  destruct (flooding_converges line 0 0 5 !"a/edge/b" KindAddEdge
              (marshalAddEdge (MkAddEdge !"a" !"b" 1)) net3 launched 2) as [H1 H2].
  - vm_compute. reflexivity.
  - intros p Hp. unfold net3 in Hp. simpl in Hp. rewrite !elem_of_cons in Hp.
    destruct Hp as [-> | [-> | [-> | Hp]]]; [exact I..|]. set_solver.
  - intros m e p Hm. simpl in Hm. set_solver.
  - intros p Hp q Hq. injection Hp as <-. unfold net3 in Hq. cbn [planes] in Hq.
    rewrite !elem_of_cons in Hq.
    destruct Hq as [-> | [-> | [-> | Hq]]]; [apply trusts_node..|]. set_solver.
  - intros [|[|j]]; simpl; lia.
  - split.
    + intros n s2 Hn. pose proof (H1 n s2 Hn) as Hb. vm_compute in Hb. lia.
    + intros s2 Hr Hw. apply (H2 s2 Hr Hw). apply (rtc_l _ 0 1); [|apply rtc_once]; simpl; set_solver.
Defined.

End net.
