(* ===== verification/Control.v ===== *)
(** * The control protocol (internal/control)

    protocol.go: the line format of requests, the greeting and the PID file.
    server.go: authentication by cookie and the loop that serves one
    connection.  The handler is a parameter: a function on the daemon's
    state.  Replies are kept as values; only the texts that a client parses
    (greeting, authentication line, requests) are spelled out. *)

From Stdlib Require Import Ascii String ZArith Lia.
From stdpp Require Import base tactics list gmap strings.
From S2P Require Import Prelude.
From S2P Require Import GoStrings.
From S2P Require Import Base64.

Local Open Scope Z_scope.

Module control.

Definition ClassGreeting : Z := 0.
Definition ClassRequest : Z := 18.

(** Request codes. *)
Definition ReqStop : Z := 1.
Definition ReqReload : Z := 2.
Definition ReqRestart : Z := 3.
Definition ReqDumpNodes : Z := 4.
Definition ReqDumpEdges : Z := 5.
Definition ReqDumpSubnets : Z := 6.
Definition ReqDumpConnections : Z := 7.
Definition ReqDumpGraph : Z := 8.
Definition ReqSetDebug : Z := 9.
Definition ReqRetry : Z := 10.
Definition ReqConnect : Z := 11.
Definition ReqDisconnect : Z := 12.
Definition ReqDumpTraffic : Z := 13.
Definition ReqPCAP : Z := 14.
Definition ReqLog : Z := 15.
Definition ReqPurge : Z := 16.
Definition ReqDumpInvitations : Z := 17.

Record Message := MkMessage { Class : Z; Type' : Z; Args : list gostring }.

Inductive error :=
| errShort (line : gostring)
| errClass (f : gostring) (e : numError)
| errType (f : gostring) (e : numError)
| errNotGreeting (line : gostring)
| errVersion (f : gostring)
| errNumber (e : numError)
| errPIDLine (s : gostring)
| errPID (e : numError)
| errAuthLine (line : gostring)
| errNoCaret
| errCookie.

Definition EncodeMessage (t : Z) (args : list gostring) : gostring :=
  Itoa ClassRequest ++ sp :: Itoa t ++ (args ≫= fun a => sp :: a) ++ [nl].

Definition DecodeMessage (line : gostring) : result error Message :=
  match Fields line with
  | f0 :: f1 :: rest =>
      c ← err_map (errClass f0) (Atoi f0);
      t ← err_map (errType f1) (Atoi f1);
      Ok (MkMessage c t rest)
  | _ => Err (errShort line)
  end.

Record Greeting := MkGreeting { gName : gostring; gMajor : Z; gMinor : Z }.

Definition dotB : byte := to_byte 46.

Definition encodeGreeting (g : Greeting) : gostring :=
  Itoa ClassGreeting ++ sp :: gName g ++ sp :: Itoa (gMajor g) ++ dotB :: Itoa (gMinor g) ++ [nl].

Definition ParseGreeting (line : gostring) : result error Greeting :=
  match Fields line with
  | [f0; f1; f2] =>
      if negb (bool_decide (f0 = !"0")) then Err (errNotGreeting line)
      else match cutByte dotB f2 with
           | Some (a, b) =>
               major ← err_map errNumber (Atoi a);
               minor ← err_map errNumber (Atoi b);
               Ok (MkGreeting f1 major minor)
           | None => Err (errVersion f2)
           end
  | _ => Err (errNotGreeting line)
  end.

Record PIDFile := MkPIDFile { PID : Z; Cookie : gostring }.

Definition encodePIDFile (p : PIDFile) : gostring := Itoa (PID p) ++ sp :: Cookie p ++ [nl].

Definition ParsePIDFile (s : gostring) : result error PIDFile :=
  let t := TrimSpace s in
  let line := match cutByte nl t with Some (l, _) => l | None => t end in
  match Fields line with
  | [f0; f1] => pid ← err_map errPID (Atoi f0); Ok (MkPIDFile pid f1)
  | _ => Err (errPIDLine s)
  end.

(** [NewCookie], for 32 bytes read from the random source. *)
Definition NewCookie (buf : bytes) : gostring := base64.EncodeToString base64.RawURLEncoding buf.

(** ** Serving a connection *)

Definition caret : byte := to_byte 94.

Definition authenticate (cookie line : gostring) : result error unit :=
  match Fields line with
  | f0 :: c :: _ =>
      if negb (bool_decide (f0 = !"0")) then Err (errAuthLine line)
      else if negb (HasPrefix c [caret]) then Err errNoCaret
      else if negb (bool_decide (drop 1 c = cookie)) then Err errCookie
      else Ok ()
  | _ => Err (errAuthLine line)
  end.

(** What the server writes. *)
Inductive reply :=
| RGreeting (g : Greeting)
| RAck
| RDecodeError (e : error)
| RBadClass
| RDefault (t : Z)
| ROutput (b : bytes)
| RHandlerError (t : Z) (msg : gostring).

(** The complete lines of a stream; what follows the last newline is never
    returned by [ReadString]. *)
Definition completeLines (s : bytes) : list gostring := removelast (splitByte nl s).

Section serve.
Context {S : Type}.
(** [Handler.Handle]: new state, output, and the text of an error. *)
Context (Handler : option (Message -> S -> S * bytes * option gostring)).

Definition serveLine (line : gostring) (st : S) : S * list reply :=
  let line := TrimSpace line in
  if bool_decide (line = []) then (st, [])
  else match DecodeMessage line with
       | Err e => (st, [RDecodeError e])
       | Ok msg =>
           if negb (bool_decide (Class msg = ClassRequest)) then (st, [RBadClass])
           else match Handler with
                | None => (st, [RDefault (Type' msg)])
                | Some Handle =>
                    let '(st, out, err) := Handle msg st in
                    (st, ROutput out ::
                           match err with Some m => [RHandlerError (Type' msg) m] | None => [] end)
                end
       end.

Fixpoint serveLines (lines : list gostring) (st : S) : S * list reply :=
  match lines with
  | [] => (st, [])
  | l :: t =>
      let '(st, out) := serveLine l st in
      let '(st, out') := serveLines t st in (st, out ++ out')
  end.

(** [Server.handle] on the bytes [input] that the client sends; [Err] if the
    connection ends before or with a failed authentication. *)
Definition handle (nodeName cookie : gostring) (input : bytes) (st : S)
  : S * list reply * result error unit :=
  let greet := RGreeting (MkGreeting nodeName 1 0) in
  match completeLines input with
  | [] => (st, [greet], Ok ())
  | first :: rest =>
      match authenticate cookie (TrimSpace first) with
      | Err e => (st, [greet], Err e)
      | Ok _ => let '(st, out) := serveLines rest st in (st, greet :: RAck :: out, Ok ())
      end
  end.
End serve.

(** The line [Dial] sends after the greeting. *)
Definition authLine (cookie : gostring) : gostring := !"0 ^" ++ cookie ++ !" 0" ++ [nl].

(** ** Lemmas *)

Lemma EncodeMessage_tokens t args :
  EncodeMessage t args = joinSp (Itoa ClassRequest :: Itoa t :: args) ++ [nl].
Proof.
  unfold EncodeMessage.
  assert (Itoa t ++ (args ≫= fun a => sp :: a) = joinSp (Itoa t :: args)) as E.
  { generalize (Itoa t). induction args as [|a args IH]; intros x; simpl; [by rewrite app_nil_r|].
    f_equal. f_equal. apply IH. }
  change (joinSp (Itoa ClassRequest :: Itoa t :: args))
    with (Itoa ClassRequest ++ sp :: joinSp (Itoa t :: args)).
  rewrite <- E, <- !app_assoc. cbn [app]. by rewrite <- !app_assoc.
Qed.

Lemma DecodeMessage_tokens t args : is_int64 t -> Forall token args ->
  DecodeMessage (joinSp (Itoa ClassRequest :: Itoa t :: args)) = Ok (MkMessage ClassRequest t args).
Proof.
  intros Ht Ha. unfold DecodeMessage. rewrite Fields_joinSp by eauto using Forall_cons_2, Itoa_token.
  rewrite !Atoi_Itoa by (done || by vm_compute). done.
Qed.

Lemma authenticate_spec cookie line :
  authenticate cookie line = Ok () <-> exists rest, Fields line = !"0" :: (caret :: cookie) :: rest.
Proof.
  unfold authenticate. destruct (Fields line) as [|f0 [|c rest]]; [naive_solver..|].
  unfold HasPrefix. split.
  - case_bool_decide; simpl; [|done]. case_bool_decide as Hp; simpl; [|done].
    case_bool_decide; simpl; [|done]. intros _. destruct Hp as [k ->]. simpl in *. subst. eauto.
  - intros (r & E). injection E as -> -> ->. rewrite bool_decide_eq_true_2 by done. cbn [negb].
    rewrite bool_decide_eq_true_2 by by exists cookie. cbn [negb]. by rewrite bool_decide_eq_true_2.
Qed.

Lemma NewCookie_plain buf : Forall plainByte (NewCookie buf).
Proof.
  assert (forall v, 0 <= v < 64 -> plainByte (base64.encChar base64.RawURLEncoding v)) as Hc.
  { intros v Hv. assert (Forall (fun n => plainByte (base64.encChar base64.RawURLEncoding (Z.of_nat n))) (seq 0 64)) as Hf
      by (apply (bool_decide_unpack _); vm_compute; exact I).
    rewrite Forall_forall in Hf. specialize (Hf (Z.to_nat v)). rewrite Z2Nat.id in Hf by lia.
    apply Hf, elem_of_seq. lia. }
  unfold NewCookie. induction buf as [|a|a b|a b c t IH] using base64_lemmas.triples_ind;
    cbn [base64.EncodeToString app base64.pad base64.padded base64.RawURLEncoding];
    repeat (constructor || exact IH || (apply Hc; base64_lemmas.sextets; Z.to_euclidean_division_equations; lia)).
Qed.

Lemma token_caret cookie : Forall plainByte cookie -> token (caret :: cookie).
Proof. intros Hc. apply token_plain; [done|]. constructor; [by vm_compute|done]. Qed.

Lemma authLine_tokens cookie : authLine cookie = joinSp [!"0"; caret :: cookie; !"0"] ++ [nl].
Proof. unfold authLine. simpl. by rewrite <- !app_assoc. Qed.

(** Only the first line of a connection is looked at before the handler may
    run, and a stream is cut into the same lines however it was written. *)
Lemma completeLines_line l rest : nl ∉ l -> completeLines (l ++ nl :: rest) = l :: completeLines rest.
Proof.
  intros Hl. unfold completeLines. rewrite splitByte_app by done.
  destruct (splitByte nl rest) eqn:E; [by destruct (splitByte_ne nl rest)|done].
Qed.

(** The three formats, each parsed back after the reader has trimmed the line. *)
Lemma DecodeMessage_Encode t args : is_int64 t -> Forall token args ->
  DecodeMessage (TrimSpace (EncodeMessage t args)) = Ok (MkMessage ClassRequest t args).
Proof.
  intros Ht Ha. rewrite EncodeMessage_tokens, TrimSpace_tokenLine by eauto using Forall_cons_2, Itoa_token.
  by apply DecodeMessage_tokens.
Qed.

Lemma ParseGreeting_encode g : token (gName g) -> is_int64 (gMajor g) -> is_int64 (gMinor g) ->
  (nl ∉ removelast (encodeGreeting g)) /\ encodeGreeting g = removelast (encodeGreeting g) ++ [nl] /\
  ParseGreeting (TrimSpace (encodeGreeting g)) = Ok g.
Proof.
  intros Hn Hmaj Hmin. assert (token (Itoa (gMajor g) ++ dotB :: Itoa (gMinor g))) as Hv.
  { destruct (Itoa_plain (gMajor g)) as [Hne H1], (Itoa_plain (gMinor g)) as [_ H2].
    apply token_plain; [by destruct (Itoa (gMajor g))|]. apply Forall_app. split; [done|].
    constructor; [by vm_compute|done]. }
  replace (encodeGreeting g)
    with (joinSp [Itoa ClassGreeting; gName g; Itoa (gMajor g) ++ dotB :: Itoa (gMinor g)] ++ [nl])
    by (unfold encodeGreeting; simpl; by rewrite <- !app_assoc; simpl; rewrite <- !app_assoc).
  assert (Forall token [Itoa ClassGreeting; gName g; Itoa (gMajor g) ++ dotB :: Itoa (gMinor g)]) as Hf
    by eauto using Forall_cons_2, Forall_nil_2, Itoa_token.
  rewrite removelast_last. split_and!; [by apply joinSp_no_nl|done|].
  rewrite TrimSpace_tokenLine by done. unfold ParseGreeting. rewrite Fields_joinSp by done.
  replace (bool_decide (Itoa ClassGreeting = !"0")) with true by (vm_compute; reflexivity). cbn [negb].
  rewrite (proj2 (cutByte_Some dotB _ (Itoa (gMajor g)) (Itoa (gMinor g)))).
  - rewrite !Atoi_Itoa by done. by destruct g.
  - split; [done|]. apply Itoa_notin. right. split; [by vm_compute|left; by vm_compute].
Qed.

Lemma ParsePIDFile_encode p : token (Cookie p) -> is_int64 (PID p) -> ParsePIDFile (encodePIDFile p) = Ok p.
Proof.
  intros Hc Hp. assert (Forall token [Itoa (PID p); Cookie p]) as Hf
    by eauto using Forall_cons_2, Forall_nil_2, Itoa_token.
  replace (encodePIDFile p) with (joinSp [Itoa (PID p); Cookie p] ++ [nl])
    by (unfold encodePIDFile; simpl; by rewrite <- !app_assoc).
  unfold ParsePIDFile. rewrite TrimSpace_tokenLine by done.
  rewrite (proj2 (cutByte_None nl _)) by by apply joinSp_no_nl.
  rewrite Fields_joinSp by done. rewrite Atoi_Itoa by done. by destruct p.
Qed.

(** The control messages survive the wire: a request whose arguments
    are tokens (no white space), a greeting and a PID file with a token name
    or cookie are each parsed back to what was encoded, after the surrounding
    white space has been trimmed as the readers do. *)
Theorem control_roundtrips t args g p :
  is_int64 t -> Forall token args ->
  token (gName g) -> is_int64 (gMajor g) -> is_int64 (gMinor g) ->
  token (Cookie p) -> is_int64 (PID p) ->
  DecodeMessage (TrimSpace (EncodeMessage t args)) = Ok (MkMessage ClassRequest t args)
  /\ ParseGreeting (TrimSpace (encodeGreeting g)) = Ok g
  /\ ParsePIDFile (encodePIDFile p) = Ok p.
Proof.
  intros Ht Ha Hn Hmaj Hmin Hc Hp.
  split_and!; [by apply DecodeMessage_Encode|by apply ParseGreeting_encode|by apply ParsePIDFile_encode].
Qed.

Lemma control_roundtrips_witness :
  DecodeMessage (TrimSpace (EncodeMessage ReqConnect [!"bob"])) = Ok (MkMessage 18 11 [!"bob"]).
Proof.
  apply (control_roundtrips ReqConnect [!"bob"] (MkGreeting !"alice" 1 0) (MkPIDFile 42 !"c00kie"));
    apply (bool_decide_unpack _); vm_compute; exact I.
Defined.

(** The line a client builds from a fresh cookie is accepted. *)
Lemma authLine_accepted buf :
  let l := removelast (authLine (NewCookie buf)) in
  authLine (NewCookie buf) = l ++ [nl] /\ (nl ∉ l) /\ authenticate (NewCookie buf) (TrimSpace l) = Ok ().
Proof.
  assert (Forall token [!"0"; caret :: NewCookie buf; !"0"]) as Ht.
  { repeat apply Forall_cons_2; try apply Forall_nil_2;
      [|apply token_caret, NewCookie_plain|]; apply (bool_decide_unpack _); vm_compute; exact I. }
  rewrite authLine_tokens, removelast_last. split_and!; [done|by apply joinSp_no_nl|].
  rewrite (TrimSpace_id (joinSp _)) by by apply trimmed_joinSp.
  apply authenticate_spec. rewrite Fields_joinSp by done. eauto.
Qed.

(** C15.  Nothing happens before authentication.  The authentication line is
    accepted exactly when its first two fields are "0" and a caret followed
    by the server's cookie; for any other first line the handler is never
    called, the state is unchanged and only the greeting was written.  The
    line a client builds from a cookie minted by [NewCookie] is accepted by
    the server that holds that cookie, and its requests are then served in
    order. *)
Theorem authentication {S} (Handler : option (Message -> S -> S * bytes * option gostring))
    nodeName cookie first rest st buf :
  nl ∉ first ->
  (forall line, authenticate cookie line = Ok () <->
     exists fs, Fields line = !"0" :: (caret :: cookie) :: fs)
  /\ ((forall fs, Fields (TrimSpace first) <> !"0" :: (caret :: cookie) :: fs) ->
      let '(st', out, r) := handle Handler nodeName cookie (first ++ nl :: rest) st in
      st' = st /\ out = [RGreeting (MkGreeting nodeName 1 0)] /\ is_ok r = false)
  /\ handle Handler nodeName (NewCookie buf) (authLine (NewCookie buf) ++ rest) st
     = let '(st', out) := serveLines Handler (completeLines rest) st in
       (st', RGreeting (MkGreeting nodeName 1 0) :: RAck :: out, Ok ()).
Proof.
  intros Hf. split; [apply authenticate_spec|]. split.
  - intros Hno. unfold handle. rewrite completeLines_line by done.
    destruct (authenticate cookie (TrimSpace first)) as [[]|e] eqn:E; [|done].
    apply authenticate_spec in E as [fs E]. by destruct (Hno fs).
  - destruct (authLine_accepted buf) as (E & Hnl & Ha). unfold handle. rewrite E, <- app_assoc. cbn [app].
    rewrite completeLines_line by done. by rewrite Ha.
Qed.

Lemma authentication_witness :
  (handle (S := nat) (Some (fun m st => (Datatypes.S st, [], None))) !"alice" !"secret"
     (!"0 ^guess 0" ++ nl :: !"18 1" ++ [nl]) 0%nat).1.1 = 0%nat.
Proof.
  destruct (authentication (S := nat) (Some (fun m st => (Datatypes.S st, [], None))) !"alice" !"secret"
     !"0 ^guess 0" (!"18 1" ++ [nl]) 0%nat []) as (_ & H & _).
  - apply (bool_decide_unpack _). vm_compute. exact I.
  - destruct (handle _ _ _ _ _) as [[st out] r]. apply H. intros fs. vm_compute. discriminate.
Defined.

End control.
