(* ===== verification/ControlSocket.v ===== *)
(** * The control socket in the file system (control/server.go: Listen)

    The socket is an entry of the file system with permission bits.  Binding
    creates it with the bits the umask leaves; [Listen] removes what was there
    and restricts the new one to its owner. *)

From Stdlib Require Import ZArith Lia.
From stdpp Require Import base tactics list gmap.
From S2P Require Import Prelude.
From S2P Require Import GoStrings.
From S2P Require Import FS.

Local Open Scope Z_scope.

Module control_socket.

Section listen.
(** The umask, and what else can go wrong in the two system calls. *)
Context (umask : Z) (bindErr chmodErr : option osError).

(** [net.Listen("unix", path)], which refuses a path that exists. *)
Definition bind (fs : FS) (path : gostring) : result osError FS :=
  match bindErr with
  | Some e => Err e
  | None => os.CreateExclusive fs path [] (Z.land 511 (Z.lnot umask))
  end.

(** [os.Chmod]. *)
Definition Chmod (fs : FS) (path : gostring) (perm : Z) : result osError FS :=
  match chmodErr with
  | Some e => Err e
  | None => match files fs !! path with
            | Some f => Ok (MkFS (<[path := MkFile (content f) perm]> (files fs)) (dirs fs))
            | None => Err ENOENT
            end
  end.

(** Removing an entry when the error is ignored; closing a listener does it
    too. *)
Definition unlink (fs : FS) (path : gostring) : FS := default fs (ok (os.Remove fs path)).

Definition Listen (fs : FS) (path : gostring) : FS * result osError unit :=
  let fs := unlink fs path in
  match bind fs path with
  | Err e => (fs, Err e)
  | Ok fs => match Chmod fs path 384 with
             | Err e => (unlink fs path, Err e)
             | Ok fs => (fs, Ok ())
             end
  end.

Lemma unlink_files fs path : files (unlink fs path) = delete path (files fs) /\ dirs (unlink fs path) = dirs fs.
Proof.
  unfold unlink, os.Remove. destruct (files fs !! path) eqn:E; [done|]. cbn. by rewrite delete_id.
Qed.

(** After [Listen] the socket is there for its owner only, or not at all;
    nothing else has changed. *)
Lemma Listen_spec fs path : let '(fs', r) := Listen fs path in
  dirs fs' = dirs fs /\
  files fs' = match r with Ok _ => <[path := MkFile [] 384]> (files fs) | Err _ => delete path (files fs) end.
Proof.
  unfold Listen. destruct (unlink_files fs path) as [Hf Hd]. set (fs1 := unlink fs path) in *. clearbody fs1.
  unfold bind. destruct bindErr; [done|]. unfold os.CreateExclusive. rewrite Hf, lookup_delete_eq.
  case_decide; [done|]. case_decide; [|done]. unfold Chmod. destruct chmodErr as [e|].
  - match goal with |- context [unlink ?x path] => destruct (unlink_files x path) as [-> ->] end. cbn [files dirs].
    by rewrite delete_insert_eq, delete_delete_eq.
  - cbn [files]. rewrite lookup_insert_eq. cbn [content files dirs]. by rewrite !insert_insert_eq, insert_delete_eq.
Qed.
End listen.
End control_socket.
