(* ===== verification/Invite.v ===== *)
(** * Invitations (internal/invite/url.go and file.go)

    Invitation URLs [host:port/<keyhash><cookie>] and invitation files: blocks
    of configuration entries, the first for the invitee, the others for hosts
    the invitee should know. *)

From Stdlib Require Import Ascii String ZArith Lia.
From stdpp Require Import base tactics list gmap strings.
From S2P Require Import Prelude.
From S2P Require Import GoStrings.
From S2P Require Import Base64.
From S2P Require Import Keys.
From S2P Require Import FS.
From S2P Require Import Config.

Module invite.

(** ** URLs *)

Definition cookieBytes : nat := 24.
Definition keyHashLen : nat := 43.

(** [NewCookie], for [cookieBytes] bytes read from the random source. *)
Definition NewCookie (buf : bytes) : gostring := base64.EncodeToString base64.RawURLEncoding buf.

Record URL := MkURL { Host : gostring; Port : Z; KeyHash : gostring; Cookie : gostring }.

Inductive urlError :=
| errNoSlash | errNoPort | errEmptyHost | errPort (s : gostring) | errSecretShort | errEmptyCookie.

Definition BuildURL `{SHA256} (host : gostring) (port : Z) (pub : keys.Ed25519Public)
    (cookie : gostring) : URL :=
  MkURL host port (keys.Hash pub) cookie.

Definition slash : byte := to_byte 47.
Definition colon : byte := to_byte 58.

Definition ParseURL (s : gostring) : result urlError URL :=
  match cutByte slash s with
  | None => Err errNoSlash
  | Some (hostport, secret) =>
      match cutLastByte colon hostport with
      | None => Err errNoPort
      | Some (host, portStr) =>
          if bool_decide (host = []) then Err errEmptyHost
          else match Atoi portStr with
               | Err _ => Err (errPort portStr)
               | Ok port =>
                   if (port <=? 0)%Z || (65535 <? port)%Z then Err (errPort portStr)
                   else if bool_decide (length secret <= keyHashLen) then Err errSecretShort
                   else let cookie := drop keyHashLen secret in
                        if bool_decide (cookie = []) then Err errEmptyCookie
                        else Ok (MkURL host port (take keyHashLen secret) cookie)
               end
      end
  end.

Definition urlString (u : URL) : gostring :=
  Host u ++ colon :: Itoa (Port u) ++ slash :: KeyHash u ++ Cookie u.

(** ** Files *)

Record Block := MkBlock {
  Name : gostring;
  Address : gostring;
  ConnectTo : list gostring;
  Ifconfig : list gostring;
  Route : list gostring;
  Other : list config.Entry
}.

Record File := MkFile { Netname : gostring; Invitee : Block; Hosts : list Block }.

Definition emptyBlock : Block := MkBlock [] [] [] [] [] [].

Inductive fileError :=
| errConfig (e : config.error) | errNotSingle (n : nat) | errTooLong | errEmptyFile
| errNoInviteeName | errNoHostName.

Section files.
Context `{Unicode}.

Definition parseConfigLine (s : gostring) : result fileError config.Entry :=
  match config.Parse s with
  | Err e => Err (errConfig e)
  | Ok [e] => Ok e
  | Ok es => Err (errNotSingle (length es))
  end.

(** [flush]: a non-empty current block is added to the blocks. *)
Definition flush (blocks : list config.Entries) (current : config.Entries) : list config.Entries :=
  if bool_decide (current = []) then blocks else blocks ++ [current].

(** The scan loop, with the blocks and the current block as its state. *)
Fixpoint scanBlocks (ls : list gostring) (blocks : list config.Entries) (current : config.Entries)
  : result fileError (list config.Entries * config.Entries) :=
  match ls with
  | [] => Ok (blocks, current)
  | l :: ls =>
      let line := TrimSpace l in
      if bool_decide (line = []) then scanBlocks ls blocks current
      else if HasPrefix line !"#" then scanBlocks ls (flush blocks current) []
      else
        e ← parseConfigLine line;
        if EqualFold (config.Key e) !"Name" && negb (bool_decide (current = []))
        then scanBlocks ls (flush blocks current) [e]
        else scanBlocks ls blocks (current ++ [e])
  end.

Definition addEntry (b : Block) (e : config.Entry) : Block :=
  let 'MkBlock n a c i r o := b in
  let k := config.Key e in
  let v := config.Value e in
  if EqualFold k !"Name" then MkBlock v a c i r o
  else if EqualFold k !"Address" then MkBlock n v c i r o
  else if EqualFold k !"ConnectTo" then MkBlock n a (c ++ [v]) i r o
  else if EqualFold k !"Ifconfig" then MkBlock n a c (i ++ [v]) r o
  else if EqualFold k !"Route" then MkBlock n a c i (r ++ [v]) o
  else if EqualFold k !"Netname" then b
  else MkBlock n a c i r (o ++ [e]).

Definition blockFromEntries (es : config.Entries) : Block := foldl addEntry emptyBlock es.

Fixpoint hostBlocks (bs : list config.Entries) : result fileError (list Block) :=
  match bs with
  | [] => Ok []
  | b :: bs =>
      let hb := blockFromEntries b in
      if bool_decide (Name hb = []) then Err errNoHostName
      else hs ← hostBlocks bs; Ok (hb :: hs)
  end.

Definition ParseFile (r : bytes) : result fileError File :=
  let '(ls, tooLong) := scanLines r in
  '(blocks, current) ← scanBlocks ls [] [];
  if tooLong : bool then Err errTooLong
  else match flush blocks current with
       | [] => Err errEmptyFile
       | b0 :: bs =>
           let first := blockFromEntries b0 in
           if bool_decide (Name first = []) then Err errNoInviteeName
           else
             hs ← hostBlocks bs;
             Ok (MkFile (default [] (config.GetFirst b0 !"Netname")) first hs)
       end.

(** ** Rendering *)

Definition kv (k : gostring) (v : gostring) : config.Entry := config.MkEntry k v.

(** The entries [writeBlock] prints, in order; [netname] is empty for host
    blocks. *)
Definition blockEntries (netname : gostring) (b : Block) : config.Entries :=
  [kv !"Name" (Name b)]
  ++ (if bool_decide (netname = []) then [] else [kv !"Netname" netname])
  ++ (kv !"ConnectTo" <$> ConnectTo b)
  ++ (if bool_decide (Address b = []) then [] else [kv !"Address" (Address b)])
  ++ (kv !"Ifconfig" <$> Ifconfig b)
  ++ (kv !"Route" <$> Route b)
  ++ Other b.

Definition separator : gostring := !"#---------------------------------------#".

Definition Render (f : File) : gostring :=
  config.Render (blockEntries (Netname f) (Invitee f))
  ++ (Hosts f ≫= fun h => separator ++ [nl] ++ config.Render (blockEntries [] h)).

(** ** Well-formed files *)

(** The keys with a field of their own. *)
Definition special (k : gostring) : bool :=
  EqualFold k !"Name" || EqualFold k !"Address" || EqualFold k !"ConnectTo"
  || EqualFold k !"Ifconfig" || EqualFold k !"Route" || EqualFold k !"Netname".

Record wfBlock (netname : gostring) (b : Block) : Prop := {
  wfb_entries : Forall config.wfEntry (blockEntries netname b);
  wfb_fits : Forall config.fits (blockEntries netname b);
  wfb_other : Forall (fun e => special (config.Key e) = false) (Other b)
}.

Record wfFile (f : File) : Prop := {
  wff_invitee : wfBlock (Netname f) (Invitee f);
  wff_hosts : Forall (wfBlock []) (Hosts f)
}.

(** ** Lemmas *)

Lemma addEntry_other es b : Forall (fun e => special (config.Key e) = false) es ->
  foldl addEntry b es = MkBlock (Name b) (Address b) (ConnectTo b) (Ifconfig b) (Route b) (Other b ++ es).
Proof.
  revert b. induction es as [|e es IH]; intros [n a c i r o] Hes; cbn [foldl]; [cbn; by rewrite app_nil_r|].
  apply Forall_cons in Hes as [He Hes]. unfold special in He. rewrite !orb_false_iff in He.
  destruct He as (((((E1 & E2) & E3) & E4) & E5) & E6).
  unfold addEntry at 2. rewrite E1, E2, E3, E4, E5, E6. rewrite IH by done. cbn. by rewrite <- app_assoc.
Qed.

Lemma addEntry_connect vs b :
  foldl addEntry b (kv !"ConnectTo" <$> vs) =
    MkBlock (Name b) (Address b) (ConnectTo b ++ vs) (Ifconfig b) (Route b) (Other b).
Proof.
  revert b. induction vs as [|v vs IH]; intros [n a c i r o]; rewrite ?fmap_cons; cbn [foldl]; [cbn; by rewrite app_nil_r|].
  unfold addEntry at 2. cbn [config.Key config.Value kv]. field_names. rewrite IH. cbn. by rewrite <- app_assoc.
Qed.

Lemma addEntry_ifconfig vs b :
  foldl addEntry b (kv !"Ifconfig" <$> vs) =
    MkBlock (Name b) (Address b) (ConnectTo b) (Ifconfig b ++ vs) (Route b) (Other b).
Proof.
  revert b. induction vs as [|v vs IH]; intros [n a c i r o]; rewrite ?fmap_cons; cbn [foldl]; [cbn; by rewrite app_nil_r|].
  unfold addEntry at 2. cbn [config.Key config.Value kv]. field_names. rewrite IH. cbn. by rewrite <- app_assoc.
Qed.

Lemma addEntry_route vs b :
  foldl addEntry b (kv !"Route" <$> vs) =
    MkBlock (Name b) (Address b) (ConnectTo b) (Ifconfig b) (Route b ++ vs) (Other b).
Proof.
  revert b. induction vs as [|v vs IH]; intros [n a c i r o]; rewrite ?fmap_cons; cbn [foldl]; [cbn; by rewrite app_nil_r|].
  unfold addEntry at 2. cbn [config.Key config.Value kv]. field_names. rewrite IH. cbn. by rewrite <- app_assoc.
Qed.

(** The entries of a block describe the block. *)
Lemma blockFromEntries_entries netname b : wfBlock netname b ->
  blockFromEntries (blockEntries netname b) = b.
Proof.
  intros [_ _ Ho]. unfold blockFromEntries, blockEntries. rewrite !foldl_app.
  replace (foldl addEntry emptyBlock [kv !"Name" (Name b)])
    with (MkBlock (Name b) [] [] [] [] []) by (cbn [foldl]; unfold addEntry; cbn [config.Key config.Value kv]; by field_names).
  replace (foldl addEntry (MkBlock (Name b) [] [] [] [] [])
             (if bool_decide (netname = []) then [] else [kv !"Netname" netname]))
    with (MkBlock (Name b) [] [] [] [] [])
    by (case_bool_decide; [done|cbn [foldl]; unfold addEntry; cbn [config.Key config.Value kv]; by field_names]).
  rewrite addEntry_connect. cbn [Name Address ConnectTo Ifconfig Route Other app].
  replace (foldl addEntry (MkBlock (Name b) [] (ConnectTo b) [] [] [])
             (if bool_decide (Address b = []) then [] else [kv !"Address" (Address b)]))
    with (MkBlock (Name b) (Address b) (ConnectTo b) [] [] []).
  2:{ case_bool_decide as E; [by rewrite E|cbn [foldl]; unfold addEntry; cbn [config.Key config.Value kv]; by field_names]. }
  rewrite addEntry_ifconfig. cbn [Name Address ConnectTo Ifconfig Route Other app].
  rewrite addEntry_route. cbn [Name Address ConnectTo Ifconfig Route Other app].
  rewrite addEntry_other by done. by destruct b.
Qed.

Lemma parseConfigLine_render e : config.wfEntry e -> config.fits e ->
  parseConfigLine (config.renderLine e) = Ok e.
Proof.
  intros Hw Hf. pose proof (config.renderLine_trimmed e Hw) as Ht.
  pose proof (config.notComment_renderLine e Hw) as Hc.
  destruct (config.scanLine_renderLine e Hw Hf) as [Hn Hl].
  unfold parseConfigLine, config.Parse, scanLines. rewrite splitByte_none by done. simpl.
  rewrite decide_False by tauto. destruct (Z.ltb_spec maxLine (Z.of_nat (length (config.renderLine e)))); [lia|].
  rewrite dropCR_trimmed by done. cbn [config.parseLines]. rewrite TrimSpace_id by done.
  rewrite decide_False by done. by rewrite config.parseLine_renderLine.
Qed.

(** One rendered entry, as the scan loop sees it. *)
Lemma scanBlocks_entry e ls blocks current : config.wfEntry e -> config.fits e ->
  scanBlocks (config.renderLine e :: ls) blocks current =
    if EqualFold (config.Key e) !"Name" && negb (bool_decide (current = []))
    then scanBlocks ls (flush blocks current) [e]
    else scanBlocks ls blocks (current ++ [e]).
Proof.
  intros Hw Hf. cbn [scanBlocks]. rewrite TrimSpace_id by by apply config.renderLine_trimmed.
  pose proof (config.notComment_renderLine e Hw) as Hc.
  rewrite bool_decide_eq_false_2 by tauto.
  destruct (HasPrefix (config.renderLine e) !"#") eqn:E; [tauto|].
  by rewrite parseConfigLine_render.
Qed.

Definition notName (e : config.Entry) : Prop := EqualFold (config.Key e) !"Name" = false.

Lemma scanBlocks_entries es ls blocks current :
  Forall config.wfEntry es -> Forall config.fits es -> Forall notName es ->
  scanBlocks ((config.renderLine <$> es) ++ ls) blocks current = scanBlocks ls blocks (current ++ es).
Proof.
  intros Hw Hf Hn. revert current. induction es as [|e es IH]; intros current.
  - by rewrite app_nil_r.
  - apply Forall_cons in Hw as [He Hw], Hf as [Hfe Hf], Hn as [Hne Hn].
    rewrite fmap_cons. cbn [app]. rewrite scanBlocks_entry by done. rewrite Hne. cbn [andb].
    rewrite IH by done. by rewrite <- app_assoc.
Qed.

(** Only the first entry of a block is a Name. *)
Lemma blockEntries_tail netname b : wfBlock netname b ->
  exists es, blockEntries netname b = kv !"Name" (Name b) :: es /\ Forall notName es.
Proof.
  intros [_ _ Ho]. eexists. split; [reflexivity|].
  assert (forall k (vs : list gostring), EqualFold k !"Name" = false -> Forall notName (kv k <$> vs)) as Hk.
  { intros k vs Hk. apply Forall_fmap, Forall_true. intros v. exact Hk. }
  repeat (apply Forall_app; split).
  - case_bool_decide; [constructor|]. apply (Hk _ [netname]). by field_names.
  - apply Hk. by field_names.
  - case_bool_decide; [constructor|]. apply (Hk _ [Address b]). by field_names.
  - apply Hk. by field_names.
  - apply Hk. by field_names.
  - eapply Forall_impl; [exact Ho|]. intros e He. unfold special in He. unfold notName.
    rewrite !orb_false_iff in He. tauto.
Qed.

Lemma scanBlocks_block netname b ls blocks : wfBlock netname b ->
  scanBlocks ((config.renderLine <$> blockEntries netname b) ++ ls) blocks []
  = scanBlocks ls blocks (blockEntries netname b).
Proof.
  intros Hb. destruct (blockEntries_tail netname b Hb) as (es & E & Hn).
  destruct Hb as [Hw Hf _]. rewrite E in *.
  apply Forall_cons in Hw as [He Hw], Hf as [Hfe Hf]. rewrite fmap_cons. cbn [app].
  rewrite scanBlocks_entry by done. rewrite andb_false_r. by rewrite scanBlocks_entries.
Qed.

(** The lines of a rendered file. *)
Definition fileLines (f : File) : list gostring :=
  (config.renderLine <$> blockEntries (Netname f) (Invitee f))
  ++ (Hosts f ≫= fun h => separator :: (config.renderLine <$> blockEntries [] h)).

Lemma Render_lines f : Render f = unlines (fileLines f).
Proof.
  unfold Render, fileLines. rewrite unlines_app, config.Render_unlines. f_equal.
  induction (Hosts f) as [|h hs IH]; [done|]. rewrite !bind_cons, unlines_app, IH.
  f_equal. rewrite unlines_cons, config.Render_unlines. done.
Qed.

Lemma blockEntries_ne netname b : bool_decide (blockEntries netname b = []) = false.
Proof. by apply bool_decide_eq_false_2. Qed.

Lemma scanBlocks_hosts hs blocks current : Forall (wfBlock []) hs -> current <> [] ->
  exists bs cur, scanBlocks (hs ≫= fun h => separator :: (config.renderLine <$> blockEntries [] h)) blocks current
    = Ok (bs, cur) /\ flush bs cur = flush blocks current ++ (blockEntries [] <$> hs).
Proof.
  intros Hhs. revert blocks current. induction Hhs as [|h hs Hh Hhs IH]; intros blocks current Hc.
  - exists blocks, current. split; [done|]. by rewrite app_nil_r.
  - rewrite bind_cons. cbn [app].
    replace (scanBlocks (separator :: _) blocks current)
      with (scanBlocks ((config.renderLine <$> blockEntries [] h)
              ++ (hs ≫= fun h => separator :: (config.renderLine <$> blockEntries [] h))) (flush blocks current) []).
    + rewrite scanBlocks_block by done.
      destruct (IH (flush blocks current) (blockEntries [] h)) as (bs & cur & E & Ef); [done|].
      exists bs, cur. split; [exact E|]. rewrite Ef. unfold flush at 1. rewrite blockEntries_ne.
      rewrite fmap_cons, <- app_assoc. done.
    + cbn [scanBlocks]. by replace (TrimSpace separator) with separator by (vm_compute; reflexivity).
Qed.

Lemma wfBlock_Name netname b : wfBlock netname b -> Name b <> [].
Proof. intros [Hw _ _]. apply Forall_cons in Hw as [He _]. apply He. Qed.

Lemma hostBlocks_entries hs : Forall (wfBlock []) hs -> hostBlocks (blockEntries [] <$> hs) = Ok hs.
Proof.
  induction 1 as [|h hs Hh Hhs IH]; [done|]. rewrite fmap_cons. cbn [hostBlocks].
  rewrite blockFromEntries_entries by done.
  rewrite bool_decide_eq_false_2 by by eapply wfBlock_Name. by rewrite IH.
Qed.

Lemma netname_entries netname b : wfBlock netname b ->
  default [] (config.GetFirst (blockEntries netname b) !"Netname") = netname.
Proof.
  intros [_ _ Ho]. unfold blockEntries. cbn [app config.GetFirst config.Key kv]. field_names. cbv iota.
  case_bool_decide as En.
  - subst netname. cbn [app].
    assert (forall es, Forall (fun e => EqualFold (config.Key e) !"Netname" = false) es ->
              config.GetFirst es !"Netname" = None) as Hno.
    { induction 1 as [|e es He _ IH]; [done|]. cbn [config.GetFirst]. by rewrite He. }
    rewrite Hno; [done|].
    assert (forall k (vs : list gostring), EqualFold k !"Netname" = false ->
              Forall (fun e => EqualFold (config.Key e) !"Netname" = false) (kv k <$> vs)) as Hk.
    { intros k vs Hk. apply Forall_fmap, Forall_true. intros v. exact Hk. }
    repeat (apply Forall_app; split).
    + apply Hk. by field_names.
    + case_bool_decide; [constructor|]. apply (Hk _ [Address b]). by field_names.
    + apply Hk. by field_names.
    + apply Hk. by field_names.
    + eapply Forall_impl; [exact Ho|]. intros e He. unfold special in He. rewrite !orb_false_iff in He. tauto.
  - cbn [app config.GetFirst config.Key config.Value kv]. by field_names.
Qed.

Lemma fileLines_scan f : wfFile f -> Forall (fun l => scanLine l /\ trimmed l) (fileLines f).
Proof.
  intros [Hi Hh]. assert (forall n b, wfBlock n b ->
    Forall (fun l => scanLine l /\ trimmed l) (config.renderLine <$> blockEntries n b)) as Hb.
  { intros n b [Hw Hf _]. apply Forall_fmap, Forall_forall. intros e He.
    rewrite Forall_forall in Hw, Hf. split; [apply config.scanLine_renderLine|apply config.renderLine_trimmed]; auto. }
  unfold fileLines. apply Forall_app. split; [auto|].
  induction Hh as [|h hs Hh' _ IH]; [constructor|]. rewrite bind_cons. apply Forall_app. split; [|exact IH].
  constructor; [|auto]. split; apply (bool_decide_unpack _); vm_compute; exact I.
Qed.

Lemma ParseFile_Render f : wfFile f -> ParseFile (Render f) = Ok f.
Proof.
  intros Hf. pose proof (fileLines_scan f Hf) as Hs. destruct Hf as [Hi Hh].
  unfold ParseFile. rewrite Render_lines, scanLines_unlines.
  2:{ eapply Forall_impl; [exact Hs|]. naive_solver. }
  replace (dropCR <$> fileLines f) with (fileLines f).
  2:{ clear Hi Hh. induction Hs as [|l ls [_ Ht] _ IH]; [done|].
      rewrite fmap_cons, <- IH. by rewrite dropCR_trimmed. }
  unfold fileLines. rewrite scanBlocks_block by done.
  destruct (scanBlocks_hosts (Hosts f) [] (blockEntries (Netname f) (Invitee f))) as (bs & cur & E & Ef);
    [done|done|].
  rewrite E. cbn [mbind result_bind]. rewrite Ef. unfold flush. rewrite blockEntries_ne. cbn [app].
  rewrite blockFromEntries_entries by done.
  rewrite bool_decide_eq_false_2 by by eapply wfBlock_Name.
  rewrite hostBlocks_entries by done. cbn [mbind result_bind].
  rewrite netname_entries by done. by destruct f.
Qed.

(** C34.  An invitation file survives rendering and parsing: for every file
    whose entries are what the configuration parser can produce and whose
    extra keys are not among the keys with a field of their own, parsing the
    rendered text gives the file back, with its blocks in order and the
    Netname taken from the invitee's block. *)
Theorem invitation_file_roundtrip f : wfFile f -> ParseFile (Render f) = Ok f.
Proof. apply ParseFile_Render. Qed.
End files.

(** ** Concrete files *)

Definition demoFile : File := MkFile !"mynet"
  (MkBlock !"bob" [] [!"alice"] [!"10.42.0.7/24"] [!"10.0.0.0/8"; !"::/0"] [kv !"Mode" !"switch"])
  [MkBlock !"alice" !"vpn.example.org" [] [] [] [kv !"Port" !"655"; kv !"Ed25519PublicKey" !"AAAA"]].

(** A decidable form of [config.wfEntry]. *)
Definition entryOk `{Unicode} (e : config.Entry) : Prop :=
  config.Key e <> [] /\ trimmed (config.Key e) /\ (config.eqSign ∉ config.Key e)
  /\ (nl ∉ config.Key e) /\ head (config.Key e) <> Some (to_byte 35)
  /\ config.canonicalKey (config.Key e) = config.Key e
  /\ config.Value e <> [] /\ trimmed (config.Value e) /\ (nl ∉ config.Value e).

#[global] Instance entryOk_dec `{Unicode} e : Decision (entryOk e).
Proof. unfold entryOk. apply _. Defined.

Lemma entryOk_wf `{Unicode} es : Forall entryOk es -> Forall config.wfEntry es.
Proof.
  intros Hes. eapply Forall_impl; [exact Hes|]. intros e (? & ? & ? & ? & ? & ? & ? & ? & ?). by split.
Qed.

Lemma invitation_file_roundtrip_witness : ParseFile (Render demoFile) = Ok demoFile.
Proof.
  apply (invitation_file_roundtrip demoFile). split; [split|].
  - apply entryOk_wf, (bool_decide_unpack _). vm_compute. exact I.
  - apply (bool_decide_unpack _). vm_compute. exact I.
  - apply (bool_decide_unpack _). vm_compute. exact I.
  - apply Forall_cons. split; [|constructor]. split.
    + apply entryOk_wf, (bool_decide_unpack _). vm_compute. exact I.
    + apply (bool_decide_unpack _). vm_compute. exact I.
    + apply (bool_decide_unpack _). vm_compute. exact I.
Defined.

(** ** URLs *)

(** The URLs that have a textual form. *)
Record wfURL (u : URL) : Prop := {
  wfu_host : Host u <> [] /\ (slash ∉ Host u);
  wfu_port : (0 < Port u <= 65535)%Z;
  wfu_hash : length (KeyHash u) = keyHashLen;
  wfu_cookie : Cookie u <> []
}.

Lemma ParseURL_string u : wfURL u -> ParseURL (urlString u) = Ok u.
Proof.
  destruct u as [h p k c]. intros [[Hh Hs] Hp Hk Hc]. simpl in *. unfold ParseURL, urlString.
  cbn [Host Port KeyHash Cookie].
  rewrite (proj2 (cutByte_Some slash _ (h ++ colon :: Itoa p) (k ++ c))).
  2:{ split; [by rewrite <- app_assoc|]. rewrite not_elem_of_app, not_elem_of_cons. split_and!; [done| |].
      - by vm_compute.
      - apply Itoa_notin. right. split; [by vm_compute|left; by vm_compute]. }
  rewrite (proj2 (cutLastByte_Some colon _ h (Itoa p))).
  2:{ split; [done|]. apply Itoa_notin. right. split; [by vm_compute|right; by vm_compute]. }
  rewrite bool_decide_eq_false_2 by done.
  rewrite Atoi_Itoa by (unfold is_int64, min_int64, max_int64; lia).
  destruct (Z.leb_spec p 0), (Z.ltb_spec 65535 p); try lia. cbn [orb].
  rewrite length_app, Hk.
  assert (0 < length c) by (destruct c; [done|]; cbn [length]; lia).
  rewrite (bool_decide_eq_false_2 (keyHashLen + length c <= keyHashLen)) by lia.
  rewrite <- Hk, drop_app_length, take_app_length. by rewrite bool_decide_eq_false_2.
Qed.

Lemma ParseURL_wf s u : ParseURL s = Ok u -> wfURL u.
Proof.
  unfold ParseURL. destruct (cutByte slash s) as [[hp secret]|] eqn:Es; [|done].
  apply cutByte_Some in Es as [_ Hs]. destruct (cutLastByte colon hp) as [[h ps]|] eqn:Ec; [|done].
  apply cutLastByte_Some in Ec as [-> _]. case_bool_decide; [done|].
  destruct (Atoi ps) as [p|]; [|done]. destruct (Z.leb_spec p 0), (Z.ltb_spec 65535 p); try done. cbn [orb].
  case_bool_decide; [done|]. case_bool_decide; [done|]. intros [= <-]. split; simpl; try done.
  - split; [done|]. intros Hin. apply Hs, elem_of_app. by left.
  - rewrite length_take. lia.
Qed.

(** C35.  Invitation URLs: [ParseURL] accepts exactly the texts of URLs with
    a host, a port between 1 and 65535, a key hash of 43 characters and a
    cookie, up to the spelling of the port, and it reads back every URL that
    [BuildURL] makes from a key and a fresh cookie (the host may itself
    contain colons). *)
Theorem invitation_url_roundtrip `{SHA256} host port pub buf :
  host <> [] -> slash ∉ host -> (0 < port <= 65535)%Z -> length buf = cookieBytes ->
  let u := BuildURL host port pub (NewCookie buf) in
  ParseURL (urlString u) = Ok u
  /\ (forall s v, ParseURL s = Ok v -> wfURL v /\ ParseURL (urlString v) = Ok v).
Proof.
  intros Hh Hs Hp Hb u. split.
  - apply ParseURL_string. split; simpl; [done|done| |].
    + unfold keys.Hash. by rewrite base64_lemmas.EncodeToString_raw_length, sha256_length.
    + intros E%base64_lemmas.EncodeToString_nil. by rewrite E in Hb.
  - intros s v Hv%ParseURL_wf. split; [done|]. by apply ParseURL_string.
Qed.

Lemma invitation_url_roundtrip_witness :
  ParseURL (urlString (@BuildURL toy.sha !"[2001:db8::1]" 655 (keys.Public demoPriv)
                         (NewCookie (replicate 24 (to_byte 7)))))
  = Ok (@BuildURL toy.sha !"[2001:db8::1]" 655 (keys.Public demoPriv) (NewCookie (replicate 24 (to_byte 7)))).
Proof.
  apply (@invitation_url_roundtrip toy.sha).
  - discriminate.
  - apply (bool_decide_unpack _). vm_compute. exact I.
  - lia.
  - reflexivity.
Defined.

End invite.
