(* ===== verification/Bufio.v ===== *)
(** * bufio.Writer over a connection

    The servers answer through a [bufio.Writer] whose buffer has the default
    size.  A connection accepts some prefix of what is written to it; once it
    accepts less than everything the writer keeps failing. *)

From Stdlib Require Import ZArith Lia.
From stdpp Require Import base tactics list.
From S2P Require Import Prelude.

Local Open Scope nat_scope.

Module bufio.

Definition defaultBufSize : nat := 4096.

(** [wire] is what the connection has taken so far. *)
Record Writer := MkWriter { buffered : bytes; wire : bytes; failed : bool }.

Definition NewWriter : Writer := MkWriter [] [] false.

Section writer.
(** How many of the given bytes the connection accepts, after those it has
    taken already: at most all of them. *)
Context (accepts : bytes -> bytes -> nat).

(** [b.Flush]: whether it succeeds. *)
Definition Flush (b : Writer) : Writer * bool :=
  if failed b then (b, false)
  else if bool_decide (buffered b = []) then (b, true)
  else
    let n := Nat.min (accepts (wire b) (buffered b)) (length (buffered b)) in
    let b' := MkWriter (drop n (buffered b)) (wire b ++ take n (buffered b)) (n <? length (buffered b)) in
    (b', n =? length (buffered b)).

(** One write to the connection, past the empty buffer. *)
Definition direct (s : bytes) (b : Writer) : Writer :=
  let n := Nat.min (accepts (wire b) s) (length s) in MkWriter [] (wire b ++ take n s) (n <? length s).

(** The loop of [b.Write] ([big]) and [b.WriteString]: while the rest does not
    fit, [Write] hands it to the connection if nothing is buffered; else the
    buffer is filled and flushed.  What fits in the end stays buffered.  Every
    round but the last takes at least one byte or empties the buffer, so
    [2 * length s + 2] rounds are enough. *)
Fixpoint fill (big : bool) (fuel : nat) (s : bytes) (b : Writer) : Writer * bool :=
  match fuel with
  | O => (b, false)
  | S fuel =>
      let room := defaultBufSize - length (buffered b) in
      if failed b then (b, false)
      else if length s <=? room then (MkWriter (buffered b ++ s) (wire b) false, true)
      else if big && bool_decide (buffered b = []) then fill big fuel [] (direct s b)
      else
        let '(b, _) := Flush (MkWriter (buffered b ++ take room s) (wire b) false) in
        fill big fuel (drop room s) b
  end.
Definition Write (s : bytes) (b : Writer) : Writer * bool := fill true (2 * length s + 2) s b.
Definition WriteString (s : bytes) (b : Writer) : Writer * bool := fill false (2 * length s + 2) s b.

(** What is on the wire and in the buffer together. *)
Definition pending (b : Writer) : bytes := wire b ++ buffered b.

Lemma Flush_pending b : pending (Flush b).1 = pending b.
Proof.
  unfold Flush, pending. destruct (failed b); [done|]. case_bool_decide; [done|]. cbn. by rewrite <- app_assoc, take_drop.
Qed.

Lemma Flush_ok b b' : Flush b = (b', true) -> wire b' = pending b /\ buffered b' = [] /\ failed b' = false.
Proof.
  unfold Flush, pending. destruct (failed b) eqn:Ef; [done|]. case_bool_decide as Hn.
  - intros [= <-]. by rewrite Hn, app_nil_r.
  - set (n := Nat.min _ _). intros [= <- E]. apply Nat.eqb_eq in E. cbn. rewrite E, take_ge, drop_ge by lia.
    split_and!; try done. apply Nat.ltb_ge. lia.
Qed.

Lemma Flush_failed b b' : Flush b = (b', false) -> failed b' = true.
Proof.
  unfold Flush. destruct (failed b) eqn:Ef; [by intros [= <-]|]. case_bool_decide; [done|].
  set (n := Nat.min _ _). assert (n <= length (buffered b)) by lia. intros [= <- E]. cbn. apply Nat.eqb_neq in E.
  apply Nat.ltb_lt. lia.
Qed.

(** The buffer never outgrows its size. *)
Definition wf (b : Writer) : Prop := length (buffered b) <= defaultBufSize.

Lemma Flush_wf b : wf b -> wf (Flush b).1.
Proof. unfold wf, Flush. destruct (failed b); [done|]. case_bool_decide; [done|]. cbn. rewrite length_drop. lia. Qed.

(** What a write does: the bytes reach the wire in order, cut off somewhere if
    the connection fails, or they end up in the buffer. *)
Definition written (s : bytes) (b b' : Writer) (ok : bool) : Prop :=
  wf b' /\ (ok = true -> failed b' = false /\ pending b' = pending b ++ s) /\
  (ok = false -> failed b' = true /\ exists n, wire b' = take n (pending b ++ s)).

(** A writer that has failed stays as it is. *)
Lemma fill_stuck big fuel s b : failed b = true -> fill big fuel s b = (b, false).
Proof. intros Hf. destruct fuel; cbn [fill]; [done|]. by rewrite Hf. Qed.

Lemma direct_spec big fuel s b : buffered b = [] -> failed b = false -> 1 <= fuel ->
  let '(b', ok) := fill big fuel [] (direct s b) in written s b b' ok.
Proof.
  intros Hb Hf Hfuel. unfold direct. set (n := Nat.min _ _). assert (n <= length s) as Hn by lia.
  assert (pending b = wire b) as Ep by (unfold pending; by rewrite Hb, app_nil_r).
  destruct (Nat.ltb_spec n (length s)) as [Hlt|Hge].
  - rewrite fill_stuck by done. unfold written, wf. cbn [failed buffered wire]. split_and!; [cbn; lia|done|].
    intros _. split; [done|]. exists (length (wire b) + n). by rewrite Ep, take_app_add.
  - destruct fuel as [|fuel]; [lia|]. cbn [fill failed buffered wire length Nat.sub Nat.leb app].
    unfold written, wf, pending. cbn [failed buffered wire]. split_and!; [cbn; lia| |done].
    intros _. split; [done|]. rewrite Hb, app_nil_r, app_nil_r. f_equal. rewrite take_ge by lia. done.
Qed.

Lemma fill_spec big fuel s b : wf b -> (if decide (length (buffered b) = defaultBufSize) then 2 * length s + 2 else 2 * length s + 1) <= fuel ->
  let '(b', ok) := fill big fuel s b in written s b b' ok.
Proof.
  unfold written. revert s b. induction fuel as [|fuel IH]; intros s b Hwf Hfuel; [case_decide; lia|]. cbn [fill]. unfold wf in *.
  destruct (failed b) eqn:Ef.
  { split_and!; try done. intros _. split; [done|]. exists (length (wire b)). unfold pending.
    by rewrite <- app_assoc, take_app_length. }
  destruct (Nat.leb_spec (length s) (defaultBufSize - length (buffered b))) as [Hs|Hs].
  { split_and!; [cbn; rewrite length_app; lia| |done]. intros _. split; [done|]. unfold pending. cbn. by rewrite <- app_assoc. }
  case_bool_decide as Hb; [destruct big; cbn [andb]|rewrite andb_false_r].
  { apply direct_spec; [done|done|]. case_decide; lia. }
  all: set (room := defaultBufSize - length (buffered b)) in *;
    assert (room + length (buffered b) = defaultBufSize) as Hroom by (unfold room; lia); clearbody room;
    set (b1 := MkWriter (buffered b ++ take room s) (wire b) false);
    assert (length (buffered b1) = defaultBufSize) as Hl1 by (cbn [b1 buffered]; rewrite length_app, length_take; lia);
    assert (pending b1 ++ drop room s = pending b ++ s) as Hp
      by (unfold pending, b1; cbn [buffered wire]; rewrite <- !app_assoc; by rewrite take_drop);
    destruct (Flush b1) as [b2 [|]] eqn:Efl.
  1, 3: apply Flush_ok in Efl as (Hw2 & Hb2 & Hf2);
    specialize (IH (drop room s) b2); rewrite Hb2 in IH; cbn [length] in IH;
    destruct (decide (0 = defaultBufSize)) as [|_]; [done|];
    assert (pending b2 = pending b1) as E2 by (unfold pending at 1; by rewrite Hw2, Hb2, app_nil_r).
  1: destruct (fill false fuel (drop room s) b2) as [b' ok]. 2: destruct (fill big fuel (drop room s) b2) as [b' ok].
  1, 2: rewrite E2, Hp in IH; apply IH; [lia|]; rewrite length_drop; case_decide; lia.
  all: pose proof (Flush_pending b1) as Ep; pose proof (Flush_wf b1) as Hw1; rewrite Efl in Ep, Hw1; cbn [fst] in Ep, Hw1;
    apply Flush_failed in Efl; rewrite fill_stuck by done;
    (split_and!; [apply Hw1; unfold wf; lia|done|]); intros _; (split; [done|]); exists (length (wire b2));
    rewrite <- Hp, <- Ep; unfold pending; by rewrite <- app_assoc, take_app_length.
Qed.

Lemma WriteString_spec s b : wf b -> let '(b', ok) := WriteString s b in written s b b' ok.
Proof. intros Hwf. apply fill_spec; [done|]. case_decide; lia. Qed.

Lemma Write_spec s b : wf b -> let '(b', ok) := Write s b in written s b b' ok.
Proof. intros Hwf. apply fill_spec; [done|]. case_decide; lia. Qed.

(** A write followed by a flush: everything is on the wire, in order, or the
    writer has failed and a prefix is. *)
Definition sends (w : bytes -> Writer -> Writer * bool) (s : bytes) (b : Writer) : Writer * bool :=
  let '(b, ok) := w s b in if ok then Flush b else (b, false).

Lemma sends_spec w s b : (let '(b', ok) := w s b in written s b b' ok) ->
  let '(b', ok) := sends w s b in
  wf b' /\ (ok = true -> wire b' = pending b ++ s /\ buffered b' = [] /\ failed b' = false) /\
  (ok = false -> failed b' = true /\ exists n, wire b' = take n (pending b ++ s)).
Proof.
  unfold sends. destruct (w s b) as [b1 [|]]; intros (Hw & Hok & Hno); [|split_and!; try done; exact (Hno eq_refl)].
  destruct (Hok eq_refl) as [_ Hp]. pose proof (Flush_wf b1 Hw) as Hwf. pose proof (Flush_pending b1) as Ep.
  destruct (Flush b1) as [b2 [|]] eqn:Ef; cbn [fst] in *; split_and!; try done.
  - intros _. rewrite <- Hp. by apply Flush_ok in Ef.
  - intros _. split; [by eapply Flush_failed|]. exists (length (wire b2)). rewrite <- Hp, <- Ep. unfold pending. by rewrite take_app_length.
Qed.

(** A connection that takes everything never makes a write fail. *)
Lemma Flush_accepting b : (forall w s, length s <= accepts w s) -> failed b = false -> (Flush b).2 = true.
Proof.
  intros Ha Hf. unfold Flush. rewrite Hf. case_bool_decide; [done|]. cbn. apply Nat.eqb_eq. specialize (Ha (wire b) (buffered b)). lia.
Qed.

Lemma fill_accepting big fuel s b : (forall w s, length s <= accepts w s) -> failed b = false -> wf b ->
  (if decide (length (buffered b) = defaultBufSize) then 2 * length s + 2 else 2 * length s + 1) <= fuel -> (fill big fuel s b).2 = true.
Proof.
  intros Ha. revert s b. induction fuel as [|fuel IH]; intros s b Hf Hwf Hfuel; [case_decide; lia|]. cbn [fill]. rewrite Hf. unfold wf in *.
  destruct (Nat.leb_spec (length s) (defaultBufSize - length (buffered b))) as [Hs|Hs]; [done|].
  destruct (big && bool_decide (buffered b = [])).
  - apply IH; unfold direct; cbn [failed buffered length]; [apply Nat.ltb_ge; specialize (Ha (wire b) s); lia|lia|].
    destruct (decide (0 = defaultBufSize)) as [|_]; [done|]. case_decide; lia.
  - set (b1 := MkWriter _ _ false). pose proof (Flush_accepting b1 Ha eq_refl) as Hok.
    destruct (Flush b1) as [b2 ok] eqn:Efl. cbn [snd] in Hok. subst ok. apply Flush_ok in Efl as (_ & Hb2 & Hf2).
    apply IH; [done|unfold wf; rewrite Hb2; cbn; lia|]. rewrite Hb2, length_drop. cbn [length].
    destruct (decide (0 = defaultBufSize)) as [|_]; [done|]. case_decide; lia.
Qed.
End writer.
End bufio.
