(* ===== verification/Transport.v ===== *)
(** * The TCP transport and the encrypted invitation exchange

    internal/transport/transport.go (connection pool, dispatch on the first
    line, gossip stream, server side of INVITE2), internal/transport/client.go
    (client side) and internal/invite/crypto.go (session keys).  A connection
    is the sequence of bytes the peer sends and the bytes written back. *)

From Stdlib Require Import Ascii String ZArith Lia.
From stdpp Require Import base tactics list gmap strings.
From S2P Require Import Prelude.
From S2P Require Import GoStrings.
From S2P Require Import Base64.
From S2P Require Import Keys.
From S2P Require Import JSON.
From S2P Require Import JSONFacts.
From S2P Require Import JSONStrings.
From S2P Require Import JSONObjects.
From S2P Require Import Message.
From S2P Require Import Config.
From S2P Require Import Invite.

(** ** Session cryptography (internal/invite/crypto.go) *)

(** golang.org/x/crypto: X25519, HKDF-SHA256 and ChaCha20-Poly1305 with the
    all-zero nonce.  [x25519 k u] fails on low-order points. *)
Class SessionCrypto := {
  x25519 : bytes -> bytes -> option bytes;
  basepoint : bytes;
  hkdf : bytes -> bytes -> bytes -> bytes;
  aead_seal : bytes -> bytes -> bytes;
  aead_open : bytes -> bytes -> option bytes;
  x25519_length : forall k u p, x25519 k u = Some p -> length p = 32;
  x25519_comm : forall a b pa pb, x25519 a basepoint = Some pa -> x25519 b basepoint = Some pb ->
    x25519 a pb = x25519 b pa;
  hkdf_length : forall s c i, length (hkdf s c i) = 32;
  aead_open_seal : forall k m, length k = 32 -> aead_open k (aead_seal k m) = Some m
}.

Module invite_crypto.

Definition x25519PubLen : nat := 32.
Definition hkdfInfo : gostring := !"gsnet-invite-v1".
Definition KeySize : nat := 32.

Record Ephemeral := MkEphemeral { Pub : bytes; ephPriv : bytes }.

Section crypto.
Context `{SessionCrypto}.

(** [rnd] is the 32 bytes read from the random source. *)
Definition NewEphemeral (rnd : bytes) : option Ephemeral :=
  pub ← x25519 rnd basepoint; Some (MkEphemeral pub rnd).

Definition DeriveKey (e : Ephemeral) (peerPub cookie : bytes) : option bytes :=
  shared ← x25519 (ephPriv e) peerPub; Some (hkdf shared cookie hkdfInfo).

(** [chacha20poly1305.New] rejects keys of the wrong size. *)
Definition Seal (key plaintext : bytes) : option bytes :=
  if bool_decide (length key = KeySize) then Some (aead_seal key plaintext) else None.
Definition Open (key ciphertext : bytes) : option bytes :=
  if bool_decide (length key = KeySize) then aead_open key ciphertext else None.
End crypto.

Definition EphemeralPubFromBase64 (s : gostring) : option bytes :=
  b ← base64.DecodeString base64.StdEncoding s;
  if bool_decide (length b = x25519PubLen) then Some b else None.

Definition EphemeralPubToBase64 (pub : bytes) : gostring :=
  base64.EncodeToString base64.StdEncoding pub.

Lemma EphemeralPub_roundtrip pub : length pub = 32 ->
  EphemeralPubFromBase64 (EphemeralPubToBase64 pub) = Some pub.
Proof.
  intros Hl. unfold EphemeralPubFromBase64, EphemeralPubToBase64.
  rewrite base64_lemmas.DecodeString_EncodeToString by auto with gsnet. simpl. by rewrite bool_decide_eq_true_2.
Qed.

(** Both ends of a session derive the same key. *)
Lemma DeriveKey_agree `{SessionCrypto} ra rb ea eb cookie :
  NewEphemeral ra = Some ea -> NewEphemeral rb = Some eb ->
  DeriveKey ea (Pub eb) cookie = DeriveKey eb (Pub ea) cookie.
Proof.
  unfold NewEphemeral, DeriveKey. intros Ha Hb.
  destruct (x25519 ra basepoint) as [pa|] eqn:Ea; [|done].
  destruct (x25519 rb basepoint) as [pb|] eqn:Eb; [|done].
  injection Ha as <-. injection Hb as <-. simpl. by rewrite (x25519_comm ra rb pa pb).
Qed.

Lemma Open_Seal `{SessionCrypto} key m ct : Seal key m = Some ct -> Open key ct = Some m.
Proof.
  unfold Seal, Open. case_bool_decide; [|done]. intros [= <-]. by apply aead_open_seal.
Qed.
End invite_crypto.

Module transport.
Import invite_crypto.

(** The byte string the inviter signs. *)
Definition sigPayload (serverPub : bytes) (cookie : gostring) : bytes :=
  !"gsnet-invite-v1" ++ [to_byte 0] ++ serverPub ++ [to_byte 0] ++ cookie.

(** ** Server *)

Inductive serverError := errUnknownCommand (line : gostring) | errReadBody.

(** What ends up in an ERR reply when a step other than the handler fails. *)
Inductive failure := failClientPub | failEphemeral | failDerive | failSeal.

Section server.
Context `{Ed25519, SessionCrypto}.
Context (errText : failure -> gostring) (b64Err : gostring -> gostring).
Context (EdPriv : keys.Ed25519Private).
(** The daemon's callbacks, over the daemon's state; [None] if not enabled.
    An error is its text. *)
Context {S : Type}.
Context (InviteGet : option (gostring -> S -> result gostring bytes)).
Context (InviteJoin : option (gostring -> gostring -> bytes -> S -> S * result gostring bytes)).

Definition errReply (msg : gostring) : gostring := !"ERR " ++ msg ++ [nl].

(** [rnd] is the randomness of the server's ephemeral key. *)
Definition encryptAndReply (rnd : bytes) (cookie : gostring) (clientPub plaintext : bytes) : gostring :=
  match NewEphemeral rnd with
  | None => errReply (errText failEphemeral)
  | Some server =>
      match DeriveKey server clientPub cookie with
      | None => errReply (errText failDerive)
      | Some key =>
          match Seal key plaintext with
          | None => errReply (errText failSeal)
          | Some ct =>
              !"OK " ++ EphemeralPubToBase64 (Pub server) ++ sp
                :: base64.EncodeToString base64.StdEncoding (keys.Sign EdPriv (sigPayload (Pub server) cookie))
                ++ nl :: base64.EncodeToString base64.StdEncoding ct ++ [nl]
          end
      end
  end.

Definition handleInvite2Get (rnd : bytes) (rest : gostring) (st : S) : gostring :=
  match Fields rest with
  | [cookie; clientPubB64] =>
      match InviteGet with
      | None => errReply !"invite not enabled"
      | Some get =>
          match EphemeralPubFromBase64 clientPubB64 with
          | None => errReply (errText failClientPub)
          | Some clientPub =>
              match get cookie st with
              | Err e => errReply e
              | Ok body => encryptAndReply rnd cookie clientPub body
              end
          end
      end
  | _ => errReply !"malformed GET"
  end.

(** [input] is what follows the first line. *)
Definition handleInvite2Join (rnd : bytes) (rest : gostring) (input : bytes) (st : S)
  : S * result serverError gostring :=
  match Fields rest with
  | [cookie; inviteeName; clientPubB64] =>
      match InviteJoin with
      | None => (st, Ok (errReply !"invite not enabled"))
      | Some join =>
          match EphemeralPubFromBase64 clientPubB64 with
          | None => (st, Ok (errReply (errText failClientPub)))
          | Some clientPub =>
              match readLine input with
              | None => (st, Err errReadBody)
              | Some (bodyLine, _) =>
                  match base64.DecodeString base64.StdEncoding (TrimRightCRLF bodyLine) with
                  | None => (st, Ok (errReply (!"base64: " ++ b64Err bodyLine)))
                  | Some hostConfig =>
                      let '(st, r) := join cookie inviteeName hostConfig st in
                      match r with
                      | Err e => (st, Ok (errReply e))
                      | Ok body => (st, Ok (encryptAndReply rnd cookie clientPub body))
                      end
                  end
              end
          end
      end
  | _ => (st, Ok (errReply !"malformed JOIN"))
  end.

(** ** The gossip stream *)

Section gossip.
Context `{Unicode}.

(** A line that is not an envelope is logged and skipped.  Unlike
    [gossip.Decode], the transport does not insist on origin and kind. *)
Definition gossipLine (line : gostring) : option message.Envelope :=
  ok (json.unmarshalObject message.setEnvelope message.emptyEnvelope line).

(** The envelopes handed to [OnGossip], for the bytes of one connection. *)
Definition handleGossip (input : bytes) : list message.Envelope :=
  omap gossipLine ((fun l => l ++ [nl]) <$> removelast (splitByte nl input)).

(** What [Broadcast] writes to each connection. *)
Definition broadcastLine (env : message.Envelope) : option bytes :=
  data ← message.Encode env; Some (data ++ [nl]).

(** The first line of a connection decides. *)
Inductive served :=
| ServedGossip (envs : list message.Envelope)
| ServedReply (reply : gostring)
| ServedError (e : serverError).

Definition handleInbound (rnd : bytes) (input : bytes) (st : S) : S * option served :=
  match readLine input with
  | None => (st, None)
  | Some (first, input) =>
      let line := TrimRightCRLF first in
      if bool_decide (line = !"GOSSIP") then (st, Some (ServedGossip (handleGossip input)))
      else if HasPrefix line !"INVITE2 GET " then
        (st, Some (ServedReply (handleInvite2Get rnd (TrimPrefix line !"INVITE2 GET ") st)))
      else if HasPrefix line !"INVITE2 JOIN " then
        let '(st, r) := handleInvite2Join rnd (TrimPrefix line !"INVITE2 JOIN ") input st in
        (st, Some (match r with Ok s => ServedReply s | Err e => ServedError e end))
      else (st, Some (ServedError (errUnknownCommand line)))
  end.
End gossip.
End server.

(** ** Client *)

Inductive clientError :=
| errRead | errServerReplied (line : gostring) | errMalformedOK | errServerPub | errSigB64 | errCtB64
| errDerive | errDecrypt | errNoInviterKey | errKeyHash | errBadSignature.

Section client.
Context `{Unicode, Ed25519, SHA256, SessionCrypto}.

Definition findInviterEd25519Pub (file : bytes) : option keys.Ed25519Public :=
  f ← ok (invite.ParseFile file);
  h ← head (invite.Hosts f);
  s ← config.GetFirst (invite.Other h) !"Ed25519PublicKey";
  ok (keys.ParseEd25519PublicBase64 (TrimSpace s)).

Definition toErr {A} (e : clientError) (o : option A) : result clientError A :=
  match o with Some a => Ok a | None => Err e end.

Definition parseEncryptedReply (rest : bytes) (eph : Ephemeral) (cookie expectedKeyHash statusLine : gostring)
  : result clientError bytes :=
  match Fields (TrimPrefix statusLine !"OK ") with
  | [p0; p1] =>
      serverPub ← toErr errServerPub (EphemeralPubFromBase64 p0);
      sig ← toErr errSigB64 (base64.DecodeString base64.StdEncoding p1);
      '(ctLine, _) ← toErr errRead (readLine rest);
      ct ← toErr errCtB64 (base64.DecodeString base64.StdEncoding (TrimRightCRLF ctLine));
      key ← toErr errDerive (DeriveKey eph serverPub cookie);
      pt ← toErr errDecrypt (Open key ct);
      inviterPub ← toErr errNoInviterKey (findInviterEd25519Pub pt);
      if negb (bool_decide (expectedKeyHash = []))
         && negb (bool_decide (keys.Hash inviterPub = expectedKeyHash)) then Err errKeyHash
      else if negb (keys.Verify inviterPub (sigPayload serverPub cookie) sig) then Err errBadSignature
      else Ok pt
  | _ => Err errMalformedOK
  end.

(** [roundtrip], on the bytes the server writes back. *)
Definition readReply (reply : bytes) (eph : Ephemeral) (cookie expectedKeyHash : gostring)
  : result clientError bytes :=
  '(statusLine, rest) ← toErr errRead (readLine reply);
  let statusLine := TrimRightCRLF statusLine in
  if negb (HasPrefix statusLine !"OK ") then Err (errServerReplied statusLine)
  else parseEncryptedReply rest eph cookie expectedKeyHash statusLine.

(** The command lines of [InviteGet] and [InviteJoin]. *)
Definition getCommand (eph : Ephemeral) (cookie : gostring) : gostring :=
  !"INVITE2 GET " ++ cookie ++ sp :: EphemeralPubToBase64 (Pub eph) ++ [nl].

Definition joinCommand (eph : Ephemeral) (cookie inviteeName : gostring) (hostConfig : bytes) : gostring :=
  !"INVITE2 JOIN " ++ cookie ++ sp :: inviteeName ++ sp :: EphemeralPubToBase64 (Pub eph)
    ++ nl :: base64.EncodeToString base64.StdEncoding hostConfig ++ [nl].
End client.

(** ** Lemmas: lines *)

Lemma TrimRightCRLF_line s : (nl ∉ s) -> (cr ∉ s) -> TrimRightCRLF (s ++ [nl]) = s.
Proof.
  intros Hn Hc. unfold TrimRightCRLF. rewrite reverse_app.
  change (reverse [nl]) with [nl]. cbn [app dropCRLF]. rewrite decide_True by by left.
  replace (dropCRLF (reverse s)) with (reverse s); [apply reverse_involutive|].
  destruct (reverse s) as [|b t] eqn:Er; [done|]. cbn [dropCRLF].
  assert (b ∈ s) as Hb by (apply elem_of_reverse; rewrite Er; left).
  rewrite decide_False; [done|]. by intros [-> | ->].
Qed.

Lemma plain_no_crlf s : Forall plainByte s -> (nl ∉ s) /\ (cr ∉ s).
Proof.
  intros Hs. rewrite Forall_forall in Hs.
  assert ((~ plainByte nl) /\ (~ plainByte cr)) as [Hn Hc]
    by (apply (bool_decide_unpack _); vm_compute; exact I).
  split; intros Hin; [apply Hn|apply Hc]; by apply Hs.
Qed.

Lemma b64_plain b : Forall plainByte (base64.EncodeToString base64.StdEncoding b).
Proof.
  eapply Forall_impl; [apply base64_lemmas.EncodeToString_chars|]. intros c Hc.
  destruct c as [[] [] [] [] [] [] [] []]; vm_compute in Hc |- *; done.
Qed.

Lemma b64_token b : b <> [] -> token (base64.EncodeToString base64.StdEncoding b).
Proof.
  intros Hb. apply token_plain; [|apply b64_plain]. by intros E%base64_lemmas.EncodeToString_nil.
Qed.

Lemma TrimPrefix_app p s : TrimPrefix (p ++ s) p = s.
Proof.
  unfold TrimPrefix. unfold HasPrefix. rewrite bool_decide_eq_true_2 by by exists s.
  apply drop_app_length.
Qed.

Lemma HasPrefix_app p s : HasPrefix (p ++ s) p = true.
Proof. apply bool_decide_eq_true. by exists s. Qed.

(** The line [prefix ++ words] as the server sees it. *)
Lemma command_line (prefix w rest : gostring) : (nl ∉ prefix) -> (cr ∉ prefix) -> (nl ∉ w) -> (cr ∉ w) ->
  readLine (prefix ++ w ++ nl :: rest) = Some (prefix ++ w ++ [nl], rest)
  /\ TrimRightCRLF (prefix ++ w ++ [nl]) = prefix ++ w.
Proof.
  intros H1 H2 H3 H4. rewrite !app_assoc. split.
  - apply readLine_line. set_solver.
  - apply TrimRightCRLF_line; set_solver.
Qed.

(** ** The exchange *)

Section exchange.
Context `{Unicode, Ed25519, SHA256, SessionCrypto}.

(** What the client checks once the reply has been taken apart. *)
Definition acceptReply (serverPub sig ct : bytes) (eph : Ephemeral) (cookie expected : gostring)
  : result clientError bytes :=
  key ← toErr errDerive (DeriveKey eph serverPub cookie);
  pt ← toErr errDecrypt (Open key ct);
  inviterPub ← toErr errNoInviterKey (findInviterEd25519Pub pt);
  if negb (bool_decide (expected = [])) && negb (bool_decide (keys.Hash inviterPub = expected))
  then Err errKeyHash
  else if negb (keys.Verify inviterPub (sigPayload serverPub cookie) sig) then Err errBadSignature
  else Ok pt.

Definition replyText (serverPub sig ct : bytes) : gostring :=
  !"OK " ++ EphemeralPubToBase64 serverPub ++ sp :: base64.EncodeToString base64.StdEncoding sig
    ++ nl :: base64.EncodeToString base64.StdEncoding ct ++ [nl].

(** The text of a reply is taken apart into what it was made of. *)
Lemma readReply_text serverPub sig ct eph cookie expected : length serverPub = 32 -> sig <> [] ->
  readReply (replyText serverPub sig ct) eph cookie expected
  = acceptReply serverPub sig ct eph cookie expected.
Proof.
  intros Hpl Hsig. set (sigB := base64.EncodeToString base64.StdEncoding sig).
  set (w := EphemeralPubToBase64 serverPub ++ sp :: sigB).
  set (ctB := base64.EncodeToString base64.StdEncoding ct).
  assert (Forall token [EphemeralPubToBase64 serverPub; sigB]) as Htok.
  { repeat apply Forall_cons_2; try apply Forall_nil_2; apply b64_token; [|done]. by destruct serverPub. }
  assert ((nl ∉ w) /\ (cr ∉ w)) as [Hw1 Hw2].
  { destruct (plain_no_crlf _ (b64_plain serverPub)) as [A1 A2], (plain_no_crlf _ (b64_plain sig)) as [B1 B2].
    unfold w, sigB, EphemeralPubToBase64. rewrite !elem_of_app, !elem_of_cons.
    split; intros [?|[E|?]]; try done; by vm_compute in E. }
  destruct (plain_no_crlf _ (b64_plain ct)) as [C1 C2].
  replace (replyText serverPub sig ct) with (!"OK " ++ w ++ nl :: ctB ++ [nl])
    by (unfold w, replyText; by rewrite <- app_assoc).
  unfold readReply.
  destruct (command_line !"OK " w (ctB ++ [nl])) as [E1 E2];
    [apply (bool_decide_unpack _); vm_compute; exact I.. |done|done|].
  rewrite E1. cbn [toErr mbind result_bind]. rewrite E2, HasPrefix_app. cbn [negb].
  unfold parseEncryptedReply. rewrite TrimPrefix_app.
  change w with (joinSp [EphemeralPubToBase64 serverPub; sigB]).
  rewrite Fields_joinSp by done. rewrite EphemeralPub_roundtrip by done. cbn [toErr mbind result_bind].
  unfold sigB. rewrite base64_lemmas.DecodeString_EncodeToString by auto with gsnet. cbn [toErr mbind result_bind].
  rewrite (readLine_line ctB []) by done. cbn [toErr mbind result_bind].
  rewrite TrimRightCRLF_line by done. unfold ctB. by rewrite base64_lemmas.DecodeString_EncodeToString by auto with gsnet.
Qed.

Lemma encryptAndReply_read errText priv rnd server eph cookie pt key expected :
  ed_genuine (keys.privRaw priv) ->
  NewEphemeral rnd = Some server -> DeriveKey server (Pub eph) cookie = Some key ->
  DeriveKey eph (Pub server) cookie = Some key ->
  findInviterEd25519Pub pt = Some (keys.Public priv) ->
  expected = [] \/ keys.Hash (keys.Public priv) = expected ->
  readReply (encryptAndReply errText priv rnd cookie (Pub eph) pt) eph cookie expected = Ok pt.
Proof.
  intros Hg Hs Hk Hk' Hfind Hexp. unfold encryptAndReply. rewrite Hs, Hk.
  assert (length key = 32) as Hkl.
  { unfold DeriveKey in Hk. destruct (x25519 _ _); [|done]. injection Hk as <-. apply hkdf_length. }
  assert (length (Pub server) = 32) as Hpl.
  { unfold NewEphemeral in Hs. destruct (x25519 rnd basepoint) eqn:E; [|done].
    injection Hs as <-. by eapply x25519_length. }
  destruct (Seal key pt) as [ct|] eqn:Hct; last first.
  { unfold Seal in Hct. by rewrite bool_decide_eq_true_2 in Hct. }
  fold (replyText (Pub server) (keys.Sign priv (sigPayload (Pub server) cookie)) ct).
  rewrite readReply_text; [|done|].
  2:{ intros E. apply (f_equal length) in E. unfold keys.Sign in E. by rewrite ed_sign_length in E. }
  unfold acceptReply. rewrite Hk'. cbn [toErr mbind result_bind]. rewrite (Open_Seal _ _ _ Hct).
  cbn [toErr mbind result_bind]. rewrite Hfind. cbn [toErr mbind result_bind].
  replace (negb (bool_decide (expected = [])) && negb (bool_decide (keys.Hash (keys.Public priv) = expected)))
    with false.
  2:{ symmetry. destruct Hexp as [->|E]; [done|]. rewrite (bool_decide_eq_true_2 _ E). apply andb_false_r. }
  by rewrite keys.Verify_Sign.
Qed.

Lemma eph_length rnd eph : NewEphemeral rnd = Some eph -> length (Pub eph) = 32.
Proof.
  unfold NewEphemeral. destruct (x25519 rnd basepoint) eqn:E; [|done]. intros [= <-]. by eapply x25519_length.
Qed.

Lemma words_no_crlf (ws : list gostring) : Forall (Forall plainByte) ws -> (nl ∉ joinSp ws) /\ (cr ∉ joinSp ws).
Proof.
  induction 1 as [|w ws Hw Hws IH]; [split; apply not_elem_of_nil|].
  apply plain_no_crlf in Hw as [Hw1 Hw2]. destruct IH as [IH1 IH2].
  destruct ws as [|w2 ws]; [done|]. change (joinSp (w :: w2 :: ws)) with (w ++ sp :: joinSp (w2 :: ws)).
  rewrite !elem_of_app, !elem_of_cons. split; intros [?|[E|?]]; try done; by vm_compute in E.
Qed.

(** The server takes the arguments of a GET command apart. *)
Lemma handleInbound_get errText b64Err priv {S} (get : gostring -> S -> result gostring bytes) join
    st rndS rndC eph cookie :
  cookie <> [] -> Forall plainByte cookie -> NewEphemeral rndC = Some eph ->
  handleInbound errText b64Err priv (Some get) join rndS (getCommand eph cookie) st
  = (st, Some (ServedReply (match get cookie st with
                            | Err e => errReply e
                            | Ok body => encryptAndReply errText priv rndS cookie (Pub eph) body
                            end))).
Proof.
  intros Hc Hcp He. pose proof (eph_length _ _ He) as Hl.
  set (ws := [cookie; EphemeralPubToBase64 (Pub eph)]).
  assert (Forall (Forall plainByte) ws) as Hpl by (repeat apply Forall_cons_2; [done|apply b64_plain|by apply Forall_nil_2]).
  assert (Forall token ws) as Htok.
  { repeat apply Forall_cons_2; try apply Forall_nil_2; [by apply token_plain|].
    apply b64_token. by destruct (Pub eph). }
  destruct (words_no_crlf ws Hpl) as [Hw1 Hw2].
  replace (getCommand eph cookie) with (!"INVITE2 GET " ++ joinSp ws ++ [nl])
    by (unfold getCommand, ws; simpl joinSp; by rewrite <- app_assoc).
  unfold handleInbound. destruct (command_line !"INVITE2 GET " (joinSp ws) []) as [E1 E2];
    [apply (bool_decide_unpack _); vm_compute; exact I.. |done|done|].
  rewrite E1, E2. rewrite bool_decide_eq_false_2 by discriminate. rewrite HasPrefix_app.
  do 3 f_equal. unfold handleInvite2Get. rewrite TrimPrefix_app. rewrite Fields_joinSp by done.
  cbn [ws]. by rewrite EphemeralPub_roundtrip.
Qed.

(** The same for a JOIN command, with the host configuration on the next line. *)
Lemma handleInbound_join errText b64Err priv {S} get (join : gostring -> gostring -> bytes -> S -> S * result gostring bytes)
    st rndS rndC eph cookie name hostConfig :
  cookie <> [] -> Forall plainByte cookie -> name <> [] -> Forall plainByte name -> NewEphemeral rndC = Some eph ->
  handleInbound errText b64Err priv get (Some join) rndS (joinCommand eph cookie name hostConfig) st
  = (let '(st', r) := join cookie name hostConfig st in
     (st', Some (ServedReply (match r with
                              | Err e => errReply e
                              | Ok body => encryptAndReply errText priv rndS cookie (Pub eph) body
                              end)))).
Proof.
  intros Hc Hcp Hn Hnp He. pose proof (eph_length _ _ He) as Hl.
  set (ws := [cookie; name; EphemeralPubToBase64 (Pub eph)]).
  assert (Forall (Forall plainByte) ws) as Hpl
    by (repeat apply Forall_cons_2; [done|done|apply b64_plain|by apply Forall_nil_2]).
  assert (Forall token ws) as Htok.
  { repeat apply Forall_cons_2; try apply Forall_nil_2; [by apply token_plain..|].
    apply b64_token. by destruct (Pub eph). }
  destruct (words_no_crlf ws Hpl) as [Hw1 Hw2].
  set (body := base64.EncodeToString base64.StdEncoding hostConfig).
  destruct (plain_no_crlf _ (b64_plain hostConfig)) as [C1 C2].
  replace (joinCommand eph cookie name hostConfig) with (!"INVITE2 JOIN " ++ joinSp ws ++ nl :: body ++ [nl]).
  2:{ unfold joinCommand, ws. simpl joinSp. rewrite <- !app_assoc. cbn [app]. by rewrite <- !app_assoc. }
  unfold handleInbound. destruct (command_line !"INVITE2 JOIN " (joinSp ws) (body ++ [nl])) as [E1 E2];
    [apply (bool_decide_unpack _); vm_compute; exact I.. |done|done|].
  rewrite E1, E2. rewrite bool_decide_eq_false_2 by discriminate.
  change (HasPrefix (!"INVITE2 JOIN " ++ joinSp ws) !"INVITE2 GET ")
    with (bool_decide (!"INVITE2 GET " `prefix_of` !"INVITE2 JOIN " ++ joinSp ws)).
  rewrite bool_decide_eq_false_2 by (intros [x Hx]; discriminate). rewrite HasPrefix_app.
  unfold handleInvite2Join. rewrite TrimPrefix_app. rewrite Fields_joinSp by done. cbn [ws].
  rewrite EphemeralPub_roundtrip by done. rewrite (readLine_line body []) by done.
  rewrite TrimRightCRLF_line by done. unfold body. rewrite base64_lemmas.DecodeString_EncodeToString by auto with gsnet.
  destruct (join cookie name hostConfig st) as [st' [b|e]]; done.
Qed.

(** The client reads what the server sealed for it. *)
Lemma exchange_read errText priv rndS rndC server eph cookie body expected :
  ed_genuine (keys.privRaw priv) -> NewEphemeral rndS = Some server -> NewEphemeral rndC = Some eph ->
  is_Some (DeriveKey server (Pub eph) cookie) -> findInviterEd25519Pub body = Some (keys.Public priv) ->
  expected = [] \/ keys.Hash (keys.Public priv) = expected ->
  readReply (encryptAndReply errText priv rndS cookie (Pub eph) body) eph cookie expected = Ok body.
Proof.
  intros Hg Hs He [key Hk] Hfind Hexp. eapply encryptAndReply_read; [done..| |done|done].
  by rewrite <- (DeriveKey_agree rndS rndC server eph cookie Hs He).
Qed.

(** The invitation exchange, end to end.  For a genuine server key, a
    cookie made of printable non-blank characters and ephemeral keys on which
    X25519 succeeds, the server answers the client's GET command with a reply
    from which the client recovers exactly the file the daemon serves for
    that cookie, provided the file names the server's public key and the URL's
    key hash, if any, is the hash of that key. *)
Theorem invite_exchange errText b64Err priv {S} (get : gostring -> S -> result gostring bytes) join
    st rndS rndC server eph cookie body expected :
  ed_genuine (keys.privRaw priv) -> cookie <> [] -> Forall plainByte cookie ->
  NewEphemeral rndS = Some server -> NewEphemeral rndC = Some eph ->
  is_Some (DeriveKey server (Pub eph) cookie) ->
  get cookie st = Ok body -> findInviterEd25519Pub body = Some (keys.Public priv) ->
  expected = [] \/ keys.Hash (keys.Public priv) = expected ->
  exists reply,
    handleInbound errText b64Err priv (Some get) join rndS (getCommand eph cookie) st
      = (st, Some (ServedReply reply))
    /\ readReply reply eph cookie expected = Ok body.
Proof.
  intros Hg Hc Hcp Hs He Hk Hget Hfind Hexp. erewrite handleInbound_get by done. rewrite Hget.
  eexists. split; [done|]. by eapply exchange_read.
Qed.

(** C13.  What the client may rely on: whatever the bytes it received, if it
    accepts a file then the file was opened with a key derived from its own
    ephemeral key and the cookie, the file names an inviter key whose hash is
    the one in the URL (if the URL had one), and that key signed the server's
    ephemeral key together with the cookie. *)
Theorem accepted_reply_sound reply eph cookie expected pt :
  readReply reply eph cookie expected = Ok pt ->
  exists pub serverPub sig key ct,
    findInviterEd25519Pub pt = Some pub
    /\ (expected <> [] -> keys.Hash pub = expected)
    /\ keys.Verify pub (sigPayload serverPub cookie) sig = true
    /\ DeriveKey eph serverPub cookie = Some key /\ Open key ct = Some pt.
Proof.
  unfold readReply. destruct (readLine reply) as [[line rest]|]; [|done]. cbn [toErr mbind result_bind].
  destruct (HasPrefix _ _); [|done]. cbn [negb]. unfold parseEncryptedReply.
  destruct (Fields _) as [|p0 [|p1 [|? ?]]]; try done.
  destruct (EphemeralPubFromBase64 p0) as [serverPub|]; [|done].
  cbn [toErr mbind result_bind]. destruct (base64.DecodeString _ p1) as [sig|]; [|done].
  cbn [toErr mbind result_bind]. destruct (readLine rest) as [[ctl ?]|]; [|done].
  cbn [toErr mbind result_bind]. destruct (base64.DecodeString _ _) as [ct|]; [|done].
  cbn [toErr mbind result_bind]. destruct (DeriveKey eph serverPub cookie) as [key|] eqn:Ek; [|done].
  cbn [toErr mbind result_bind]. destruct (Open key ct) as [p|] eqn:Eo; [|done].
  cbn [toErr mbind result_bind]. destruct (findInviterEd25519Pub p) as [pub|] eqn:Ef; [|done].
  cbn [toErr mbind result_bind].
  destruct (negb (bool_decide (expected = [])) && _) eqn:Eh; [done|].
  destruct (keys.Verify pub _ sig) eqn:Ev; [|done]. intros [= <-].
  exists pub, serverPub, sig, key, ct. split_and!; try done. intros Hne.
  rewrite (bool_decide_eq_false_2 (expected = [])) in Eh by done. cbn [negb andb] in Eh.
  by apply negb_false_iff, bool_decide_eq_true in Eh.
Qed.
End exchange.

(** ** The gossip stream *)

(** The gossip stream: a receiver that reads the lines broadcast by a
    peer, interleaved with arbitrary lines that are not JSON envelopes, hands
    exactly the peer's envelopes to the plane, in order and unchanged.  A
    last line without a newline is not delivered. *)
Theorem gossip_stream `{Unicode} (items : list (message.Envelope + gostring)) partial :
  nl ∉ partial ->
  Forall (fun it => match it with
    | inl e => message.encodable e /\ forall b, message.Encode e = Some b -> nl ∉ b
    | inr junk => (nl ∉ junk) /\ gossipLine (junk ++ [nl]) = None
    end) items ->
  handleGossip ((items ≫= fun it => match it with
                   | inl e => default [] (broadcastLine e)
                   | inr junk => junk ++ [nl] end) ++ partial)
  = omap (fun it => match it with inl e => Some e | inr _ => None end) items.
Proof.
  intros Hp Hit. unfold handleGossip. induction Hit as [|it items Hi _ IH].
  - cbn [mbind list_bind app]. by rewrite splitByte_none.
  - assert (exists l, (match it with inl e => default [] (broadcastLine e) | inr junk => junk ++ [nl] end) = l ++ [nl]
        /\ (nl ∉ l) /\ gossipLine (l ++ [nl]) = match it with inl e => Some e | inr _ => None end)
      as (l & El & Hl & Hg).
    { destruct it as [e|junk]; [|by exists junk]. destruct Hi as [He Hnl].
      unfold broadcastLine. assert (exists b, message.Encode e = Some b) as [b Hb].
      { unfold message.Encode. rewrite (message.enc_compact _ He). eauto. }
      rewrite Hb. exists b. split_and!; [done|by apply Hnl|].
      unfold gossipLine. by rewrite (message.unmarshal_Encode e b [nl]). }
    rewrite bind_cons, El, <- !app_assoc. cbn [app]. rewrite splitByte_app by done.
    cbn [omap list_omap]. destruct (splitByte nl _) as [|x xs] eqn:Ex; [by destruct (splitByte_ne nl _ Ex)|].
    change (removelast (l :: x :: xs)) with (l :: removelast (x :: xs)). rewrite fmap_cons.
    cbn [omap list_omap]. rewrite Hg. cbn [omap list_omap] in IH.
    destruct it as [e|junk]; [f_equal|]; exact IH.
Qed.

(** ** The connection pool *)

Record conn := MkConn { outboundAddr : gostring; closed : bool }.

(** [conns] is keyed by the identity of the connection object. *)
Record Server := MkServer { conns : gmap nat conn }.

Definition track (k : nat) (c : conn) (s : Server) : Server := MkServer (<[k := c]> (conns s)).
Definition untrack (k : nat) (s : Server) : Server := MkServer (delete k (conns s)).
Definition closeAll (s : Server) : Server :=
  MkServer ((fun c => MkConn (outboundAddr c) true) <$> conns s).

Definition hasOutbound (addr : gostring) (s : Server) : bool :=
  existsb (fun kc => bool_decide (outboundAddr kc.2 = addr)) (map_to_list (conns s)).

Inductive dialError := errDial | errHandshake.

(** [Dial]: [k] is the new connection object; [net] tells whether connecting
    and writing the GOSSIP line succeed. *)
Definition Dial (k : nat) (net : result dialError unit) (addr : gostring) (s : Server)
  : Server * result dialError unit :=
  if hasOutbound addr s then (s, Ok ())
  else match net with
       | Err e => (s, Err e)
       | Ok _ => (track k (MkConn addr false) s, Ok ())
       end.

(** [Broadcast]: every tracked connection gets the line; [fails] tells which
    writes fail, and those connections are closed (their reader untracks
    them). *)
Definition Broadcast (fails : nat -> bool) (env : message.Envelope) (s : Server)
  : Server * list (nat * bytes) :=
  match broadcastLine env with
  | None => (s, [])
  | Some line =>
      (MkServer (map_imap (fun k c => Some (if fails k then MkConn (outboundAddr c) true else c)) (conns s)),
       (fun kc => (kc.1, line)) <$> map_to_list (conns s))
  end.

(** Sequences of pool operations; inbound connections have no address. *)
Inductive poolStep (s : Server) : Server -> Prop :=
| pool_accept k : conns s !! k = None -> poolStep s (track k (MkConn [] false) s)
| pool_dial k net addr : conns s !! k = None -> addr <> [] -> poolStep s (Dial k net addr s).1
| pool_untrack k : poolStep s (untrack k s)
| pool_close : poolStep s (closeAll s)
| pool_broadcast fails env : poolStep s (Broadcast fails env s).1.

(** Two tracked connections to the same outbound address are the same. *)
Definition uniqueOutbound (s : Server) : Prop :=
  forall k1 k2 c1 c2, conns s !! k1 = Some c1 -> conns s !! k2 = Some c2 ->
    outboundAddr c1 <> [] -> outboundAddr c1 = outboundAddr c2 -> k1 = k2.

Lemma hasOutbound_spec addr s :
  hasOutbound addr s = true <-> exists k c, conns s !! k = Some c /\ outboundAddr c = addr.
Proof.
  unfold hasOutbound. rewrite existsb_exists. split.
  - intros ([k c] & Hin & Hb). apply list_elem_of_In, elem_of_map_to_list in Hin.
    apply bool_decide_eq_true in Hb. eauto.
  - intros (k & c & Hk & Ha). exists (k, c). split.
    + by apply list_elem_of_In, elem_of_map_to_list.
    + by apply bool_decide_eq_true.
Qed.

(** A change that keeps keys and addresses. *)
Lemma uniqueOutbound_addr s s' :
  (forall k c, conns s' !! k = Some c -> exists c0, conns s !! k = Some c0 /\ outboundAddr c0 = outboundAddr c) ->
  uniqueOutbound s -> uniqueOutbound s'.
Proof.
  intros Hs Hu k1 k2 c1 c2 H1 H2 Hne E.
  destruct (Hs _ _ H1) as (d1 & D1 & E1), (Hs _ _ H2) as (d2 & D2 & E2).
  apply (Hu k1 k2 d1 d2); congruence.
Qed.

Lemma uniqueOutbound_step s s' : poolStep s s' -> uniqueOutbound s -> uniqueOutbound s'.
Proof.
  intros Hst Hu. destruct Hst as [k Hk|k net addr Hk Ha|k| |fails env].
  - intros k1 k2 c1 c2. simpl. rewrite !lookup_insert_Some.
    intros [[<- <-]|[N1 H1]] [[<- <-]|[N2 H2]] Hne E; simpl in *; try congruence.
    by eapply Hu.
  - unfold Dial. destruct (hasOutbound addr s) eqn:Eh; [done|]. destruct net; [|done]. simpl.
    assert (forall k' c', conns s !! k' = Some c' -> outboundAddr c' <> addr) as Hno.
    { intros k' c' Hk' E. rewrite (proj2 (hasOutbound_spec addr s)) in Eh; [done|eauto]. }
    intros k1 k2 c1 c2. simpl. rewrite !lookup_insert_Some.
    intros [[<- <-]|[N1 H1]] [[<- <-]|[N2 H2]] Hne E; simpl in *; [done| | |by eapply Hu].
    + by destruct (Hno _ _ H2).
    + by destruct (Hno _ _ H1).
  - eapply uniqueOutbound_addr; [|exact Hu]. simpl. intros k' c Hc. apply lookup_delete_Some in Hc as [_ Hc]. eauto.
  - eapply uniqueOutbound_addr; [|exact Hu]. simpl. intros k c Hc. apply lookup_fmap_Some in Hc as (c0 & <- & Hc). eauto.
  - unfold Broadcast. destruct (broadcastLine env); [|done].
    eapply uniqueOutbound_addr; [|exact Hu]. simpl. intros k c. rewrite map_lookup_imap.
    destruct (conns s !! k) as [c0|] eqn:Ec; simpl; [|done]. intros [= <-].
    exists c0. split; [done|]. by destruct (fails k).
Qed.

(** The connection pool never holds two outbound connections to the
    same address, whatever sequence of accepts, dials, disconnects,
    broadcasts and shutdowns it goes through; and a broadcast writes one line
    to each tracked connection. *)
Theorem pool_outbound_unique s fails env line : rtc poolStep (MkServer ∅) s ->
  broadcastLine env = Some line ->
  uniqueOutbound s
  /\ (forall k, (k, line) ∈ (Broadcast fails env s).2 <-> is_Some (conns s !! k))
  /\ NoDup (Broadcast fails env s).2.*1.
Proof.
  intros Hr Hl. split; [|split].
  - assert (uniqueOutbound (MkServer ∅)) as H0 by (intros k1 k2 c1 c2 Hk; simplify_map_eq).
    clear Hl. induction Hr; eauto using uniqueOutbound_step.
  - intros k. unfold Broadcast. rewrite Hl. simpl. rewrite list_elem_of_fmap. split.
    + intros ([k' c] & [= ->] & Hin). apply elem_of_map_to_list in Hin. eauto.
    + intros [c Hc]. exists (k, c). split; [done|]. by apply elem_of_map_to_list.
  - unfold Broadcast. rewrite Hl. simpl. rewrite <- list_fmap_compose.
    rewrite (list_fmap_ext _ fst) by done. apply NoDup_fst_map_to_list.
Qed.


(** ** A concrete exchange *)

Module demo.
Import toy.

(** Bytewise addition stands for scalar multiplication. *)
Definition byteAt (s : bytes) (i : nat) : Z := byte_val (default (to_byte 0) (s !! i)).
Definition addBytes (a b : bytes) : bytes :=
  (fun i => to_byte (byteAt a i + byteAt b i)) <$> seq 0 32.

Lemma byteAt_add a b i : i < 32 -> byteAt (addBytes a b) i = ((byteAt a i + byteAt b i) mod 256)%Z.
Proof.
  intros Hi. unfold byteAt at 1, addBytes. rewrite list_lookup_fmap, lookup_seq_lt by done. simpl.
  apply byte_val_to_byte.
Qed.

#[refine, export] Instance session : SessionCrypto := {
  x25519 := fun k u => Some (addBytes k u);
  basepoint := replicate 32 (to_byte 0);
  hkdf := fun s c i => tag s;
  aead_seal := fun k m => k ++ m;
  aead_open := fun k ct => if bool_decide (take 32 ct = k) then Some (drop 32 ct) else None
}.
Proof.
  - intros k u p [= <-]. unfold addBytes. by rewrite length_fmap, length_seq.
  - intros a b pa pb [= <-] [= <-]. f_equal. unfold addBytes at 1 3. apply list_fmap_ext.
    intros i x Hx. apply lookup_seq in Hx as [-> Hi]. rewrite Nat.add_0_l. cbv beta.
    apply byte_val_inj. rewrite !byte_val_to_byte, !byteAt_add by done.
    rewrite !Z.add_mod_idemp_r by lia. f_equal. lia.
  - intros. apply tag_length.
  - intros k m Hk. rewrite <- Hk, take_app_length, drop_app_length.
    by rewrite bool_decide_eq_true_2.
Defined.

Definition cookie : gostring := invite.NewCookie (replicate 24 (to_byte 9)).

(** An invitation file that names the inviter's key. *)
Definition file : bytes := invite.Render (invite.MkFile [] 
  (invite.MkBlock !"bob" [] [!"alice"] [] [] [])
  [invite.MkBlock !"alice" !"vpn.example.org" [] [] []
     [invite.kv !"Ed25519PublicKey" (keys.String (keys.Public demoPriv))]]).

Definition get (c : gostring) (st : nat) : result gostring bytes :=
  if bool_decide (c = cookie) then Ok file else Err !"no such invitation".

Definition server : Ephemeral := MkEphemeral (addBytes (replicate 32 (to_byte 200)) basepoint) (replicate 32 (to_byte 200)).
Definition client : Ephemeral := MkEphemeral (addBytes (replicate 32 (to_byte 77)) basepoint) (replicate 32 (to_byte 77)).

Definition noText {A} (x : A) : gostring := [].
End demo.

Import demo toy.

Lemma invite_exchange_witness :
  exists reply,
    handleInbound noText noText demoPriv (Some get) None (replicate 32 (to_byte 200))
      (getCommand client cookie) 0 = (0, Some (ServedReply reply))
    /\ readReply reply client cookie (keys.Hash (keys.Public demoPriv)) = Ok file.
Proof.
  apply (invite_exchange noText noText demoPriv get None 0 (replicate 32 (to_byte 200))
           (replicate 32 (to_byte 77)) server client cookie file).
  - vm_compute. reflexivity.
  - discriminate.
  - apply (bool_decide_unpack _). vm_compute. exact I.
  - reflexivity.
  - reflexivity.
  - eexists. reflexivity.
  - vm_compute. reflexivity.
  - vm_compute. reflexivity.
  - right. reflexivity.
Defined.

Definition demoReply : gostring :=
  encryptAndReply noText demoPriv (replicate 32 (to_byte 200)) cookie (Pub client) file.

Lemma accepted_reply_sound_witness :
  exists pub : keys.Ed25519Public, keys.Hash pub = keys.Hash (keys.Public demoPriv).
Proof.
  destruct (accepted_reply_sound demoReply client cookie (keys.Hash (keys.Public demoPriv)) file)
    as (pub & ? & ? & ? & ? & _ & Hh & _).
  - vm_compute. reflexivity.
  - exists pub. apply Hh. vm_compute. discriminate.
Defined.

Definition demoItems : list (message.Envelope + gostring) :=
  [inl message.demoEnvelope; inr !"{not json"; inl message.demoEnvelope].

Lemma gossip_stream_witness :
  handleGossip ((demoItems ≫= fun it => match it with
                   | inl e => default [] (broadcastLine e) | inr junk => junk ++ [nl] end) ++ !"{")
  = [message.demoEnvelope; message.demoEnvelope].
Proof.
  assert (message.encodable message.demoEnvelope
          /\ forall b, message.Encode message.demoEnvelope = Some b -> nl ∉ b) as He.
  { split.
    - split; [apply (bool_decide_unpack _); vm_compute; exact I..|vm_compute; reflexivity].
    - intros b Hb. vm_compute in Hb. injection Hb as <-. apply (bool_decide_unpack _). vm_compute. exact I. }
  apply (gossip_stream demoItems !"{").
  - apply (bool_decide_unpack _). vm_compute. exact I.
  - repeat (apply List.Forall_cons || apply List.Forall_nil); [exact He| |exact He].
    split; [apply (bool_decide_unpack _); vm_compute; exact I|vm_compute; reflexivity].
Defined.

Lemma pool_outbound_unique_witness :
  uniqueOutbound (Dial 2 (Ok ()) !"a:1" (Dial 1 (Ok ()) !"a:1" (MkServer ∅)).1).1.
Proof.
  apply (pool_outbound_unique _ (fun _ => false) message.demoEnvelope
           (default [] (broadcastLine message.demoEnvelope))).
  - eapply rtc_l; [apply (pool_dial (MkServer ∅) 1 (Ok ()) !"a:1"); [reflexivity|discriminate]|].
    apply rtc_once. apply pool_dial; [vm_compute; reflexivity|discriminate].
  - vm_compute. reflexivity.
Defined.

End transport.
