(* ===== verification/TransportWire.v ===== *)
(** * What goes over a connection (internal/transport/transport.go)

    Binding the listener, and the writes to a connection through its buffered
    writer: the reply of the invitation protocol and one round of the loop of
    [Broadcast], which closes the connection when a write fails. *)

From Stdlib Require Import Ascii String ZArith Lia.
From stdpp Require Import base tactics list gmap.
From S2P Require Import Prelude.
From S2P Require Import GoStrings.
From S2P Require Import Keys.
From S2P Require Import Message.
From S2P Require Import Bufio.
From S2P Require Import Transport.

Module transport_wire.
Import bufio transport.

(** ** The listener *)

(** [Addr] is the configured address, [bound] the address of the listener,
    [logs] tells whether a logging function is installed, [listening] whether
    the listener is open. *)
Record Listening := MkListening { Addr : gostring; bound : option gostring; logs : bool; listening : bool }.

Definition SetLogger (l : Listening) : Listening := MkListening (Addr l) (bound l) true (listening l).

(** [listen] is [net.Listen("tcp", _)]: the bound address, or an error. *)
Definition Start {E} (listen : gostring -> result E gostring) (l : Listening) (s : Server) : Listening * Server * result E unit :=
  match listen (Addr l) with
  | Err e => (l, s, Err e)
  | Ok a => (MkListening (Addr l) (Some a) true true, MkServer ∅, Ok ())
  end.

(** A closed listener still has its address. *)
Definition LocalAddr (l : Listening) : option gostring := bound l.

(** [Close] closes the listener and every connection of the pool and waits for
    the handlers, which untrack their connections; [drains] tells whether they
    all end, and [false] is returned when the call does not. *)
Definition Close (drains : bool) (l : Listening) (s : Server) : Listening * Server * bool :=
  (MkListening (Addr l) (bound l) (logs l) false, if drains then MkServer ∅ else closeAll s, drains).

(** The peer's name is not looked at. *)
Definition Send (fails : nat -> bool) (peer : gostring) (env : message.Envelope) (s : Server) : Server * list (nat * bytes) :=
  Broadcast fails env s.

(** ** One connection *)

Section connection.
Context (accepts : bytes -> bytes -> nat).

(** Despite its name it does not close the connection. *)
Definition writeAndClose (msg : gostring) (b : Writer) : Writer * bool := sends accepts (WriteString accepts) msg b.

Record conn := MkConn { w : Writer; isClosed : bool }.
Definition newConn : conn := MkConn NewWriter false.

(** One round of the loop of [Broadcast]: the connection is closed when the
    write or the flush fails. *)
Definition writeLine (c : conn) (line : bytes) : conn :=
  let '(b, ok) := sends accepts (Write accepts) line (w c) in MkConn b (isClosed c || negb ok).

(** The broadcasts that reach a connection while it is tracked. *)
Definition writeLines (c : conn) (lines : list bytes) : conn := foldl writeLine c lines.

(** As long as nothing failed, exactly what was written is on the wire; after
    a failure a prefix of it is, the connection is closed and nothing more
    goes out. *)
Record carries (c : conn) (sent : bytes) : Prop := {
  carries_open : isClosed c = failed (w c);
  carries_all : isClosed c = false -> wire (w c) = sent /\ buffered (w c) = [];
  carries_some : exists n, wire (w c) = take n sent;
  carries_wf : bufio.wf (w c)
}.

Lemma carries_new : carries newConn [].
Proof. split; cbn; try done; [by exists 0|unfold bufio.wf; cbn; lia]. Qed.

Lemma sends_stuck s b : failed b = true -> sends accepts (Write accepts) s b = (b, false).
Proof. intros Hf. unfold sends, Write. by rewrite fill_stuck. Qed.

Lemma writeLine_carries c sent line : carries c sent -> carries (writeLine c line) (sent ++ line).
Proof.
  intros [Ho Ha Hs Hw]. unfold writeLine. destruct (failed (w c)) eqn:Ef.
  - rewrite sends_stuck by done. destruct Hs as [n Hn]. split; cbn; rewrite ?Ho, ?Ef; try done.
    destruct (Nat.le_gt_cases n (length sent)); [exists n; by rewrite Hn, take_app_le|].
    exists (length sent). by rewrite Hn, take_app_length, take_ge by lia.
  - destruct (Ha Ho) as [Hwire Hbuf]. pose proof (sends_spec accepts _ _ _ (Write_spec accepts line (w c) Hw)) as Hsp.
    destruct (sends accepts _ line (w c)) as [b ok]. destruct Hsp as (Hwf & Hok & Hno).
    assert (pending (w c) = sent) as Ep by (unfold pending; by rewrite Hbuf, app_nil_r). rewrite Ep in *.
    destruct ok; split; cbn; rewrite ?Ho; try done; cbn [orb negb].
    + by destruct (Hok eq_refl) as (_ & _ & ->).
    + intros _. by destruct (Hok eq_refl) as (-> & -> & _).
    + exists (length (sent ++ line)). destruct (Hok eq_refl) as (-> & _). by rewrite take_ge.
    + by destruct (Hno eq_refl) as [-> _].
    + by destruct (Hno eq_refl) as [_ Hn].
Qed.

Lemma writeLines_carries c sent lines : carries c sent -> carries (writeLines c lines) (sent ++ concat lines).
Proof.
  revert c sent. induction lines as [|l lines IH]; intros c sent Hc; cbn; [by rewrite app_nil_r|].
  rewrite app_assoc. by apply IH, writeLine_carries.
Qed.

(** On a network that takes everything no connection is closed. *)
Lemma writeLines_open c lines : (forall w s, length s <= accepts w s) -> isClosed c = false -> failed (w c) = false ->
  bufio.wf (w c) -> isClosed (writeLines c lines) = false.
Proof.
  intros Ha. revert c. induction lines as [|l lines IH]; intros c Ho Hf Hw; [done|]. cbn [writeLines foldl]. unfold writeLine at 2.
  pose proof (sends_spec accepts _ _ _ (Write_spec accepts l (w c) Hw)) as Hsp.
  assert ((sends accepts (Write accepts) l (w c)).2 = true) as Hs.
  { unfold sends. assert ((Write accepts l (w c)).2 = true) as Hok by (apply fill_accepting; [done..|]; case_decide; lia).
    pose proof (Write_spec accepts l (w c) Hw) as Hws. destruct (Write accepts l (w c)) as [b ok]. cbn [snd] in Hok. subst ok.
    apply Flush_accepting; [done|]. by apply Hws. }
  destruct (sends accepts _ l (w c)) as [b ok]. cbn [snd] in Hs. subst ok. destruct Hsp as (Hwf & Hok & _).
  destruct (Hok eq_refl) as (_ & _ & Hf'). apply IH; cbn; [by rewrite Ho|done..].
Qed.
End connection.

(** ** What the peer receives *)

Definition lineOf (e : message.Envelope) : bytes := default [] (broadcastLine e).

(** An envelope whose encoding is one line. *)
Definition wireable (e : message.Envelope) : Prop := message.encodable e /\ forall b, message.Encode e = Some b -> nl ∉ b.

Section peer.
Context `{Unicode}.

Lemma handleGossip_line l rest : nl ∉ l ->
  handleGossip (l ++ nl :: rest) = option_list (gossipLine (l ++ [nl])) ++ handleGossip rest.
Proof.
  intros Hl. unfold handleGossip. rewrite splitByte_app by done.
  destruct (splitByte nl rest) as [|x xs] eqn:Ex; [by destruct (splitByte_ne nl rest Ex)|].
  change (removelast (l :: x :: xs)) with (l :: removelast (x :: xs)). rewrite fmap_cons. cbn [omap list_omap].
  by destruct (gossipLine (l ++ [nl])).
Qed.

Lemma handleGossip_partial l : nl ∉ l -> handleGossip l = [].
Proof. intros Hl. unfold handleGossip. by rewrite splitByte_none. Qed.

Lemma line_of e : wireable e -> exists l, lineOf e = l ++ [nl] /\ (nl ∉ l) /\ gossipLine (l ++ [nl]) = Some e.
Proof.
  intros [He Hnl]. assert (exists b, message.Encode e = Some b) as [b Hb].
  { unfold message.Encode. rewrite (message.enc_compact _ He). eauto. }
  exists b. unfold lineOf, broadcastLine. rewrite Hb. split_and!; [done|by apply Hnl|].
  unfold gossipLine. by rewrite (message.unmarshal_Encode e b [nl]).
Qed.

(** What a node announces is one line. *)
Lemma wireable_payload `{!message.PayloadCodec A} i o kd ts (a : A) sig :
  message.carried a -> message.utf8Fields [i; o; kd] -> is_int64 ts ->
  wireable (message.MkEnvelope i o kd ts (message.marshalP a) sig).
Proof.
  intros Ha Ht Hts. assert (message.encodable (message.MkEnvelope i o kd ts (message.marshalP a) sig)) as He
    by by apply message.encodable_payload.
  split; [done|]. intros b. apply message.Encode_line; [done|]. by apply message.marshalP_line.
Qed.

(** A stream that breaks off anywhere. *)
Lemma handleGossip_take envs n : Forall wireable envs ->
  handleGossip (take n (concat (lineOf <$> envs))) `prefix_of` envs.
Proof.
  intros He. revert n. induction He as [|e envs Hw _ IH]; intros n; [cbn; by rewrite take_nil|].
  destruct (line_of e Hw) as (l & El & Hl & Hg). rewrite fmap_cons. cbn [concat]. rewrite El.
  destruct (Nat.le_gt_cases (length (l ++ [nl])) n) as [Hn|Hn].
  - rewrite take_app_ge by done. rewrite <- app_assoc. cbn [app]. rewrite handleGossip_line by done. rewrite Hg.
    cbn [option_list app]. apply prefix_cons, IH.
  - rewrite take_app_le by lia. rewrite length_app in Hn. cbn [length] in Hn. rewrite take_app_le by lia.
    rewrite handleGossip_partial; [apply prefix_nil|]. intros Hin. apply Hl. by eapply elem_of_take in Hin as (i & Hi & _); apply list_elem_of_lookup_2 in Hi.
Qed.

Lemma handleGossip_all envs : Forall wireable envs -> handleGossip (concat (lineOf <$> envs)) = envs.
Proof.
  induction 1 as [|e envs Hw _ IH]; [done|].
  destruct (line_of e Hw) as (l & El & Hl & Hg). rewrite fmap_cons. cbn [concat]. rewrite El.
  rewrite <- app_assoc. cbn [app]. rewrite handleGossip_line by done. rewrite Hg. cbn [option_list app]. by f_equal.
Qed.

(** The three things that [broadcast_prefix] says. *)
Lemma received_prefix accepts envs : Forall wireable envs ->
  handleGossip (wire (w (writeLines accepts newConn (lineOf <$> envs)))) `prefix_of` envs.
Proof.
  intros He. destruct (writeLines_carries accepts newConn [] (lineOf <$> envs) carries_new) as [_ _ [n Hn] _].
  cbn [app] in Hn. rewrite Hn. by apply handleGossip_take.
Qed.

Lemma received_all accepts envs : Forall wireable envs -> let c := writeLines accepts newConn (lineOf <$> envs) in
  isClosed c = false -> handleGossip (wire (w c)) = envs.
Proof.
  intros He c Ho. destruct (writeLines_carries accepts newConn [] (lineOf <$> envs) carries_new) as [_ Ha _ _].
  destruct (Ha Ho) as [Hw _]. cbn [app] in Hw. unfold c. rewrite Hw. by apply handleGossip_all.
Qed.

Lemma received_open accepts envs : (forall w s, length s <= accepts w s) ->
  isClosed (writeLines accepts newConn (lineOf <$> envs)) = false.
Proof. intros Hacc. apply writeLines_open; try done. unfold bufio.wf. cbn. lia. Qed.

(** C12.  What a peer receives of what is broadcast.  Envelopes are written
    to a connection one after the other, and the network may stop accepting
    bytes at any point, in the middle of a line too.  The peer then hands over
    a prefix of the envelopes, in order and unchanged, never a damaged or a
    partial one; it gets all of them unless a write failed, in which case the
    connection is closed; and on a network that takes everything none fails. *)
Theorem broadcast_prefix (accepts : bytes -> bytes -> nat) (envs : list message.Envelope) :
  Forall wireable envs ->
  let c := writeLines accepts newConn (lineOf <$> envs) in
  handleGossip (wire (w c)) `prefix_of` envs /\
  (isClosed c = false -> handleGossip (wire (w c)) = envs) /\
  ((forall w s, length s <= accepts w s) -> isClosed c = false).
Proof.
  intros He c. split_and!; [by apply received_prefix|by apply received_all|apply received_open].
Qed.
End peer.

Import toy.

(** A connection that breaks in the second of three lines. *)
Definition breaking (on s : bytes) : nat := 300 - length on.

Lemma broadcast_prefix_witness :
  let c := writeLines (fun _ s => length s) newConn (lineOf <$> [message.demoEnvelope; message.demoEnvelope]) in
  handleGossip (wire (w c)) = [message.demoEnvelope; message.demoEnvelope].
Proof.
  assert (wireable message.demoEnvelope) as He.
  { split.
    - split; [apply (bool_decide_unpack _); vm_compute; exact I..|vm_compute; reflexivity].
    - intros b Hb. vm_compute in Hb. injection Hb as <-. apply (bool_decide_unpack _). vm_compute. exact I. }
  destruct (broadcast_prefix (fun _ s => length s) [message.demoEnvelope; message.demoEnvelope]) as (_ & Hall & Hopen).
  - apply List.Forall_cons; [exact He|]. apply List.Forall_cons; [exact He|apply List.Forall_nil].
  - apply Hall, Hopen. intros _ s. lia.
Defined.

Example broken_connection :
  let c := writeLines breaking newConn (lineOf <$> [message.demoEnvelope; message.demoEnvelope; message.demoEnvelope]) in
  (handleGossip (wire (w c)), isClosed c, length (wire (w c))) = ([message.demoEnvelope], true, 300).
Proof. vm_compute. reflexivity. Qed.
End transport_wire.
