(* ===== verification/Binary.v ===== *)
(** * encoding/binary and slices

    Fixed-width unsigned integers in both byte orders, and Go's slice
    expressions, which panic when a bound is out of range. *)

From Stdlib Require Import Ascii String ZArith Lia.
From stdpp Require Import base tactics list gmap strings.
From S2P Require Import Prelude.

Local Open Scope Z_scope.

Module binary.

(** Big-endian value of a byte string. *)
Definition beVal (s : bytes) : Z := foldl (fun acc b => acc * 256 + byte_val b) 0 s.
Definition leVal (s : bytes) : Z := beVal (reverse s).

(** The [n] low bytes of [v], least significant first. *)
Fixpoint lePut (n : nat) (v : Z) : bytes :=
  match n with O => [] | S n => to_byte v :: lePut n (v / 256) end.
Definition bePut (n : nat) (v : Z) : bytes := reverse (lePut n v).

(** [s[lo:hi]].  For a slice Go allows [hi] up to the capacity; every use in
    the code has compared [hi] with the length before. *)
Definition slice (s : bytes) (lo hi : nat) : outcome bytes :=
  if bool_decide ((lo <= hi <= length s)%nat) then Returns (take (hi - lo) (drop lo s)) else Panics.

(** [s[lo:]]. *)
Definition sliceFrom (s : bytes) (lo : nat) : outcome bytes :=
  if bool_decide ((lo <= length s)%nat) then Returns (drop lo s) else Panics.

(** [s[i]]. *)
Definition index (s : bytes) (i : nat) : outcome byte :=
  match s !! i with Some b => Returns b | None => Panics end.

End binary.

Module binary_lemmas.
Import binary.

Lemma length_lePut n v : length (lePut n v) = n.
Proof. revert v. induction n as [|n IH]; intros v; [done|]. simpl. by rewrite IH. Qed.

Lemma length_bePut n v : length (bePut n v) = n.
Proof. unfold bePut. by rewrite length_reverse, length_lePut. Qed.

Lemma beVal_snoc s b : beVal (s ++ [b]) = beVal s * 256 + byte_val b.
Proof. unfold beVal. by rewrite foldl_app. Qed.

Lemma beVal_range s : 0 <= beVal s < 256 ^ Z.of_nat (length s).
Proof.
  induction s as [|b s IH] using rev_ind; [done|].
  rewrite beVal_snoc, length_app, Nat2Z.inj_add, Z.pow_add_r by lia.
  replace (256 ^ Z.of_nat (length [b])) with 256 by done.
  pose proof (byte_val_range b). lia.
Qed.

Lemma leVal_lePut n v : 0 <= v < 256 ^ Z.of_nat n -> leVal (lePut n v) = v.
Proof.
  unfold leVal. revert v. induction n as [|n IH]; intros v Hv.
  { change (256 ^ Z.of_nat 0) with 1 in Hv. change (0 = v). lia. }
  cbn [lePut]. rewrite reverse_cons, beVal_snoc, byte_val_to_byte.
  rewrite Nat2Z.inj_succ, Z.pow_succ_r in Hv by lia.
  rewrite IH; [pose proof (Z.div_mod v 256); lia|].
  split; [apply Z.div_pos; lia|apply Z.div_lt_upper_bound; lia].
Qed.

Lemma beVal_bePut n v : 0 <= v < 256 ^ Z.of_nat n -> beVal (bePut n v) = v.
Proof. intros Hv. unfold bePut. by apply leVal_lePut. Qed.

Lemma slice_ok s lo hi : (lo <= hi <= length s)%nat -> slice s lo hi = Returns (take (hi - lo) (drop lo s)).
Proof. intros Hb. unfold slice. by rewrite bool_decide_eq_true_2. Qed.

Lemma sliceFrom_ok s lo : (lo <= length s)%nat -> sliceFrom s lo = Returns (drop lo s).
Proof. intros Hb. unfold sliceFrom. by rewrite bool_decide_eq_true_2. Qed.

(** Slicing out the middle of a concatenation. *)
Lemma slice_app a m b : slice (a ++ m ++ b) (length a) (length a + length m) = Returns m.
Proof.
  rewrite slice_ok by (rewrite !length_app; lia). rewrite drop_app_length.
  replace (length a + length m - length a)%nat with (length m) by lia. by rewrite take_app_length.
Qed.

End binary_lemmas.
