(* ===== verification/Stun.v ===== *)
(** * STUN (internal/stun/stun.go)

    Parsing of a Binding Response.  Slice expressions are modelled with their
    panics, so that "never panics" is a theorem with a condition. *)

From Stdlib Require Import Ascii String ZArith Lia.
From stdpp Require Import base tactics list gmap strings.
From S2P Require Import Prelude.
From S2P Require Import NetIP.
From S2P Require Import Binary.

Local Open Scope Z_scope.

Module stun.
Import binary.

Definition magicCookie : Z := 0x2112A442.
Definition bindingRequest : Z := 0x0001.
Definition bindingResponse : Z := 0x0101.
Definition attrMappedAddress : Z := 0x0001.
Definition attrXorMappedAddress : Z := 0x0020.

Inductive error :=
| errShort | errNotResponse | errBadCookie | errWrongTxID | errDeclaredLength | errOverrun
| errMissing | errShortXor | errShortXor4 | errShortXor6 | errXor6Unsupported | errFamily (f : Z)
| errShortMapped.

(** The request [Query] sends, for 12 random bytes. *)
Definition request (txid : bytes) : bytes :=
  bePut 2 bindingRequest ++ bePut 2 0 ++ bePut 4 magicCookie ++ txid.

Definition addrFrom4 (s : bytes) : netip.Addr := netip.Addr4 (beVal s).

Definition xorBytes (a b : bytes) : bytes :=
  zip_with (fun x y => to_byte (Z.lxor (byte_val x) (byte_val y))) a b.

Definition decodeXorMapped (val magic : bytes) : outcome (result error netip.AddrPort) :=
  if bool_decide ((length val < 4)%nat) then Returns (Err errShortXor)
  else
    family ← index val 1;
    xport ← slice val 2 4;
    let port := Z.lxor (beVal xport) (Z.shiftr magicCookie 16) in
    if byte_val family =? 1 then
      if bool_decide ((length val < 8)%nat) then Returns (Err errShortXor4)
      else ip ← slice val 4 8;
           Returns (Ok (netip.MkAddrPort (addrFrom4 (xorBytes ip magic)) port))
    else if byte_val family =? 2 then
      if bool_decide ((length val < 20)%nat) then Returns (Err errShortXor6)
      else Returns (Err errXor6Unsupported)
    else Returns (Err (errFamily (byte_val family))).

Definition decodeMapped (val : bytes) : outcome (result error netip.AddrPort) :=
  if bool_decide ((length val < 8)%nat) then Returns (Err errShortMapped)
  else
    family ← index val 1;
    port ← slice val 2 4;
    if byte_val family =? 1 then
      ip ← slice val 4 8; Returns (Ok (netip.MkAddrPort (addrFrom4 ip) (beVal port)))
    else Returns (Err (errFamily (byte_val family))).

(** The attribute loop; each round drops at least four bytes. *)
Fixpoint attrLoop (fuel : nat) (magic attrs : bytes) : outcome (result error netip.AddrPort) :=
  if bool_decide ((length attrs < 4)%nat) then Returns (Err errMissing)
  else match fuel with
  | O => Returns (Err errMissing)
  | S f =>
      t ← slice attrs 0 2;
      l ← slice attrs 2 4;
      let typ := beVal t in
      let ln := Z.to_nat (beVal l) in
      if bool_decide ((length attrs < 4 + ln)%nat) then Returns (Err errOverrun)
      else
        val ← slice attrs 4 (4 + ln);
        if typ =? attrXorMappedAddress then decodeXorMapped val magic
        else if typ =? attrMappedAddress then decodeMapped val
        else
          let pad := ((4 - ln mod 4) mod 4)%nat in
          rest ← sliceFrom attrs (4 + ln + pad);
          attrLoop f magic rest
  end.

Definition parseResponse (b txid : bytes) : outcome (result error netip.AddrPort) :=
  if bool_decide ((length b < 20)%nat) then Returns (Err errShort)
  else
    t ← slice b 0 2;
    m ← slice b 4 8;
    if negb (beVal t =? bindingResponse) then Returns (Err errNotResponse)
    else if negb (beVal m =? magicCookie) then Returns (Err errBadCookie)
    else
      id ← slice b 8 20;
      if negb (bool_decide (id = txid)) then Returns (Err errWrongTxID)
      else
        l ← slice b 2 4;
        let msgLen := Z.to_nat (beVal l) in
        if bool_decide ((length b < 20 + msgLen)%nat) then Returns (Err errDeclaredLength)
        else attrs ← slice b 20 (20 + msgLen); attrLoop (length attrs) m attrs.

(** The size of the receive buffer; what a datagram has beyond it is lost. *)
Definition bufSize : nat := 1500.

(** The reading loop of [Query]: datagrams for other transactions are
    skipped; [None] if the socket runs dry (the deadline passes). *)
Fixpoint queryLoop (txid : bytes) (datagrams : list bytes) : outcome (option (result error netip.AddrPort)) :=
  match datagrams with
  | [] => Returns None
  | b :: ds =>
      r ← parseResponse (take bufSize b) txid;
      match r with
      | Err errWrongTxID => queryLoop txid ds
      | r => Returns (Some r)
      end
  end.

(** What the network does to a query: the socket, the resolution of the
    server's name, the random bytes, the write, and the datagrams that arrive
    before the deadline. *)
Record network := MkNetwork {
  nListen : bool; nResolve : bool; nRandom : option bytes; nWrite : bool; nDatagrams : list bytes
}.

Inductive queryError := qListen | qResolve | qRandom | qWrite | qDeadline | qParse (e : error).

Definition Query (n : network) : outcome (result queryError netip.AddrPort) :=
  if negb (nResolve n) then Returns (Err qResolve)
  else match nRandom n with
       | None => Returns (Err qRandom)
       | Some txid =>
           if negb (nWrite n) then Returns (Err qWrite)
           else
             r ← queryLoop txid (nDatagrams n);
             Returns (match r with None => Err qDeadline | Some r => err_map qParse r end)
       end.

Definition QueryOnEphemeralPort (n : network) : outcome (result queryError netip.AddrPort) :=
  if negb (nListen n) then Returns (Err qListen) else Query n.

(** ** Responses *)

(** One attribute as a server writes it, padded to four bytes. *)
Definition attribute (typ : Z) (val : bytes) : bytes :=
  bePut 2 typ ++ bePut 2 (Z.of_nat (length val)) ++ val
    ++ replicate ((4 - length val mod 4) mod 4) (to_byte 0).

Definition response (txid attrs : bytes) : bytes :=
  bePut 2 bindingResponse ++ bePut 2 (Z.of_nat (length attrs)) ++ bePut 4 magicCookie ++ txid ++ attrs.

(** XOR-MAPPED-ADDRESS of an IPv4 address, given by its four bytes. *)
Definition xorMapped (ip : bytes) (port : Z) : bytes :=
  [to_byte 0; to_byte 1] ++ bePut 2 (Z.lxor port (Z.shiftr magicCookie 16))
    ++ xorBytes ip (bePut 4 magicCookie).

(** ** Lemmas *)

Lemma bind_returns {A B} (a : A) (f : A -> outcome B) : (Returns a ≫= f) = f a.
Proof. done. Qed.

Lemma slice_cons_app a m b lo hi : lo = length a -> hi = (lo + length m)%nat ->
  slice (a ++ m ++ b) lo hi = Returns m.
Proof. intros -> ->. apply binary_lemmas.slice_app. Qed.

Lemma slice_head m b hi : hi = length m -> slice (m ++ b) 0 hi = Returns m.
Proof. intros ->. apply (slice_cons_app [] m b); simpl; lia. Qed.

Lemma index_lookup s i : (i < length s)%nat -> exists b, index s i = Returns b.
Proof. intros [b Hb]%lookup_lt_is_Some. exists b. unfold index. by rewrite Hb. Qed.

Lemma bind_slice {B} s lo hi (f : bytes -> outcome B) : (lo <= hi <= length s)%nat ->
  (slice s lo hi ≫= f) = f (take (hi - lo) (drop lo s)).
Proof. intros Hb. by rewrite binary_lemmas.slice_ok. Qed.

Lemma bind_slice_app {B} a m b lo hi (f : bytes -> outcome B) : lo = length a -> hi = (lo + length m)%nat ->
  (slice (a ++ m ++ b) lo hi ≫= f) = f m.
Proof. intros Ha Hm. by rewrite (slice_cons_app a m b lo hi). Qed.

Ltac slices := repeat rewrite bind_slice by lia.

Lemma decodeXorMapped_returns val magic : exists r, decodeXorMapped val magic = Returns r.
Proof.
  unfold decodeXorMapped. case_bool_decide; [eauto|].
  destruct (index_lookup val 1) as [f Hf]; [lia|]. rewrite Hf, bind_returns. slices.
  destruct (byte_val f =? 1); [case_bool_decide; slices; eauto|].
  destruct (byte_val f =? 2); [case_bool_decide|]; eauto.
Qed.

Lemma decodeMapped_returns val : exists r, decodeMapped val = Returns r.
Proof.
  unfold decodeMapped. case_bool_decide; [eauto|].
  destruct (index_lookup val 1) as [f Hf]; [lia|]. rewrite Hf, bind_returns. slices.
  destruct (byte_val f =? 1); [slices|]; eauto.
Qed.

(** When the attribute area is a multiple of four bytes long, as the RFC
    demands, the padding of an attribute is always there. *)
Lemma padding_fits n ln : (n mod 4 = 0 -> 4 + ln <= n -> 4 + ln + (4 - ln mod 4) mod 4 <= n)%nat.
Proof.
  intros Hn Hl. pose proof (Nat.mod_upper_bound ln 4).
  destruct (decide (ln mod 4 = 0)%nat) as [E|E].
  - rewrite E. simpl. lia.
  - rewrite (Nat.mod_small (4 - ln mod 4)) by lia.
    pose proof (Nat.div_mod n 4). pose proof (Nat.div_mod ln 4). lia.
Qed.

Lemma attrLoop_returns fuel magic attrs : (length attrs mod 4 = 0)%nat ->
  exists r, attrLoop fuel magic attrs = Returns r.
Proof.
  revert attrs. induction fuel as [|f IH]; intros attrs Hm; cbn [attrLoop].
  { case_bool_decide; eauto. }
  case_bool_decide; [eauto|]. slices. set (ln := Z.to_nat (beVal _)).
  case_bool_decide as Hl; [eauto|]. slices.
  destruct (_ =? attrXorMappedAddress); [apply decodeXorMapped_returns|].
  destruct (_ =? attrMappedAddress); [apply decodeMapped_returns|].
  pose proof (padding_fits (length attrs) ln Hm ltac:(lia)) as Hp.
  rewrite binary_lemmas.sliceFrom_ok by done. rewrite bind_returns. apply IH.
  rewrite length_drop.
  assert ((4 + ln + (4 - ln mod 4) mod 4) mod 4 = 0)%nat as Hq.
  { pose proof (Nat.mod_upper_bound ln 4). destruct (decide (ln mod 4 = 0)%nat) as [E|E].
    - rewrite E. change ((4 - 0) mod 4)%nat with 0%nat. rewrite Nat.add_0_r.
      replace (4 + ln)%nat with (ln + 1 * 4)%nat by lia. by rewrite Nat.Div0.mod_add.
    - rewrite (Nat.mod_small (4 - ln mod 4)) by lia.
      replace (4 + ln + (4 - ln mod 4))%nat with (0 + (2 + ln / 4) * 4)%nat
        by (pose proof (Nat.div_mod ln 4); lia).
      by rewrite Nat.Div0.mod_add. }
  apply Nat.Div0.mod_divides in Hq as [q Hq]. apply Nat.Div0.mod_divides in Hm as [m Hm].
  rewrite Hq, Hm in *. replace (4 * m - 4 * q)%nat with ((m - q) * 4)%nat by lia. apply Nat.Div0.mod_mul.
Qed.

Lemma lxor_range n a b : 0 <= n -> 0 <= a < 2 ^ n -> 0 <= b < 2 ^ n -> 0 <= Z.lxor a b < 2 ^ n.
Proof.
  intros Hn Ha Hb. rewrite <- (Z.mod_small a (2 ^ n)), <- (Z.mod_small b (2 ^ n)) by done.
  replace (Z.lxor _ _) with (Z.lxor a b mod 2 ^ n); [apply Z.mod_pos_bound; lia|].
  apply Z.bits_inj'. intros i Hi. rewrite Z.lxor_spec, !Z.testbit_mod_pow2, Z.lxor_spec by lia.
  by destruct (i <? n), (Z.testbit a i), (Z.testbit b i).
Qed.

Lemma lxor_cancel a b : Z.lxor (Z.lxor a b) b = a.
Proof. by rewrite Z.lxor_assoc, Z.lxor_nilpotent, Z.lxor_0_r. Qed.

Lemma xorBytes_involutive a m : (length a <= length m)%nat -> xorBytes (xorBytes a m) m = a.
Proof.
  revert m. induction a as [|x a IH]; intros [|y m] Hl; simpl in Hl; [done..|lia|].
  unfold xorBytes in *. cbn [zip_with]. f_equal; [|apply IH; lia].
  pose proof (byte_val_range x). pose proof (byte_val_range y).
  pose proof (lxor_range 8 (byte_val x) (byte_val y)) as Hr.
  change (2 ^ 8) with 256 in Hr. rewrite byte_val_to_byte, Z.mod_small, lxor_cancel by lia.
  apply to_byte_val.
Qed.

Lemma length_xorBytes a m : length (xorBytes a m) = Nat.min (length a) (length m).
Proof. apply length_zip_with. Qed.

(** A well-formed attribute is read back, and the loop moves past it. *)
Lemma attrLoop_attribute f magic t v rest :
  0 <= t < 65536 -> Z.of_nat (length v) < 65536 ->
  attrLoop (S f) magic (attribute t v ++ rest) =
    if t =? attrXorMappedAddress then decodeXorMapped v magic
    else if t =? attrMappedAddress then decodeMapped v else attrLoop f magic rest.
Proof.
  intros Ht Hv. unfold attribute. set (pad := replicate _ _).
  rewrite <- !(assoc_L (++)). set (l := bePut 2 (Z.of_nat _)). set (tb := bePut 2 t).
  assert (length tb = 2%nat /\ length l = 2%nat) as [Htb Hll] by (unfold tb, l; by rewrite !binary_lemmas.length_bePut).
  assert (beVal tb = t) as Etb by (by apply (binary_lemmas.beVal_bePut 2)).
  assert (Z.to_nat (beVal l) = length v) as El.
  { unfold l. rewrite (binary_lemmas.beVal_bePut 2); [apply Nat2Z.id|simpl; lia]. }
  assert (length (tb ++ l ++ v ++ pad ++ rest) = 4 + length v + length pad + length rest)%nat as Hlen
    by (rewrite !length_app; lia).
  cbn [attrLoop]. rewrite Hlen, bool_decide_eq_false_2 by lia.
  rewrite (slice_head tb) by lia. rewrite bind_returns.
  rewrite (slice_cons_app tb l) by lia. rewrite bind_returns, Etb, El.
  cbv zeta. rewrite bool_decide_eq_false_2 by lia.
  rewrite (assoc_L (++) tb l), (slice_cons_app (tb ++ l) v) by (rewrite ?length_app; lia).
  rewrite bind_returns. destruct (_ =? _); [done|]. destruct (_ =? _); [done|].
  rewrite binary_lemmas.sliceFrom_ok by (rewrite !length_app; unfold pad; rewrite length_replicate; lia).
  rewrite bind_returns. f_equal.
  rewrite !(assoc_L (++)). apply drop_app_length'.
  rewrite !length_app. unfold pad. rewrite length_replicate. lia.
Qed.

(** Attributes the client does not look at. *)
Definition foreign (a : Z * bytes) : Prop :=
  0 <= a.1 < 65536 /\ a.1 <> attrXorMappedAddress /\ a.1 <> attrMappedAddress /\ Z.of_nat (length a.2) < 65536.

Lemma attrLoop_foreign pre fuel magic rest : Forall foreign pre ->
  attrLoop (length pre + fuel) magic (concat ((fun a => attribute a.1 a.2) <$> pre) ++ rest) =
  attrLoop fuel magic rest.
Proof.
  induction 1 as [|[t v] pre (Ht & Hx & Hm & Hv) _ IH]; [done|].
  cbn [fmap list_fmap concat length Nat.add]. cbn [fst snd] in *. rewrite <- (assoc_L (++)).
  rewrite attrLoop_attribute by done.
  rewrite (proj2 (Z.eqb_neq t _) Hx), (proj2 (Z.eqb_neq t _) Hm). apply IH.
Qed.

Lemma decodeXorMapped_xorMapped ip port : length ip = 4%nat -> 0 <= port < 65536 ->
  decodeXorMapped (xorMapped ip port) (bePut 4 magicCookie) = Returns (Ok (netip.MkAddrPort (addrFrom4 ip) port)).
Proof.
  intros Hip Hp. unfold xorMapped, decodeXorMapped.
  set (xp := bePut 2 (Z.lxor _ _)). set (x := xorBytes ip _).
  assert (length xp = 2%nat /\ length x = 4%nat) as [Hxp Hx].
  { unfold xp, x. rewrite length_xorBytes, !binary_lemmas.length_bePut. lia. }
  rewrite !length_app, Hxp, Hx. change (length [to_byte 0; to_byte 1]) with 2%nat.
  rewrite (bool_decide_eq_false_2 (2 + (2 + 4) < 4)%nat), (bool_decide_eq_false_2 (2 + (2 + 4) < 8)%nat)
    by lia.
  change (index ([to_byte 0; to_byte 1] ++ xp ++ x) 1) with (Returns (to_byte 1)).
  rewrite bind_returns, (slice_cons_app [to_byte 0; to_byte 1] xp x 2 4) by (simpl; lia). rewrite bind_returns.
  change (byte_val (to_byte 1) =? 1) with true. cbv iota zeta.
  replace ([to_byte 0; to_byte 1] ++ xp ++ x) with (([to_byte 0; to_byte 1] ++ xp) ++ x ++ [])
    by (by rewrite app_nil_r, <- (assoc_L (++))).
  rewrite (slice_cons_app _ x [] 4 8) by (rewrite ?length_app; simpl; lia).
  rewrite bind_returns. unfold x, xp.
  rewrite xorBytes_involutive by (rewrite binary_lemmas.length_bePut; lia).
  rewrite (binary_lemmas.beVal_bePut 2), lxor_cancel; [done|].
  change (256 ^ Z.of_nat 2) with (2 ^ 16). by apply lxor_range.
Qed.

(** The header of a well-formed response, checked against a transaction. *)
Lemma parseResponse_response txid txid' attrs :
  length txid' = 12%nat -> Z.of_nat (length attrs) < 65536 ->
  parseResponse (response txid' attrs) txid =
    if bool_decide (txid' = txid) then attrLoop (length attrs) (bePut 4 magicCookie) attrs
    else Returns (Err errWrongTxID).
Proof.
  intros Ht Ha. unfold response, parseResponse.
  set (t := bePut 2 bindingResponse). set (l := bePut 2 (Z.of_nat _)). set (m := bePut 4 magicCookie).
  assert (length t = 2%nat /\ length l = 2%nat /\ length m = 4%nat) as (Hlt & Hll & Hlm)
    by (unfold t, l, m; by rewrite !binary_lemmas.length_bePut).
  assert (Z.to_nat (beVal l) = length attrs) as El.
  { unfold l. rewrite (binary_lemmas.beVal_bePut 2); [apply Nat2Z.id|simpl; lia]. }
  rewrite bool_decide_eq_false_2 by (rewrite !length_app; lia).
  rewrite (slice_head t) by lia. rewrite bind_returns.
  rewrite (assoc_L (++) t l), (bind_slice_app (t ++ l) m _ 4 8) by (rewrite ?length_app; lia).
  change (beVal t =? bindingResponse) with true. change (beVal m =? magicCookie) with true. cbn [negb].
  rewrite (assoc_L (++) _ m), (bind_slice_app _ txid' attrs 8 20) by (rewrite ?length_app; lia).
  case_bool_decide; [|done]. cbn [negb].
  rewrite <- !(assoc_L (++)), (bind_slice_app t l _ 2 4) by lia. cbv zeta. rewrite El.
  rewrite bool_decide_eq_false_2 by (rewrite !length_app; lia).
  replace (t ++ l ++ m ++ txid' ++ attrs) with ((t ++ l ++ m ++ txid') ++ attrs ++ [])
    by (by rewrite app_nil_r, <- !(assoc_L (++))).
  by rewrite (bind_slice_app _ attrs [] 20) by (rewrite ?length_app; lia).
Qed.

Lemma take_response txid attrs : length txid = 12%nat -> (length attrs <= 1480)%nat ->
  take bufSize (response txid attrs) = response txid attrs.
Proof.
  intros Ht Ha. apply take_ge. unfold response, bufSize.
  rewrite !length_app, !binary_lemmas.length_bePut. lia.
Qed.

Lemma concat_attributes_length pre :
  (length pre <= length (concat ((fun a : Z * bytes => attribute a.1 a.2) <$> pre)))%nat.
Proof.
  induction pre as [|a pre IH]; [done|]. rewrite fmap_cons. cbn [concat length].
  rewrite length_app. unfold attribute at 1. rewrite !length_app, !binary_lemmas.length_bePut. lia.
Qed.

(** [Query]'s reading loop on a socket where datagrams of other transactions
    arrive first: it returns the address and port the server wrote into
    XOR-MAPPED-ADDRESS, whatever padded attributes precede it and whatever
    follows it. *)
Theorem query_finds_address txid others pre ip port post later :
  length txid = 12%nat ->
  Forall (fun o : bytes * bytes => length o.1 = 12%nat /\ o.1 <> txid /\ (length o.2 <= 1480)%nat) others ->
  Forall foreign pre ->
  length ip = 4%nat -> 0 <= port < 65536 ->
  let attrs := concat ((fun a => attribute a.1 a.2) <$> pre)
                 ++ attribute attrXorMappedAddress (xorMapped ip port) ++ post in
  (length attrs <= 1480)%nat ->
  queryLoop txid (((fun o => response o.1 o.2) <$> others) ++ response txid attrs :: later) =
  Returns (Some (Ok (netip.MkAddrPort (addrFrom4 ip) port))).
Proof.
  intros Ht Ho Hpre Hip Hport attrs Ha. induction Ho as [|[t a] os (H12 & Hne & Hla) _ IH].
  - cbn [fmap list_fmap app queryLoop].
    rewrite take_response, parseResponse_response, bool_decide_eq_true_2 by (done || lia). unfold attrs.
    pose proof (concat_attributes_length pre) as Hc.
    replace (length (_ ++ attribute _ _ ++ post)) with
      (length pre + S (length attrs - length pre - 1))%nat.
    2:{ fold attrs. assert (length pre < length attrs)%nat; [|lia]. unfold attrs, attribute at 2.
        rewrite !length_app, binary_lemmas.length_bePut. lia. }
    rewrite attrLoop_foreign, attrLoop_attribute by (done || unfold xorMapped; rewrite ?length_app, ?binary_lemmas.length_bePut, ?length_xorBytes, ?binary_lemmas.length_bePut; simpl; lia).
    change (attrXorMappedAddress =? attrXorMappedAddress) with true. cbv iota.
    by rewrite decodeXorMapped_xorMapped.
  - cbn [fmap list_fmap app queryLoop]. cbn [fst snd] in *.
    rewrite take_response, parseResponse_response, bool_decide_eq_false_2 by (done || lia).
    rewrite bind_returns. apply IH.
Qed.

Lemma query_finds_address_witness :
  queryLoop (replicate 12 (to_byte 7))
    [response (replicate 12 (to_byte 8)) [];
     response (replicate 12 (to_byte 7))
       (attribute 0x8022 (replicate 5 (to_byte 65)) ++ attribute attrXorMappedAddress
          (xorMapped [to_byte 203; to_byte 0; to_byte 113; to_byte 9] 51820) ++ [])] =
  Returns (Some (Ok (netip.MkAddrPort (netip.Addr4 0xCB007109) 51820))).
Proof.
  apply (query_finds_address (replicate 12 (to_byte 7)) [(replicate 12 (to_byte 8), [])]
           [(0x8022, replicate 5 (to_byte 65))] [to_byte 203; to_byte 0; to_byte 113; to_byte 9] 51820 [] []).
  - done.
  - apply (bool_decide_unpack _). vm_compute. exact I.
  - repeat constructor; done.
  - done.
  - lia.
  - apply (bool_decide_unpack _). vm_compute. exact I.
Defined.

(** The length field of a message. *)
Definition declaredLength (b : bytes) : nat := Z.to_nat (beVal (take 2 (drop 2 b))).

(** Whatever the datagram holds, the parser returns (a result or an error,
    never a panic) as long as the declared length is a multiple of four, as
    RFC 5389 demands.  The transaction is given by its twelve bytes. *)
Theorem parseResponse_returns b txid :
  (declaredLength b mod 4 = 0)%nat -> exists r, parseResponse b txid = Returns r.
Proof.
  intros Hm. unfold parseResponse. case_bool_decide; [eauto|]. slices.
  destruct (negb _); [eauto|]. destruct (negb _); [eauto|].
  destruct (negb _); [eauto|]. cbv zeta.
  case_bool_decide; [eauto|]. rewrite bind_slice by lia.
  apply attrLoop_returns. rewrite length_take, length_drop.
  change (Z.to_nat (beVal (take (4 - 2) (drop 2 b)))) with (declaredLength b) in *.
  replace (_ `min` _)%nat with (declaredLength b) by lia. done.
Qed.

Lemma parseResponse_returns_witness :
  exists r, parseResponse (response (replicate 12 (to_byte 7)) (attribute 0x8022 [to_byte 65])) (replicate 12 (to_byte 7)) = Returns r.
Proof. apply parseResponse_returns. vm_compute. reflexivity. Defined.

(** A response whose last attribute lacks its padding makes the parser slice
    past the end: the panic is not recovered anywhere, so one datagram from
    the configured server stops the program. *)
Theorem truncated_padding_panics txid typ v :
  length txid = 12%nat -> foreign (typ, v) -> (length v mod 4 <> 0)%nat -> Z.of_nat (length v) < 65532 ->
  parseResponse (response txid (bePut 2 typ ++ bePut 2 (Z.of_nat (length v)) ++ v)) txid = Panics.
Proof.
  intros Ht (Hty & Hx & Hmp & Hv) Hp Hl. cbn [fst snd] in *.
  set (l := bePut 2 (Z.of_nat _)). set (tb := bePut 2 typ).
  assert (length tb = 2%nat /\ length l = 2%nat) as [Htb Hll] by (unfold tb, l; by rewrite !binary_lemmas.length_bePut).
  rewrite parseResponse_response, bool_decide_eq_true_2 by (rewrite ?length_app; done || lia).
  rewrite !length_app, Htb, Hll. cbn [Nat.add attrLoop].
  rewrite bool_decide_eq_false_2 by (rewrite !length_app; lia).
  rewrite (slice_head tb) by lia. rewrite bind_returns, (bind_slice_app tb l v 2 4) by lia.
  assert (beVal tb = typ) as -> by (by apply (binary_lemmas.beVal_bePut 2)).
  assert (Z.to_nat (beVal l) = length v) as ->.
  { unfold l. rewrite (binary_lemmas.beVal_bePut 2); [apply Nat2Z.id|simpl; lia]. }
  cbv zeta. rewrite bool_decide_eq_false_2 by (rewrite !length_app; lia).
  rewrite bind_slice by (rewrite !length_app; lia).
  rewrite (proj2 (Z.eqb_neq typ _) Hx), (proj2 (Z.eqb_neq typ _) Hmp).
  unfold sliceFrom. rewrite bool_decide_eq_false_2; [done|].
  pose proof (Nat.mod_upper_bound (length v) 4).
  rewrite !length_app, (Nat.mod_small (4 - _)) by lia. lia.
Qed.

Lemma truncated_padding_panics_witness :
  parseResponse (response (replicate 12 (to_byte 7)) (bePut 2 0x8022 ++ bePut 2 1 ++ [to_byte 65])) (replicate 12 (to_byte 7)) = Panics.
Proof. apply truncated_padding_panics; [done|repeat split; done|done|done]. Defined.
End stun.
