(* ===== verification/Upnp.v ===== *)
(** * The UPnP client (internal/upnp/upnp.go)

    HTTP, the XML decoder and URL resolution are parameters.  The device
    description is the tree of the structs it is decoded into. *)

From Stdlib Require Import Ascii String ZArith Lia.
From stdpp Require Import base tactics list gmap strings.
From S2P Require Import Prelude.
From S2P Require Import GoStrings.

Local Open Scope Z_scope.

(** [unicode.ToUpper]. *)
Definition asciiUpper (r : Z) : Z := if (97 <=? r) && (r <=? 122) then r - 32 else r.

Class UpperCase := {
  upper_rune : Z -> Z;
  upper_rune_ascii : forall r, isASCII r -> upper_rune r = asciiUpper r
}.

#[refine, export] Instance ascii_upper : UpperCase := { upper_rune := asciiUpper }.
Proof. done. Defined.

Module upnp.

Definition colon : byte := to_byte 58.
Definition dq : byte := to_byte 34.
Definition quoted (s : gostring) : gostring := dq :: s ++ [dq].

Definition ToUpper `{UpperCase} (s : gostring) : gostring := runes s ≫= fun r => encodeRune (upper_rune r).

(** [strings.Contains] *)
Fixpoint contains (s sub : gostring) : bool :=
  HasPrefix s sub || match s with [] => false | _ :: t => contains t sub end.

Record IGD := MkIGD { ControlURL : gostring; ServiceType : gostring; LocalIP : option gostring }.

(** ** SSDP *)

Definition parseSSDPHeaders `{UpperCase} (b : bytes) : gmap gostring gostring :=
  foldl (fun out line =>
           match cutByte colon line with
           | Some ([], _) | None => out
           | Some (k, v) => <[ToUpper (TrimSpace k) := TrimSpace v]> out
           end) ∅ (scanLines b).1.

(** ** The device description *)

Record service := MkService { SType : gostring; SControlURL : gostring }.

Inductive innerDevice := MkDevice (DeviceType : gostring) (services : list service) (devices : list innerDevice).

Definition isWAN (s : service) : bool :=
  contains (SType s) !"WANIPConnection" || contains (SType s) !"WANPPPConnection".

(** The inner loop over the services of one device. *)
Fixpoint findService (l : list service) : option service :=
  match l with
  | [] => None
  | s :: l => if isWAN s then Some s else findService l
  end.

(** One device and what is under it, then the next ones. *)
Fixpoint findInDevice (d : innerDevice) : option service :=
  match d with
  | MkDevice _ services devices =>
      match findService services with
      | Some s => Some s
      | None => (fix find devs := match devs with
                                  | [] => None
                                  | d :: devs => match findInDevice d with Some s => Some s | None => find devs end
                                  end) devices
      end
  end.

Fixpoint findWANConnection (devs : list innerDevice) : option service :=
  match devs with
  | [] => None
  | d :: devs => match findInDevice d with Some s => Some s | None => findWANConnection devs end
  end.

Inductive error := errHTTP (e : gostring) | errXML (e : gostring) | errNoService | errURL (e : gostring)
| errLocalIP | errStatus (action : gostring) (code : Z) (body : bytes) | errEmptyIP | errSocket (e : gostring) | errCtx | errNoIGD.

Record request := MkRequest { rURL : gostring; rContentType : gostring; rSOAPAction : gostring; rBody : bytes }.

Section client.
Context `{UpperCase}.
(** [http.Get] and reading the body; a POST with its headers, giving the status
    and the body; the two [xml.Unmarshal]s, for the devices of a description
    and the address in a reply; [base.ResolveReference(ref).String()]. *)
Context (httpGet : gostring -> result gostring bytes) (httpPost : request -> result gostring (Z * bytes)).
Context (xmlDevices : bytes -> result gostring (list innerDevice)) (xmlExternalIP : bytes -> result gostring gostring).
Context (resolve : gostring -> gostring -> result gostring gostring).

Definition fetchControlURL (locationURL : gostring) : result error IGD :=
  body ← err_map errHTTP (httpGet locationURL);
  devs ← err_map errXML (xmlDevices body);
  match findWANConnection devs with
  | None => Err errNoService
  | Some svc =>
      control ← (if negb (HasPrefix (SControlURL svc) !"http") then err_map errURL (resolve locationURL (SControlURL svc))
                 else Ok (SControlURL svc));
      Ok (MkIGD control (SType svc) None)
  end.

(** The loop of [Discover]: the datagrams received before the deadline, each
    with the local address that reaches its sender, and whether the context
    is done when it is about to be read. *)
Fixpoint discoverLoop (datagrams : list (bool * bytes * option gostring)) : result error IGD :=
  match datagrams with
  | [] => Err errNoIGD
  | (true, _, _) :: _ => Err errCtx
  | (false, b, local) :: rest =>
      match default [] (parseSSDPHeaders b !! !"LOCATION") with
      | [] => discoverLoop rest
      | loc =>
          match fetchControlURL loc with
          | Err _ => discoverLoop rest
          | Ok igd => Ok (match local with Some ip => MkIGD (ControlURL igd) (ServiceType igd) (Some ip) | None => igd end)
          end
      end
  end.

(** The socket, the search, then the loop; datagrams are read into 8192 bytes. *)
Definition Discover (sent : option gostring) (datagrams : list (bool * bytes * option gostring)) : result error IGD :=
  match sent with
  | Some e => Err (errSocket e)
  | None => discoverLoop ((fun x => (x.1.1, take (Z.to_nat 8192) x.1.2, x.2)) <$> datagrams)
  end.

(** ** The actions *)

Definition line (s : gostring) : gostring := s ++ [nl].

Definition envelope (inner : gostring) : bytes :=
  line (!"<?xml version=" ++ quoted !"1.0" ++ !"?>") ++
  line (!"<s:Envelope xmlns:s=" ++ quoted !"http://schemas.xmlsoap.org/soap/envelope/" ++
        !" s:encodingStyle=" ++ quoted !"http://schemas.xmlsoap.org/soap/encoding/" ++ !">") ++
  line !"<s:Body>" ++ line inner ++ line !"</s:Body>" ++ !"</s:Envelope>".

Definition element (name value : gostring) : gostring := !"<" ++ name ++ !">" ++ value ++ !"</" ++ name ++ !">".

Definition openAction (g : IGD) (action : gostring) : gostring :=
  !"<u:" ++ action ++ !" xmlns:u=" ++ quoted (ServiceType g) ++ !">".

Definition soap (g : IGD) (action : gostring) (body : bytes) : request :=
  MkRequest (ControlURL g) (!"text/xml; charset=" ++ quoted !"utf-8") (quoted (ServiceType g ++ !"#" ++ action)) body.

Definition AddPortMapping (g : IGD) (proto : gostring) (externalPort internalPort : Z) (description : gostring) (leaseSec : Z)
  : result error unit :=
  match LocalIP g with
  | None => Err errLocalIP
  | Some ip =>
      let body := envelope (line (openAction g !"AddPortMapping") ++ line (element !"NewRemoteHost" []) ++
        line (element !"NewExternalPort" (Itoa externalPort)) ++ line (element !"NewProtocol" proto) ++
        line (element !"NewInternalPort" (Itoa internalPort)) ++ line (element !"NewInternalClient" ip) ++
        line (element !"NewEnabled" !"1") ++ line (element !"NewPortMappingDescription" description) ++
        line (element !"NewLeaseDuration" (Itoa leaseSec)) ++ !"</u:AddPortMapping>") in
      '(code, rbody) ← err_map errHTTP (httpPost (soap g !"AddPortMapping" body));
      if negb (Z.quot code 100 =? 2) then Err (errStatus !"AddPortMapping" code rbody) else Ok ()
  end.

Definition GetExternalIPAddress (g : IGD) : result error gostring :=
  let body := envelope (openAction g !"GetExternalIPAddress" ++ !"</u:GetExternalIPAddress>") in
  '(code, rbody) ← err_map errHTTP (httpPost (soap g !"GetExternalIPAddress" body));
  if negb (Z.quot code 100 =? 2) then Err (errStatus !"GetExternalIPAddress" code rbody)
  else
    ip ← err_map errXML (xmlExternalIP rbody);
    if bool_decide (ip = []) then Err errEmptyIP else Ok ip.

Definition DeletePortMapping (g : IGD) (proto : gostring) (externalPort : Z) : result error unit :=
  let body := envelope (line (openAction g !"DeletePortMapping") ++ line (element !"NewRemoteHost" []) ++
    line (element !"NewExternalPort" (Itoa externalPort)) ++ line (element !"NewProtocol" proto) ++ !"</u:DeletePortMapping>") in
  '(code, rbody) ← err_map errHTTP (httpPost (soap g !"DeletePortMapping" body));
  if negb (Z.quot code 100 =? 2) then Err (errStatus !"DeletePortMapping" code rbody) else Ok ().

(** ** What is found *)

(** The gateway a datagram leads to, if it leads to one. *)
Definition offer (d : bool * bytes * option gostring) : option IGD :=
  match default [] (parseSSDPHeaders d.1.2 !! !"LOCATION") with
  | [] => None
  | loc => match fetchControlURL loc with
           | Err _ => None
           | Ok igd => Some (match d.2 with Some ip => MkIGD (ControlURL igd) (ServiceType igd) (Some ip) | None => igd end)
           end
  end.

Lemma discoverLoop_cons b local rest :
  discoverLoop ((false, b, local) :: rest) = match offer (false, b, local) with Some igd => Ok igd | None => discoverLoop rest end.
Proof.
  cbn [discoverLoop]. unfold offer. cbn [fst snd]. destruct (default [] _) as [|c l]; [done|].
  by destruct (fetchControlURL (c :: l)).
Qed.

Lemma discoverLoop_first ds : Forall (fun d => d.1.1 = false) ds ->
  discoverLoop ds = match head (omap offer ds) with Some igd => Ok igd | None => Err errNoIGD end.
Proof.
  induction 1 as [|[[c b] local] ds Hd _ IH]; [done|]. cbn in Hd. subst c. rewrite discoverLoop_cons, IH.
  cbn [omap list_omap]. by destruct (offer (false, b, local)).
Qed.

Lemma offer_service d igd : offer d = Some igd ->
  exists loc body devs svc, httpGet loc = Ok body /\ xmlDevices body = Ok devs /\ findWANConnection devs = Some svc /\
    ServiceType igd = SType svc.
Proof.
  unfold offer. destruct (default [] _) as [|c l]; [done|]. unfold fetchControlURL.
  destruct (httpGet (c :: l)) as [body|] eqn:E1; [|done]. cbn [err_map mbind result_bind].
  destruct (xmlDevices body) as [devs|] eqn:E2; [|done]. cbn [err_map mbind result_bind].
  destruct (findWANConnection devs) as [svc|] eqn:E3; [|done].
  destruct (if negb _ then _ else _) as [control|]; [|done]. cbn [mbind result_bind].
  intros [= <-]. exists (c :: l), body, devs, svc. split_and!; try done. by destruct d.2.
Qed.
End client.

(** Every service of a description, in the order of the document: a device's
    own services before those of the devices in it. *)
Fixpoint allServices (d : innerDevice) : list service :=
  match d with
  | MkDevice _ services devices => services ++ (fix go ds := match ds with [] => [] | d :: ds => allServices d ++ go ds end) devices
  end.

Lemma findService_head l : findService l = head (filter isWAN l).
Proof. induction l as [|s l IH]; [done|]. cbn [findService]. rewrite filter_cons. by destruct (decide (isWAN s)) as [E|E]; destruct (isWAN s). Qed.

Lemma head_filter_app (l l' : list service) :
  head (filter isWAN (l ++ l')) = match head (filter isWAN l) with Some s => Some s | None => head (filter isWAN l') end.
Proof. rewrite filter_app. by destruct (filter isWAN l). Qed.

Lemma findInDevice_head : forall d, findInDevice d = head (filter isWAN (allServices d)).
Proof.
  fix IH 1. intros [t services devices]. cbn [findInDevice allServices]. rewrite head_filter_app, <- findService_head.
  destruct (findService services); [done|]. induction devices as [|d ds IHds]; [done|].
  rewrite head_filter_app, <- (IH d). destruct (findInDevice d); [done|]. exact IHds.
Qed.

Lemma findWAN_head devs : findWANConnection devs = head (filter isWAN (devs ≫= allServices)).
Proof.
  induction devs as [|d ds IH]; [done|]. cbn [findWANConnection]. rewrite bind_cons, head_filter_app, <- findInDevice_head.
  by destruct (findInDevice d).
Qed.

Lemma findService_WAN l s : head (filter isWAN l) = Some s -> isWAN s = true.
Proof.
  intros Hs. assert (s ∈ filter isWAN l) as Hin by (destruct (filter isWAN l); [done|injection Hs as ->; apply list_elem_of_here]).
  apply list_elem_of_filter in Hin as [Hw _]. by destruct (isWAN s).
Qed.

(** Finding the gateway.  The nested search of a device description returns
    the first WAN connection service of the document, in document order, and
    finds one whenever there is one.  [Discover] returns what the first
    datagram leads to that leads to such a service, skipping the others, and
    fails only when none of those received does; the service it returns is
    always a WANIPConnection or a WANPPPConnection. *)
Theorem Discover_first `{UpperCase} httpGet xmlDevices resolve ds :
  Forall (fun d => d.1.1 = false) ds ->
  (forall devs, findWANConnection devs = head (filter isWAN (devs ≫= allServices))) /\
  let offers := omap (offer httpGet xmlDevices resolve) ((fun x => (x.1.1, take (Z.to_nat 8192) x.1.2, x.2)) <$> ds) in
  Discover httpGet xmlDevices resolve None ds = match head offers with Some igd => Ok igd | None => Err errNoIGD end /\
  (forall igd, igd ∈ offers ->
     contains (ServiceType igd) !"WANIPConnection" = true \/ contains (ServiceType igd) !"WANPPPConnection" = true).
Proof.
  intros Hf. split; [apply findWAN_head|]. cbv zeta. split.
  - unfold Discover. apply discoverLoop_first. apply Forall_fmap. exact Hf.
  - intros igd Hin. apply list_elem_of_omap in Hin as (d & _ & Ho).
    apply offer_service in Ho as (loc & body & devs & svc & _ & _ & Hs & ->). rewrite findWAN_head in Hs.
    apply findService_WAN in Hs. unfold isWAN in Hs. by apply orb_true_iff in Hs.
Qed.

(** ** A gateway with its service in a nested device *)
Module demo.
Definition wan : service := MkService !"urn:schemas-upnp-org:service:WANIPConnection:1" !"/ctl/IPConn".
Definition layer3 : service := MkService !"urn:schemas-upnp-org:service:Layer3Forwarding:1" !"/ctl/L3F".
Definition tree : list innerDevice :=
  [MkDevice !"WANDevice" [layer3] [MkDevice !"WANConnectionDevice" [wan] []]].
Definition crlf : gostring := [cr; nl].
Definition ssdp : bytes := !"HTTP/1.1 200 OK" ++ crlf ++ !"Location: http://192.168.1.1:5000/desc.xml" ++ crlf ++ crlf.
Definition get (u : gostring) : result gostring bytes := if bool_decide (u = !"http://192.168.1.1:5000/desc.xml") then Ok [] else Err [].
Definition join (base ref : gostring) : result gostring gostring := Ok (!"http://192.168.1.1:5000" ++ ref).
Definition offered : list (bool * bytes * option gostring) := [(false, !"junk", None); (false, ssdp, Some !"192.168.1.7")].
End demo.
Import demo.

Lemma Discover_first_witness :
  Discover get (fun _ => Ok tree) join None offered
  = Ok (MkIGD !"http://192.168.1.1:5000/ctl/IPConn" !"urn:schemas-upnp-org:service:WANIPConnection:1" (Some !"192.168.1.7")).
Proof.
  destruct (Discover_first get (fun _ => Ok tree) join offered) as (_ & E & _); [by repeat constructor|].
  rewrite E. vm_compute. reflexivity.
Defined.

(** A relative control URL that begins with "http" is taken for an absolute one. *)
Example relative_control_url :
  ControlURL <$> match fetchControlURL get (fun _ => Ok [MkDevice [] [MkService !"WANIPConnection" !"httpd/ctl"] []]) join
                   !"http://192.168.1.1:5000/desc.xml" with Ok g => Some g | Err _ => None end
  = Some !"httpd/ctl".
Proof. vm_compute. reflexivity. Qed.
End upnp.
