(* ===== verification/Pcap.v ===== *)
(** * Packet captures (internal/pcap/pcap.go)

    Writing and reading the libpcap savefile format.  The writer's [io.Writer]
    is a parameter (a state and a fallible [Write]); the reader reads from a
    byte sequence.  The round trip is proved through an abstract savefile, for
    both byte orders. *)

From Stdlib Require Import Ascii String ZArith Lia.
From stdpp Require Import base tactics list gmap strings.
From S2P Require Import Prelude.
From S2P Require Import Binary.

Local Open Scope Z_scope.

Module pcap.
Import binary.

Definition LinkTypeNull : Z := 0.
Definition LinkTypeEthernet : Z := 1.
Definition LinkTypeRaw : Z := 101.

(** A [time.Time]: seconds since the epoch and nanoseconds within the second. *)
Record Time := MkTime { Unix : Z; Nanosecond : Z }.

(** [time.Unix(sec, nsec)] for [nsec >= 0]. *)
Definition timeUnix (sec nsec : Z) : Time := MkTime (sec + nsec / 1000000000) (nsec mod 1000000000).

(** ** Writer *)

Section writer.
Context {W : Type} (Write : W -> bytes -> W * bool).

Record Writer := MkWriter { w : W; linkType : Z; snaplen : Z }.

Definition fileHeader (linkType snaplen : Z) : bytes :=
  lePut 4 0xa1b2c3d4 ++ lePut 2 2 ++ lePut 2 4 ++ lePut 4 0 ++ lePut 4 0 ++ lePut 4 snaplen ++ lePut 4 linkType.

(** On an error the sink still has taken what it took. *)
Definition NewWriter (w : W) (linkType snaplen : Z) : result W Writer :=
  match Write w (fileHeader linkType snaplen) with
  | (w', true) => Ok (MkWriter w' linkType snaplen)
  | (w', false) => Err w'
  end.

Definition WritePacket (p : Writer) (ts : Time) (data : bytes) : Writer * bool :=
  let len := Z.of_nat (length data) in
  let cap := if snaplen p <? uint32 len then snaplen p else uint32 len in
  let hdr := lePut 4 (uint32 (Unix ts)) ++ lePut 4 (uint32 (Nanosecond ts / 1000))
               ++ lePut 4 cap ++ lePut 4 (uint32 len) in
  let set w' := MkWriter w' (linkType p) (snaplen p) in
  match Write (w p) hdr with
  | (w1, false) => (set w1, false)
  | (w1, true) => let '(w2, ok) := Write w1 (take (Z.to_nat cap) data) in (set w2, ok)
  end.

(** A capture session: packets in order, until a write fails. *)
Fixpoint writeAll (p : Writer) (ps : list (Time * bytes)) : Writer * bool :=
  match ps with
  | [] => (p, true)
  | (ts, data) :: ps =>
      match WritePacket p ts data with
      | (p', true) => writeAll p' ps
      | (p', false) => (p', false)
      end
  end.
End writer.
Arguments MkWriter {W}.
Arguments w {W}.
Arguments linkType {W}.
Arguments snaplen {W}.

(** [bytes.Buffer], whose [Write] never fails. *)
Definition bufferWrite (w b : bytes) : bytes * bool := (w ++ b, true).

(** ** Reader *)

Inductive error := EOF | ErrUnexpectedEOF | errMagic (m : Z).

(** [io.ReadFull] on a byte sequence: what was read and what is left. *)
Definition ReadFull (r : bytes) (n : nat) : result error bytes * bytes :=
  if bool_decide ((n <= length r)%nat) then (Ok (take n r), drop n r)
  else match r with [] => (Err EOF, []) | _ => (Err ErrUnexpectedEOF, []) end.

Record Reader := MkReader { r : bytes; LinkType : Z; Snaplen : Z; little : bool }.

Definition field (little : bool) (hdr : bytes) (lo : nat) : Z :=
  let b := take 4 (drop lo hdr) in if little then leVal b else beVal b.

Definition NewReader (r : bytes) : result error Reader :=
  match ReadFull r 24 with
  | (Err e, _) => Err e
  | (Ok hdr, r') =>
      let magic := field true hdr 0 in
      let mk little := Ok (MkReader r' (field little hdr 20) (field little hdr 16) little) in
      if magic =? 0xa1b2c3d4 then mk true
      else if magic =? 0xd4c3b2a1 then mk false
      else Err (errMagic magic)
  end.

Record Packet := MkPacket { PTime : Time; Data : bytes }.

Definition Next (rd : Reader) : Reader * result error Packet :=
  let set r' := MkReader r' (LinkType rd) (Snaplen rd) (little rd) in
  match ReadFull (r rd) 16 with
  | (Err e, r') => (set r', Err e)
  | (Ok hdr, r') =>
      let sec := field (little rd) hdr 0 in
      let usec := field (little rd) hdr 4 in
      let cap := field (little rd) hdr 8 in
      match ReadFull r' (Z.to_nat cap) with
      | (Err e, r'') => (set r'', Err e)
      | (Ok data, r'') => (set r'', Ok (MkPacket (timeUnix sec (usec * 1000)) data))
      end
  end.

(** Reading until the first error: the packets and that error.  Every packet
    takes at least 16 bytes. *)
Fixpoint readAll (fuel : nat) (rd : Reader) : list Packet * error :=
  match Next rd with
  | (_, Err e) => ([], e)
  | (rd', Ok p) => match fuel with
                   | O => ([], EOF)
                   | S f => let '(ps, e) := readAll f rd' in (p :: ps, e)
                   end
  end.

(** ** Savefiles

    The format itself, over the writer of integers of either byte order. *)
Section savefile.
Context (put : nat -> Z -> bytes).

Record record := MkRecord { rsec : Z; rusec : Z; rlen : Z; rdata : bytes }.

Definition header (linkType snaplen : Z) : bytes :=
  put 4 0xa1b2c3d4 ++ put 2 2 ++ put 2 4 ++ put 4 0 ++ put 4 0 ++ put 4 snaplen ++ put 4 linkType.

Definition recordBytes (x : record) : bytes :=
  put 4 (rsec x) ++ put 4 (rusec x) ++ put 4 (Z.of_nat (length (rdata x))) ++ put 4 (rlen x) ++ rdata x.

Definition savefile (linkType snaplen : Z) (xs : list record) : bytes :=
  header linkType snaplen ++ concat (recordBytes <$> xs).
End savefile.

Definition putOf (little : bool) : nat -> Z -> bytes := if little then lePut else bePut.

Definition recordOk (x : record) : Prop :=
  0 <= rsec x < 2 ^ 32 /\ 0 <= rusec x < 1000000 /\ Z.of_nat (length (rdata x)) < 2 ^ 32.

(** What a savefile record means to the reader. *)
Definition packetOf (x : record) : Packet := MkPacket (MkTime (rsec x) (rusec x * 1000)) (rdata x).

(** The record the writer makes of a packet: seconds modulo 2^32, time cut to
    the microsecond, data cut to the snap length, the original length kept. *)
Definition recordOf (snaplen : Z) (p : Time * bytes) : record :=
  MkRecord (uint32 (Unix p.1)) (Nanosecond p.1 / 1000) (Z.of_nat (length p.2)) (take (Z.to_nat snaplen) p.2).

(** ** Lemmas *)

Lemma length_put l n v : length (putOf l n v) = n.
Proof. destruct l; [apply binary_lemmas.length_lePut|apply binary_lemmas.length_bePut]. Qed.

Lemma field_put l a v b lo : lo = length a -> 0 <= v < 2 ^ 32 ->
  field l (a ++ putOf l 4 v ++ b) lo = v.
Proof.
  intros -> Hv. unfold field. rewrite drop_app_length, take_app_length' by (by rewrite length_put).
  destruct l; [by apply binary_lemmas.leVal_lePut|by apply binary_lemmas.beVal_bePut].
Qed.

Lemma ReadFull_app a b n : n = length a -> ReadFull (a ++ b) n = (Ok a, b).
Proof.
  intros ->. unfold ReadFull. rewrite bool_decide_eq_true_2 by (rewrite length_app; lia).
  by rewrite take_app_length, drop_app_length.
Qed.

Lemma NewReader_savefile l linkType snaplen xs :
  0 <= linkType < 2 ^ 32 -> 0 <= snaplen < 2 ^ 32 ->
  NewReader (savefile (putOf l) linkType snaplen xs) =
  Ok (MkReader (concat (recordBytes (putOf l) <$> xs)) linkType snaplen l).
Proof.
  intros Hl Hs. unfold NewReader, savefile. rewrite ReadFull_app by (unfold header; by rewrite !length_app, !length_put).
  cbv zeta.
  assert (field l (header (putOf l) linkType snaplen) 16 = snaplen) as E1.
  { unfold header. rewrite !(assoc_L (++)), <- (assoc_L (++) _ (putOf l 4 snaplen)).
    apply field_put; [by rewrite !length_app, !length_put|done]. }
  assert (field l (header (putOf l) linkType snaplen) 20 = linkType) as E2.
  { unfold header. rewrite !(assoc_L (++)), <- (app_nil_r (_ ++ putOf l 4 linkType)), <- (assoc_L (++) _ (putOf l 4 linkType)).
    apply field_put; [by rewrite !length_app, !length_put|done]. }
  destruct l; rewrite E1, E2; reflexivity.
Qed.

Lemma timeUnix_usec sec usec : 0 <= usec < 1000000 -> timeUnix sec (usec * 1000) = MkTime sec (usec * 1000).
Proof. intros Hu. unfold timeUnix. rewrite Z.div_small, Z.mod_small by lia. f_equal. lia. Qed.

Lemma Next_record l lt sn x rest : recordOk x ->
  Next (MkReader (recordBytes (putOf l) x ++ rest) lt sn l) = (MkReader rest lt sn l, Ok (packetOf x)).
Proof.
  intros (Hs & Hu & Hd). unfold Next, recordBytes. cbn [r LinkType Snaplen little].
  set (s := putOf l 4 (rsec x)). set (u := putOf l 4 (rusec x)). set (c := putOf l 4 (Z.of_nat _)).
  set (o := putOf l 4 (rlen x)).
  replace ((s ++ u ++ c ++ o ++ rdata x) ++ rest) with ((s ++ u ++ c ++ o) ++ rdata x ++ rest)
    by (by rewrite <- !(assoc_L (++))).
  rewrite ReadFull_app by (unfold s, u, c, o; by rewrite !length_app, !length_put).
  assert (field l (s ++ u ++ c ++ o) 0 = rsec x) as -> by (by apply (field_put l [])).
  assert (field l (s ++ u ++ c ++ o) 4 = rusec x) as ->
    by (apply (field_put l s); [unfold s; by rewrite length_put|lia]).
  assert (field l (s ++ u ++ c ++ o) 8 = Z.of_nat (length (rdata x))) as ->.
  { rewrite (assoc_L (++) s). apply (field_put l (s ++ u)); [|lia].
    unfold s, u. by rewrite length_app, !length_put. }
  rewrite ReadFull_app by lia. unfold packetOf. by rewrite timeUnix_usec.
Qed.

Lemma readAll_records l lt sn xs fuel : Forall recordOk xs -> (length xs <= fuel)%nat ->
  readAll fuel (MkReader (concat (recordBytes (putOf l) <$> xs)) lt sn l) = (packetOf <$> xs, EOF).
Proof.
  intros Hx. revert fuel. induction Hx as [|x xs Hx _ IH]; intros fuel Hf; [by destruct fuel|].
  destruct fuel as [|f]; simpl in Hf; [lia|]. rewrite fmap_cons. cbn [concat readAll].
  rewrite Next_record by done. rewrite IH by lia. done.
Qed.

(** What the writer appends is the little-endian savefile of its packets. *)
Lemma writeAll_savefile ps p : 0 <= snaplen p < 2 ^ 32 ->
  Forall (fun x => Z.of_nat (length x.2) < 2 ^ 32 /\ 0 <= Nanosecond x.1 < 1000000000) ps ->
  writeAll bufferWrite p ps =
  (MkWriter (w p ++ concat (recordBytes (putOf true) <$> (recordOf (snaplen p) <$> ps))) (linkType p) (snaplen p), true).
Proof.
  intros Hs Hp. revert p Hs. induction Hp as [|[ts d] ps [Hl Hn] _ IH]; intros [w0 lt sn] Hs; cbn [snaplen w linkType fst snd] in *.
  { simpl. by rewrite app_nil_r. }
  cbn [writeAll]. unfold WritePacket. cbn [snaplen w linkType bufferWrite].
  rewrite !IH by done. f_equal. f_equal. cbn [w snaplen]. rewrite !fmap_cons. cbn [concat].
  unfold uint32. rewrite !(wrap_u_small 32 (Z.of_nat _)) by lia. rewrite (wrap_u_small 32 (Nanosecond ts / 1000)).
  2:{ split; [apply Z.div_pos; lia|apply Z.div_lt_upper_bound; lia]. }
  assert ((if sn <? Z.of_nat (length d) then sn else Z.of_nat (length d)) =
            Z.of_nat (length (take (Z.to_nat sn) d))) as ->.
  { rewrite length_take. destruct (Z.ltb_spec sn (Z.of_nat (length d))); lia. }
  rewrite Nat2Z.id. replace (take (length _) d) with (take (Z.to_nat sn) d)
    by (by rewrite length_take, <- firstn_firstn, firstn_all).
  unfold recordBytes at 2. cbn [rsec rusec rlen rdata fst snd putOf recordOf]. unfold uint32.
  by rewrite <- !(assoc_L (++)).
Qed.

(** Reading back what was written. *)
Lemma writer_reads_back linkType snaplen ps :
  0 <= linkType < 2 ^ 32 -> 0 <= snaplen < 2 ^ 32 ->
  Forall (fun x => Z.of_nat (length x.2) < 2 ^ 32 /\ 0 <= Nanosecond x.1 < 1000000000) ps ->
  exists p, NewWriter bufferWrite [] linkType snaplen = Ok p /\
    writeAll bufferWrite p ps =
      (MkWriter (savefile lePut linkType snaplen (recordOf snaplen <$> ps)) linkType snaplen, true) /\
    forall l, exists rd,
      NewReader (savefile (putOf l) linkType snaplen (recordOf snaplen <$> ps)) = Ok rd /\
      LinkType rd = linkType /\ Snaplen rd = snaplen /\
      forall fuel, (length ps <= fuel)%nat ->
        readAll fuel rd =
        ((fun x => MkPacket (MkTime (uint32 (Unix x.1)) (Nanosecond x.1 / 1000 * 1000)) (take (Z.to_nat snaplen) x.2)) <$> ps, EOF).
Proof.
  intros Hl Hs Hp. eexists. split; [reflexivity|]. split.
  { rewrite writeAll_savefile by done. reflexivity. }
  intros l. eexists. split; [by apply NewReader_savefile|]. split; [done|]. split; [done|].
  intros fuel Hf. rewrite readAll_records.
  - by rewrite <- list_fmap_compose.
  - apply Forall_fmap. eapply Forall_impl; [exact Hp|]. intros [ts d] [Hd Hn]. cbn [fst snd] in *.
    split_and!; cbn [rsec rusec rdata recordOf fst snd compose].
    + unfold recordOf. cbn. apply (wrap_u_range 32 (Unix ts)). lia.
    + apply (wrap_u_range 32 (Unix ts)). lia.
    + apply Z.div_pos; lia.
    + apply Z.div_lt_upper_bound; lia.
    + rewrite length_take. lia.
  - by rewrite length_fmap.
Qed.

(** A file the writer produced, or its big-endian counterpart, is read back:
    link type and snap length, then every packet in order (time stamps cut to
    the microsecond and to 32-bit seconds, data cut to the snap length), then
    end of file. *)
Theorem capture_roundtrip linkType snaplen ps :
  0 <= linkType < 2 ^ 32 -> 0 <= snaplen < 2 ^ 32 ->
  Forall (fun x => Z.of_nat (length x.2) < 2 ^ 32 /\ 0 <= Nanosecond x.1 < 1000000000) ps ->
  exists p, NewWriter bufferWrite [] linkType snaplen = Ok p /\
    writeAll bufferWrite p ps =
      (MkWriter (savefile lePut linkType snaplen (recordOf snaplen <$> ps)) linkType snaplen, true) /\
    forall l, exists rd,
      NewReader (savefile (putOf l) linkType snaplen (recordOf snaplen <$> ps)) = Ok rd /\
      LinkType rd = linkType /\ Snaplen rd = snaplen /\
      forall fuel, (length ps <= fuel)%nat ->
        readAll fuel rd =
        ((fun x => MkPacket (MkTime (uint32 (Unix x.1)) (Nanosecond x.1 / 1000 * 1000)) (take (Z.to_nat snaplen) x.2)) <$> ps, EOF).
Proof. apply writer_reads_back. Qed.

Lemma capture_roundtrip_witness : exists rd,
  NewReader (savefile bePut LinkTypeEthernet 4
    (recordOf 4 <$> [(MkTime 1700000000 123456789, !"hello"); (MkTime 4294967296 5, !"x")])) = Ok rd /\
  readAll 2 rd = ([MkPacket (MkTime 1700000000 123456000) !"hell"; MkPacket (MkTime 0 0) !"x"], EOF).
Proof.
  destruct (capture_roundtrip LinkTypeEthernet 4 [(MkTime 1700000000 123456789, !"hello"); (MkTime 4294967296 5, !"x")])
    as (p & _ & _ & Hr); [done|done|repeat constructor; vm_compute; done|].
  destruct (Hr false) as (rd & Hrd & _ & _ & Ha). exists rd. split; [exact Hrd|].
  rewrite Ha by done. vm_compute. reflexivity.
Defined.

(** ** Capturing (capture_linux.go) *)

(** What [Recvfrom] returns: a frame and the time after it, nothing within the
    time limit, or an error. *)
Inductive received := Frame (ts : Time) (data : bytes) | Again | RecvError (e : gostring).

Inductive captureError := errInterface (e : gostring) | errSocket (e : gostring) | errBind (e : gostring) | errWrite | errRecv (e : gostring).

Section capture.
Context {W : Type} (Write : W -> bytes -> W * bool).

(** One element per round: whether the context is done, and what is received. *)
Fixpoint captureLoop (p : Writer) (rounds : list (bool * received)) : Writer * result captureError unit :=
  match rounds with
  | [] => (p, Ok ())
  | (true, _) :: _ => (p, Ok ())
  | (false, Again) :: rounds => captureLoop p rounds
  | (false, RecvError e) :: _ => (p, Err (errRecv e))
  | (false, Frame ts data) :: rounds =>
      match WritePacket Write p ts (take (Z.to_nat 65536) data) with
      | (p, false) => (p, Err errWrite)
      | (p, true) => captureLoop p rounds
      end
  end.

(** The three calls that open the socket, then the file header, then the loop. *)
Definition Capture (iface socket bound : option gostring) (snaplen : Z) (w : W) (rounds : list (bool * received))
  : W * result captureError unit :=
  match iface, socket, bound with
  | Some e, _, _ => (w, Err (errInterface e))
  | None, Some e, _ => (w, Err (errSocket e))
  | None, None, Some e => (w, Err (errBind e))
  | None, None, None =>
      match NewWriter Write w LinkTypeEthernet snaplen with
      | Err w => (w, Err errWrite)
      | Ok p => let '(p, r) := captureLoop p rounds in (pcap.w p, r)
      end
  end.

(** [htons] *)
Definition htons (x : Z) : Z := Z.lor (Z.land (uint16 (Z.shiftl x 8)) 0xff00) (Z.shiftr x 8).

(** The frames of a run, up to the end of it. *)
Fixpoint framesOf (rounds : list (bool * received)) : list (Time * bytes) :=
  match rounds with
  | [] | (true, _) :: _ | (false, RecvError _) :: _ => []
  | (false, Again) :: rounds => framesOf rounds
  | (false, Frame ts data) :: rounds => (ts, take (Z.to_nat 65536) data) :: framesOf rounds
  end.

Lemma captureLoop_writes p rounds : (captureLoop p rounds).1 = (writeAll Write p (framesOf rounds)).1.
Proof.
  revert p. induction rounds as [|[[] [ts data| |e]] rounds IH]; intros p; try done; cbn [captureLoop framesOf writeAll].
  - destruct (WritePacket Write p ts (take (Z.to_nat 65536) data)) as [p' []]; [apply IH|done].
  - apply IH.
Qed.
End capture.

Example htons_ETH_P_ALL : htons 0x0003 = 0x0300 /\ htons 0x0300 = 0x0003 /\ htons 0x1234 = 0x3412.
Proof. vm_compute. done. Qed.

(** A capture is read back: what [Capture] wrote to a sink that does not fail
    holds exactly the frames it received before it ended, cut to 65536 bytes
    and to the snap length, in order. *)
Lemma Capture_reads_back snaplen rounds : 0 <= snaplen < 2 ^ 32 ->
  Forall (fun x => 0 <= Nanosecond x.1 < 1000000000) (framesOf rounds) ->
  exists rd, NewReader (Capture bufferWrite None None None snaplen [] rounds).1 = Ok rd /\ LinkType rd = LinkTypeEthernet /\
    readAll (length (framesOf rounds)) rd
    = ((fun x => MkPacket (MkTime (uint32 (Unix x.1)) (Nanosecond x.1 / 1000 * 1000)) (take (Z.to_nat snaplen) x.2)) <$> framesOf rounds, EOF).
Proof.
  intros Hs Hf. destruct (writer_reads_back LinkTypeEthernet snaplen (framesOf rounds)) as (p & Hn & Hw & Hr); [done|done| |].
  { apply Forall_forall. intros x Hx. rewrite Forall_forall in Hf. split; [|by apply Hf]. clear -Hx.
    induction rounds as [|[[] [ts data| |e]] rounds IH]; cbn [framesOf] in Hx;
      try (by apply elem_of_nil in Hx); try (by apply IH).
    apply elem_of_cons in Hx as [->|Hx]; [|by apply IH]. cbn [snd]. rewrite length_take. lia. }
  unfold Capture. rewrite Hn. pose proof (captureLoop_writes bufferWrite p rounds) as Hc.
  destruct (captureLoop bufferWrite p rounds) as [p' r]. cbn [fst] in *. rewrite Hw in Hc. cbn [fst] in Hc. subst p'. cbn [pcap.w].
  destruct (Hr true) as (rd & Hrd & Hlt & _ & Ha). exists rd. split_and!; [exact Hrd|done|]. by apply Ha.
Qed.
End pcap.
