(* ===== verification/Compression.v ===== *)
(** * Payload compression (internal/compression/compression.go)

    The codecs as records of operations, chosen by level; zlib and the lz4
    block format are interfaces with the laws their packages document. *)

From Stdlib Require Import Ascii String ZArith Lia.
From stdpp Require Import base tactics list gmap strings.
From S2P Require Import Prelude.
From S2P Require Import Binary.

Local Open Scope Z_scope.

(** [compress/zlib]: [NewWriterLevel], [Write] and [Close] on one buffer, and
    [NewReader] with [io.ReadAll]. *)
Class Zlib := {
  zerror : Type;
  deflate : Z -> bytes -> result zerror bytes;
  inflate : bytes -> result zerror bytes;
  deflate_ok : forall level data, -2 <= level <= 9 -> exists z, deflate level data = Ok z;
  inflate_deflate : forall level data z, deflate level data = Ok z -> inflate z = Ok data
}.

(** [github.com/pierrec/lz4/v4]: the block is the first [n] bytes of the
    buffer ([[]] for [n = 0], "incompressible"). *)
Class LZ4 := {
  lerror : Type;
  CompressBlockBound : Z -> Z;
  CompressBlock : bytes -> Z -> result lerror bytes;
  UncompressBlock : bytes -> Z -> result lerror bytes;
  UncompressBlock_CompressBlock : forall data room z,
    CompressBlock data room = Ok z -> z <> [] -> forall size, Z.of_nat (length data) <= size ->
    UncompressBlock z size = Ok data
}.

Module compression.
Section codecs.
Context `{Zlib, LZ4}.

Inductive error :=
| errLzo | errLevel (level : Z) | errShortInput | errZlib (e : zerror) | errLz4 (e : lerror).

(** The interface. *)
Record Codec := MkCodec {
  Compress : bytes -> result error bytes;
  Decompress : bytes -> result error bytes
}.

Definition passthrough : Codec := MkCodec Ok Ok.

Definition zlibCodec (level : Z) : Codec :=
  MkCodec (fun inp => err_map errZlib (deflate level inp)) (fun inp => err_map errZlib (inflate inp)).

Definition lz4Compress (inp : bytes) : result error bytes :=
  match CompressBlock inp (CompressBlockBound (Z.of_nat (length inp))) with
  | Err e => Err (errLz4 e)
  | Ok [] => Ok ([to_byte 0; to_byte 0; to_byte 0; to_byte 0] ++ inp)
  | Ok buf =>
      let sz := uint32 (Z.of_nat (length inp)) in
      Ok ([to_byte sz; to_byte (Z.shiftr sz 8); to_byte (Z.shiftr sz 16); to_byte (Z.shiftr sz 24)] ++ buf)
  end.

Definition lz4Decompress (inp : bytes) : result error bytes :=
  match inp with
  | b0 :: b1 :: b2 :: b3 :: body =>
      let sz := Z.lor (Z.lor (Z.lor (byte_val b0) (Z.shiftl (byte_val b1) 8))
                         (Z.shiftl (byte_val b2) 16)) (Z.shiftl (byte_val b3) 24) in
      if sz =? 0 then Ok body else err_map errLz4 (UncompressBlock body sz)
  | _ => Err errShortInput
  end.

Definition lz4Codec : Codec := MkCodec lz4Compress lz4Decompress.

Definition New (level : Z) : result error Codec :=
  if level =? 0 then Ok passthrough
  else if (1 <=? level) && (level <=? 9) then Ok (zlibCodec level)
  else if (level =? 10) || (level =? 11) then Err errLzo
  else if level =? 12 then Ok lz4Codec
  else Err (errLevel level).

(** ** Lemmas *)

(** Bit [i] of the byte at offset [k], moved back to its place. *)
Lemma byte_bit sz k i : 0 <= k -> 0 <= i ->
  Z.testbit (Z.shiftl (byte_val (to_byte (Z.shiftr sz k))) k) i =
  (k <=? i) && (i <? k + 8) && Z.testbit sz i.
Proof.
  intros Hk Hi. rewrite byte_val_to_byte. change 256 with (2 ^ 8).
  rewrite Z.shiftl_spec, Z.testbit_mod_pow2 by lia.
  destruct (Z.leb_spec k i).
  - rewrite Z.shiftr_spec by lia. replace (i - k + k) with i by lia.
    by destruct (Z.ltb_spec (i - k) 8), (Z.ltb_spec i (k + 8)); try lia.
  - rewrite Z.testbit_neg_r by lia. by rewrite andb_false_r.
Qed.

(** The four bytes written are put together again to the 32-bit size. *)
Lemma size_bytes sz : 0 <= sz < 2 ^ 32 ->
  Z.lor (Z.lor (Z.lor (byte_val (to_byte sz)) (Z.shiftl (byte_val (to_byte (Z.shiftr sz 8))) 8))
           (Z.shiftl (byte_val (to_byte (Z.shiftr sz 16))) 16))
    (Z.shiftl (byte_val (to_byte (Z.shiftr sz 24))) 24) = sz.
Proof.
  intros Hs. rewrite <- (Z.shiftl_0_r (byte_val (to_byte sz))), <- (Z.shiftr_0_r sz) at 1.
  apply Z.bits_inj'. intros i Hi. rewrite !Z.lor_spec, !byte_bit by lia.
  destruct (Z.ltb_spec i 32).
  - destruct (Z.leb_spec 0 i), (Z.leb_spec 8 i), (Z.leb_spec 16 i), (Z.leb_spec 24 i),
      (Z.ltb_spec i (0 + 8)), (Z.ltb_spec i (8 + 8)), (Z.ltb_spec i (16 + 8)), (Z.ltb_spec i (24 + 8));
      try lia; by destruct (Z.testbit sz i).
  - replace (Z.testbit sz i) with false; [by rewrite !andb_false_r|].
    symmetry. rewrite <- (Z.mod_small sz (2 ^ 32)), Z.testbit_mod_pow2 by lia.
    by destruct (Z.ltb_spec i 32); [lia|].
Qed.

Lemma lz4_roundtrip inp z : inp <> [] -> Z.of_nat (length inp) < 2 ^ 32 ->
  lz4Compress inp = Ok z -> lz4Decompress z = Ok inp.
Proof.
  intros Hne Hlen. unfold lz4Compress. destruct (CompressBlock _ _) as [[|b buf]|e] eqn:E; [| |done].
  - intros [= <-]. reflexivity.
  - intros [= <-]. unfold lz4Decompress. unfold uint32. rewrite (wrap_u_small 32) by lia.
    rewrite size_bytes by lia. destruct inp as [|x inp]; [done|].
    destruct (Z.eqb_spec (Z.of_nat (length (x :: inp))) 0); [simpl in *; lia|].
    by rewrite (UncompressBlock_CompressBlock _ _ _ E).
Qed.

Ltac levels := unfold New; repeat match goal with
  | |- context [?a =? ?b] => destruct (Z.eqb_spec a b)
  | |- context [?a <=? ?b] => destruct (Z.leb_spec a b)
  end; cbn [andb orb is_ok]; try lia.

Lemma New_ok level c : New level = Ok c ->
  (level = 0 /\ c = passthrough) \/ (1 <= level <= 9 /\ c = zlibCodec level) \/ (level = 12 /\ c = lz4Codec).
Proof. levels; intros [= <-]; eauto. Qed.

(** The levels: which [New] accepts, which it refuses and how; and every codec
    it returns gives back the message it compressed (for lz4, a non-empty one
    of less than 2^32 bytes).  Levels 0 to 9 never fail to compress. *)
Theorem codec_roundtrip level :
  (forall c, New level = Ok c -> forall inp z,
     (level = 12 -> inp <> [] /\ Z.of_nat (length inp) < 2 ^ 32) ->
     Compress c inp = Ok z -> Decompress c z = Ok inp) /\
  (forall c, New level = Ok c -> level <= 9 -> forall inp, exists z, Compress c inp = Ok z) /\
  (is_ok (New level) = true <-> 0 <= level <= 9 \/ level = 12) /\
  (New level = Err errLzo <-> level = 10 \/ level = 11).
Proof.
  split_and!.
  - intros c [[_ ->]|[[_ ->]|[Hl ->]]]%New_ok inp z Hi; cbn [Compress Decompress passthrough zlibCodec lz4Codec].
    + by intros [= <-].
    + destruct (deflate level inp) as [z'|] eqn:E; [|done]. intros [= <-]. by rewrite (inflate_deflate _ _ _ E).
    + destruct (Hi Hl). by apply lz4_roundtrip.
  - intros c [[_ ->]|[[Hl ->]|[Hl ->]]]%New_ok H9 inp; [by exists inp| |lia].
    destruct (deflate_ok level inp) as [z Hz]; [lia|]. exists z. cbn. by rewrite Hz.
  - levels; split; (done || lia).
  - levels; split; (done || lia || (intros [= ?]; lia)).
Qed.

(** The length prefix 0 means "stored verbatim", so an empty message that the
    block encoder does encode (the block format has a one-byte encoding of the
    empty block) decompresses to that encoding instead of the message. *)
Theorem lz4_empty_message z : CompressBlock [] (CompressBlockBound 0) = Ok z -> z <> [] ->
  exists c, lz4Compress [] = Ok c /\ lz4Decompress c = Ok z.
Proof.
  intros Hz Hn. unfold lz4Compress. change (Z.of_nat (length [])) with 0. rewrite Hz. destruct z as [|b z]; [done|].
  eexists. split; reflexivity.
Qed.

End codecs.

(** ** An instance: blocks stored behind a token *)
Module demo.
#[refine, export] Instance zlib : Zlib := {
  zerror := unit;
  deflate := fun level data => if (-2 <=? level) && (level <=? 9) then Ok (to_byte 120 :: data) else Err tt;
  inflate := fun z => match z with _ :: data => Ok data | [] => Err tt end
}.
Proof.
  - intros level data Hl. destruct (Z.leb_spec (-2) level), (Z.leb_spec level 9); try lia. eauto.
  - intros level data z. destruct (_ && _); [|done]. by intros [= <-].
Defined.

#[refine, export] Instance lz4 : LZ4 := {
  lerror := unit;
  CompressBlockBound := fun n => n + n / 255 + 16;
  CompressBlock := fun data room =>
    if Z.of_nat (length data) <? room then Ok (to_byte 0 :: data) else Err tt;
  UncompressBlock := fun z size =>
    match z with
    | _ :: data => if Z.of_nat (length data) <=? size then Ok data else Err tt
    | [] => Err tt
    end
}.
Proof.
  intros data room z. destruct (_ <? _); [|done]. intros [= <-] _ size Hs.
  by destruct (Z.leb_spec (Z.of_nat (length data)) size); [|lia].
Defined.
End demo.
Import demo.

Lemma lz4_empty_message_witness : exists c, lz4Compress [] = Ok c /\ lz4Decompress c = Ok [to_byte 0].
Proof. apply lz4_empty_message; [vm_compute; reflexivity|done]. Defined.

Lemma codec_roundtrip_witness : exists z, Compress lz4Codec !"hello" = Ok z /\ Decompress lz4Codec z = Ok !"hello".
Proof.
  eexists. split; [vm_compute; reflexivity|].
  eapply (proj1 (codec_roundtrip 12)); [reflexivity|done|vm_compute; reflexivity].
Defined.
End compression.
