(* ===== verification/Dataplane.v ===== *)
(** * The data plane (internal/dataplane, internal/dataplane/linux,
      internal/dataplane/fake)

    The desired state, the Linux reconciler and the in-memory reconciler.  The
    kernel (netlink and WireGuard) is an interface: [Kernel] has the calls the
    code makes, [KernelLaws] what their documentation promises, and a concrete
    kernel at the end satisfies the laws.  The reconciler is written in a
    state and error monad over the kernel. *)

From Stdlib Require Import Ascii String ZArith Lia.
From stdpp Require Import base tactics list gmap strings.
From S2P Require Import Prelude.
From S2P Require Import NetIP.
From S2P Require Import Binary.
From S2P Require Import Keys.

Local Open Scope Z_scope.

Module dataplane.

(** A WireGuard key ([wgtypes.Key]) is its bytes. *)
Record Peer := MkPeer {
  Name : gostring; WGPublic : bytes; Endpoint : netip.AddrPort; InnerAddr : netip.Addr;
  UnderlayAddr : netip.Addr; AllowedIPs : list netip.Prefix
}.

Inductive Mode := ModeSwitch | ModeHub | ModeRouter.

#[global] Instance Mode_eq_dec : EqDecision Mode.
Proof. solve_decision. Defined.

Record State := MkState {
  SMode : Mode; WGPrivate : bytes; WGInterface : gostring; WGListenPort : Z;
  VXLANInterface : gostring; VXLANID : Z; VXLANPort : Z; LocalInnerAddr : netip.Prefix;
  LocalUnderlayAddr : netip.Prefix; SMTU : Z; Peers : list Peer
}.

Record TrafficStats := MkStats { SPeer : gostring; RxBytes : Z; TxBytes : Z; LastHandshake : Z }.
End dataplane.

(** ** The in-memory reconciler *)
Module fake.
Import dataplane.

Record Reconciler := MkReconciler { Applied : list State; Closed : bool; FakeStats : list TrafficStats }.

Definition New : Reconciler := MkReconciler [] false [].
Definition Stats (r : Reconciler) : list TrafficStats := FakeStats r.
Definition Reconcile (s : State) (r : Reconciler) : Reconciler :=
  MkReconciler (Applied r ++ [s]) (Closed r) (FakeStats r).
Definition Shutdown (r : Reconciler) : Reconciler := MkReconciler (Applied r) true (FakeStats r).
Definition Last (r : Reconciler) : option State := last (Applied r).
End fake.

(** ** Go's net types *)
Module gonet.
Import binary.

Record IPNet := MkIPNet { IP : bytes; Mask : bytes }.
Record UDPAddr := MkUDPAddr { UIP : bytes; UPort : Z }.

#[global] Instance IPNet_eq_dec : EqDecision IPNet.
Proof. solve_decision. Defined.
#[global] Instance IPNet_countable : Countable IPNet.
Proof. apply (inj_countable' (fun n => (IP n, Mask n)) (fun p => MkIPNet p.1 p.2)). by intros []. Defined.

Definition AsSlice (a : netip.Addr) : bytes :=
  match a with
  | netip.AddrZero => []
  | netip.Addr4 v => bePut 4 v
  | netip.Addr6 gs _ => gs ≫= bePut 2
  end.

(** [net.CIDRMask]: [nil] when the arguments make no mask. *)
Definition CIDRMask (ones bits : Z) : bytes :=
  if ((bits =? 32) || (bits =? 128)) && (0 <=? ones) && (ones <=? bits) then
    bePut (Z.to_nat (bits / 8)) (2 ^ bits - 2 ^ (bits - ones))
  else [].

(** The twelve bytes in front of an IPv4 address in its 16-byte form. *)
Definition v4InV6Prefix : bytes := replicate 10 (to_byte 0) ++ [to_byte 255; to_byte 255].

Definition To4 (ip : bytes) : option bytes :=
  if bool_decide (length ip = 4%nat) then Some ip
  else if bool_decide (length ip = 16%nat /\ take 12 ip = v4InV6Prefix) then Some (drop 12 ip)
  else None.

(** [net.IP.Equal]: an IPv4 address equals its 16-byte form. *)
Definition Equal (a b : bytes) : bool :=
  match To4 a, To4 b with
  | Some x, Some y => bool_decide (x = y)
  | _, _ => bool_decide (a = b)
  end.

Fixpoint pairs (s : bytes) : list Z :=
  match s with a :: b :: t => beVal [a; b] :: pairs t | _ => [] end.

Definition ipString (ip : bytes) : gostring :=
  match To4 ip with
  | Some x => netip.string4 (beVal x)
  | None =>
      if bool_decide (length ip = 16%nat) then netip.string6 (pairs ip)
      else if bool_decide (ip = []) then !"<nil>"
      else !"?" ++ (ip ≫= net.hexByte)
  end.
End gonet.

(** ** The kernel interface *)

Module kernel.
Import gonet.

Record LinkAttrs := MkAttrs { Index : Z; MTU : Z; HardwareAddr : bytes }.
Inductive LinkKind := GenericLink (ty : gostring) | Vxlan (src : bytes) | OtherLink.
Record Link := MkLink { LName : gostring; Attrs : LinkAttrs; Kind : LinkKind }.

(** What [LinkAdd] is given: attributes left out are chosen by the kernel. *)
Inductive NewLink :=
| NewWireguard (name : gostring) (mtu : option Z)
| NewVxlan (name : gostring) (mtu : option Z) (hw : bytes) (parent vni port : Z) (learning : bool) (src : bytes).

Definition newName (l : NewLink) : gostring :=
  match l with NewWireguard n _ => n | NewVxlan n _ _ _ _ _ _ _ => n end.

(** A forwarding row: [NUD_PERMANENT] and [NTF_SELF] are set on appended rows. *)
Record Neigh := MkNeigh { LinkIndex : Z; NHw : bytes; NIP : bytes }.

(** A [time.Time] is the number of nanoseconds since the epoch; the zero value
    is the beginning of year 1, which wgctrl documents for a peer without a
    handshake.  [UnixNano] is an int64 and wraps. *)
Definition zeroTime : Z := -62135596800000000000.
Definition UnixNano (t : Z) : Z := (t + 2 ^ 63) mod 2 ^ 64 - 2 ^ 63.

Record DevPeer := MkDevPeer {
  PublicKey : bytes; DAllowed : list IPNet; DEndpoint : option UDPAddr;
  ReceiveBytes : Z; TransmitBytes : Z; LastHandshakeTime : Z
}.

Record PeerConfig := MkPeerConfig {
  CKey : bytes; Remove : bool; ReplaceAllowedIPs : bool; CAllowed : list IPNet;
  CEndpoint : option UDPAddr; PersistentKeepalive : option Z
}.
Record Config := MkConfig { CPrivate : bytes; ListenPort : Z; CPeers : list PeerConfig }.
End kernel.

Class Kernel := {
  K : Type;
  kerror : Type;
  LinkByName : K -> gostring -> result (option kerror) kernel.Link; (* [Err None]: not found *)
  LinkAdd : kernel.NewLink -> K -> K * option kerror;
  LinkDel : kernel.Link -> K -> K * option kerror;
  LinkSetMTU : kernel.Link -> Z -> K -> K * option kerror;
  LinkSetHardwareAddr : kernel.Link -> bytes -> K -> K * option kerror;
  LinkSetUp : kernel.Link -> K -> K * option kerror;
  AddrReplace : kernel.Link -> gonet.IPNet -> K -> K * option kerror;
  NeighList : K -> Z -> result kerror (list kernel.Neigh);
  NeighAppend : kernel.Neigh -> K -> K * option kerror;
  NeighDel : kernel.Neigh -> K -> K * option kerror;
  Device : K -> gostring -> result kerror (list kernel.DevPeer);
  ConfigureDevice : gostring -> kernel.Config -> K -> K * option kerror
}.

(** What the reconciler relies on.  WireGuard's view of a device: per peer
    the set of allowed networks (as the kernel keeps them, host bits cleared),
    the endpoint and the counters of its session. *)
Module view.
Import gonet kernel.

Record peerView := MkView { vAllowed : gset IPNet; vEndpoint : option UDPAddr; vSession : Z * Z * Z }.

Definition viewOf (d : DevPeer) : peerView :=
  MkView (list_to_set (DAllowed d)) (DEndpoint d) (ReceiveBytes d, TransmitBytes d, LastHandshakeTime d).

Definition peerMap (ps : list DevPeer) : gmap bytes peerView :=
  list_to_map ((fun d => (PublicKey d, viewOf d)) <$> ps).

Definition canonNet (n : IPNet) : IPNet :=
  MkIPNet (zip_with (fun a m => to_byte (Z.land (byte_val a) (byte_val m))) (IP n) (Mask n)) (Mask n).

Definition nets (l : list IPNet) : gset IPNet := list_to_set (canonNet <$> l).

(** One [PeerConfig]: removal, or creation and update; a network belongs to
    one peer, so giving it to this peer takes it from every other. *)
Definition configurePeer (m : gmap bytes peerView) (c : PeerConfig) : gmap bytes peerView :=
  if Remove c then delete (CKey c) m
  else
    let old := default (MkView ∅ None (0, 0, 0)) (m !! CKey c) in
    let mine := nets (CAllowed c) in
    <[CKey c := MkView (if ReplaceAllowedIPs c then mine else vAllowed old ∪ mine)
                  (match CEndpoint c with Some e => Some e | None => vEndpoint old end) (vSession old)]>
      ((fun v => MkView (vAllowed v ∖ mine) (vEndpoint v) (vSession v)) <$> m).

(** The netlink calls that leave the WireGuard configuration of [wg] alone. *)
Inductive netlinkOp `{Kernel} (wg : gostring) : (K -> K * option kerror) -> Prop :=
| op_mtu l m : netlinkOp wg (LinkSetMTU l m)
| op_hw l a : netlinkOp wg (LinkSetHardwareAddr l a)
| op_up l : netlinkOp wg (LinkSetUp l)
| op_addr l a : netlinkOp wg (AddrReplace l a)
| op_append n : netlinkOp wg (NeighAppend n)
| op_ndel n : netlinkOp wg (NeighDel n)
| op_add l : newName l <> wg -> netlinkOp wg (LinkAdd l)
| op_del l : LName l <> wg -> netlinkOp wg (LinkDel l).

(** A group address: the lowest bit of the first byte is set. *)
Definition multicast (mac : bytes) : Prop :=
  match mac with b :: _ => Z.odd (byte_val b) = true | [] => False end.
End view.

Class KernelLaws `{Kernel} := {
  LinkByName_name : forall k n l, LinkByName k n = Ok l -> kernel.LName l = n;
  Device_LinkAdd : forall k k' n mtu, LinkByName k n = Err None ->
    LinkAdd (kernel.NewWireguard n mtu) k = (k', None) -> Device k' n = Ok [];
  Device_frame : forall wg op k, view.netlinkOp wg op -> Device (op k).1 wg = Device k wg;
  Device_ConfigureDevice : forall k k' n cfg ps, Device k n = Ok ps ->
    ConfigureDevice n cfg k = (k', None) ->
    exists ps', Device k' n = Ok ps' /\
      view.peerMap ps' = foldl view.configurePeer (view.peerMap ps) (kernel.CPeers cfg);
  NeighList_index : forall k i rows, NeighList k i = Ok rows ->
    Forall (fun r => kernel.LinkIndex r = i) rows;
  (* appending is for group addresses, or for an address without a row; for
     another address with a row it is not said whether the row is added *)
  NeighList_append : forall k k' i rows n, NeighList k i = Ok rows -> kernel.LinkIndex n = i ->
    view.multicast (kernel.NHw n) \/ (forall r, r ∈ rows -> kernel.NHw r <> kernel.NHw n) ->
    NeighAppend n k = (k', None) ->
    exists rows', NeighList k' i = Ok rows' /\ forall r, r ∈ rows' <-> r ∈ rows \/ r = n;
  NeighList_append_only : forall k k' i rows n, NeighList k i = Ok rows -> kernel.LinkIndex n = i ->
    NeighAppend n k = (k', None) ->
    exists rows', NeighList k' i = Ok rows' /\ (forall r, r ∈ rows -> r ∈ rows') /\
      forall r, r ∈ rows' -> r ∈ rows \/ r = n;
  NeighList_del : forall k k' i rows n, NeighList k i = Ok rows -> kernel.LinkIndex n = i ->
    NeighDel n k = (k', None) ->
    exists rows', NeighList k' i = Ok rows' /\ forall r, r ∈ rows' <-> r ∈ rows /\ r <> n
}.

(** ** The Linux reconciler *)
Module linux.
Import dataplane gonet kernel.

Definition fdbKey : Type := gostring * gostring.

Section reconciler.
Context `{Kernel, WGTypes, SHA256}.
Context (rangeFdb : gset fdbKey -> list fdbKey).

Inductive error :=
| errWGInterface | errVXLANInterface | errLocalInner | errLocalUnderlay
| errNotFound (name : gostring) | errKernel (e : kerror).

(** State and error over the kernel. *)
Definition M (A : Type) : Type := K -> K * result error A.
#[global] Instance M_ret : MRet M := fun A a k => (k, Ok a).
#[global] Instance M_bind : MBind M := fun A B f m k =>
  match m k with (k', Ok a) => f a k' | (k', Err e) => (k', Err e) end.

Definition fail {A} (e : error) : M A := fun k => (k, Err e).
Definition call (op : K -> K * option kerror) : M unit := fun k =>
  match op k with (k', None) => (k', Ok tt) | (k', Some e) => (k', Err (errKernel e)) end.
Definition when (b : bool) (m : M unit) : M unit := if b then m else mret tt.

(** [netlink.LinkByName] where every error ends the caller. *)
Definition linkByName (name : gostring) : M Link := fun k =>
  match LinkByName k name with
  | Ok l => (k, Ok l)
  | Err None => (k, Err (errNotFound name))
  | Err (Some e) => (k, Err (errKernel e))
  end.

(** ... and where "not found" does not. *)
Definition findLink (name : gostring) : M (option Link) := fun k =>
  match LinkByName k name with
  | Ok l => (k, Ok (Some l))
  | Err None => (k, Ok None)
  | Err (Some e) => (k, Err (errKernel e))
  end.

Definition vxlanMACFromKey (pub : bytes) : bytes :=
  match take 6 (sha256 pub) with
  | b :: mac => to_byte (Z.land (Z.lor (byte_val b) 0x02) 0xfe) :: mac
  | [] => []
  end.

Definition broadcastMAC : bytes := replicate 6 (to_byte 0xff).

Definition prefixToIPNet (p : netip.Prefix) : IPNet :=
  MkIPNet (AsSlice (netip.pAddr p)) (CIDRMask (netip.pBits p) (netip.BitLen (netip.pAddr p))).

(** The same behind a pointer, for the addresses of the interfaces. *)
Definition prefixToIPNetP (p : netip.Prefix) : IPNet :=
  MkIPNet (AsSlice (netip.pAddr p)) (CIDRMask (netip.pBits p) (netip.BitLen (netip.pAddr p))).

Definition ensureWGInterface (s : State) : M unit :=
  found ← findLink (WGInterface s);
  link ← match found with
         | Some l => mret l
         | None =>
             _ ← call (LinkAdd (NewWireguard (WGInterface s) (if 0 <? SMTU s then Some (SMTU s) else None)));
             linkByName (WGInterface s)
         end;
  _ ← when ((0 <? SMTU s) && negb (MTU (Attrs link) =? SMTU s)) (call (LinkSetMTU link (SMTU s)));
  _ ← when (netip.pIsValid (LocalUnderlayAddr s))
        (call (AddrReplace link (prefixToIPNetP (LocalUnderlayAddr s))));
  call (LinkSetUp link).

Definition peerConfig (p : Peer) : PeerConfig :=
  MkPeerConfig (WGPublic p) false true (prefixToIPNet <$> AllowedIPs p)
    (if netip.apIsValid (Endpoint p)
     then Some (MkUDPAddr (AsSlice (netip.apAddr (Endpoint p))) (netip.apPort (Endpoint p))) else None)
    (Some 25).

Definition removeConfig (key : bytes) : PeerConfig := MkPeerConfig key true false [] None None.

Definition configureWGPeers (s : State) : M unit := fun k =>
  let desired : gset bytes := list_to_set (WGPublic <$> Peers s) in
  let peers := peerConfig <$> Peers s in
  let removals := match Device k (WGInterface s) with
                  | Ok ps => removeConfig <$> filter (fun x => x ∉ desired) (PublicKey <$> ps)
                  | Err _ => []
                  end in
  call (ConfigureDevice (WGInterface s) (MkConfig (WGPrivate s) (WGListenPort s) (peers ++ removals))) k.

Definition ensureVXLAN (s : State) : M unit :=
  wgLink ← linkByName (WGInterface s);
  let wantSrc := AsSlice (netip.pAddr (LocalUnderlayAddr s)) in
  let wantMAC := vxlanMACFromKey (wg_public (WGPrivate s)) in
  found ← findLink (VXLANInterface s);
  kept ← match found with
         | Some l =>
             match Kind l with
             | Vxlan src => if Equal src wantSrc then mret (Some l)
                            else (_ ← call (LinkDel l); mret None)
             | _ => mret (Some l)
             end
         | None => mret None
         end;
  link ← match kept with
         | Some l => mret l
         | None =>
             _ ← call (LinkAdd (NewVxlan (VXLANInterface s) (if 0 <? SMTU s then Some (SMTU s - 50) else None)
                   wantMAC (Index (Attrs wgLink)) (VXLANID s) (VXLANPort s)
                   (negb (bool_decide (SMode s = ModeHub))) wantSrc));
             linkByName (VXLANInterface s)
         end;
  _ ← when (negb (bool_decide (net.macString (HardwareAddr (Attrs link)) = net.macString wantMAC)))
        (call (LinkSetHardwareAddr link wantMAC));
  _ ← when ((0 <? SMTU s) && negb (MTU (Attrs link) =? SMTU s - 50)) (call (LinkSetMTU link (SMTU s - 50)));
  _ ← call (AddrReplace link (prefixToIPNetP (LocalInnerAddr s)));
  call (LinkSetUp link).

(** The peers [reconcileFDB] looks at. *)
Definition fdbPeers (s : State) : list Peer := filter (fun p => netip.IsValid (UnderlayAddr p) = true) (Peers s).

Definition managedMACs (s : State) : gset gostring :=
  {[ net.macString broadcastMAC ]} ∪ list_to_set ((fun p => net.macString (vxlanMACFromKey (WGPublic p))) <$> fdbPeers s).

Definition desiredRows (s : State) : gset fdbKey :=
  list_to_set (fdbPeers s ≫= (fun p =>
    [(net.macString broadcastMAC, netip.addrString (UnderlayAddr p));
     (net.macString (vxlanMACFromKey (WGPublic p)), netip.addrString (UnderlayAddr p))])).

Definition haveRows (s : State) (rows : list Neigh) : gset fdbKey :=
  list_to_set (filter (fun k => k.1 ∈ managedMACs s) ((fun n => (net.macString (NHw n), ipString (NIP n))) <$> rows)).

(** The row a key stands for; [nil] addresses where the text does not parse. *)
Definition rowOf (index : Z) (k : fdbKey) : Neigh :=
  MkNeigh index (default [] (net.ParseMAC k.1)) (AsSlice (default netip.AddrZero (netip.ParseAddr k.2))).

Fixpoint forEach (ks : list fdbKey) (f : fdbKey -> M unit) : M unit :=
  match ks with
  | [] => mret tt
  | k :: ks => _ ← f k; forEach ks f
  end.

Definition reconcileFDB (s : State) : M unit :=
  link ← linkByName (VXLANInterface s);
  let index := Index (Attrs link) in
  (fun k =>
    match NeighList k index with
    | Err e => (k, Err (errKernel e))
    | Ok existing =>
        let desired := desiredRows s in
        let have := haveRows s existing in
        (_ ← forEach (rangeFdb desired) (fun key => when (bool_decide (key ∉ have)) (call (NeighAppend (rowOf index key))));
         forEach (rangeFdb have) (fun key => when (bool_decide (key ∉ desired)) (call (NeighDel (rowOf index key))))) k
    end) : M unit.

Record Reconciler := MkReconciler { lastState : option State }.

Definition guard (b : bool) (e : error) : M unit := if b then fail e else mret tt.

Definition reconcile (s : State) : M unit :=
  _ ← guard (bool_decide (WGInterface s = [])) errWGInterface;
  _ ← ensureWGInterface s;
  _ ← configureWGPeers s;
  if bool_decide (SMode s = ModeRouter) then mret tt
  else
    _ ← guard (bool_decide (VXLANInterface s = [])) errVXLANInterface;
    _ ← guard (negb (netip.pIsValid (LocalInnerAddr s))) errLocalInner;
    _ ← guard (negb (netip.pIsValid (LocalUnderlayAddr s))) errLocalUnderlay;
    _ ← ensureVXLAN s;
    reconcileFDB s.

Definition Reconcile (s : State) (r : Reconciler) : M Reconciler :=
  _ ← reconcile s; mret (MkReconciler (Some s)).

(** [New] and [Shutdown], given what opening and closing the WireGuard client
    answers. *)
Definition New (opened : option kerror) : result kerror Reconciler :=
  match opened with Some e => Err e | None => Ok (MkReconciler None) end.
Definition Shutdown (closed : option kerror) (r : Reconciler) : Reconciler * result kerror unit :=
  (r, match closed with Some e => Err e | None => Ok tt end).

Definition Stats (r : Reconciler) (k : K) : result kerror (list TrafficStats) :=
  match lastState r with
  | None => Ok []
  | Some s =>
      match Device k (WGInterface s) with
      | Err e => Err e
      | Ok ps =>
          let nameByKey : gmap gostring gostring :=
            foldl (fun m p => <[wg_string (WGPublic p) := Name p]> m) ∅ (Peers s) in
          Ok ((fun d => MkStats (default (wg_string (PublicKey d)) (nameByKey !! wg_string (PublicKey d)))
                          (wrap_u 64 (ReceiveBytes d)) (wrap_u 64 (TransmitBytes d)) (UnixNano (LastHandshakeTime d))) <$> ps)
      end
  end.
End reconciler.

(** ** WireGuard peers *)
Section peers.
Context `{KernelLaws, WGTypes, SHA256}.
Import view.

Definition endpointOf (p : Peer) : option UDPAddr := CEndpoint (peerConfig p).
Definition netsOf (p : Peer) : gset IPNet := nets (prefixToIPNet <$> AllowedIPs p).

(** What the device should hold for a peer, given what it held before: its
    networks; its endpoint, or the old one while none is known; and its old
    session, untouched. *)
Definition wanted (p : Peer) (old : option peerView) : peerView :=
  MkView (netsOf p) (match endpointOf p with Some e => Some e | None => old ≫= vEndpoint end)
    (default (0, 0, 0) (vSession <$> old)).

(** Same endpoint and session; the networks may have been taken away. *)
Definition keeps (a b : option peerView) : Prop :=
  (vEndpoint <$> a) = (vEndpoint <$> b) /\ (vSession <$> a) = (vSession <$> b).

Lemma configurePeer_other m p x : x <> WGPublic p ->
  configurePeer m (peerConfig p) !! x =
  (fun v => MkView (vAllowed v ∖ netsOf p) (vEndpoint v) (vSession v)) <$> m !! x.
Proof.
  intros Hx. unfold configurePeer. cbn [Remove CKey peerConfig].
  rewrite lookup_insert_ne by congruence. apply lookup_fmap.
Qed.

Lemma configurePeer_this m p : configurePeer m (peerConfig p) !! WGPublic p = Some (wanted p (m !! WGPublic p)).
Proof.
  unfold configurePeer. cbn [Remove CKey peerConfig ReplaceAllowedIPs CAllowed CEndpoint].
  rewrite lookup_insert_eq. unfold wanted. f_equal. f_equal.
  - unfold endpointOf. cbn [CEndpoint peerConfig]. by destruct (netip.apIsValid _), (m !! WGPublic p).
  - by destruct (m !! WGPublic p).
Qed.

Lemma adds_view ps m : NoDup (WGPublic <$> ps) ->
  (forall p q, p ∈ ps -> q ∈ ps -> p <> q -> netsOf p ## netsOf q) ->
  let m' := foldl configurePeer m (peerConfig <$> ps) in
  (forall p, p ∈ ps -> m' !! WGPublic p = Some (wanted p (m !! WGPublic p))) /\
  (forall x, x ∉ WGPublic <$> ps -> keeps (m' !! x) (m !! x)).
Proof.
  induction ps as [|p ps IH] using rev_ind; intros Hnd Hdis m'; [split; [intros p []%elem_of_nil|done]|].
  subst m'. rewrite fmap_app, foldl_app. cbn [fmap list_fmap foldl].
  rewrite fmap_app, NoDup_app in Hnd. destruct Hnd as (Hnd & Hnew & _).
  destruct IH as [IH1 IH2]; [done|intros; apply Hdis; set_solver|].
  set (m1 := foldl _ _ _) in *.
  assert (WGPublic p ∉ WGPublic <$> ps) as Hp by (intros Hin; apply (Hnew _ Hin); set_solver).
  split.
  - intros q [Hq| ->%list_elem_of_singleton]%elem_of_app.
    + assert (WGPublic q <> WGPublic p) as Hne by (intros He; apply Hp; rewrite <- He; by apply list_elem_of_fmap_2).
      rewrite configurePeer_other, IH1 by done. cbn [fmap option_fmap option_map]. f_equal.
      unfold wanted. cbn [vAllowed vEndpoint vSession]. f_equal.
      apply difference_disjoint_L. apply Hdis; [set_solver..|congruence].
    + rewrite configurePeer_this. f_equal. destruct (IH2 _ Hp) as [He Hs]. unfold wanted. rewrite Hs.
      do 2 f_equal. destruct (endpointOf p); [done|].
      by destruct (m1 !! _), (m !! _); simplify_eq/=.
  - intros x Hx. rewrite fmap_app, not_elem_of_app in Hx. destruct Hx as [Hx Hxp].
    rewrite configurePeer_other by set_solver. destruct (IH2 _ Hx) as [He Hs]. unfold keeps.
    rewrite <- He, <- Hs. by destruct (m1 !! x).
Qed.

Lemma removals_view m l x : foldl configurePeer m (removeConfig <$> l) !! x = if bool_decide (x ∈ l) then None else m !! x.
Proof.
  revert m. induction l as [|y l IH]; intros m; [done|]. cbn [fmap list_fmap foldl].
  rewrite IH. unfold configurePeer. cbn [Remove CKey removeConfig].
  destruct (decide (x ∈ l)).
  - rewrite !bool_decide_eq_true_2 by set_solver. done.
  - rewrite (bool_decide_eq_false_2 (x ∈ l)) by done. destruct (decide (x = y)) as [->|Hne].
    + rewrite lookup_delete_eq, bool_decide_eq_true_2 by set_solver. done.
    + rewrite lookup_delete_ne, bool_decide_eq_false_2 by set_solver. done.
Qed.

Lemma elem_of_peerMap ps x : is_Some (peerMap ps !! x) -> x ∈ PublicKey <$> ps.
Proof.
  intros [v Hv]. apply elem_of_list_to_map_2 in Hv.
  apply list_elem_of_fmap in Hv as (d & [= -> _] & Hd). by apply list_elem_of_fmap_2.
Qed.

(** What the device holds for the peers once it was configured. *)
Definition peersMatch (s : State) (old new : gmap bytes peerView) : Prop :=
  (forall p, p ∈ Peers s -> new !! WGPublic p = Some (wanted p (old !! WGPublic p))) /\
  (forall x, x ∉ WGPublic <$> Peers s -> new !! x = None).

(** Peers with distinct keys and without a network in common. *)
Definition peersApart (ps : list Peer) : Prop :=
  NoDup (WGPublic <$> ps) /\ forall p q, p ∈ ps -> q ∈ ps -> p <> q -> netsOf p ## netsOf q.

Lemma configureWGPeers_view s k k' ps : peersApart (Peers s) -> Device k (WGInterface s) = Ok ps ->
  configureWGPeers s k = (k', Ok tt) ->
  exists ps', Device k' (WGInterface s) = Ok ps' /\ peersMatch s (peerMap ps) (peerMap ps').
Proof.
  intros [Hnd Hdis] Hd. unfold configureWGPeers, call. rewrite Hd.
  destruct (ConfigureDevice _ _ k) as [k1 [e|]] eqn:E; intros [= <-].
  destruct (Device_ConfigureDevice _ _ _ _ _ Hd E) as (ps' & Hps' & Hv).
  exists ps'. split; [done|]. unfold peersMatch. rewrite Hv. cbn [CPeers]. rewrite foldl_app.
  destruct (adds_view (Peers s) (peerMap ps) Hnd Hdis) as [H1' H2'].
  split; intros x Hx; rewrite removals_view.
  - rewrite bool_decide_eq_false_2; [by apply H1'|]. intros [Hn _]%list_elem_of_filter.
    apply Hn. apply elem_of_list_to_set. by apply list_elem_of_fmap_2.
  - case_bool_decide as Hin; [done|]. destruct (H2' x Hx) as [_ Hs].
    destruct (peerMap ps !! x) as [v|] eqn:Ev; [|by destruct (foldl _ _ _ !! x)].
    exfalso. apply Hin, list_elem_of_filter. split; [by rewrite elem_of_list_to_set|].
    apply elem_of_peerMap. eauto.
Qed.

(** *** Frames: calls that do not touch the WireGuard device *)

Definition frames {A} (wg : gostring) (m : M A) : Prop := forall k, Device (m k).1 wg = Device k wg.

Lemma frames_ret {A} wg (a : A) : frames wg (mret (M := M) a).
Proof. done. Qed.

Lemma frames_fail {A} wg e : frames wg (fail (A := A) e).
Proof. done. Qed.

Lemma frames_call wg op : netlinkOp wg op -> frames wg (call op).
Proof. intros Hop k. unfold call. rewrite <- (Device_frame wg op k Hop). by destruct (op k) as [k' [e|]]. Qed.

Lemma frames_bind' {A B} wg (m : M A) (f : A -> M B) : frames wg m ->
  (forall a k k', m k = (k', Ok a) -> frames wg (f a)) -> frames wg (m ≫= f).
Proof.
  intros Hm Hf k. unfold mbind, M_bind. specialize (Hm k). specialize (fun a => Hf a k).
  destruct (m k) as [k' [a|e]]; [|done]. rewrite (Hf a k' eq_refl). done.
Qed.

Lemma frames_bind {A B} wg (m : M A) (f : A -> M B) : frames wg m -> (forall a, frames wg (f a)) -> frames wg (m ≫= f).
Proof. intros Hm Hf. apply frames_bind'; eauto. Qed.

Lemma frames_when wg b m : frames wg m -> frames wg (when b m).
Proof. by destruct b. Qed.

Lemma frames_guard wg b e : frames wg (guard b e).
Proof. by destruct b. Qed.

Lemma frames_linkByName wg n : frames wg (linkByName n).
Proof. intros k. unfold linkByName. by destruct (LinkByName k n) as [|[|]]. Qed.

Lemma frames_findLink wg n : frames wg (findLink n).
Proof. intros k. unfold findLink. by destruct (LinkByName k n) as [|[|]]. Qed.

Lemma frames_forEach wg ks f : (forall key, frames wg (f key)) -> frames wg (forEach ks f).
Proof. intros Hf. induction ks; cbn [forEach]; [apply frames_ret|by apply frames_bind]. Qed.

#[local] Create HintDb frames.
#[local] Hint Resolve frames_ret frames_fail frames_when frames_guard frames_linkByName frames_findLink
  frames_call frames_forEach op_mtu op_hw op_up op_addr op_append op_ndel op_add op_del : frames.

Lemma findLink_name n k k' l : findLink n k = (k', Ok (Some l)) -> LName l = n.
Proof.
  unfold findLink. destruct (LinkByName k n) as [l'|[|]] eqn:E; intros [= <- <-]. by eapply LinkByName_name.
Qed.

Lemma frames_ensureVXLAN s : VXLANInterface s <> WGInterface s -> frames (WGInterface s) (ensureVXLAN s).
Proof.
  intros Hne. unfold ensureVXLAN. apply frames_bind; [eauto with frames|]. intros wgLink. cbv zeta.
  apply frames_bind'; [eauto with frames|]. intros found k k' Hfound. apply frames_bind.
  { destruct found as [l|]; [|eauto with frames]. apply findLink_name in Hfound.
    destruct (Kind l); [eauto with frames| |eauto with frames].
    destruct (Equal _ _); [eauto with frames|]. apply frames_bind; [|eauto with frames].
    apply frames_call, op_del. congruence. }
  intros kept. apply frames_bind.
  { destruct kept; [eauto with frames|]. apply frames_bind; eauto with frames. }
  intros link. repeat (apply frames_bind; [eauto with frames|intros _]). eauto with frames.
Qed.

Lemma frames_reconcileFDB wg range s : frames wg (reconcileFDB range s).
Proof.
  unfold reconcileFDB. apply frames_bind; [eauto with frames|]. intros link k.
  destruct (NeighList k _) as [rows|e]; [|done].
  apply (frames_bind wg (forEach _ _)); [|intros _]; apply frames_forEach; eauto with frames.
Qed.

Lemma bind_ok {A B} (m : M A) (f : A -> M B) k k' b : (m ≫= f) k = (k', Ok b) ->
  exists k1 a, m k = (k1, Ok a) /\ f a k1 = (k', Ok b).
Proof. unfold mbind, M_bind. destruct (m k) as [k1 [a|e]]; [eauto|done]. Qed.

Lemma guard_ok b e k k' : guard b e k = (k', Ok tt) -> k' = k /\ b = false.
Proof. by destruct b; intros [= ->]. Qed.

(** The device before a reconciliation: that of the interface, or none yet. *)
Definition deviceBefore (k : K) (wg : gostring) (ps : list DevPeer) : Prop :=
  match LinkByName k wg with
  | Err None => ps = []
  | _ => Device k wg = Ok ps
  end.

Lemma ensureWGInterface_device s k k' ps : deviceBefore k (WGInterface s) ps ->
  ensureWGInterface s k = (k', Ok tt) -> Device k' (WGInterface s) = Ok ps.
Proof.
  intros Hb Hrun. unfold ensureWGInterface in Hrun.
  apply bind_ok in Hrun as (k1 & found & Hf & Hrun). apply bind_ok in Hrun as (k2 & link & Hl & Hrun).
  assert (Device k2 (WGInterface s) = Ok ps) as <-.
  { unfold findLink in Hf. unfold deviceBefore in Hb.
    destruct (LinkByName k _) as [l|[e|]] eqn:E; [|done|]; injection Hf as <- <-.
    - injection Hl as <- <-. done.
    - subst ps. apply bind_ok in Hl as (k3 & [] & Hadd & Hlink). unfold call in Hadd.
      destruct (LinkAdd _ k) as [k4 [e|]] eqn:Ea; [done|]. injection Hadd as <-.
      rewrite <- (Device_LinkAdd _ _ _ _ E Ea). pose proof (frames_linkByName (WGInterface s) (WGInterface s) k4) as Hfr.
      by rewrite Hlink in Hfr. }
  match type of Hrun with ?m _ = _ => assert (frames (WGInterface s) m) as Hfr end.
  { repeat (apply frames_bind; [eauto with frames|intros _]). eauto with frames. }
  specialize (Hfr k2). by rewrite Hrun in Hfr.
Qed.

(** The device after a reconciliation. *)
Lemma Reconcile_view range s r k k' r' ps :
  VXLANInterface s <> WGInterface s -> peersApart (Peers s) ->
  deviceBefore k (WGInterface s) ps ->
  Reconcile range s r k = (k', Ok r') ->
  lastState r' = Some s /\
  exists ps', Device k' (WGInterface s) = Ok ps' /\ peersMatch s (peerMap ps) (peerMap ps').
Proof.
  intros Hne Hap Hb Hrun. apply bind_ok in Hrun as (k1 & [] & Hrun & Hret).
  unfold mret, M_ret in Hret. injection Hret as -> <-. split; [done|].
  apply bind_ok in Hrun as (k2 & [] & Hg & Hrun).
  apply guard_ok in Hg as [-> _].
  apply bind_ok in Hrun as (k3 & [] & Hwg & Hrun). apply bind_ok in Hrun as (k4 & [] & Hcfg & Hrun).
  pose proof (ensureWGInterface_device _ _ _ _ Hb Hwg) as Hd.
  destruct (configureWGPeers_view _ _ _ _ Hap Hd Hcfg) as (ps' & Hps' & Hm).
  exists ps'. split; [|done]. rewrite <- Hps'.
  match type of Hrun with ?m _ = _ => assert (frames (WGInterface s) m) as Hfr end.
  { destruct (bool_decide (SMode s = _)); [eauto with frames|].
    do 3 (apply frames_bind; [eauto with frames|intros _]).
    apply frames_bind; [by apply frames_ensureVXLAN|intros _; apply frames_reconcileFDB]. }
  specialize (Hfr k4). by rewrite Hrun in Hfr.
Qed.

(** C16.  A reconciliation that returns without error leaves the WireGuard device
    with exactly the desired peers: each with its networks, the endpoint that
    is known for it (or the one it had), and the session counters it had
    before, since no desired peer is ever removed and added again; a peer that
    is not desired is gone.  The state is remembered for [Stats].  This is for
    a state whose two interfaces have different names and whose peers have
    different keys and no network in common ([peersApart]), and for a kernel
    that before the call holds the WireGuard device or has no link of its name
    ([deviceBefore]). *)
Theorem Reconcile_peers range s r k k' r' ps :
  VXLANInterface s <> WGInterface s -> peersApart (Peers s) ->
  deviceBefore k (WGInterface s) ps ->
  Reconcile range s r k = (k', Ok r') ->
  lastState r' = Some s /\
  exists ps', Device k' (WGInterface s) = Ok ps' /\ peersMatch s (peerMap ps) (peerMap ps').
Proof. apply Reconcile_view. Qed.
End peers.

(** ** Forwarding rows *)
Section fdb.
Context `{KernelLaws, WGTypes, SHA256}.
Import view binary.

(** The derived address is six bytes long, locally administered and
    individual; in particular it is not the broadcast address. *)
Lemma vxlanMACFromKey_shape pub :
  length (vxlanMACFromKey pub) = 6%nat /\
  exists b mac, vxlanMACFromKey pub = b :: mac /\
    Z.testbit (byte_val b) 1 = true /\ Z.testbit (byte_val b) 0 = false.
Proof.
  unfold vxlanMACFromKey. pose proof (sha256_length pub) as Hl.
  destruct (sha256 pub) as [|b t] eqn:E; [done|]. cbn [take]. split.
  { simpl in *. rewrite length_take. lia. }
  eexists _, _. split; [done|]. rewrite byte_val_to_byte. change 256 with (2 ^ 8).
  rewrite !Z.testbit_mod_pow2, !Z.land_spec, !Z.lor_spec by lia. by destruct (Z.testbit (byte_val b) 0), (Z.testbit (byte_val b) 1).
Qed.

Lemma vxlanMACFromKey_unicast pub : ~ multicast (vxlanMACFromKey pub).
Proof.
  destruct (vxlanMACFromKey_shape pub) as (_ & b & mac & -> & _ & H0'). cbn [multicast].
  rewrite Z.bit0_odd in H0'. congruence.
Qed.

Lemma vxlanMACFromKey_broadcast pub : vxlanMACFromKey pub <> broadcastMAC.
Proof.
  intros He. apply (vxlanMACFromKey_unicast pub). rewrite He. vm_compute. done.
Qed.

Lemma macString_inj a b : length a = 6%nat -> length b = 6%nat -> net.macString a = net.macString b -> a = b.
Proof.
  intros Ha Hb He. apply (inj Some). by rewrite <- !net_lemmas.ParseMAC_macString, He by done.
Qed.

Lemma lePut_leVal b : lePut (length b) (leVal b) = b.
Proof.
  induction b as [|x b IH]; [done|]. cbn [length lePut]. unfold leVal in *.
  rewrite reverse_cons, binary_lemmas.beVal_snoc. pose proof (byte_val_range x). f_equal.
  - rewrite <- (to_byte_val x) at 2. unfold to_byte. do 2 f_equal.
    rewrite Z.add_comm, Z.mod_add by lia. done.
  - rewrite Z.add_comm, Z.div_add by lia. rewrite Z.div_small by lia. apply IH.
Qed.

Lemma bePut_beVal b : bePut (length b) (beVal b) = b.
Proof.
  unfold bePut. pose proof (lePut_leVal (reverse b)) as Hl. unfold leVal in Hl.
  rewrite reverse_involutive, length_reverse in Hl. by rewrite Hl, reverse_involutive.
Qed.

(** Rows as the code names them and as the kernel keeps them. *)
Definition keyOf (r : Neigh) : fdbKey := (net.macString (NHw r), ipString (NIP r)).

Lemma rowOf_keyOf i r : LinkIndex r = i -> length (NHw r) = 6%nat -> length (NIP r) = 4%nat -> rowOf i (keyOf r) = r.
Proof.
  destruct r as [j hw ip]. cbn [LinkIndex NHw NIP]. intros -> Hm Hi. unfold rowOf, keyOf. cbn [fst snd NHw NIP].
  rewrite net_lemmas.ParseMAC_macString by done. unfold ipString, To4. rewrite bool_decide_eq_true_2 by done.
  rewrite netip_lemmas.ParseAddr_string4.
  - pose proof (bePut_beVal ip) as Hb. rewrite Hi in Hb. cbn [from_option id AsSlice]. by rewrite Hb.
  - pose proof (binary_lemmas.beVal_range ip) as Hr. rewrite Hi in Hr. exact Hr.
Qed.

Lemma keyOf_row4 i m v : 0 <= v < 2 ^ 32 ->
  keyOf (MkNeigh i m (bePut 4 v)) = (net.macString m, netip.string4 v).
Proof.
  intros Hv. unfold keyOf, ipString, To4. cbn [NHw NIP].
  rewrite bool_decide_eq_true_2 by apply binary_lemmas.length_bePut.
  by rewrite binary_lemmas.beVal_bePut.
Qed.

Definition macOf (p : Peer) : bytes := vxlanMACFromKey (WGPublic p).

(** The addresses whose rows the reconciler manages for a state. *)
Definition managedMAC (s : State) (m : bytes) : Prop := m = broadcastMAC \/ exists p, p ∈ fdbPeers s /\ m = macOf p.

(** The rows a state asks for: per peer one to flood and one of its own. *)
Definition wantedRow (s : State) (i : Z) (r : Neigh) : Prop :=
  LinkIndex r = i /\ exists p, p ∈ fdbPeers s /\ NIP r = AsSlice (UnderlayAddr p) /\ (NHw r = broadcastMAC \/ NHw r = macOf p).

(** A state whose peers have IPv4 underlay addresses. *)
Definition fdbState (s : State) : Prop :=
  forall p, p ∈ fdbPeers s -> exists v, UnderlayAddr p = netip.Addr4 v /\ 0 <= v < 2 ^ 32.

(** Rows of an Ethernet device; those of managed addresses lead to IPv4
    addresses. *)
Definition fdbRows (s : State) (rows : list Neigh) : Prop :=
  forall r, r ∈ rows -> length (NHw r) = 6%nat /\ (managedMAC s (NHw r) -> length (NIP r) = 4%nat).

Lemma length_macOf p : length (macOf p) = 6%nat.
Proof. apply vxlanMACFromKey_shape. Qed.

Lemma managedMAC_length s m : managedMAC s m -> length m = 6%nat.
Proof. intros [->|(p & _ & ->)]; [done|apply length_macOf]. Qed.

Lemma managedMACs_spec s m : length m = 6%nat -> net.macString m ∈ managedMACs s <-> managedMAC s m.
Proof.
  intros Hm. unfold managedMACs, managedMAC. rewrite elem_of_union, elem_of_singleton, elem_of_list_to_set, list_elem_of_fmap.
  split.
  - intros [He|(p & He & Hp)]; [left|right; exists p; split; [done|]]; apply macString_inj; try done. apply length_macOf.
  - intros [->|(p & Hp & ->)]; eauto.
Qed.


Lemma desiredRows_spec s i key : fdbState s -> key ∈ desiredRows s <-> exists r, wantedRow s i r /\ key = keyOf r.
Proof.
  intros H4. unfold desiredRows. rewrite elem_of_list_to_set, list_elem_of_bind. split.
  - intros (p & Hk & Hp). destruct (H4 p Hp) as (v & Hv & Hr). rewrite Hv in Hk. cbn [netip.addrString] in Hk.
    assert (exists m, (m = broadcastMAC \/ m = macOf p) /\ key = (net.macString m, netip.string4 v)) as (m & Hm & ->).
    { apply elem_of_cons in Hk as [->|[->|[]%elem_of_nil]%elem_of_cons]; eauto. }
    exists (MkNeigh i m (bePut 4 v)). rewrite keyOf_row4 by done. split; [|done]. split; [done|].
    exists p. rewrite Hv. done.
  - intros ([j hw ip] & (_ & p & Hp & Hip & Hhw) & ->). cbn [NHw NIP] in *. exists p. split; [|done].
    destruct (H4 p Hp) as (v & Hv & Hr). rewrite Hip, Hv. cbn [AsSlice]. rewrite keyOf_row4 by done.
    cbn [netip.addrString]. destruct Hhw as [-> | ->]; set_solver.
Qed.

Lemma haveRows_spec s rows key : fdbRows s rows ->
  key ∈ haveRows s rows <-> exists r, r ∈ rows /\ managedMAC s (NHw r) /\ key = keyOf r.
Proof.
  intros Hr. unfold haveRows. rewrite elem_of_list_to_set, list_elem_of_filter, list_elem_of_fmap. split.
  - intros [Hm (r & -> & Hin)]. exists r. split; [done|]. split; [|done].
    apply managedMACs_spec; [by apply Hr|done].
  - intros (r & Hin & Hm & ->). split; [|eauto]. apply managedMACs_spec; [by apply Hr|done].
Qed.

(** *** The two loops *)

Lemma forEach_cons_ok key ks f k k' : forEach (key :: ks) f k = (k', Ok tt) ->
  exists k1, f key k = (k1, Ok tt) /\ forEach ks f k1 = (k', Ok tt).
Proof. cbn [forEach]. intros (k1 & [] & Hf & Hr)%bind_ok. eauto. Qed.

Lemma call_ok op k k' : call op k = (k', Ok tt) -> op k = (k', None).
Proof. unfold call. by destruct (op k) as [k1 [e|]]; intros [= ->]. Qed.

(** An appended row is certainly there afterwards if it is a group row, or the
    only one of its address before and among those appended. *)
Definition certain (i : Z) (have : gset fdbKey) (ks : list fdbKey) (rows : list Neigh) (key : fdbKey) : Prop :=
  multicast (NHw (rowOf i key)) \/
  ((forall r, r ∈ rows -> NHw r <> NHw (rowOf i key)) /\
   forall key', key' ∈ ks -> key' ∉ have -> NHw (rowOf i key') = NHw (rowOf i key) -> key' = key).

Lemma appendLoop (i : Z) (have : gset fdbKey) (ks : list fdbKey) k k' rows : NoDup ks -> NeighList k i = Ok rows ->
  forEach ks (fun key => when (bool_decide (key ∉ have)) (call (NeighAppend (rowOf i key)))) k = (k', Ok tt) ->
  exists rows', NeighList k' i = Ok rows' /\ (forall r, r ∈ rows -> r ∈ rows') /\
    (forall r, r ∈ rows' -> r ∈ rows \/ exists key, key ∈ ks /\ (key ∉ have) /\ r = rowOf i key) /\
    forall key, key ∈ ks -> key ∉ have -> certain i have ks rows key -> rowOf i key ∈ rows'.
Proof.
  revert k rows. induction ks as [|key ks IH]; intros k rows Hnd Hl Hrun.
  { injection Hrun as <-. exists rows. split; [done|]. set_solver. }
  apply NoDup_cons in Hnd as [Hkey Hnd]. apply forEach_cons_ok in Hrun as (k1 & Hstep & Hrun).
  case_bool_decide as Hin; cbn [when] in Hstep.
  - apply call_ok in Hstep.
    destruct (NeighList_append_only k k1 i rows (rowOf i key)) as (rows1 & Hl1 & Hge & Hle); [done..|].
    assert (certain i have (key :: ks) rows key -> rowOf i key ∈ rows1) as Hhead.
    { intros [Hc|[Hc _]]; (destruct (NeighList_append k k1 i rows (rowOf i key)) as (rows2 & Hl2 & Hm2);
        [done|done|auto|done|]); rewrite Hl1 in Hl2; injection Hl2 as <-; apply Hm2; by right. }
    destruct (IH k1 rows1 Hnd Hl1 Hrun) as (rows' & Hl' & Hge' & Hle' & Hc'). exists rows'. split_and!; [done|auto| |].
    + intros r [Hr|Hr]%Hle'; [apply Hle in Hr as [Hr| ->]; [by left|]|]; right; set_solver.
    + intros key' [->|Hk']%elem_of_cons Hh' Hcert; [by apply Hge', Hhead|]. apply Hc'; [done..|].
      destruct Hcert as [Hcert|[Hf1 Hf2]]; [by left|right]. split.
      * intros r [Hr| ->]%Hle; [by apply Hf1|]. intros He. apply Hkey. by rewrite (Hf2 key ltac:(by left) Hin He).
      * intros key'' Hk'' ? ?. apply Hf2; [by right|done|done].
  - injection Hstep as <-. destruct (IH k rows Hnd Hl Hrun) as (rows' & Hl' & Hge' & Hle' & Hc').
    exists rows'. split_and!; [done|done|intros r [Hr|Hr]%Hle'; [by left|right; set_solver]|].
    intros key' [->|Hk']%elem_of_cons Hh' Hcert; [done|]. apply Hc'; [done..|].
    destruct Hcert as [Hcert|[Hf1 Hf2]]; [by left|right]. split; [done|]. intros key'' Hk''. apply Hf2. by right.
Qed.

Lemma deleteLoop (i : Z) (desired : gset fdbKey) (ks : list fdbKey) k k' rows : NeighList k i = Ok rows ->
  forEach ks (fun key => when (bool_decide (key ∉ desired)) (call (NeighDel (rowOf i key)))) k = (k', Ok tt) ->
  exists rows', NeighList k' i = Ok rows' /\
    forall r, r ∈ rows' <-> r ∈ rows /\ forall key, key ∈ ks -> key ∉ desired -> r <> rowOf i key.
Proof.
  revert k rows. induction ks as [|key ks IH]; intros k rows Hl Hrun.
  { injection Hrun as <-. exists rows. split; [done|]. set_solver. }
  apply forEach_cons_ok in Hrun as (k1 & Hstep & Hrun).
  case_bool_decide as Hin; cbn [when] in Hstep.
  - apply call_ok in Hstep. destruct (NeighList_del k k1 i rows (rowOf i key)) as (rows1 & Hl1 & Hm1); [done..|].
    destruct (IH k1 rows1 Hl1 Hrun) as (rows' & Hl' & Hm').
    exists rows'. split; [done|]. intros r. rewrite Hm', Hm1. set_solver.
  - injection Hstep as <-. destruct (IH k rows Hl Hrun) as (rows' & Hl' & Hm').
    exists rows'. split; [done|]. intros r. rewrite Hm'. set_solver.
Qed.


Lemma rowOf_have s i rows r : fdbRows s rows -> Forall (fun r => LinkIndex r = i) rows ->
  r ∈ rows -> managedMAC s (NHw r) -> rowOf i (keyOf r) = r.
Proof.
  intros Hr Hidx Hin Hm. destruct (Hr r Hin) as (H6 & H4).
  apply rowOf_keyOf; [by eapply Forall_forall in Hidx|done|by apply H4].
Qed.

Lemma reconcileFDB_membership range s k k' l rows :
  (forall X, range X ≡ₚ elements X) ->
  LinkByName k (VXLANInterface s) = Ok l -> NeighList k (Index (Attrs l)) = Ok rows ->
  reconcileFDB range s k = (k', Ok tt) ->
  let i := Index (Attrs l) in
  let kept r := forall key, key ∈ haveRows s rows -> key ∉ desiredRows s -> r <> rowOf i key in
  exists rows', NeighList k' i = Ok rows' /\
    (forall r, r ∈ rows' -> (r ∈ rows \/ exists key, key ∈ desiredRows s /\ (key ∉ haveRows s rows) /\ r = rowOf i key) /\ kept r) /\
    (forall r, r ∈ rows -> kept r -> r ∈ rows') /\
    forall key, key ∈ desiredRows s -> key ∉ haveRows s rows ->
      certain i (haveRows s rows) (range (desiredRows s)) rows key -> kept (rowOf i key) -> rowOf i key ∈ rows'.
Proof.
  intros Hrange Hlink Hl Hrun i kept.
  assert (forall X key, key ∈ range X <-> key ∈ X) as Hin by (intros X key; rewrite Hrange; apply elem_of_elements).
  apply bind_ok in Hrun as (k1 & l1 & Hlk & Hrun). unfold linkByName in Hlk. rewrite Hlink in Hlk.
  injection Hlk as <- <-. cbv beta zeta in Hrun. fold i in Hrun, Hl. rewrite Hl in Hrun.
  apply bind_ok in Hrun as (k2 & [] & Happ & Hdel).
  apply (appendLoop i) with (rows := rows) in Happ as (rows1 & Hl1 & Hge & Hle & Hc);
    [|rewrite Hrange; apply NoDup_elements|done].
  apply (deleteLoop i) with (rows := rows1) in Hdel as (rows2 & Hl2 & Hm2); [|done].
  exists rows2. setoid_rewrite Hin in Hle. setoid_rewrite Hin in Hm2. unfold kept. split_and!; [done| | |].
  - intros r [Hr Hk]%Hm2. split; [by apply Hle|done].
  - intros r Hr Hk. apply Hm2. auto.
  - intros key Hd Hh Hcert Hk. apply Hm2. split; [|done]. apply Hc; [by apply Hin|done|done].
Qed.


(** The delete loop spares the wanted rows and those of other addresses. *)
Lemma row_kept s i rows r : fdbState s -> fdbRows s rows -> Forall (fun r => LinkIndex r = i) rows ->
  ~ managedMAC s (NHw r) \/ wantedRow s i r ->
  forall key, key ∈ haveRows s rows -> key ∉ desiredRows s -> r <> rowOf i key.
Proof.
  intros Hs Hr Hidx Hw key Hk Hnd ->. apply haveRows_spec in Hk as (r' & Hr' & Hm' & ->); [|done].
  rewrite (rowOf_have s i rows r') in Hw by done. destruct Hw as [Hw|Hw]; [done|].
  apply Hnd, (desiredRows_spec s i); eauto.
Qed.


(** The unicast row of a peer that left: its address is no longer managed, so
    the row stays, although the reconciler is to reset the forwarding rows. *)
Theorem departed_row_stays range s k k' l rows q r :
  (forall X, range X ≡ₚ elements X) -> fdbState s -> fdbRows s rows ->
  LinkByName k (VXLANInterface s) = Ok l -> NeighList k (Index (Attrs l)) = Ok rows ->
  reconcileFDB range s k = (k', Ok tt) ->
  (forall p, p ∈ Peers s -> macOf p <> macOf q) -> r ∈ rows -> NHw r = macOf q ->
  exists rows', NeighList k' (Index (Attrs l)) = Ok rows' /\ r ∈ rows'.
Proof.
  intros Hrange Hs Hr Hlink Hl Hrun Hq Hin Hhw. pose proof (NeighList_index _ _ _ Hl) as Hidx.
  destruct (reconcileFDB_membership range s k k' l rows) as (rows' & Hl' & _ & Hge & _); [done..|].
  exists rows'. split; [done|]. apply Hge; [done|]. apply row_kept; [done..|left].
  rewrite Hhw. intros [He|(p & Hp & He)].
  - by apply (vxlanMACFromKey_broadcast (WGPublic q)).
  - apply list_elem_of_filter in Hp as [_ Hp]. by apply (Hq p Hp).
Qed.
End fdb.
End linux.

(** ** A kernel in memory *)
Module memkernel.
Import gonet kernel view.

#[global] Instance Neigh_eq_dec : EqDecision Neigh.
Proof. solve_decision. Defined.

Record mem := MkMem {
  links : gmap gostring (LinkAttrs * LinkKind); nextIndex : Z;
  devs : gmap gostring (list DevPeer); rows : list Neigh
}.

Definition setLinks f k := MkMem (f (links k)) (nextIndex k) (devs k) (rows k).
Definition setRows f k := MkMem (links k) (nextIndex k) (devs k) (f (rows k)).
Definition updAttrs (l : Link) f (k : mem) : mem * option unit :=
  (setLinks (alter (fun a => (f a.1, a.2)) (LName l)) k, None).

Definition devPeers (m : gmap bytes peerView) : list DevPeer :=
  (fun xv => MkDevPeer xv.1 (elements (vAllowed xv.2)) (vEndpoint xv.2)
               (vSession xv.2).1.1 (vSession xv.2).1.2 (vSession xv.2).2) <$> map_to_list m.

Definition add (l : NewLink) (k : mem) : mem * option unit :=
  match links k !! newName l with
  | Some _ => (k, Some tt)
  | None =>
      let i := nextIndex k in
      match l with
      | NewWireguard n mtu =>
          (MkMem (<[n := (MkAttrs i (default 1420 mtu) [], GenericLink !"wireguard")]> (links k)) (i + 1)
             (<[n := []]> (devs k)) (rows k), None)
      | NewVxlan n mtu hw _ _ _ _ src =>
          (MkMem (<[n := (MkAttrs i (default 1450 mtu) hw, Vxlan src)]> (links k)) (i + 1) (devs k) (rows k), None)
      end
  end.

(** A second row is added for a group address only. *)
Definition group (mac : bytes) : bool := match mac with b :: _ => Z.odd (byte_val b) | [] => false end.
Definition appends (n : Neigh) (k : mem) : bool :=
  group (NHw n) || negb (existsb (fun r => bool_decide (LinkIndex r = LinkIndex n /\ NHw r = NHw n)) (rows k)).

#[export] Instance kernel : Kernel := {
  K := mem;
  kerror := unit;
  LinkByName := fun k n => match links k !! n with Some (a, t) => Ok (MkLink n a t) | None => Err None end;
  LinkAdd := add;
  LinkDel := fun l k => (MkMem (delete (LName l) (links k)) (nextIndex k) (delete (LName l) (devs k))
                           (filter (fun r => LinkIndex r <> Index (Attrs l)) (rows k)), None);
  LinkSetMTU := fun l m => updAttrs l (fun a => MkAttrs (Index a) m (HardwareAddr a));
  LinkSetHardwareAddr := fun l h => updAttrs l (fun a => MkAttrs (Index a) (MTU a) h);
  LinkSetUp := fun _ k => (k, None);
  AddrReplace := fun _ _ k => (k, None);
  NeighList := fun k i => Ok (filter (fun r => LinkIndex r = i) (rows k));
  NeighAppend := fun n k => (if appends n k then setRows (fun rs => rs ++ [n]) k else k, None);
  NeighDel := fun n k => (setRows (filter (fun r => r <> n)) k, None);
  Device := fun k n => match devs k !! n with Some ps => Ok ps | None => Err tt end;
  ConfigureDevice := fun n cfg k =>
    match devs k !! n with
    | Some ps => (MkMem (links k) (nextIndex k)
                    (<[n := devPeers (foldl configurePeer (peerMap ps) (CPeers cfg))]> (devs k)) (rows k), None)
    | None => (k, Some tt)
    end
}.

Lemma peerMap_devPeers m : peerMap (devPeers m) = m.
Proof.
  unfold peerMap, devPeers. rewrite <- list_fmap_compose.
  rewrite <- (list_to_map_to_list m) at 2. f_equal. rewrite <- (list_fmap_id (map_to_list m)) at 2.
  apply list_fmap_ext. intros ? [x [al ep [[rx tx] hs]]] _. cbn. unfold viewOf. cbn.
  by rewrite list_to_set_elements_L.
Qed.

#[export] Instance kernelLaws : KernelLaws.
Proof.
  split; cbn.
  - intros k n l. destruct (links k !! n) as [[a t]|]; [|done]. by intros [= <-].
  - intros k k' n mtu. destruct (links k !! n) as [[a t]|] eqn:E; [done|]. intros _.
    unfold add. cbn [newName]. rewrite E. intros [= <-]. cbn [devs]. by rewrite lookup_insert_eq.
  - intros wg op k [l m|l a|l|l a|n|n|l Hl|l Hl]; try done; cbn.
    + by destruct (appends n k).
    + unfold add. destruct (links k !! newName l); [done|]. destruct l; cbn in *; [|done].
      by rewrite lookup_insert_ne by done.
    + by rewrite lookup_delete_ne by done.
  - intros k k' n cfg ps. destruct (devs k !! n) as [ps0|] eqn:E; [|done]. intros [= ->] [= <-].
    cbn [devs]. rewrite lookup_insert_eq. eexists. split; [done|]. apply peerMap_devPeers.
  - intros k i rs [= <-]. apply Forall_forall. by intros r [? _]%list_elem_of_filter.
  - intros k k' i rs n [= <-] Hi Hfresh. assert (appends n k = true) as ->.
    { unfold appends. apply orb_true_iff. destruct Hfresh as [Hg|Hf]; [left|right].
      - unfold group, multicast in *. by destruct (NHw n).
      - apply negb_true_iff, not_true_iff_false. intros (r & Hr & [Hl Hm]%bool_decide_eq_true)%existsb_exists.
        apply list_elem_of_In in Hr. apply (Hf r); [|done]. apply list_elem_of_filter. split; [congruence|done]. }
    intros [= <-]. eexists. split; [done|]. intros r. cbn.
    rewrite filter_app, elem_of_app, filter_cons_True, filter_nil, list_elem_of_singleton by done. done.
  - intros k k' i rs n [= <-] Hi [= <-]. eexists. split; [done|]. destruct (appends n k); [|auto]. cbn. split; intros r;
      rewrite filter_app, elem_of_app, filter_cons_True, filter_nil, list_elem_of_singleton by done; auto.
  - intros k k' i rs n [= <-] Hi [= <-]. eexists. split; [done|]. intros r. cbn.
    rewrite !list_elem_of_filter. naive_solver.
Qed.
End memkernel.

(** ** A run: a device with a departed peer and one that stays *)
Module run.
Import dataplane gonet kernel view linux memkernel toy.

Definition keyN (n : Z) : bytes := replicate 32 (to_byte n).
Definition peerN (name : gostring) (n : Z) : Peer :=
  MkPeer name (keyN n) netip.AddrPortZero netip.AddrZero (netip.Addr4 (0x0A000000 + n))
    [netip.MkPrefix (netip.Addr4 (0x0A000000 + n)) 32].

Definition state : State :=
  MkState ModeSwitch (keyN 1) !"wg0" 51820 !"vx0" 42 4789
    (netip.MkPrefix (netip.Addr4 0x0A630001) 24) (netip.MkPrefix (netip.Addr4 0x0A000001) 24) 1420
    [peerN !"b" 2; peerN !"c" 3].

Definition before : @K memkernel.kernel :=
  MkMem {[ !"wg0" := (MkAttrs 1 1420 [], GenericLink !"wireguard");
           !"vx0" := (MkAttrs 2 1370 [], Vxlan (AsSlice (netip.Addr4 0x0A000001))) ]} 3
    {[ !"wg0" := [MkDevPeer (keyN 2) [] None 7 8 9; MkDevPeer (keyN 4) [] None 1 1 1] ]}
    [MkNeigh 2 broadcastMAC (AsSlice (netip.Addr4 0x0A000004));
     MkNeigh 2 (vxlanMACFromKey (keyN 4)) (AsSlice (netip.Addr4 0x0A000004))].

Definition after : @K memkernel.kernel := (Reconcile elements state (MkReconciler None) before).1.

Lemma run_ok {A} (m : M A) k : is_ok (m k).2 = true -> exists a, m k = ((m k).1, Ok a).
Proof. destruct (m k) as [k' [a|e]]; [eauto|done]. Qed.
Lemma run_ok_unit (m : M unit) k : is_ok (m k).2 = true -> m k = ((m k).1, Ok tt).
Proof. by intros [[] Ha]%run_ok. Qed.

Lemma Reconcile_peers_witness :
  exists ps', Device after !"wg0" = Ok ps' /\ peerMap ps' !! keyN 4 = None /\
    (vSession <$> peerMap ps' !! keyN 2) = Some (7, 8, 9).
Proof.
  destruct (run_ok (Reconcile elements state (MkReconciler None)) before) as [r' Hr']; [vm_compute; reflexivity|].
  destruct (Reconcile_peers elements state (MkReconciler None) before after r'
              [MkDevPeer (keyN 2) [] None 7 8 9; MkDevPeer (keyN 4) [] None 1 1 1])
    as (_ & ps' & Hd & Hin & Hout).
  - apply (bool_decide_unpack _). vm_compute. exact I.
  - split; [apply (bool_decide_unpack _); vm_compute; exact I|].
    intros p q Hp Hq Hne.
    assert (p = peerN !"b" 2 /\ q = peerN !"c" 3 \/ p = peerN !"c" 3 /\ q = peerN !"b" 2) as Hpq.
    { apply elem_of_cons in Hp as [Hp|[Hp|[]%elem_of_nil]%elem_of_cons];
        apply elem_of_cons in Hq as [Hq|[Hq|[]%elem_of_nil]%elem_of_cons];
        solve [left; split; assumption | right; split; assumption | destruct Hne; congruence]. }
    destruct Hpq as [[-> ->]|[-> ->]]; apply (bool_decide_unpack _); vm_compute; exact I.
  - reflexivity.
  - exact Hr'.
  - exists ps'. split; [exact Hd|]. split.
    + apply Hout. apply (bool_decide_unpack _). vm_compute. exact I.
    + change (keyN 2) with (WGPublic (peerN !"b" 2)). rewrite Hin by (by left). vm_compute. reflexivity.
Defined.

Definition linkVx : Link := MkLink !"vx0" (MkAttrs 2 1370 []) (Vxlan (AsSlice (netip.Addr4 0x0A000001))).

Lemma run_fdbState : fdbState state.
Proof.
  intros p Hp. assert (p ∈ Peers state) as Hp' by (by apply list_elem_of_filter in Hp as [_ ?]).
  apply elem_of_cons in Hp' as [->|[->|[]%elem_of_nil]%elem_of_cons]; eexists; (split; [reflexivity|lia]).
Qed.

Lemma run_fdbRows : fdbRows state (rows before).
Proof. by intros r [->|[->|[]%elem_of_nil]%elem_of_cons]%elem_of_cons. Qed.


(** A peer that has moved: on a kernel that adds a second row for group
    addresses only, the row of its own address is not added, because the old
    one is still there, and the old one is then deleted.  The peer is left
    without a row until the next call, which adds it. *)
Definition moved : @K memkernel.kernel :=
  MkMem (links before) (nextIndex before) (devs before) [MkNeigh 2 (vxlanMACFromKey (keyN 2)) (AsSlice (netip.Addr4 0x0A000063))].

Definition once := reconcileFDB elements state moved.
Definition twice := reconcileFDB elements state once.1.

(** The rows of one address. *)
Definition rowsOf (mac : bytes) (rs : list Neigh) : list Neigh := filter (fun r => NHw r = mac) rs.

Lemma elem_of_rowsOf mac rs r : r ∈ rowsOf mac rs <-> NHw r = mac /\ r ∈ rs.
Proof. unfold rowsOf. by rewrite list_elem_of_filter. Qed.

Lemma rowsOf_nil mac rs : rowsOf mac rs = [] -> forall r, r ∈ rs -> NHw r <> mac.
Proof. intros E r Hr He. assert (r ∈ rowsOf mac rs) as Hin by (by apply elem_of_rowsOf). rewrite E in Hin. by apply elem_of_nil in Hin. Qed.

Lemma rowsOf_one mac rs r : rowsOf mac rs = [r] -> r ∈ rs.
Proof. intros E. assert (r ∈ rowsOf mac rs) as Hin by (rewrite E; by left). by apply elem_of_rowsOf in Hin as [_ Hin]. Qed.

Theorem moved_row_lost :
  once.2 = Ok tt /\ (forall r, r ∈ rows once.1 -> NHw r <> vxlanMACFromKey (keyN 2)) /\
  twice.2 = Ok tt /\ MkNeigh 2 (vxlanMACFromKey (keyN 2)) (AsSlice (netip.Addr4 0x0A000002)) ∈ rows twice.1.
Proof.
  assert (rowsOf (vxlanMACFromKey (keyN 2)) (rows once.1) = []) as E1 by (vm_compute; reflexivity).
  assert (rowsOf (vxlanMACFromKey (keyN 2)) (rows twice.1) =
    [MkNeigh 2 (vxlanMACFromKey (keyN 2)) (AsSlice (netip.Addr4 0x0A000002))]) as E2 by (vm_compute; reflexivity).
  assert (is_ok once.2 = true) as O1 by (vm_compute; reflexivity).
  assert (is_ok twice.2 = true) as O2 by (vm_compute; reflexivity).
  split; [exact (f_equal snd (run_ok_unit _ _ O1))|]. split; [exact (rowsOf_nil _ _ E1)|].
  split; [exact (f_equal snd (run_ok_unit _ _ O2))|exact (rowsOf_one _ _ _ E2)].
Qed.

Lemma departed_row_stays_witness :
  exists rows', NeighList (reconcileFDB elements state before).1 2 = Ok rows' /\
    MkNeigh 2 (vxlanMACFromKey (keyN 4)) (AsSlice (netip.Addr4 0x0A000004)) ∈ rows'.
Proof.
  apply (departed_row_stays elements state before _ linkVx (rows before) (peerN !"d" 4));
    [done|apply run_fdbState|apply run_fdbRows|reflexivity|reflexivity|apply run_ok_unit; vm_compute; reflexivity| |right; by left|reflexivity].
  intros p [->|[->|[]%elem_of_nil]%elem_of_cons]%elem_of_cons; done.
Defined.
End run.
