(* ===== verification/Daemon.v ===== *)
(** * The daemon (internal/daemon/daemon.go, paths.go)

    Loading the configuration, deriving the desired data-plane state from the
    graph, the host files and what gossip taught, resolving keys, announcing
    the local node, and the pure parts of dialling and of the control
    handler. *)

From Stdlib Require Import Ascii String ZArith Lia.
From stdpp Require Import base tactics list gmap strings.
From S2P Require Import Prelude.
From S2P Require Import GoStrings.
From S2P Require Import FS.
From S2P Require Import NetIP.
From S2P Require Import Graph.
From S2P Require Import Config.
From S2P Require Import Subnet.
From S2P Require Import Keys.
From S2P Require Import Message.
From S2P Require Import Gossip.
From S2P Require Import Control.
From S2P Require Import Dataplane.

Local Open Scope Z_scope.

(** ** Paths *)
Module paths.

Record Paths := MkPaths { ConfRoot : gostring; Netname : gostring }.

Definition NetDir (p : Paths) : gostring :=
  if bool_decide (Netname p = []) then ConfRoot p else filepath.Join [ConfRoot p; Netname p].
Definition ConfFile (p : Paths) : gostring := filepath.Join [NetDir p; !"gsnet.conf"].
Definition HostsDir (p : Paths) : gostring := filepath.Join [NetDir p; !"hosts"].
Definition HostFile (p : Paths) (name : gostring) : gostring := filepath.Join [HostsDir p; name].
Definition InvitationsDir (p : Paths) : gostring := filepath.Join [NetDir p; !"invitations"].
Definition Ed25519Private (p : Paths) : gostring := filepath.Join [NetDir p; !"ed25519_key.priv"].
Definition WGPrivate (p : Paths) : gostring := filepath.Join [NetDir p; !"wg.priv"].
Definition PIDFile (p : Paths) (runDir : gostring) : gostring :=
  if bool_decide (Netname p = []) then filepath.Join [runDir; !"gsnet.pid"]
  else filepath.Join [runDir; !"gsnet." ++ Netname p ++ !".pid"].
Definition ControlSocket (p : Paths) (runDir : gostring) : gostring :=
  if bool_decide (Netname p = []) then filepath.Join [runDir; !"gsnet.socket"]
  else filepath.Join [runDir; !"gsnet." ++ Netname p ++ !".socket"].
End paths.

Module daemon.
Import paths.

Record loaded := MkLoaded {
  NodeName : gostring; Conf : list config.Entry; EdPriv : keys.Ed25519Private; WGPriv : keys.WGPrivate;
  LMode : dataplane.Mode; WGInterface : gostring; WGListenPort : Z; VXLANIface : gostring;
  VXLANID : Z; VXLANPort : Z; MTU : Z; InnerAddr : netip.Prefix; UnderlayAddr : netip.Prefix;
  Subnets : list subnet.Subnet
}.

Inductive error :=
| errConfig (e : config.error) | errNoName | errReadEd (e : osError) | errReadWG (e : osError)
| errKeys (e : keys.error) | errMode (v : gostring) | errInner (v : gostring) | errUnderlay (v : gostring)
| errSubnet (v : gostring) (e : subnet.error).

(** A bare address is a prefix of full length. *)
Definition parseAddrOrPrefix (v : gostring) : option netip.Prefix :=
  match netip.ParsePrefix v with
  | Some p => Some p
  | None => (fun a => netip.PrefixFrom a (netip.BitLen a)) <$> netip.ParseAddr v
  end.

Section load.
Context `{Unicode, X509, WGTypes}.

(** The value of the first key that has a non-empty one, else the default
    (the last argument in the source). *)
Fixpoint firstNonEmpty (entries : list config.Entry) (keys : list gostring) (dflt : gostring) : gostring :=
  match keys with
  | [] => dflt
  | k :: ks =>
      match config.GetFirst entries k with
      | Some (c :: v) => c :: v
      | _ => firstNonEmpty entries ks dflt
      end
  end.

(** [if v, ok := entries.GetFirst(key); ok { if p, err := strconv.Atoi(v); err == nil {...} }] *)
Definition intEntry (entries : list config.Entry) (key : gostring) : option Z :=
  v ← config.GetFirst entries key; ok (Atoi v).

Definition parseMode (entries : list config.Entry) : result error dataplane.Mode :=
  match config.GetFirst entries !"Mode" with
  | None => Ok dataplane.ModeSwitch
  | Some v =>
      let m := ToLower v in
      if bool_decide (m = !"switch") || bool_decide (m = []) then Ok dataplane.ModeSwitch
      else if bool_decide (m = !"hub") then Ok dataplane.ModeHub
      else if bool_decide (m = !"router") then Ok dataplane.ModeRouter
      else Err (errMode v)
  end.

Definition prefixEntry (entries : list config.Entry) (key : gostring) (err : gostring -> error)
  : result error netip.Prefix :=
  match config.GetFirst entries key with
  | None => Ok netip.PrefixZero
  | Some v => match parseAddrOrPrefix v with Some p => Ok p | None => Err (err v) end
  end.

Fixpoint parseSubnets (vs : list gostring) : result error (list subnet.Subnet) :=
  match vs with
  | [] => Ok []
  | v :: vs => s ← err_map (errSubnet v) (subnet.Parse v); ss ← parseSubnets vs; Ok (s :: ss)
  end.

Definition load (fs : FS) (p : Paths) : result error loaded :=
  entries ← err_map errConfig (config.LoadDirectory fs (ConfFile p));
  name ← match config.GetFirst entries !"Name" with Some n => Ok n | None => Err errNoName end;
  edBytes ← err_map errReadEd (os.ReadFile fs (Ed25519Private p));
  edPriv ← err_map errKeys (keys.ParseEd25519PrivatePEM edBytes);
  wgBytes ← err_map errReadWG (os.ReadFile fs (WGPrivate p));
  wgPriv ← err_map errKeys (keys.ParseWireGuardPrivate (TrimSpace wgBytes));
  mode ← parseMode entries;
  let port := default 0 (intEntry entries !"Port") in
  inner ← prefixEntry entries !"InnerAddress" errInner;
  underlay ← prefixEntry entries !"UnderlayAddress" errUnderlay;
  subs ← parseSubnets (config.GetAll entries !"Subnet");
  Ok (MkLoaded name entries edPriv wgPriv mode
        (firstNonEmpty entries [!"WGInterface"; !"Interface"] (!"wg-" ++ name))
        (if port =? 0 then 51820 else port)
        (firstNonEmpty entries [!"VXLANInterface"; !"VXLAN"] name)
        (default 42 (uint32 <$> intEntry entries !"VXLANID"))
        (default 4789 (uint16 <$> intEntry entries !"VXLANPort"))
        (match intEntry entries !"MTU" with Some m => if 0 <? m then m else 1420 | None => 1420 end)
        inner underlay subs).

Definition addrFromHostEntry (e : list config.Entry) (key : gostring) : netip.Addr :=
  match config.GetFirst e key with
  | None => netip.AddrZero
  | Some v => match parseAddrOrPrefix v with Some p => netip.pAddr p | None => netip.AddrZero end
  end.
End load.

(** ** The desired state *)

Section state.
Context `{Unicode, X509, WGTypes, MapOrder}.
Context (fs : FS) (p : Paths).

Definition allowedIPsFor (k : nat) (g : graph.Graph) (mode : dataplane.Mode) (peer : gostring) (underlay : netip.Addr)
  : list netip.Prefix :=
  if negb (bool_decide (mode = dataplane.ModeRouter)) then
    if netip.IsValid underlay then [netip.PrefixFrom underlay (netip.BitLen underlay)] else []
  else
    omap (fun s => match subnet.Parse s with
                   | Ok sub => match subnet.MAC sub with None => Some (subnet.sPrefix sub) | Some _ => None end
                   | Err _ => None
                   end) (graph.NodeSubnets k peer g).

(** The port of a host entry, or the local one. *)
Definition hostPort (l : loaded) (hostEntries : list config.Entry) : Z :=
  default (WGListenPort l) (intEntry hostEntries !"Port").

Definition endpointFor (l : loaded) (learned : gostring) (hostEntries : list config.Entry) : netip.AddrPort :=
  let ep := if bool_decide (learned = []) then netip.AddrPortZero
            else default netip.AddrPortZero (netip.ParseAddrPort learned) in
  if netip.apIsValid ep then ep
  else match config.GetFirst hostEntries !"Address" with
       | Some a => match netip.ParseAddr a with
                   | Some addr => netip.MkAddrPort addr (uint16 (hostPort l hostEntries))
                   | None => ep
                   end
       | None => ep
       end.

Definition orHost (learned : netip.Addr) (hostEntries : list config.Entry) (key : gostring) : netip.Addr :=
  if netip.IsValid learned then learned else addrFromHostEntry hostEntries key.

(** One round of the loop of [buildState]; [None] where it continues. *)
Definition peerFor (k : nat) (l : loaded) (pl : gossip.Plane) (peer : gostring) : option dataplane.Peer :=
  if bool_decide (peer = NodeName l) then None
  else
    hostEntries ← ok (config.ParseFile fs (HostFile p peer));
    pubStr ← config.GetFirst hostEntries !"WGPublicKey";
    wgPub ← wg_parse pubStr;
    let underlay := orHost (gossip.UnderlayAddrOf pl peer) hostEntries !"UnderlayAddress" in
    Some (dataplane.MkPeer peer wgPub
            (endpointFor l (gossip.EndpointOf pl peer) hostEntries)
            (orHost (gossip.InnerAddrOf pl peer) hostEntries !"InnerAddress")
            underlay
            (allowedIPsFor k (gossip.G pl) (LMode l) peer underlay)).

Definition buildState (k : nat) (l : loaded) (pl : gossip.Plane) : dataplane.State :=
  dataplane.MkState (LMode l) (keys.WGKey (WGPriv l)) (WGInterface l) (WGListenPort l)
    (VXLANIface l) (VXLANID l) (VXLANPort l) (InnerAddr l) (UnderlayAddr l) (MTU l)
    (omap (peerFor k l pl) (graph.Nodes k (gossip.G pl))).

(** [lookupPubKey], which gossip verifies envelopes with. *)
Definition lookupPubKey (l : loaded) (name : gostring) : option keys.Ed25519Public :=
  if bool_decide (name = NodeName l) then Some (keys.Public (EdPriv l))
  else
    entries ← ok (config.ParseFile fs (HostFile p name));
    v ← config.GetFirst entries !"Ed25519PublicKey";
    ok (keys.ParseEd25519PublicBase64 (TrimSpace v)).

(** The address [tryDialPeer] dials; [None] where it gives up before. *)
Definition dialTarget (l : loaded) (peerName : gostring) : option gostring :=
  entries ← ok (config.ParseFile fs (HostFile p peerName));
  addr ← config.GetFirst entries !"Address";
  Some (addr ++ !":" ++ Itoa (hostPort l entries)).
End state.

(** ** Dialling *)

Definition maxBackoff : Z := 30000. (* milliseconds *)

(** One round of [maintainPeer]: how long it waits and the next backoff. *)
Definition backoffStep (ok : bool) (backoff : Z) : Z * Z :=
  if ok then (maxBackoff, backoff)
  else (backoff, if maxBackoff <? backoff * 2 then maxBackoff else backoff * 2).

Fixpoint waits (backoff : Z) (oks : list bool) : list Z :=
  match oks with
  | [] => []
  | ok :: oks => let '(wait, next) := backoffStep ok backoff in wait :: waits next oks
  end.

(** ** Announcing the local node *)

Section announce.
Context `{Unicode, Ed25519, WGTypes, MapOrder}.
Context (bcast : nat -> message.Envelope -> option nat) (k : nat) (now : nat -> Z).

Definition localHello (l : loaded) (ep : netip.AddrPort) : message.Hello :=
  message.MkHello (NodeName l) (keys.Raw (keys.Public (EdPriv l))) (keys.WGPublicString (keys.WGPublicOf (WGPriv l)))
    (if netip.apIsValid ep then netip.addrPortString ep else [])
    (if netip.pIsValid (InnerAddr l) then netip.prefixString (InnerAddr l) else [])
    (if netip.pIsValid (UnderlayAddr l) then netip.prefixString (UnderlayAddr l) else []).

Fixpoint announceSubnets (n : nat) (subs : list subnet.Subnet) (pl : gossip.Plane)
  : gossip.Plane * list gossip.event * result gossip.error unit :=
  match subs with
  | [] => (pl, [], Ok ())
  | s :: subs =>
      match gossip.AnnounceAddSubnet bcast k (now n) pl (subnet.String s) with
      | (pl, evs, Err e) => (pl, evs, Err e)
      | (pl, evs, Ok _) => let '(pl, evs', r) := announceSubnets (S n) subs pl in (pl, evs ++ evs', r)
      end
  end.

Definition announceLocal (l : loaded) (ep : netip.AddrPort) (pl : gossip.Plane)
  : gossip.Plane * list gossip.event * result gossip.error unit :=
  match gossip.AnnounceHello bcast k (now 0%nat) pl (localHello l ep) with
  | (pl, evs, Err e) => (pl, evs, Err e)
  | (pl, evs, Ok _) => let '(pl, evs', r) := announceSubnets 1 (Subnets l) pl in (pl, evs ++ evs', r)
  end.
End announce.

(** ** Control requests on the graph *)

Section control.
Context `{MapOrder}.

(** The loop over the edges for one unreachable node. *)
Definition clearEdges (n : gostring) (es : list graph.Edge) (g : graph.Graph) : graph.Graph :=
  foldl (fun g e => if bool_decide (graph.From e = n \/ graph.To e = n)
                    then graph.DelEdge (graph.From e) (graph.To e) g else g) g es.

Fixpoint purgeNodes (k : nat) (reach : gset gostring) (ns : list gostring) (g : graph.Graph) : graph.Graph :=
  match ns with
  | [] => g
  | n :: ns =>
      purgeNodes (S k) reach ns
        (if bool_decide (n ∈ reach) then g else clearEdges n (graph.Edges k g) g)
  end.

(** [ReqPurge]. *)
Definition purge (k : nat) (self : gostring) (g : graph.Graph) : graph.Graph :=
  purgeNodes k (graph.Reachable self g) (graph.Nodes k g) g.
End control.

(** ** Lemmas *)

Lemma elem_of_Nodes `{MapOrder} k g n : n ∈ graph.Nodes k g <-> n ∈ dom (graph.nodes g).
Proof. apply elem_of_map_order_keys. Qed.

Section purge_lemmas.
Context `{MapOrder}.
Import graph.

Lemma clearEdges_nodes n es g : nodes (clearEdges n es g) = nodes g /\ (wf g -> wf (clearEdges n es g)).
Proof.
  unfold clearEdges. revert g. induction es as [|e es IH]; intros g; [done|]. cbn [foldl].
  case_bool_decide; [|apply IH]. destruct (IH (DelEdge (From e) (To e) g)) as [Hn Hw].
  split; [by rewrite Hn|]. auto using wf_DelEdge.
Qed.

Lemma clearEdges_other n es g a b : a <> n -> b <> n -> edgeAt (clearEdges n es g) a b = edgeAt g a b.
Proof.
  intros Ha Hb. unfold clearEdges. revert g. induction es as [|e es IH]; intros g; [done|]. cbn [foldl].
  rewrite IH. case_bool_decide as Ht; [|done]. rewrite edgeAt_DelEdge, decide_False by naive_solver. done.
Qed.

Lemma clearEdges_None n es g a b : edgeAt g a b = None -> edgeAt (clearEdges n es g) a b = None.
Proof.
  unfold clearEdges. revert g. induction es as [|e es IH]; intros g Hg; [done|]. cbn [foldl].
  apply IH. case_bool_decide; [|done]. rewrite edgeAt_DelEdge. by case_decide.
Qed.

Lemma clearEdges_touching n es g e : e ∈ es -> From e = n \/ To e = n ->
  edgeAt (clearEdges n es g) (From e) (To e) = None.
Proof.
  intros Hin Ht. unfold clearEdges. revert g. induction Hin as [e es|e e' es _ IH]; intros g; cbn [foldl].
  - rewrite bool_decide_eq_true_2 by done. apply clearEdges_None.
    rewrite edgeAt_DelEdge, decide_True by tauto. done.
  - by apply IH.
Qed.

(** Clearing a node removes exactly its edges. *)
Lemma clearEdges_spec k n g a b : wf g ->
  edgeAt (clearEdges n (Edges k g) g) a b = if decide (a = n \/ b = n) then None else edgeAt g a b.
Proof.
  intros Hwf. case_decide as Ht; [|apply clearEdges_other; tauto].
  destruct (edgeAt g a b) as [e|] eqn:E; [|by apply clearEdges_None].
  destruct (wf_key g Hwf a b e E) as [<- <-].
  apply clearEdges_touching; [|done]. by apply elem_of_Edges.
Qed.

Lemma purgeNodes_spec reach ns k g a b : wf g ->
  nodes (purgeNodes k reach ns g) = nodes g /\ wf (purgeNodes k reach ns g) /\
  edgeAt (purgeNodes k reach ns g) a b =
    if decide ((a ∈ ns /\ a ∉ reach) \/ (b ∈ ns /\ b ∉ reach)) then None else edgeAt g a b.
Proof.
  revert k g. induction ns as [|n ns IH]; intros k g Hwf; cbn [purgeNodes].
  { split_and!; [done|done|]. rewrite decide_False by set_solver. done. }
  destruct (clearEdges_nodes n (Edges k g) g) as [Hn Hw].
  case_bool_decide as Hr.
  - destruct (IH (S k) g Hwf) as (H1' & H2' & H3'). split_and!; [done|done|]. rewrite H3'.
    repeat case_decide; set_solver.
  - destruct (IH (S k) _ (Hw Hwf)) as (H1' & H2' & H3'). split_and!; [congruence|done|].
    rewrite H3', clearEdges_spec by done. repeat case_decide; set_solver.
Qed.

(** C32.  Purging keeps every node and every edge that can be reached from the local
    node, under every iteration order, and removes all other edges. *)
Theorem purge_correct k self g : wf g ->
  nodes (purge k self g) = nodes g /\ wf (purge k self g) /\
  forall a b, edgeAt (purge k self g) a b = if decide (a ∈ Reachable self g) then edgeAt g a b else None.
Proof.
  intros Hwf. unfold purge. split_and!.
  - by apply (purgeNodes_spec _ _ _ _ self self).
  - by apply (purgeNodes_spec _ _ _ _ self self).
  - intros a b. destruct (purgeNodes_spec (Reachable self g) (Nodes k g) k g a b Hwf) as (_ & _ & ->).
    pose proof (elem_of_Nodes k g a) as Hna. pose proof (elem_of_Nodes k g b) as Hnb.
    destruct (edgeAt g a b) as [e|] eqn:E; [|by repeat case_decide].
    destruct (edgeAt_nodes g a b e Hwf E) as [Ha Hb].
    assert (a ∈ Reachable self g -> b ∈ Reachable self g) as Hclosed.
    { intros Hra. destruct (decide (self ∈ dom (nodes g))) as [Hs|Hs].
      - apply Reachable_spec in Hra; [|done|done]. apply Reachable_spec; [done|done|].
        eapply rtc_r; [exact Hra|]. by exists e.
      - unfold Reachable in Hra. apply not_elem_of_dom in Hs. rewrite Hs in Hra. set_solver. }
    repeat case_decide; tauto.
Qed.
End purge_lemmas.

Lemma purge_correct_witness :
  let g := graph.AddEdge (graph.MkEdge !"x" !"y" 1) graph.line_abc in
  graph.edgeAt (purge 0 !"a" g) !"x" !"y" = None /\ is_Some (graph.edgeAt (purge 0 !"a" g) !"b" !"c").
Proof.
  intros g. assert (graph.wf g) as Hwf by (repeat apply graph.wf_AddEdge; apply graph.wf_New).
  destruct (purge_correct 0 !"a" g Hwf) as (_ & _ & He). rewrite !He. split.
  - rewrite decide_False; [done|]. apply (bool_decide_unpack _). vm_compute. exact I.
  - rewrite decide_True; [vm_compute; eauto|]. apply (bool_decide_unpack _). vm_compute. exact I.
Defined.

(** The waits of [maintainPeer] stay between half a second and the maximum. *)
Lemma waits_bounds b oks : 500 <= b <= maxBackoff -> Forall (fun w => 500 <= w <= maxBackoff) (waits b oks).
Proof.
  revert b. induction oks as [|ok oks IH]; intros b Hb; [constructor|]. cbn [waits].
  unfold backoffStep, maxBackoff in *. destruct ok; constructor; try lia; apply IH; [lia|].
  destruct (Z.ltb_spec 30000 (b * 2)); lia.
Qed.

Example waits_fail : waits 500 (replicate 8 false) = [500; 1000; 2000; 4000; 8000; 16000; 30000; 30000].
Proof. reflexivity. Qed.

(** ** The desired state *)
Section buildState_lemmas.
Context `{Unicode, X509, WGTypes, MapOrder}.
Import dataplane.

(** The nodes the data plane can be configured for: those with a host file
    that holds a WireGuard key. *)
Definition hostKey (fs : FS) (p : Paths) (name : gostring) : option bytes :=
  es ← ok (config.ParseFile fs (HostFile p name)); v ← config.GetFirst es !"WGPublicKey"; wg_parse v.

Lemma peerFor_Some fs p k l pl name q : peerFor fs p k l pl name = Some q ->
  Name q = name /\ name <> NodeName l /\ hostKey fs p name = Some (WGPublic q) /\
  (netip.IsValid (gossip.UnderlayAddrOf pl name) = true -> dataplane.UnderlayAddr q = gossip.UnderlayAddrOf pl name) /\
  (netip.IsValid (gossip.InnerAddrOf pl name) = true -> dataplane.InnerAddr q = gossip.InnerAddrOf pl name) /\
  (forall ep, gossip.EndpointOf pl name <> [] -> netip.ParseAddrPort (gossip.EndpointOf pl name) = Some ep ->
     netip.apIsValid ep = true -> Endpoint q = ep) /\
  AllowedIPs q = allowedIPsFor k (gossip.G pl) (LMode l) name (dataplane.UnderlayAddr q).
Proof.
  unfold peerFor, hostKey. case_bool_decide as Hne; [done|].
  destruct (ok (config.ParseFile fs _)) as [es|]; [|done]. cbn [mbind option_bind].
  destruct (config.GetFirst es _) as [v|]; [|done]. cbn [mbind option_bind].
  destruct (wg_parse v) as [key|] eqn:Ek; [|done]. cbn [mbind option_bind]. intros [= <-].
  cbn [Name WGPublic dataplane.UnderlayAddr dataplane.InnerAddr Endpoint AllowedIPs].
  split_and!; try done.
  - unfold orHost. by intros ->.
  - unfold orHost. by intros ->.
  - intros ep Hl Hp Hv. unfold endpointFor. rewrite bool_decide_eq_false_2, Hp by done.
    cbn [from_option id]. by rewrite Hv.
Qed.

Lemma peerFor_is_Some fs p k l pl name : name <> NodeName l ->
  is_Some (peerFor fs p k l pl name) <-> is_Some (hostKey fs p name).
Proof.
  intros Hne. unfold peerFor, hostKey. rewrite bool_decide_eq_false_2 by done.
  destruct (ok (config.ParseFile fs _)) as [es|]; [|by split; intros []]. cbn [mbind option_bind].
  destruct (config.GetFirst es _) as [v|]; [|by split; intros []]. cbn [mbind option_bind].
  destruct (wg_parse v); cbn [mbind option_bind]; split; intros []; (done || eauto).
Qed.

Lemma NoDup_omap_names fs p k l pl ns : NoDup ns -> NoDup (Name <$> omap (peerFor fs p k l pl) ns).
Proof.
  induction 1 as [|n ns Hn _ IH]; [constructor|]. cbn [omap list_omap].
  destruct (peerFor fs p k l pl n) as [q|] eqn:E; [|exact IH]. rewrite fmap_cons. constructor; [|exact IH].
  intros (q' & Hq & (n' & Hn' & E')%list_elem_of_omap)%list_elem_of_fmap.
  apply peerFor_Some in E as [Eq _]. apply peerFor_Some in E' as [Eq' _]. congruence.
Qed.

(** C27.  [buildState], under every iteration order of the node map: it has one peer
    for each known node other than the local one whose host file holds a
    WireGuard key, and no other; the key is the one in the host file; an
    address or endpoint learned by gossip wins over the host file; and outside
    router mode the peer's tunnel carries exactly its underlay address. *)
Theorem buildState_spec fs p k l pl :
  let s := buildState fs p k l pl in
  NoDup (Name <$> Peers s) /\
  (forall name, name ∈ Name <$> Peers s <->
     name ∈ dom (graph.nodes (gossip.G pl)) /\ name <> NodeName l /\ is_Some (hostKey fs p name)) /\
  (forall q, q ∈ Peers s ->
     hostKey fs p (Name q) = Some (WGPublic q) /\
     (netip.IsValid (gossip.UnderlayAddrOf pl (Name q)) = true ->
        dataplane.UnderlayAddr q = gossip.UnderlayAddrOf pl (Name q)) /\
     (netip.IsValid (gossip.InnerAddrOf pl (Name q)) = true ->
        dataplane.InnerAddr q = gossip.InnerAddrOf pl (Name q)) /\
     (forall ep, gossip.EndpointOf pl (Name q) <> [] -> netip.ParseAddrPort (gossip.EndpointOf pl (Name q)) = Some ep ->
        netip.apIsValid ep = true -> Endpoint q = ep) /\
     (LMode l <> ModeRouter -> AllowedIPs q =
        if netip.IsValid (dataplane.UnderlayAddr q)
        then [netip.PrefixFrom (dataplane.UnderlayAddr q) (netip.BitLen (dataplane.UnderlayAddr q))] else [])).
Proof.
  intros s. unfold s, buildState. cbn [Peers]. split_and!.
  - apply NoDup_omap_names, NoDup_map_order_keys.
  - intros name. rewrite list_elem_of_fmap. split.
    + intros (q & -> & (n & Hn%elem_of_Nodes & E)%list_elem_of_omap).
      apply peerFor_Some in E as (-> & Hne & Hk & _). split_and!; eauto.
    + intros (Hn & Hne & Hk). apply (peerFor_is_Some fs p k l pl) in Hk as [q Hq]; [|done].
      exists q. split; [by apply peerFor_Some in Hq as [-> _]|].
      apply list_elem_of_omap. exists name. by rewrite elem_of_Nodes.
  - intros q (n & Hn & E)%list_elem_of_omap. apply peerFor_Some in E as (-> & _ & Hk & Hu & Hi & He & Ha).
    split_and!; try done. intros Hm. rewrite Ha. unfold allowedIPsFor. by rewrite bool_decide_eq_false_2.
Qed.
End buildState_lemmas.

(** ** A node with one peer *)
Module demo.
Import toy.

Definition p : Paths := MkPaths !"/etc/gsnet" !"vpn".
Definition keyText : gostring := wg_string (replicate 32 (to_byte 7)).

Definition fs : FS :=
  MkFS {[ !"/etc/gsnet/vpn/hosts/b" :=
            MkFile (!"WGPublicKey = " ++ keyText ++ [nl] ++ !"UnderlayAddress = 10.0.0.9" ++ [nl]) 420 ]}
    {[ !"/etc/gsnet/vpn/hosts" ]}.

Definition l : loaded :=
  MkLoaded !"a" [] (keys.MkPriv []) (keys.MkWGPriv []) dataplane.ModeSwitch !"wg-a" 51820 !"a" 42 4789 1420
    netip.PrefixZero netip.PrefixZero [].

Definition pl : gossip.Plane :=
  gossip.setAddrs ∅ ∅ {[ !"b" := netip.Addr4 0x0A000002 ]}
    (gossip.NewPlane !"a" (graph.AddEdge (graph.MkEdge !"a" !"b" 1) graph.New)).

Example state_of_a :
  dataplane.Peers (buildState fs p 0 l pl) =
  [dataplane.MkPeer !"b" (replicate 32 (to_byte 7)) netip.AddrPortZero netip.AddrZero (netip.Addr4 0x0A000002)
     [netip.MkPrefix (netip.Addr4 0x0A000002) 32]].
Proof. vm_compute. reflexivity. Qed.

Lemma buildState_spec_witness : !"a" ∉ dataplane.Name <$> dataplane.Peers (buildState fs p 0 l pl).
Proof.
  intros (_ & Hne & _)%(proj1 (proj2 (buildState_spec fs p 0 l pl)) !"a"). by destruct Hne.
Defined.
End demo.
End daemon.
