(* ===== verification/DaemonJoin.v ===== *)
(** * Serving invitations (internal/daemon/daemon.go: handleInviteGet,
      handleInviteJoin)

    The two callbacks behind the transport's INVITE2 commands, over the file
    system and the gossip plane. *)

From Stdlib Require Import Ascii String ZArith Lia.
From stdpp Require Import base tactics list gmap strings.
From S2P Require Import Prelude.
From S2P Require Import GoStrings.
From S2P Require Import FS.
From S2P Require Import FilePath.
From S2P Require Import Graph.
From S2P Require Import Config.
From S2P Require Import Keys.
From S2P Require Import Message.
From S2P Require Import Gossip.
From S2P Require Import Invite.
From S2P Require Import Daemon.

Module join.
Import paths pathlib.

Inductive error :=
| errUnknown | errCorrupt (e : invite.fileError) | errMismatch (want : gostring) | errOS (e : osError).

Definition invitationFile (p : Paths) (cookie : gostring) : gostring := filepath.Join [InvitationsDir p; cookie].

Definition handleInviteGet (fs : FS) (p : Paths) (cookie : gostring) : result error bytes :=
  match os.ReadFile fs (invitationFile p cookie) with
  | Ok body => Ok body
  | Err _ => Err errUnknown
  end.

Section join.
Context `{Unicode, Ed25519, MapOrder}.
Context (bcast : nat -> message.Envelope -> option nat) (k : nat) (now : Z).

(** Up to the check of the invitee's name: nothing is changed yet. *)
Definition joinCheck (fs : FS) (p : Paths) (cookie inviteeName : gostring) : result error bytes :=
  match os.ReadFile fs (invitationFile p cookie) with
  | Err _ => Err errUnknown
  | Ok file =>
      match invite.ParseFile file with
      | Err e => Err (errCorrupt e)
      | Ok parsed =>
          if negb (bool_decide (invite.Name (invite.Invitee parsed) = inviteeName))
          then Err (errMismatch (invite.Name (invite.Invitee parsed)))
          else Ok file
      end
  end.

(** The Hello announced for the new peer, if its host configuration has a
    usable key. *)
Definition joinHello (inviteeName : gostring) (hostConfig : bytes) : option message.Hello :=
  es ← ok (config.Parse hostConfig);
  pubStr ← config.GetFirst es !"Ed25519PublicKey";
  pub ← ok (keys.ParseEd25519PublicBase64 (TrimSpace pubStr));
  Some (message.MkHello inviteeName (keys.Raw pub) [] [] [] []).

(** From the creation of the hosts directory on. *)
Definition joinCommit (fs : FS) (p : Paths) (pl : gossip.Plane) (cookie inviteeName : gostring) (hostConfig file : bytes)
  : FS * gossip.Plane * list gossip.event * result error bytes :=
  match os.MkdirAll fs (HostsDir p) with
  | Err e => (fs, pl, [], Err (errOS e))
  | Ok fs =>
      match os.WriteFile fs (HostFile p inviteeName) hostConfig 420 with
      | Err e => (fs, pl, [], Err (errOS e))
      | Ok fs =>
          let fs := match os.Remove fs (invitationFile p cookie) with Ok fs' => fs' | Err _ => fs end in
          let '(pl, evs) := match joinHello inviteeName hostConfig with
                            | Some h => (gossip.AnnounceHello bcast k now pl h).1
                            | None => (pl, [])
                            end in
          (fs, pl, evs, Ok file)
      end
  end.

Definition handleInviteJoin (fs : FS) (p : Paths) (pl : gossip.Plane) (cookie inviteeName : gostring) (hostConfig : bytes)
  : FS * gossip.Plane * list gossip.event * result error bytes :=
  match joinCheck fs p cookie inviteeName with
  | Err e => (fs, pl, [], Err e)
  | Ok file => joinCommit fs p pl cookie inviteeName hostConfig file
  end.
End join.

(** ** Lemmas *)

Ltac plain_lit := repeat split; try discriminate; apply (bool_decide_unpack _); vm_compute; exact I.

Lemma plain_hosts : plain !"hosts".
Proof. plain_lit. Qed.
Lemma plain_invitations : plain !"invitations".
Proof. plain_lit. Qed.

Lemma stack_invitationFile p c : plain c ->
  stackOf (invitationFile p c) = c :: !"invitations" :: stackOf (NetDir p).
Proof.
  intros Hc. unfold invitationFile, InvitationsDir. destruct (stackOf_Join (filepath.Join [NetDir p; !"invitations"]) c Hc) as [-> _].
  by destruct (stackOf_Join (NetDir p) !"invitations" plain_invitations) as [-> _].
Qed.

Lemma stack_HostFile p n : plain n -> stackOf (HostFile p n) = n :: !"hosts" :: stackOf (NetDir p).
Proof.
  intros Hn. unfold HostFile, HostsDir. destruct (stackOf_Join (filepath.Join [NetDir p; !"hosts"]) n Hn) as [-> _].
  by destruct (stackOf_Join (NetDir p) !"hosts" plain_hosts) as [-> _].
Qed.

Lemma invitation_not_host p c n : plain c -> plain n -> invitationFile p c <> HostFile p n.
Proof.
  intros Hc Hn He. pose proof (stack_invitationFile p c Hc) as H1'. rewrite He, (stack_HostFile p n Hn) in H1'. done.
Qed.

Section lemmas.
Context `{Unicode, Ed25519, MapOrder}.
Context (bcast : nat -> message.Envelope -> option nat) (k : nat) (now : Z).

Lemma joinCheck_Ok fs p cookie name file : joinCheck fs p cookie name = Ok file ->
  os.ReadFile fs (invitationFile p cookie) = Ok file /\
  exists f, invite.ParseFile file = Ok f /\ invite.Name (invite.Invitee f) = name.
Proof.
  unfold joinCheck. destruct (os.ReadFile fs _) as [b|]; [|done]. destruct (invite.ParseFile b) as [f|] eqn:E; [|done].
  case_bool_decide; [|done]. cbn [negb]. intros [= <-]. eauto.
Qed.

Lemma ReadFile_Ok fs q b : os.ReadFile fs q = Ok b -> exists f, files fs !! q = Some f /\ content f = b.
Proof. unfold os.ReadFile. destruct (files fs !! q) as [f|]; [intros [= <-]; eauto|]. by case_decide. Qed.

Lemma WriteFile_Err_or fs q d m : match os.WriteFile fs q d m with
  | Ok fs' => os.ReadFile fs' q = Ok d /\ forall q', q' <> q -> files fs' !! q' = files fs !! q'
  | Err _ => True end.
Proof.
  destruct (os.WriteFile fs q d m) as [fs'|] eqn:E; [|done]. split; [by eapply ReadFile_WriteFile|].
  intros q' Hq. by destruct (files_WriteFile _ _ _ _ _ _ E Hq).
Qed.

(** A refused join changes no file and announces nothing. *)
Lemma join_refused fs p pl cookie name hc fs' pl' evs e :
  handleInviteJoin bcast k now fs p pl cookie name hc = (fs', pl', evs, Err e) ->
  files fs' = files fs /\ pl' = pl /\ evs = [].
Proof.
  unfold handleInviteJoin. destruct (joinCheck fs p cookie name); [|by intros [= <- <- <- _]].
  unfold joinCommit. destruct (os.MkdirAll fs (HostsDir p)) as [fs1|] eqn:E; [|by intros [= <- <- <- _]].
  apply files_MkdirAll in E as [E _].
  destruct (os.WriteFile fs1 _ _ _) as [fs2|]; [|by intros [= <- <- <- _]].
  by destruct (match joinHello name hc with Some h => _ | None => _ end).
Qed.

Lemma joinCommit_runs fs p pl cookie name hc file fs' pl' evs r :
  is_ok (os.ReadFile fs (invitationFile p cookie)) = true ->
  joinCommit bcast k now fs p pl cookie name hc file = (fs', pl', evs, Ok r) ->
  r = file /\ files fs' !! invitationFile p cookie = None /\
  (invitationFile p cookie <> HostFile p name -> os.ReadFile fs' (HostFile p name) = Ok hc) /\
  (forall q, q <> HostFile p name -> q <> invitationFile p cookie -> files fs' !! q = files fs !! q) /\
  (pl', evs) = match joinHello name hc with
               | Some h => (gossip.AnnounceHello bcast k now pl h).1
               | None => (pl, [])
               end.
Proof.
  intros Hr. unfold joinCommit.
  destruct (os.MkdirAll fs (HostsDir p)) as [fs1|] eqn:E; [|done]. apply files_MkdirAll in E as [E _].
  pose proof (WriteFile_Err_or fs1 (HostFile p name) hc 420) as Hw.
  destruct (os.WriteFile fs1 _ _ _) as [fs2|]; [|done]. destruct Hw as [Hread Hother].
  destruct (os.ReadFile fs (invitationFile p cookie)) as [b|] eqn:Eb; [|done]. apply ReadFile_Ok in Eb as (f & Ef & _).
  assert (is_Some (files fs2 !! invitationFile p cookie)) as [f2 Ef2].
  { destruct (decide (invitationFile p cookie = HostFile p name)) as [->|Hne]; [|rewrite Hother, E by done; by rewrite Ef].
    apply ReadFile_Ok in Hread as (f2 & -> & _). eauto. }
  assert (exists fs3, os.Remove fs2 (invitationFile p cookie) = Ok fs3) as [fs3 E3]
    by (unfold os.Remove; rewrite Ef2; eauto).
  rewrite E3. destruct (match joinHello name hc with Some h => _ | None => _ end) as [pl1 evs1].
  intros [= <- <- <- <-]. pose proof (fun q => files_Remove _ _ _ q E3) as Hrm.
  split_and!; [done| | | |done].
  - destruct (Hrm (invitationFile p cookie)) as [-> _]. by rewrite decide_True.
  - intros Hne. unfold os.ReadFile in *. destruct (Hrm (HostFile p name)) as [-> ->]. rewrite decide_False by done. exact Hread.
  - intros q Hq1 Hq2. destruct (Hrm q) as [-> _]. rewrite decide_False by done. by rewrite Hother, E.
Qed.

Lemma joinCommit_Ok fs p pl cookie name hc file fs' pl' evs r :
  plain cookie -> plain name -> is_ok (os.ReadFile fs (invitationFile p cookie)) = true ->
  joinCommit bcast k now fs p pl cookie name hc file = (fs', pl', evs, Ok r) ->
  r = file /\ os.ReadFile fs' (HostFile p name) = Ok hc /\ files fs' !! invitationFile p cookie = None /\
  forall q, q <> HostFile p name -> q <> invitationFile p cookie -> files fs' !! q = files fs !! q.
Proof.
  intros Hc Hn Hr Hrun. apply joinCommit_runs in Hrun as (? & ? & Hh & ? & _); [|done].
  split_and!; [done|by apply Hh, invitation_not_host|done|done].
Qed.

(** An answered join, whatever the cookie and the name. *)
Lemma join_answered fs p pl cookie name hc fs' pl' evs file :
  handleInviteJoin bcast k now fs p pl cookie name hc = (fs', pl', evs, Ok file) ->
  os.ReadFile fs (invitationFile p cookie) = Ok file /\
  (exists f, invite.ParseFile file = Ok f /\ invite.Name (invite.Invitee f) = name) /\
  files fs' !! invitationFile p cookie = None /\
  (invitationFile p cookie <> HostFile p name -> os.ReadFile fs' (HostFile p name) = Ok hc) /\
  (forall q, q <> HostFile p name -> q <> invitationFile p cookie -> files fs' !! q = files fs !! q) /\
  (pl', evs) = match joinHello name hc with
               | Some h => (gossip.AnnounceHello bcast k now pl h).1
               | None => (pl, [])
               end.
Proof.
  unfold handleInviteJoin. destruct (joinCheck fs p cookie name) as [file'|] eqn:Ej; [|done].
  apply joinCheck_Ok in Ej as [Hread Hparse]. intros Hrun.
  apply joinCommit_runs in Hrun as (-> & Hrest); [done|by rewrite Hread].
Qed.

(** C26.  A JOIN, for any cookie and any name.  If it is answered, the answer
    is the content of the file the cookie names below the invitations
    directory, which was written for this invitee; that file is gone
    afterwards, so that no later GET or JOIN with the cookie succeeds; the
    invitee's host file holds what it sent, unless the cookie named that very
    file; no other file changed; and the plane announced the Hello of the
    invitee if what it sent has a usable key, and is untouched otherwise.  The
    cookie is not checked: only when it is a plain file name is the deleted
    file one of the invitations directory.  A refused join changes no file and
    announces nothing. *)
Theorem join_consumes_invitation fs p pl cookie name hc fs' pl' evs r :
  handleInviteJoin bcast k now fs p pl cookie name hc = (fs', pl', evs, r) ->
  match r with
  | Ok file =>
      os.ReadFile fs (invitationFile p cookie) = Ok file /\
      (exists f, invite.ParseFile file = Ok f /\ invite.Name (invite.Invitee f) = name) /\
      (invitationFile p cookie <> HostFile p name -> os.ReadFile fs' (HostFile p name) = Ok hc) /\
      handleInviteGet fs' p cookie = Err errUnknown /\
      (forall pl2 name2 hc2, (handleInviteJoin bcast k now fs' p pl2 cookie name2 hc2).2 = Err errUnknown) /\
      files fs' !! invitationFile p cookie = None /\
      (forall q, q <> HostFile p name -> q <> invitationFile p cookie -> files fs' !! q = files fs !! q) /\
      (pl', evs) = match joinHello name hc with
                   | Some h => (gossip.AnnounceHello bcast k now pl h).1
                   | None => (pl, [])
                   end /\
      (plain cookie -> stackOf (invitationFile p cookie) = cookie :: !"invitations" :: stackOf (NetDir p)) /\
      (plain cookie -> plain name -> invitationFile p cookie <> HostFile p name)
  | Err _ => files fs' = files fs /\ pl' = pl /\ evs = []
  end.
Proof.
  intros Hrun. destruct r as [file|e]; [|by apply join_refused in Hrun].
  apply join_answered in Hrun as (Hread & Hparse & Hgone & Hhost & Hother & Hpl).
  assert (exists e, os.ReadFile fs' (invitationFile p cookie) = Err e) as [e He].
  { unfold os.ReadFile. rewrite Hgone. case_decide; eauto. }
  split_and!; try done.
  - unfold handleInviteGet. by rewrite He.
  - intros pl2 name2 hc2. unfold handleInviteJoin, joinCheck. by rewrite He.
  - apply stack_invitationFile.
  - apply invitation_not_host.
Qed.

(** The Hello for the invitee is filed under the local node's own fact, so the
    local node's Hello is no longer in the outbox that heartbeats re-send. *)
Theorem join_overwrites_own_hello fs p pl cookie name hc fs' pl' evs file h :
  handleInviteJoin bcast k now fs p pl cookie name hc = (fs', pl', evs, Ok file) ->
  joinHello name hc = Some h ->
  exists env, gossip.outbox pl' !! (gossip.NodeName pl ++ !"/hello") = Some env /\
    message.Payload env = message.marshalHello h /\ message.Name h = name.
Proof.
  intros Hrun Hh. unfold handleInviteJoin in Hrun. destruct (joinCheck _ _ _ _); [|done].
  unfold joinCommit in Hrun. destruct (os.MkdirAll fs _); [|done]. destruct (os.WriteFile _ _ _ _); [|done].
  rewrite Hh in Hrun. unfold gossip.AnnounceHello in Hrun. rewrite gossip.originate_unfold in Hrun.
  cbn [fst snd] in Hrun. set (env := gossip.sign _ _) in *. set (q := gossip.setSeen _ _) in *.
  destruct (gossip.apply k env q) as [q' ev'] eqn:Ea. cbn [fst snd] in Hrun. injection Hrun as _ <- _ _.
  destruct (gossip.apply_core k env q) as [_ _ Ho _ _ _]. rewrite Ea in Ho. cbn [fst] in Ho.
  exists env. split; [rewrite Ho; apply lookup_insert_eq|]. split.
  - unfold env, gossip.sign. by destruct (gossip.edPriv pl).
  - unfold joinHello in Hh. destruct (ok (config.Parse hc)) as [es|]; [|done]. cbn in Hh.
    destruct (config.GetFirst es _); [|done]. cbn in Hh.
    destruct (ok (keys.ParseEd25519PublicBase64 _)); [|done]. cbn in Hh. by injection Hh as <-.
Qed.
End lemmas.

(** A cookie is joined to a path without being checked: this one names the
    WireGuard private key of the node, whatever the layout. *)
Theorem invite_get_leaks_private_key fs p key :
  os.ReadFile fs (WGPrivate p) = Ok key -> handleInviteGet fs p !"../wg.priv" = Ok key.
Proof.
  intros Hr. unfold handleInviteGet, invitationFile, InvitationsDir.
  change !"../wg.priv" with (!"../" ++ !"wg.priv").
  rewrite Join_dotdot by (apply plain_invitations || plain_lit). fold (WGPrivate p). by rewrite Hr.
Qed.

(** The same cookie check lets a JOIN consume the configuration itself: its
    first block names the node, so the JOIN of a peer that calls itself by the
    node's own name passes the check, is sent the configuration, replaces the
    node's own host file and deletes [gsnet.conf]. *)
Theorem join_deletes_conf `{Unicode, Ed25519, MapOrder} bcast k now fs p pl conf name hc fs' pl' evs answer :
  os.ReadFile fs (ConfFile p) = Ok conf ->
  handleInviteJoin bcast k now fs p pl !"../gsnet.conf" name hc = (fs', pl', evs, Ok answer) ->
  answer = conf /\ (exists f, invite.ParseFile conf = Ok f /\ invite.Name (invite.Invitee f) = name) /\
  files fs' !! ConfFile p = None /\
  (ConfFile p <> HostFile p name -> os.ReadFile fs' (HostFile p name) = Ok hc).
Proof.
  intros Hr Hrun.
  assert (invitationFile p !"../gsnet.conf" = ConfFile p) as E.
  { unfold invitationFile, InvitationsDir. change !"../gsnet.conf" with (!"../" ++ !"gsnet.conf").
    rewrite Join_dotdot by (apply plain_invitations || plain_lit). done. }
  apply join_answered in Hrun as (Hread & Hparse & Hgone & Hhost & _).
  rewrite E in Hread, Hgone, Hhost. rewrite Hr in Hread. injection Hread as <-. done.
Qed.

(** ** A tree with one invitation *)
Module demo.
Import toy gossip.demo.

Definition p : Paths := MkPaths !"/etc/gsnet" !"vpn".
Definition invitation : bytes := !"Name = bob" ++ [nl].
Definition fs : FS :=
  MkFS {[ !"/etc/gsnet/vpn/invitations/c0" := MkFile invitation 384;
          !"/etc/gsnet/vpn/wg.priv" := MkFile !"secret" 384 ]}
    {[ !"/etc/gsnet/vpn/invitations"; !"/etc/gsnet/vpn"; !"/etc/gsnet"; !"/etc"; !"/" ]}.
Definition hostConfig (n : Z) : bytes :=
  !"Ed25519PublicKey = " ++ keys.String (keys.MkPub (replicate 32 (to_byte n))) ++ [nl].

Definition joined := handleInviteJoin noErr 0 5 fs p planeA !"c0" !"bob" (hostConfig 1).
End demo.
Import demo toy gossip.demo.

Lemma join_consumes_invitation_witness :
  handleInviteGet joined.1.1.1 p !"c0" = Err errUnknown /\
  os.ReadFile joined.1.1.1 (HostFile p !"bob") = Ok (hostConfig 1).
Proof.
  assert (plain !"c0") as H1 by plain_lit. assert (plain !"bob") as H2 by plain_lit.
  pose proof (join_consumes_invitation noErr 0 5 fs p planeA !"c0" !"bob" (hostConfig 1)
                joined.1.1.1 joined.1.1.2 joined.1.2 (Ok invitation)) as Hj.
  destruct Hj as (_ & _ & Hh & Hg & _ & _ & _ & _ & _ & Hne).
  - assert (joined.2 = Ok invitation) as <- by (vm_compute; reflexivity).
    change (handleInviteJoin noErr 0 5 fs p planeA !"c0" !"bob" (hostConfig 1)) with joined.
    by destruct joined as [[[? ?] ?] ?].
  - exact (conj Hg (Hh (Hne H1 H2))).
Defined.

Example leak : handleInviteGet fs p !"../wg.priv" = Ok !"secret".
Proof. vm_compute. reflexivity. Qed.

(** A node called alice, and a peer that joins with its configuration as the
    invitation. *)
Definition fsConf : FS :=
  MkFS {[ !"/etc/gsnet/vpn/gsnet.conf" := MkFile (!"Name = alice" ++ [nl]) 384;
          !"/etc/gsnet/vpn/hosts/alice" := MkFile (hostConfig 9) 420 ]}
    {[ !"/etc/gsnet/vpn/hosts"; !"/etc/gsnet/vpn"; !"/etc/gsnet"; !"/etc"; !"/" ]}.

Example conf_deleted :
  let '(fs', _, _, r) := handleInviteJoin noErr 0 5 fsConf p planeA !"../gsnet.conf" !"alice" (hostConfig 1) in
  r = Ok (!"Name = alice" ++ [nl]) /\ files fs' !! ConfFile p = None /\
  os.ReadFile fs' (HostFile p !"alice") = Ok (hostConfig 1).
Proof. vm_compute. done. Qed.

(** Two joins served at the same time: when both have read the invitation
    before either removes it, both are answered, and the host file holds what
    the second one sent. *)
Theorem join_race :
  exists file, joinCheck fs p !"c0" !"bob" = Ok file /\
    let '(fs1, pl1, _, r1) := joinCommit noErr 0 5 fs p planeA !"c0" !"bob" (hostConfig 1) file in
    let '(fs2, _, _, r2) := joinCommit noErr 0 6 fs1 p pl1 !"c0" !"bob" (hostConfig 2) file in
    r1 = Ok file /\ r2 = Ok file /\ os.ReadFile fs2 (HostFile p !"bob") = Ok (hostConfig 2).
Proof. exists invitation. vm_compute. done. Qed.
End join.
