(* ===== verification/Sandbox.v ===== *)
(** * The sandbox (internal/sandbox; daemon.go: applySandbox)

    [Apply] is a sequence of system calls.  The kernel is a parameter: the
    class [OS] has one operation per call, and [OSSpec] states what the
    documentation says of a call that succeeds or fails, in terms of a view
    of the process (its rulesets, open paths, ids, and the Landlock domain of
    each of its threads).  Access to files under a domain is the documented
    rule: every layer that handles the right must have a rule that grants it
    at the file or above it. *)

From Stdlib Require Import Ascii String ZArith Lia.
From stdpp Require Import base tactics list gmap strings.
From S2P Require Import Prelude.
From S2P Require Import GoStrings.
From S2P Require Import FilePath.
From S2P Require Import FS.
From S2P Require Import Config.
From S2P Require Import Daemon.
From S2P Require Import Message.
From S2P Require Import Gossip.
From S2P Require Import DaemonJoin.

Local Open Scope Z_scope.

Module sandbox.
Import paths pathlib.

Inductive Level := LevelOff | LevelNormal | LevelHigh.
#[global] Instance Level_eq_dec : EqDecision Level.
Proof. solve_decision. Defined.

Definition ParseLevel (s : gostring) : result gostring Level :=
  if bool_decide (s = []) || bool_decide (s = !"off") then Ok LevelOff
  else if bool_decide (s = !"normal") then Ok LevelNormal
  else if bool_decide (s = !"high") then Ok LevelHigh
  else Err s.

(** Values are compared as they are written. *)
Example ParseLevel_case_sensitive : ParseLevel !"High" = Err !"High" /\ ParseLevel !"high" = Ok LevelHigh.
Proof. vm_compute. done. Qed.

Record Options := MkOptions { OLevel : Level; OUser : gostring; OConfDir : gostring; OWritePaths : list gostring }.

(** ** Landlock access rights *)

Definition ACCESS_FS_EXECUTE : Z := 1.
Definition ACCESS_FS_WRITE_FILE : Z := 2.
Definition ACCESS_FS_READ_FILE : Z := 4.
Definition ACCESS_FS_READ_DIR : Z := 8.
Definition ACCESS_FS_REMOVE_DIR : Z := 16.
Definition ACCESS_FS_REMOVE_FILE : Z := 32.
Definition ACCESS_FS_MAKE_CHAR : Z := 64.
Definition ACCESS_FS_MAKE_DIR : Z := 128.
Definition ACCESS_FS_MAKE_REG : Z := 256.
Definition ACCESS_FS_MAKE_SOCK : Z := 512.
Definition ACCESS_FS_MAKE_FIFO : Z := 1024.
Definition ACCESS_FS_MAKE_BLOCK : Z := 2048.
Definition ACCESS_FS_MAKE_SYM : Z := 4096.
Definition ACCESS_FS_REFER : Z := 8192.
Definition ACCESS_FS_TRUNCATE : Z := 16384.

Definition orAll (l : list Z) : Z := foldl Z.lor 0 l.

(** The mask of handled rights for an ABI. *)
Definition access (abi : Z) : Z :=
  let a := orAll [ACCESS_FS_EXECUTE; ACCESS_FS_WRITE_FILE; ACCESS_FS_READ_FILE; ACCESS_FS_READ_DIR;
                  ACCESS_FS_REMOVE_DIR; ACCESS_FS_REMOVE_FILE; ACCESS_FS_MAKE_CHAR; ACCESS_FS_MAKE_DIR;
                  ACCESS_FS_MAKE_REG; ACCESS_FS_MAKE_SOCK; ACCESS_FS_MAKE_FIFO; ACCESS_FS_MAKE_BLOCK; ACCESS_FS_MAKE_SYM] in
  let a := if abi >=? 2 then Z.lor a ACCESS_FS_REFER else a in
  if abi >=? 3 then Z.lor a ACCESS_FS_TRUNCATE else a.

Definition readAccess : Z := Z.lor ACCESS_FS_READ_FILE ACCESS_FS_READ_DIR.

Definition writeAccess (abi : Z) : Z :=
  let w := Z.lor (Z.lor (Z.lor readAccess ACCESS_FS_WRITE_FILE) ACCESS_FS_MAKE_REG) ACCESS_FS_REMOVE_FILE in
  if abi >=? 3 then Z.lor w ACCESS_FS_TRUNCATE else w.

(** ** The system *)

Record ruleset := MkRuleset { handled : Z; rules : list (gostring * Z) }.

(** What the calls act on. *)
Record view := MkView {
  vRulesets : gmap Z ruleset; vPaths : gmap Z gostring; vDomains : gmap nat (list ruleset);
  vCwd : gostring; vGid : Z; vUid : Z; vGroups : list Z
}.

Class OS := {
  W : Type;
  errno : Type;
  (** landlock_create_ruleset with the version flag *)
  sysAbiVersion : W -> result errno Z;
  sysCreateRuleset : Z -> W -> W * result errno Z;
  (** open with O_PATH *)
  sysOpenPath : gostring -> W -> W * result errno Z;
  sysAddRule : Z -> Z -> Z -> W -> W * result errno unit;
  sysClose : Z -> W -> W;
  (** [os.Stat], then [os.IsNotExist] *)
  sysMissing : gostring -> W -> bool;
  sysNoNewPrivs : W -> W * result errno unit;
  sysRestrictSelf : Z -> W -> W * result errno unit;
  sysChdir : gostring -> W -> W * result errno unit;
  (** [user.Lookup]: the uid and the gid, as text *)
  sysLookupUser : gostring -> W -> result errno (gostring * gostring);
  sysSetgid : Z -> W -> W * result errno unit;
  sysSetuid : Z -> W -> W * result errno unit
}.

Section apply.
Context `{OS}.

Inductive error :=
| errNoLandlock | errCreate (e : errno) | errOpen (p : gostring) (e : errno) | errAddRule (p : gostring) (e : errno)
| errPrctl (e : errno) | errRestrict (e : errno) | errChdir (p : gostring) (e : errno)
| errLookup (e : errno) | errAtoi (s : gostring) | errSetgid (e : errno) | errSetuid (e : errno) | errLevel (s : gostring).

Definition D (A : Type) : Type := W -> W * result error A.
#[global] Instance D_ret : MRet D := fun A a w => (w, Ok a).
#[global] Instance D_bind : MBind D := fun A B f m w =>
  match m w with (w, Ok a) => f a w | (w, Err e) => (w, Err e) end.

Definition call {A} (f : W -> W * result errno A) (wrap : errno -> error) : D A := fun w =>
  let '(w, r) := f w in (w, err_map wrap r).

(** [defer syscall.Close(fd)] around the rest of a function. *)
Definition closing {A} (fd : Z) (m : D A) : D A := fun w => let '(w, r) := m w in (sysClose fd w, r).

Definition abiVersion (w : W) : Z := match sysAbiVersion w with Ok r => r | Err _ => 0 end.

Definition addRule (rulesetFD : Z) (path : gostring) (mask : Z) : D unit :=
  fd ← call (sysOpenPath path) (errOpen path);
  closing fd (call (sysAddRule rulesetFD mask fd) (errAddRule path)).

Fixpoint addWritePaths (rulesetFD mask : Z) (ps : list gostring) : D unit :=
  match ps with
  | [] => mret ()
  | p :: ps => fun w =>
      if sysMissing p w then addWritePaths rulesetFD mask ps w
      else (_ ← addRule rulesetFD p mask; addWritePaths rulesetFD mask ps) w
  end.

Definition applyLandlock (confDir : gostring) (writePaths : list gostring) : D unit := fun w =>
  let abi := abiVersion w in
  if abi =? 0 then (w, Err errNoLandlock)
  else (rulesetFD ← call (sysCreateRuleset (access abi)) errCreate;
        closing rulesetFD
          (_ ← (if bool_decide (confDir = []) then mret () else addRule rulesetFD confDir readAccess);
           _ ← addWritePaths rulesetFD (writeAccess abi) writePaths;
           _ ← call sysNoNewPrivs errPrctl;
           call (sysRestrictSelf rulesetFD) errRestrict)) w.

Definition setuidTo (name : gostring) : D unit := fun w =>
  match sysLookupUser name w with
  | Err e => (w, Err (errLookup e))
  | Ok (u, g) =>
      match Atoi u with
      | Err _ => (w, Err (errAtoi u))
      | Ok uid =>
          match Atoi g with
          | Err _ => (w, Err (errAtoi g))
          | Ok gid => (_ ← call (sysSetgid gid) errSetgid; call (sysSetuid uid) errSetuid) w
          end
      end
  end.

Definition Apply (opts : Options) : D unit :=
  if bool_decide (OLevel opts = LevelOff) then mret ()
  else
    _ ← (if bool_decide (OLevel opts = LevelHigh) then applyLandlock (OConfDir opts) (OWritePaths opts) else mret ());
    _ ← (if bool_decide (OConfDir opts = []) then mret () else call (sysChdir (OConfDir opts)) (errChdir (OConfDir opts)));
    if bool_decide (OUser opts = []) then mret () else setuidTo (OUser opts).

(** [applySandbox] of the daemon. *)
Definition applySandbox `{Unicode} (conf : list config.Entry) (p : Paths) (runDir : gostring) : D unit := fun w =>
  let levelStr := default [] (config.GetFirst conf !"Sandbox") in
  match ParseLevel (ToLower levelStr) with
  | Err s => (w, Err (errLevel s))
  | Ok level => Apply (MkOptions level (default [] (config.GetFirst conf !"User")) (NetDir p) [runDir; InvitationsDir p]) w
  end.
End apply.

(** [Apply] on other platforms. *)
Definition Apply_other (opts : Options) : result gostring unit :=
  if negb (bool_decide (OLevel opts = LevelOff)) then Err !"sandbox: Linux only; set Sandbox=off on this platform" else Ok ().

(** ** What the calls do *)

Definition setRulesets x v := MkView x (vPaths v) (vDomains v) (vCwd v) (vGid v) (vUid v) (vGroups v).
Definition setPaths x v := MkView (vRulesets v) x (vDomains v) (vCwd v) (vGid v) (vUid v) (vGroups v).
Definition setDomains x v := MkView (vRulesets v) (vPaths v) x (vCwd v) (vGid v) (vUid v) (vGroups v).
Definition setCwd x v := MkView (vRulesets v) (vPaths v) (vDomains v) x (vGid v) (vUid v) (vGroups v).
Definition setIds g u v := MkView (vRulesets v) (vPaths v) (vDomains v) (vCwd v) g u (vGroups v).

Definition domainOf (v : view) (t : nat) : list ruleset := default [] (vDomains v !! t).

(** [landlock_restrict_self] acts on the thread that calls it. *)
Definition restrict (self : nat) (R : ruleset) (v : view) : view :=
  setDomains (<[self := R :: domainOf v self]> (vDomains v)) v.

Class OSSpec `{OS} := {
  view_of : W -> view;
  self : nat;
  create_spec m w w' r : sysCreateRuleset m w = (w', r) ->
    match r with
    | Ok fd => vRulesets (view_of w) !! fd = None /\ vPaths (view_of w) !! fd = None /\
               view_of w' = setRulesets (<[fd := MkRuleset m []]> (vRulesets (view_of w))) (view_of w)
    | Err _ => view_of w' = view_of w
    end;
  open_spec p w w' r : sysOpenPath p w = (w', r) ->
    match r with
    | Ok fd => vRulesets (view_of w) !! fd = None /\ vPaths (view_of w) !! fd = None /\
               view_of w' = setPaths (<[fd := p]> (vPaths (view_of w))) (view_of w)
    | Err _ => view_of w' = view_of w
    end;
  addRule_spec rs mask fd w w' r : sysAddRule rs mask fd w = (w', r) ->
    match r with
    | Ok _ => exists R q, vRulesets (view_of w) !! rs = Some R /\ vPaths (view_of w) !! fd = Some q /\
               view_of w' = setRulesets (<[rs := MkRuleset (handled R) (rules R ++ [(q, mask)])]> (vRulesets (view_of w))) (view_of w)
    | Err _ => view_of w' = view_of w
    end;
  close_spec fd w : view_of (sysClose fd w)
    = setPaths (delete fd (vPaths (view_of w))) (setRulesets (delete fd (vRulesets (view_of w))) (view_of w));
  prctl_spec w : view_of (sysNoNewPrivs w).1 = view_of w;
  restrict_spec rs w w' r : sysRestrictSelf rs w = (w', r) ->
    match r with
    | Ok _ => exists R, vRulesets (view_of w) !! rs = Some R /\ view_of w' = restrict self R (view_of w)
    | Err _ => view_of w' = view_of w
    end;
  chdir_spec p w w' r : sysChdir p w = (w', r) ->
    view_of w' = match r with Ok _ => setCwd p (view_of w) | Err _ => view_of w end;
  setgid_spec g w w' r : sysSetgid g w = (w', r) ->
    view_of w' = match r with Ok _ => setIds g (vUid (view_of w)) (view_of w) | Err _ => view_of w end;
  setuid_spec u w w' r : sysSetuid u w = (w', r) ->
    view_of w' = match r with Ok _ => setIds (vGid (view_of w)) u (view_of w) | Err _ => view_of w end
}.

(** A path at or under another, as they are written: symbolic links are not
    followed, and a relative path is compared with relative ones only.  A rule
    is about the file that was opened when it was added, before the change of
    directory, so what is said about relative paths holds in the directory the
    daemon was started in. *)
Definition beneath (q p : gostring) : Prop := rooted q = rooted p /\ stackOf q `suffix_of` stackOf p.
#[global] Instance beneath_dec q p : Decision (beneath q p).
Proof. unfold beneath. apply _. Defined.

Definition grants (R : ruleset) (p : gostring) (right : Z) : bool :=
  (Z.land (handled R) right =? 0) ||
  existsb (fun qm => bool_decide (beneath qm.1 p) && negb (Z.land qm.2 right =? 0)) (rules R).

(** Whether a thread may use a right at a path. *)
Definition mayAccess (v : view) (t : nat) (p : gostring) (right : Z) : bool :=
  forallb (fun R => grants R p right) (domainOf v t).

(** ** The rules that are added *)

Section spec.
Context `{OSSpec}.

(** The ruleset of [applyLandlock], when [present] is what it finds of the
    write paths. *)
Definition policy (abi : Z) (confDir : gostring) (present : list gostring) : ruleset :=
  MkRuleset (access abi)
    ((if bool_decide (confDir = []) then [] else [(confDir, readAccess)]) ++ ((fun q => (q, writeAccess abi)) <$> present)).

Definition addRules (rs : Z) (new : list (gostring * Z)) (v : view) : view :=
  setRulesets (alter (fun R => MkRuleset (handled R) (rules R ++ new)) rs (vRulesets v)) v.

Lemma setRulesets_id v : setRulesets (vRulesets v) v = v.
Proof. by destruct v. Qed.

Lemma addRules_nil rs v : addRules rs [] v = v.
Proof.
  trans (setRulesets (vRulesets v) v); [|apply setRulesets_id]. unfold addRules. f_equal. apply map_eq. intros i.
  destruct (decide (i = rs)) as [->|Hi]; [|by rewrite lookup_alter_ne].
  rewrite lookup_alter_eq. destruct (vRulesets v !! rs) as [[h l]|]; [|done]. cbn. by rewrite app_nil_r.
Qed.

Lemma addRules_app rs l l' v : addRules rs l' (addRules rs l v) = addRules rs (l ++ l') v.
Proof.
  unfold addRules. cbn. unfold setRulesets at 1 3. cbn. f_equal. apply map_eq. intros i.
  destruct (decide (i = rs)) as [->|Hi]; [|by rewrite !lookup_alter_ne].
  rewrite !lookup_alter_eq. destruct (vRulesets v !! rs); [|done]. cbn. by rewrite (assoc_L (++)).
Qed.

(** The rule is added, and the descriptor is closed again. *)
Lemma addRule_effect rs q mask w w' r : is_Some (vRulesets (view_of w) !! rs) -> addRule rs q mask w = (w', r) ->
  view_of w' = match r with Ok _ => addRules rs [(q, mask)] (view_of w) | Err _ => view_of w end.
Proof.
  intros [R HR]. unfold addRule, mbind, D_bind, call, closing.
  destruct (sysOpenPath q w) as [w1 [fd|e]] eqn:E1; apply open_spec in E1; cbn [err_map]; [|by intros [= <- <-]].
  destruct E1 as (Hf1 & Hf2 & V1). assert (rs <> fd) as Hne by congruence.
  destruct (sysAddRule rs mask fd w1) as [w2 r2] eqn:E2. apply addRule_spec in E2. intros [= <- <-].
  rewrite close_spec. destruct r2 as [[]|e]; cbn [err_map].
  - destruct E2 as (R2 & q2 & HR2 & Hq2 & ->). rewrite V1 in *. cbn in *.
    rewrite lookup_insert_eq in Hq2. injection Hq2 as <-. assert (R2 = R) as -> by congruence.
    rewrite delete_insert_id by done. unfold addRules, setPaths, setRulesets. cbn. f_equal.
    rewrite delete_id by by rewrite lookup_insert_ne. apply map_eq. intros i.
    destruct (decide (i = rs)) as [->|Hi]; [by rewrite lookup_insert_eq, lookup_alter_eq, HR|].
    by rewrite lookup_insert_ne, lookup_alter_ne.
  - rewrite E2, V1. cbn. rewrite delete_insert_id, delete_id by done. by destruct (view_of w).
Qed.

Lemma addRules_lookup rs l v : is_Some (vRulesets v !! rs) -> is_Some (vRulesets (addRules rs l v) !! rs).
Proof. intros [R HR]. unfold addRules. cbn. rewrite lookup_alter_eq, HR. eauto. Qed.

Lemma addWritePaths_effect rs mask ps w w' r : is_Some (vRulesets (view_of w) !! rs) ->
  addWritePaths rs mask ps w = (w', r) ->
  exists present, present `sublist_of` ps /\ view_of w' = addRules rs ((fun q => (q, mask)) <$> present) (view_of w).
Proof.
  revert w. induction ps as [|q ps IH]; intros w HR; cbn [addWritePaths].
  { intros [= <- <-]. exists []. by rewrite addRules_nil. }
  destruct (sysMissing q w).
  { intros (l & Hl & HV)%IH; [|done]. exists l. eauto using sublist_cons. }
  unfold mbind, D_bind. destruct (addRule rs q mask w) as [w1 r1] eqn:E. apply addRule_effect in E; [|done].
  destruct r1 as [[]|e].
  - intros (l & Hl & HV)%IH; [|rewrite E; by apply addRules_lookup].
    exists (q :: l). split; [by apply sublist_skip|]. by rewrite HV, E, addRules_app.
  - intros [= <- <-]. exists []. rewrite addRules_nil. split; [apply sublist_nil_l|done].
Qed.

(** The rules, and then the restriction. *)
Lemma ruleBody_effect fd confDir mask ps w w' r : is_Some (vRulesets (view_of w) !! fd) ->
  (_ ← (if bool_decide (confDir = []) then mret () else addRule fd confDir readAccess);
   _ ← addWritePaths fd mask ps;
   _ ← call sysNoNewPrivs errPrctl;
   call (sysRestrictSelf fd) errRestrict) w = (w', r) ->
  match r with
  | Ok _ => exists present, present `sublist_of` ps /\
      let v := addRules fd ((if bool_decide (confDir = []) then [] else [(confDir, readAccess)]) ++
                            ((fun q => (q, mask)) <$> present)) (view_of w) in
      exists R, vRulesets v !! fd = Some R /\ view_of w' = restrict self R v
  | Err _ => exists new, view_of w' = addRules fd new (view_of w)
  end.
Proof.
  intros HR. unfold mbind, D_bind.
  destruct ((if bool_decide (confDir = []) then mret () else addRule fd confDir readAccess) w) as [w1 r1] eqn:E1.
  assert (view_of w1 = match r1 with
    | Ok _ => addRules fd (if bool_decide (confDir = []) then [] else [(confDir, readAccess)]) (view_of w)
    | Err _ => view_of w end) as V1.
  { case_bool_decide; [injection E1 as <- <-; by rewrite addRules_nil|]. by apply addRule_effect in E1. }
  destruct r1 as [[]|e]; [|intros [= <- <-]; exists []; by rewrite addRules_nil].
  destruct (addWritePaths fd mask ps w1) as [w2 r2] eqn:E2.
  apply addWritePaths_effect in E2 as (present & Hp & V2); [|rewrite V1; by apply addRules_lookup].
  rewrite V1, addRules_app in V2. destruct r2 as [[]|e]; [|intros [= <- <-]; eauto].
  unfold call. pose proof (prctl_spec w2) as V3. destruct (sysNoNewPrivs w2) as [w3 [[]|e]]; cbn [err_map fst] in *;
    [|intros [= <- <-]; rewrite V3; eauto].
  destruct (sysRestrictSelf fd w3) as [w4 r4] eqn:E4. apply restrict_spec in E4. intros [= <- <-].
  rewrite V3, V2 in E4. destruct r4 as [[]|e]; cbn [err_map]; [|eauto]. exists present. by split.
Qed.

(** What is left once the ruleset's descriptor is closed. *)
Lemma closed_rules fd w w1 new : view_of w1 = setRulesets (<[fd := MkRuleset (access (abiVersion w)) []]> (vRulesets (view_of w))) (view_of w) ->
  vRulesets (view_of w) !! fd = None -> vPaths (view_of w) !! fd = None ->
  let v := addRules fd new (view_of w1) in
  setPaths (delete fd (vPaths v)) (setRulesets (delete fd (vRulesets v)) v) = view_of w.
Proof.
  intros V1 H1 H2. cbv zeta. rewrite V1. unfold addRules. cbn. unfold setPaths, setRulesets. cbn. rewrite (delete_id (vPaths _)) by done.
  assert (forall f m, delete fd (alter f fd (<[fd := m]> (vRulesets (view_of w)))) = vRulesets (view_of w)) as Hd.
  { intros f m. apply map_eq. intros i. destruct (decide (i = fd)) as [->|Hi]; [by rewrite lookup_delete_eq|].
    by rewrite lookup_delete_ne, lookup_alter_ne, lookup_insert_ne. }
  rewrite Hd. by destruct (view_of w).
Qed.

(** [applyLandlock] either fails and changes nothing, or puts the calling
    thread under one more ruleset; no descriptor stays open. *)
Lemma applyLandlock_effect confDir ps w w' r : applyLandlock confDir ps w = (w', r) ->
  match r with
  | Ok _ => exists present, present `sublist_of` ps /\
      view_of w' = restrict self (policy (abiVersion w) confDir present) (view_of w)
  | Err _ => view_of w' = view_of w
  end.
Proof.
  unfold applyLandlock. destruct (_ =? 0); [by intros [= <- <-]|].
  unfold mbind at 1, D_bind at 1, call at 1.
  destruct (sysCreateRuleset _ w) as [w1 [fd|e]] eqn:E1; apply create_spec in E1; cbn [err_map]; [|by intros [= <- <-]].
  destruct E1 as (Hf1 & Hf2 & V1). unfold closing.
  assert (is_Some (vRulesets (view_of w1) !! fd)) as HR by (rewrite V1; cbn; rewrite lookup_insert_eq; eauto).
  match goal with |- (let '(_, _) := ?m in _) = _ -> _ => destruct m as [w2 r2] eqn:E2 end. intros [= <- <-]. rewrite close_spec.
  apply ruleBody_effect in E2; [|done]. destruct r2 as [[]|e].
  - destruct E2 as (present & Hp & R & HR2 & V2). exists present. split; [done|].
    rewrite V2. unfold addRules in HR2. cbn in HR2. rewrite V1 in HR2. cbn in HR2.
    rewrite lookup_alter_eq, lookup_insert_eq in HR2. injection HR2 as <-.
    match goal with |- context [addRules fd ?new _] => rewrite <- (closed_rules fd w w1 new V1 Hf1 Hf2) end. reflexivity.
  - destruct E2 as (new & ->). by apply (closed_rules fd w w1 new V1 Hf1 Hf2).
Qed.

Lemma chdir_effect opts w w' r :
  (if bool_decide (OConfDir opts = []) then mret () else call (sysChdir (OConfDir opts)) (errChdir (OConfDir opts))) w = (w', r) ->
  view_of w' = match r with
               | Ok _ => if bool_decide (OConfDir opts = []) then view_of w else setCwd (OConfDir opts) (view_of w)
               | Err _ => view_of w end.
Proof.
  case_bool_decide; [by intros [= <- <-]|]. unfold call.
  destruct (sysChdir _ w) as [w1 r1] eqn:E. apply chdir_spec in E. intros [= <- <-]. by destruct r1.
Qed.

Lemma setuidTo_effect name w w' : setuidTo name w = (w', Ok ()) ->
  exists u g uid gid, sysLookupUser name w = Ok (u, g) /\ Atoi u = Ok uid /\ Atoi g = Ok gid /\
    view_of w' = setIds gid uid (view_of w).
Proof.
  unfold setuidTo. destruct (sysLookupUser name w) as [[u g]|e] eqn:E; [|done].
  destruct (Atoi u) as [uid|] eqn:Eu; [|done]. destruct (Atoi g) as [gid|] eqn:Eg; [|done].
  unfold mbind, D_bind, call. destruct (sysSetgid gid w) as [w1 [[]|e]] eqn:E1; [|done]. apply setgid_spec in E1. cbn [err_map].
  destruct (sysSetuid uid w1) as [w2 [[]|e]] eqn:E2; [|done]. apply setuid_spec in E2. intros [= <-].
  exists u, g, uid, gid. split_and!; [done..|]. rewrite E2, E1. by destruct (view_of w).
Qed.

(** What a level does before the ids are dropped. *)
Definition confined (opts : Options) (abi : Z) (present : list gostring) (v : view) : view :=
  let v := if bool_decide (OLevel opts = LevelHigh) then restrict self (policy abi (OConfDir opts) present) v else v in
  if bool_decide (OConfDir opts = []) then v else setCwd (OConfDir opts) v.

Lemma Apply_effect opts w w' : OLevel opts <> LevelOff -> Apply opts w = (w', Ok ()) ->
  exists w1 present, present `sublist_of` OWritePaths opts /\ view_of w1 = confined opts (abiVersion w) present (view_of w) /\
    (if bool_decide (OUser opts = []) then mret () else setuidTo (OUser opts)) w1 = (w', Ok ()).
Proof.
  intros Hl. unfold Apply. rewrite bool_decide_eq_false_2 by done. unfold mbind, D_bind.
  destruct ((if bool_decide (OLevel opts = LevelHigh) then applyLandlock (OConfDir opts) (OWritePaths opts) else mret ()) w) as [w1 [[]|e]] eqn:E1; [|done].
  destruct ((if bool_decide (OConfDir opts = []) then mret () else call (sysChdir (OConfDir opts)) (errChdir (OConfDir opts))) w1) as [w2 [[]|e]] eqn:E2; [|done].
  apply chdir_effect in E2. intros E3. destruct (decide (OLevel opts = LevelHigh)) as [Hh|Hh].
  - rewrite bool_decide_eq_true_2 in E1 by done. apply applyLandlock_effect in E1 as (present & Hp & V1). exists w2, present. split_and!; [done| |done].
    rewrite E2, V1. unfold confined. by rewrite (bool_decide_eq_true_2 _ Hh).
  - rewrite bool_decide_eq_false_2 in E1 by done. injection E1 as <-. exists w2, []. split_and!; [apply sublist_nil_l| |done].
    rewrite E2. unfold confined. by rewrite (bool_decide_eq_false_2 _ Hh).
Qed.

(** The domains after a level that succeeded. *)
Lemma Apply_domains opts w w' : OLevel opts <> LevelOff -> Apply opts w = (w', Ok ()) ->
  exists present, present `sublist_of` OWritePaths opts /\
    vDomains (view_of w') = vDomains (confined opts (abiVersion w) present (view_of w)).
Proof.
  intros Hl (w1 & present & Hp & V1 & E)%Apply_effect; [|done]. exists present. split; [done|].
  rewrite <- V1. case_bool_decide; [by injection E as <-|].
  apply setuidTo_effect in E as (?&?&?&?&?&?&?& ->). by destruct (view_of w1).
Qed.

Lemma confined_high opts abi present v : OLevel opts = LevelHigh ->
  vDomains (confined opts abi present v)
  = <[self := policy abi (OConfDir opts) present :: domainOf v self]> (vDomains v).
Proof. intros Hl. unfold confined. rewrite (bool_decide_eq_true_2 _ Hl). by destruct (bool_decide (OConfDir opts = [])). Qed.

(** Rights that the ruleset handles for every ABI, and what its rules grant. *)
Definition createRights : list Z :=
  [ACCESS_FS_EXECUTE; ACCESS_FS_REMOVE_DIR; ACCESS_FS_MAKE_CHAR; ACCESS_FS_MAKE_DIR; ACCESS_FS_MAKE_SOCK;
   ACCESS_FS_MAKE_FIFO; ACCESS_FS_MAKE_BLOCK; ACCESS_FS_MAKE_SYM].
Definition writeRights : list Z := [ACCESS_FS_WRITE_FILE; ACCESS_FS_MAKE_REG; ACCESS_FS_REMOVE_FILE].
Definition readRights : list Z := [ACCESS_FS_READ_FILE; ACCESS_FS_READ_DIR].

Ltac abi_cases abi := unfold access, writeAccess; destruct (abi >=? 2), (abi >=? 3).

Lemma handled_rights abi right : right ∈ createRights ++ writeRights ++ readRights -> Z.land (access abi) right <> 0.
Proof.
  revert right. apply Forall_forall. abi_cases abi; apply (bool_decide_unpack _); vm_compute; exact I.
Qed.

Lemma writeAccess_create abi right : right ∈ createRights -> Z.land (writeAccess abi) right = 0.
Proof. revert right. apply Forall_forall. abi_cases abi; apply (bool_decide_unpack _); vm_compute; exact I. Qed.

Lemma readAccess_others right : right ∈ createRights ++ writeRights -> Z.land readAccess right = 0.
Proof. revert right. apply Forall_forall. apply (bool_decide_unpack _); vm_compute; exact I. Qed.

Lemma grants_policy abi confDir present p right : Z.land (access abi) right <> 0 ->
  grants (policy abi confDir present) p right = true <->
  (confDir <> [] /\ beneath confDir p /\ Z.land readAccess right <> 0) \/
  (Z.land (writeAccess abi) right <> 0 /\ exists q, q ∈ present /\ beneath q p).
Proof.
  intros Hh. unfold grants, policy. cbn [handled rules]. rewrite (proj2 (Z.eqb_neq _ _) Hh). cbn [orb].
  rewrite existsb_app, orb_true_iff. apply Morphisms_Prop.or_iff_morphism.
  - case_bool_decide; cbn; [naive_solver|]. rewrite orb_false_r, andb_true_iff, bool_decide_eq_true, negb_true_iff, Z.eqb_neq. naive_solver.
  - rewrite existsb_exists. split.
    + intros (qm & Hin & [Hb Hm]%andb_true_iff). apply list_elem_of_In, list_elem_of_fmap in Hin as (q & -> & Hq).
      cbn in *. apply bool_decide_eq_true in Hb. apply negb_true_iff, Z.eqb_neq in Hm. eauto.
    + intros (Hm & q & Hq & Hb). exists (q, writeAccess abi). rewrite <- list_elem_of_In. split; [apply list_elem_of_fmap; eauto|].
      cbn. rewrite andb_true_iff, bool_decide_eq_true, negb_true_iff, Z.eqb_neq. done.
Qed.

(** ** Theorems *)

(** The rights that exist in an ABI of Landlock (up to the third). *)
Definition knownRights (abi : Z) : Z := if abi >=? 3 then Z.ones 15 else if abi >=? 2 then Z.ones 14 else Z.ones 13.

(** Masks.  Whatever ABI the kernel reports, the handled mask holds exactly
    the rights that ABI knows (so the kernel has no unknown bit to reject),
    every right that a rule grants is a handled one, a read rule grants less
    than a write rule, and all of them fit the 64-bit fields they are stored
    in. *)
Theorem masks_within_abi abi :
  access abi = knownRights abi /\
  Z.land (writeAccess abi) (access abi) = writeAccess abi /\
  Z.land readAccess (writeAccess abi) = readAccess /\
  0 <= readAccess < 2 ^ 64 /\ 0 <= writeAccess abi < 2 ^ 64 /\ 0 <= access abi < 2 ^ 64.
Proof.
  unfold access, writeAccess, knownRights. destruct (abi >=? 2) eqn:E2, (abi >=? 3) eqn:E3; try lia;
    vm_compute; repeat split; discriminate.
Qed.

Lemma policy_sound abi confDir present p right :
  grants (policy abi confDir present) p right = true ->
  (right ∉ createRights) /\
  (right ∈ writeRights -> exists q, q ∈ present /\ beneath q p) /\
  (right ∈ readRights -> (confDir <> [] /\ beneath confDir p) \/ exists q, q ∈ present /\ beneath q p).
Proof.
  intros Hg. split_and!.
  - intros Hc. apply grants_policy in Hg; [|apply handled_rights, elem_of_app; by left].
    rewrite writeAccess_create, readAccess_others in Hg by (done || (apply elem_of_app; by left)). naive_solver.
  - intros Hw. apply grants_policy in Hg; [|apply handled_rights; set_solver].
    rewrite readAccess_others in Hg by set_solver. naive_solver.
  - intros Hr. apply grants_policy in Hg; [|apply handled_rights; set_solver]. naive_solver.
Qed.

(** C22.  Confinement.  When level high succeeds, the calling thread can from then
    on execute nothing, and make no directory, socket, device, pipe or
    symbolic link anywhere; what it creates, writes or removes lies under a
    write path; and what it reads lies under the configuration directory or a
    write path (for absolute paths without symbolic links, see [beneath]).  If it was not confined before, it can still read all of the
    configuration directory.  The other threads of the process are not
    confined at all: they keep exactly the rights they had. *)
Theorem high_confines opts w w' : OLevel opts = LevelHigh -> Apply opts w = (w', Ok ()) ->
  let may := mayAccess (view_of w') in
  (forall p right, right ∈ createRights -> may self p right = false) /\
  (forall p right, right ∈ writeRights -> may self p right = true -> exists q, q ∈ OWritePaths opts /\ beneath q p) /\
  (forall p right, right ∈ readRights -> may self p right = true ->
     (OConfDir opts <> [] /\ beneath (OConfDir opts) p) \/ exists q, q ∈ OWritePaths opts /\ beneath q p) /\
  (forall p right, right ∈ readRights -> domainOf (view_of w) self = [] -> OConfDir opts <> [] ->
     beneath (OConfDir opts) p -> may self p right = true) /\
  (forall t p right, t <> self -> may t p right = mayAccess (view_of w) t p right).
Proof.
  intros Hl (present & Hp & HD)%Apply_domains; [|by rewrite Hl]. rewrite confined_high in HD by done. cbv zeta.
  assert (forall p right, mayAccess (view_of w') self p right
    = grants (policy (abiVersion w) (OConfDir opts) present) p right && mayAccess (view_of w) self p right) as Hself.
  { intros p right. unfold mayAccess, domainOf at 1. rewrite HD, lookup_insert_eq. done. }
  assert (forall q, q ∈ present -> q ∈ OWritePaths opts) as Hsub by (intros q Hq; exact (elem_of_sublist _ _ _ Hq Hp)).
  split_and!.
  - intros p right Hr. rewrite Hself. apply andb_false_iff. left. apply not_true_iff_false. intros Hg.
    by apply policy_sound in Hg as (Hn & _).
  - intros p right Hr. rewrite Hself. intros [Hg _]%andb_true_iff. apply policy_sound in Hg as (_ & Hw & _). naive_solver.
  - intros p right Hr. rewrite Hself. intros [Hg _]%andb_true_iff. apply policy_sound in Hg as (_ & _ & Hrd). naive_solver.
  - intros p right Hr Hd Hc Hb. rewrite Hself. unfold mayAccess at 1. rewrite Hd. rewrite andb_true_r.
    apply grants_policy; [apply handled_rights; set_solver|]. left. split_and!; [done..|].
    revert right Hr. apply Forall_forall. apply (bool_decide_unpack _). vm_compute. exact I.
  - intros t p right Ht. unfold mayAccess, domainOf. by rewrite HD, lookup_insert_ne by done.
Qed.

(** Dropping privileges.  Level off touches nothing.  Any other level that
    succeeds with a user set leaves the process with that user's id and group
    id, in the configuration directory, with no descriptor left open; its
    supplementary groups are the ones it had. *)
Theorem Apply_drops_ids opts w w' : Apply opts w = (w', Ok ()) ->
  (OLevel opts = LevelOff -> w' = w) /\
  (OLevel opts <> LevelOff -> OUser opts <> [] -> exists w1 u g uid gid,
     sysLookupUser (OUser opts) w1 = Ok (u, g) /\ Atoi u = Ok uid /\ Atoi g = Ok gid /\
     vUid (view_of w') = uid /\ vGid (view_of w') = gid /\ vGroups (view_of w') = vGroups (view_of w) /\
     (OConfDir opts <> [] -> vCwd (view_of w') = OConfDir opts) /\
     vRulesets (view_of w') = vRulesets (view_of w) /\ vPaths (view_of w') = vPaths (view_of w)).
Proof.
  intros HA. split.
  - intros Hl. unfold Apply in HA. rewrite bool_decide_eq_true_2 in HA by done. by injection HA as <-.
  - intros Hl Hu. apply Apply_effect in HA as (w1 & present & _ & V1 & E); [|done].
    rewrite bool_decide_eq_false_2 in E by done.
    apply setuidTo_effect in E as (u & g & uid & gid & Hlk & Eu & Eg & V2). exists w1, u, g, uid, gid.
    rewrite V2, V1. split_and!; try done; unfold confined, restrict;
      destruct (bool_decide (OLevel opts = LevelHigh)); case_bool_decide; done.
Qed.

Definition passwd : gostring := !"/etc/passwd".

(** Level high with a user cannot succeed where looking up a user reads
    /etc/passwd and no allowed path is above that file: the ruleset is in
    force before the lookup, which it denies.  The daemon then refuses to
    start. *)
Theorem high_user_fails opts w :
  (forall name w, mayAccess (view_of w) self passwd ACCESS_FS_READ_FILE = false -> is_ok (sysLookupUser name w) = false) ->
  OLevel opts = LevelHigh -> OUser opts <> [] ->
  Forall (fun q => ~ beneath q passwd) (OConfDir opts :: OWritePaths opts) ->
  is_ok (Apply opts w).2 = false.
Proof.
  intros Hlk Hl Hu [Hc Hq]%Forall_cons. destruct (Apply opts w) as [w' [[]|e]] eqn:E; [exfalso|done].
  apply Apply_effect in E as (w1 & present & Hp & V1 & E); [|by rewrite Hl].
  rewrite bool_decide_eq_false_2 in E by done. apply setuidTo_effect in E as (u & g & uid & gid & E & _).
  specialize (Hlk (OUser opts) w1). rewrite E in Hlk. enough (mayAccess (view_of w1) self passwd ACCESS_FS_READ_FILE = false) as Hno by (specialize (Hlk Hno); discriminate Hlk).
  unfold mayAccess, domainOf. rewrite V1, confined_high, lookup_insert_eq by done. cbn [default forallb].
  apply andb_false_iff. left. apply not_true_iff_false. intros (_ & _ & Hg)%policy_sound.
  destruct Hg as [[_ Hb]|(q & Hin & Hb)]; [apply list_elem_of_here|done|].
  rewrite Forall_forall in Hq. exact (Hq q (elem_of_sublist _ _ _ Hin Hp) Hb).
Qed.

Lemma InvitationsDir_not_above p name : plain name -> ~ beneath (InvitationsDir p) (HostFile p name).
Proof.
  intros Hn [_ [l Hl]]. rewrite join.stack_HostFile in Hl by done. unfold InvitationsDir in Hl.
  destruct (stackOf_Join (NetDir p) !"invitations" join.plain_invitations) as [Es _]. rewrite Es in Hl.
  assert (l = [name]) as ->.
  { apply (f_equal length) in Hl as HL. rewrite length_app in HL. cbn [length] in HL. destruct l as [|x [|y l]]; cbn [length] in HL; [lia| |lia].
    by injection Hl as <-. }
  by injection Hl.
Qed.

(** Level high and invitations.  A daemon that started under level high can no
    longer take anyone in: the thread that applied the sandbox may neither
    create nor write the host file of an invitee, because only the run
    directory and the invitations directory are writable.  A join therefore
    ends at the host file, with the invitation still in place. *)
Theorem high_blocks_join `{Unicode} conf p runDir w w' name :
  default [] (config.GetFirst conf !"Sandbox") = !"high" ->
  applySandbox conf p runDir w = (w', Ok ()) ->
  plain name -> ~ beneath runDir (HostFile p name) ->
  forall right, right ∈ writeRights -> mayAccess (view_of w') self (HostFile p name) right = false.
Proof.
  intros Hs HA Hn Hr right Hin. unfold applySandbox in HA. rewrite Hs in HA.
  replace (ParseLevel (ToLower !"high")) with (Ok (E := gostring) LevelHigh) in HA
    by (rewrite ToLower_ascii by (apply (bool_decide_unpack _); vm_compute; exact I); reflexivity).
  apply Apply_domains in HA as (present & Hp & HD); [|done]. rewrite confined_high in HD by done.
  unfold mayAccess, domainOf. rewrite HD, lookup_insert_eq. cbn [default forallb].
  apply andb_false_iff. left. apply not_true_iff_false. intros (_ & Hw & _)%policy_sound.
  destruct (Hw Hin) as (q & Hq & Hb). pose proof (elem_of_sublist _ _ _ Hq Hp) as Hq2. cbn [OWritePaths] in Hq2.
  apply elem_of_cons in Hq2 as [-> |Hq2]; [done|]. apply list_elem_of_singleton in Hq2 as ->.
  by apply (InvitationsDir_not_above p name Hn).
Qed.
End spec.

(** ** A system that behaves as documented *)
Module demo.
Definition fresh_fd (v : view) : Z := fresh (dom (vRulesets v) ∪ dom (vPaths v) : gset Z).

Definition toyAdd (rs mask fd : Z) (v : view) : view * result unit unit :=
  match vRulesets v !! rs, vPaths v !! fd with
  | Some R, Some q => (setRulesets (<[rs := MkRuleset (handled R) (rules R ++ [(q, mask)])]> (vRulesets v)) v, Ok ())
  | _, _ => (v, Err ())
  end.

Definition toyRestrict (rs : Z) (v : view) : view * result unit unit :=
  match vRulesets v !! rs with Some R => (restrict 0 R v, Ok ()) | None => (v, Err ()) end.

Definition toyLookup (name : gostring) (v : view) : result unit (gostring * gostring) :=
  if mayAccess v 0 passwd ACCESS_FS_READ_FILE && bool_decide (name = !"gsnet") then Ok (!"1000", !"1000") else Err ().

#[global] Instance toyOS : OS := {
  W := view; errno := unit;
  sysAbiVersion := fun _ => Ok 3;
  sysCreateRuleset := fun m v => (setRulesets (<[fresh_fd v := MkRuleset m []]> (vRulesets v)) v, Ok (fresh_fd v));
  sysOpenPath := fun q v => (setPaths (<[fresh_fd v := q]> (vPaths v)) v, Ok (fresh_fd v));
  sysAddRule := toyAdd;
  sysClose := fun fd v => setPaths (delete fd (vPaths v)) (setRulesets (delete fd (vRulesets v)) v);
  sysMissing := fun _ _ => false;
  sysNoNewPrivs := fun v => (v, Ok ());
  sysRestrictSelf := toyRestrict;
  sysChdir := fun q v => (setCwd q v, Ok ());
  sysLookupUser := toyLookup;
  sysSetgid := fun g v => (setIds g (vUid v) v, Ok ());
  sysSetuid := fun u v => (setIds (vGid v) u v, Ok ())
}.

#[refine, global] Instance toySpec : OSSpec := { view_of := fun v : view => v; self := 0%nat }.
Proof.
  1-2: intros x w w' r [= <- <-]; pose proof (is_fresh (dom (vRulesets w) ∪ dom (vPaths w) : gset Z)) as Hf;
    rewrite not_elem_of_union, !not_elem_of_dom in Hf; by destruct Hf.
  - intros rs mask fd w w' r. cbn. unfold toyAdd. destruct (_ !! rs) eqn:E1; [destruct (_ !! fd) eqn:E2|]; intros [= <- <-]; eauto 6.
  - done.
  - done.
  - intros rs w w' r. cbn. unfold toyRestrict. destruct (_ !! rs) eqn:E1; intros [= <- <-]; eauto.
  - by intros q w w' r [= <- <-].
  - by intros q w w' r [= <- <-].
  - by intros q w w' r [= <- <-].
Defined.

(** Two threads; the first one starts the sandbox. *)
Definition start : @W toyOS := MkView ∅ ∅ ∅ !"/" 0 0 [0].
Definition p : Paths := MkPaths !"/etc/gsnet" !"vpn".
Definition highOpts (user : gostring) : Options := MkOptions LevelHigh user (NetDir p) [!"/run/gsnet"; InvitationsDir p].
Definition normalOpts : Options := MkOptions LevelNormal !"gsnet" (NetDir p) [].
End demo.
Import demo.

Lemma ran_ok {A E} (x : A * result E unit) : is_ok x.2 = true -> x = (x.1, Ok ()).
Proof. destruct x as [a [[]|e]]; [done|]. intros H. discriminate H. Qed.

Lemma high_ok : Apply (highOpts []) start = ((Apply (highOpts []) start).1, Ok ()).
Proof. apply ran_ok. vm_compute. reflexivity. Qed.

Lemma normal_ok : Apply normalOpts start = ((Apply normalOpts start).1, Ok ()).
Proof. apply ran_ok. vm_compute. reflexivity. Qed.

Lemma high_confines_witness :
  let may := mayAccess (view_of (Apply (highOpts []) start).1) in
  may 0%nat !"/etc/gsnet/vpn/gsnet-down" ACCESS_FS_EXECUTE = false /\
  may 0%nat !"/etc/gsnet/vpn/gsnet.conf" ACCESS_FS_READ_FILE = true /\
  may 1%nat !"/bin/sh" ACCESS_FS_WRITE_FILE = true.
Proof.
  destruct (high_confines (highOpts []) start (Apply (highOpts []) start).1 eq_refl high_ok)
    as (H1 & _ & _ & H4 & H5).
  split_and!; [apply H1|apply H4|rewrite H5 by done; reflexivity]; try reflexivity;
    [apply list_elem_of_here|apply list_elem_of_here|discriminate|apply (bool_decide_unpack _); vm_compute; exact I].
Defined.

Lemma Apply_drops_ids_witness :
  vUid (view_of (Apply normalOpts start).1) = 1000 /\ vGroups (view_of (Apply normalOpts start).1) = [0].
Proof.
  destruct (Apply_drops_ids normalOpts start (Apply normalOpts start).1 normal_ok) as [_ Hd].
  destruct Hd as (w1 & u & g & uid & gid & Hl & Eu & Eg & E1 & E2 & E3 & _); [discriminate..|].
  split; [|by rewrite E3]. rewrite E1. cbn in Hl. unfold toyLookup in Hl. case_match; [|done].
  injection Hl as <- <-. vm_compute in Eu. congruence.
Defined.

Lemma high_user_fails_witness : is_ok (Apply (highOpts !"gsnet") start).2 = false.
Proof.
  apply (high_user_fails (highOpts !"gsnet") start); [|reflexivity|discriminate|].
  - intros name w Hw. cbn. unfold toyLookup. change (mayAccess w 0 passwd ACCESS_FS_READ_FILE = false) in Hw. by rewrite Hw.
  - apply (bool_decide_unpack _). vm_compute. exact I.
Defined.

Lemma high_conf_ok :
  let conf := [config.MkEntry !"Sandbox" !"high"] in
  applySandbox conf p !"/run/gsnet" start = ((applySandbox conf p !"/run/gsnet" start).1, Ok ()).
Proof. apply ran_ok. vm_compute. reflexivity. Qed.

Lemma high_blocks_join_witness :
  let conf := [config.MkEntry !"Sandbox" !"high"] in
  mayAccess (view_of (applySandbox conf p !"/run/gsnet" start).1) 0%nat (HostFile p !"bob") ACCESS_FS_MAKE_REG = false.
Proof.
  cbv zeta.
  refine (high_blocks_join [config.MkEntry !"Sandbox" !"high"] p !"/run/gsnet" start
    (applySandbox [config.MkEntry !"Sandbox" !"high"] p !"/run/gsnet" start).1 !"bob" _ high_conf_ok _ _ ACCESS_FS_MAKE_REG _);
    [reflexivity|join.plain_lit| |].
  - apply (bool_decide_unpack _). vm_compute. exact I.
  - apply list_elem_of_further, list_elem_of_here.
Defined.
End sandbox.
