(* ===== verification/DaemonInit.v ===== *)
(** * Creating and checking a configuration tree
      (internal/daemon/init.go, internal/daemon/fsck.go)

    [Init] with its partial effects (what was created before an error stays),
    and [Fsck] with its findings; a finding is represented by what it reports,
    its text is in [Report]. *)

From Stdlib Require Import Ascii String ZArith Lia.
From stdpp Require Import base tactics list gmap strings.
From S2P Require Import Prelude.
From S2P Require Import GoStrings.
From S2P Require Import NodeName.
From S2P Require Import FS.
From S2P Require Import FilePath.
From S2P Require Import NetIP.
From S2P Require Import Config.
From S2P Require Import Subnet.
From S2P Require Import Base64.
From S2P Require Import Keys.
From S2P Require Import Transport.
From S2P Require Import Dataplane.
From S2P Require Import Daemon.

Local Open Scope Z_scope.

Module init.
Import paths pathlib.

Inductive error := errName (e : nodename.error) | errKeys (e : keys.error) | errOS (e : osError).

Definition writeFileExclusive (fs : FS) (path : gostring) (data : bytes) (mode : Z) : FS * result error unit :=
  match os.MkdirAll fs (filepath.Dir path) with
  | Err e => (fs, Err (errOS e))
  | Ok fs =>
      match os.CreateExclusive fs path data mode with
      | Err e => (fs, Err (errOS e))
      | Ok fs => (fs, Ok ())
      end
  end.

(** State and error over the file system. *)
Definition M (A : Type) : Type := FS -> FS * result error A.
#[global] Instance M_ret : MRet M := fun A a fs => (fs, Ok a).
#[global] Instance M_bind : MBind M := fun A B f m fs =>
  match m fs with (fs', Ok a) => f a fs' | (fs', Err e) => (fs', Err e) end.

Definition lift {A} (r : result error A) : M A := fun fs => (fs, r).
Definition mkdirAll (path : gostring) : M unit := fun fs =>
  match os.MkdirAll fs path with Ok fs' => (fs', Ok ()) | Err e => (fs, Err (errOS e)) end.
Definition create (path : gostring) (data : bytes) (mode : Z) : M unit := fun fs =>
  writeFileExclusive fs path data mode.

Section init.
Context `{Unicode, Ed25519, X509, WGTypes}.

Definition confText (name : gostring) : bytes := config.Render [config.MkEntry !"Name" name].
Definition hostText (edPriv : keys.Ed25519Private) (wgPriv : keys.WGPrivate) : bytes :=
  config.Render [config.MkEntry !"Ed25519PublicKey" (keys.String (keys.Public edPriv));
                 config.MkEntry !"WGPublicKey" (keys.WGPublicString (keys.WGPublicOf wgPriv))].

(** [genEd] and [genWG] are what the key generators of the libraries return. *)
Definition Init (p : Paths) (name : gostring) (genEd genWG : option bytes) : M unit :=
  _ ← lift (err_map errName (nodename.Validate name));
  _ ← mkdirAll (HostsDir p);
  _ ← mkdirAll (InvitationsDir p);
  edPriv ← lift (err_map errKeys (keys.GenerateEd25519 genEd));
  edPEM ← lift (err_map errKeys (keys.MarshalPrivatePEM edPriv));
  _ ← create (Ed25519Private p) edPEM 384;
  wgPriv ← lift (err_map errKeys (keys.GenerateWireGuard genWG));
  _ ← create (WGPrivate p) (keys.WGPrivateString wgPriv ++ [nl]) 384;
  _ ← create (ConfFile p) (confText name) 420;
  create (HostFile p name) (hostText edPriv wgPriv) 420.
End init.
End init.

Module fsck.
Import paths.

Inductive FsckLevel := FsckOK | FsckWarning | FsckError.

Inductive message :=
| CannotStat (e : osError) | FoundDirectory | ParseFailed (e : config.error) | NameRequired
| NameInvalid (e : nodename.error) | SubnetInvalid (s : gostring) (e : subnet.error)
| KeyMissing (label : gostring) (e : osError) | KeyLoose (label : gostring) (perm : Z)
| KeyRead (label : gostring) (e : osError) | KeyParse (label : gostring) (e : keys.error)
| HostMissing (e : osError) | Ed25519Mismatch | WGMismatch
| ConnectToInvalid (target : gostring) (e : nodename.error) | ConnectToMissing (target : gostring).

Record FsckFinding := MkFinding { Level : FsckLevel; Path : gostring; Message : message }.

Section fsck.
Context `{Unicode, Ed25519, X509, WGTypes}.

(** Directories are created with mode 0700. *)
Definition permOf (st : os.FileInfo) : Z := match st with os.IsDir => 448 | os.IsFile m => m end.

Definition checkPrivateKey (fs : FS) (path label : gostring) (parse : bytes -> option keys.error) : list FsckFinding :=
  match os.Stat fs path with
  | Err e => [MkFinding FsckError path (KeyMissing label e)]
  | Ok st =>
      (if Z.land (permOf st) 63 =? 0 then [] else [MkFinding FsckWarning path (KeyLoose label (permOf st))]) ++
      match os.ReadFile fs path with
      | Err e => [MkFinding FsckError path (KeyRead label e)]
      | Ok b => match parse b with
                | Some e => [MkFinding FsckError path (KeyParse label e)]
                | None => []
                end
      end
  end.

Definition errOf {E A} (r : result E A) : option E := match r with Ok _ => None | Err e => Some e end.

Definition checkHostMatchesPrivate (fs : FS) (hostPath : gostring) (hostEntries : list config.Entry)
    (edPath wgPath : gostring) : list FsckFinding :=
  match ok (os.ReadFile fs edPath) ≫= (fun b => ok (keys.ParseEd25519PrivatePEM b)) with
  | Some priv =>
      if bool_decide (TrimSpace (default [] (config.GetFirst hostEntries !"Ed25519PublicKey")) = keys.String (keys.Public priv))
      then [] else [MkFinding FsckError hostPath Ed25519Mismatch]
  | None => []
  end ++
  match ok (os.ReadFile fs wgPath) ≫= (fun b => ok (keys.ParseWireGuardPrivate (TrimSpace b))) with
  | Some priv =>
      if bool_decide (TrimSpace (default [] (config.GetFirst hostEntries !"WGPublicKey")) = keys.WGPublicString (keys.WGPublicOf priv))
      then [] else [MkFinding FsckError hostPath WGMismatch]
  | None => []
  end.

Definition checkName (confPath : gostring) (name : option gostring) : list FsckFinding :=
  match name with
  | None => [MkFinding FsckError confPath NameRequired]
  | Some n => match nodename.Validate n with
              | Err e => [MkFinding FsckError confPath (NameInvalid e)]
              | Ok _ => []
              end
  end.

Definition checkSubnets (confPath : gostring) (subs : list gostring) : list FsckFinding :=
  subs ≫= (fun s => match subnet.Parse s with
                    | Err e => [MkFinding FsckError confPath (SubnetInvalid s e)]
                    | Ok _ => []
                    end).

Definition checkHost (fs : FS) (p : Paths) (name : gostring) : list FsckFinding :=
  if bool_decide (name = []) then []
  else match os.ReadFile fs (HostFile p name) with
       | Err e => [MkFinding FsckError (HostFile p name) (HostMissing e)]
       | Ok b => match config.Parse b with
                 | Err e => [MkFinding FsckError (HostFile p name) (ParseFailed e)]
                 | Ok es => checkHostMatchesPrivate fs (HostFile p name) es (Ed25519Private p) (WGPrivate p)
                 end
       end.

Definition checkConnectTo (fs : FS) (p : Paths) (target : gostring) : list FsckFinding :=
  match nodename.Validate target with
  | Err e => [MkFinding FsckError (ConfFile p) (ConnectToInvalid target e)]
  | Ok _ => match os.Stat fs (filepath.Join [HostsDir p; target]) with
            | Err _ => [MkFinding FsckError (filepath.Join [HostsDir p; target]) (ConnectToMissing target)]
            | Ok _ => []
            end
  end.

Definition Fsck (fs : FS) (p : Paths) : list FsckFinding :=
  match os.Stat fs (ConfFile p) with
  | Err e => [MkFinding FsckError (ConfFile p) (CannotStat e)]
  | Ok os.IsDir => [MkFinding FsckError (ConfFile p) FoundDirectory]
  | Ok (os.IsFile _) =>
      match config.LoadDirectory fs (ConfFile p) with
      | Err e => [MkFinding FsckError (ConfFile p) (ParseFailed e)]
      | Ok entries =>
          let name := config.GetFirst entries !"Name" in
          checkName (ConfFile p) name
          ++ checkSubnets (ConfFile p) (config.GetAll entries !"Subnet")
          ++ checkPrivateKey fs (Ed25519Private p) !"Ed25519" (fun b => errOf (keys.ParseEd25519PrivatePEM b))
          ++ checkPrivateKey fs (WGPrivate p) !"WireGuard" (fun b => errOf (keys.ParseWireGuardPrivate (TrimSpace b)))
          ++ checkHost fs p (default [] name)
          ++ (config.GetAll entries !"ConnectTo" ≫= checkConnectTo fs p)
      end
  end.
End fsck.
End fsck.

(** ** Lemmas *)
Module init_lemmas.
Import paths pathlib init.

Lemma init_bind_ok {A B} (m : M A) (f : A -> M B) fs fs' b : (m ≫= f) fs = (fs', Ok b) ->
  exists fs1 a, m fs = (fs1, Ok a) /\ f a fs1 = (fs', Ok b).
Proof. unfold mbind, M_bind. destruct (m fs) as [fs1 [a|e]]; [eauto|done]. Qed.

(** Nothing that exists is overwritten, whether [Init] succeeds or not. *)
Definition keepsFiles {A} (m : M A) : Prop := forall fs q f, files fs !! q = Some f -> files (m fs).1 !! q = Some f.

Lemma keepsFiles_bind {A B} (m : M A) (f : A -> M B) : keepsFiles m -> (forall a, keepsFiles (f a)) -> keepsFiles (m ≫= f).
Proof.
  intros Hm Hf fs q x Hx. unfold mbind, M_bind. specialize (Hm fs q x Hx).
  destruct (m fs) as [fs1 [a|e]]; [by apply Hf|done].
Qed.

Lemma keepsFiles_lift {A} (r : result error A) : keepsFiles (lift r).
Proof. intros fs q f Hx. exact Hx. Qed.

Lemma keepsFiles_mkdirAll q : keepsFiles (mkdirAll q).
Proof.
  intros fs x f Hx. unfold mkdirAll. destruct (os.MkdirAll fs q) as [fs'|] eqn:E; [|done].
  apply files_MkdirAll in E as [E _]. cbn. by rewrite E.
Qed.

Lemma keepsFiles_create path data m : keepsFiles (create path data m).
Proof.
  intros fs x f Hx. unfold create, writeFileExclusive.
  destruct (os.MkdirAll fs _) as [fs1|] eqn:E; [|done]. apply files_MkdirAll in E as [E _].
  destruct (os.CreateExclusive fs1 path data m) as [fs2|] eqn:Ec; [|cbn; by rewrite E].
  apply CreateExclusive_Ok in Ec as (Hn & Hf & _). cbn. rewrite Hf, lookup_insert_ne, E; [done|].
  intros ->. congruence.
Qed.

(** What [MkdirAll] adds lies on the way to its argument. *)
Definition onlyDirs (qs : list gostring) (fs fs' : FS) : Prop :=
  forall d, d ∈ dirs fs' -> d ∈ dirs fs \/ exists q j, q ∈ qs /\ stackOf d = drop j (stackOf q).

Lemma MkdirAll_dirs fs q fs' : cleanPath q -> os.MkdirAll fs q = Ok fs' -> onlyDirs [q] fs fs'.
Proof.
  intros Hq. unfold os.MkdirAll. case_decide; [done|]. intros [= <-] d. cbn [dirs].
  rewrite elem_of_union, elem_of_list_to_set. intros [Hd|Hd]; [right|by left].
  apply ancestors_stack in Hd as [j Hj]; [|done]. exists q, j. set_solver.
Qed.

Lemma onlyDirs_trans qs1 qs2 fs1 fs2 fs3 : onlyDirs qs1 fs1 fs2 -> onlyDirs qs2 fs2 fs3 -> onlyDirs (qs1 ++ qs2) fs1 fs3.
Proof.
  intros H1 H2 d [Hd|(q & j & Hq & Hj)]%H2.
  - apply H1 in Hd as [?|(q & j & Hq & Hj)]; [by left|right; exists q, j; set_solver].
  - right. exists q, j. set_solver.
Qed.

Lemma mkdirAll_ok q fs fs' : cleanPath q -> mkdirAll q fs = (fs', Ok tt) ->
  files fs' = files fs /\ onlyDirs [q] fs fs'.
Proof.
  intros Hq. unfold mkdirAll. destruct (os.MkdirAll fs q) as [fs1|] eqn:E; [|done]. intros [= <-].
  split; [by apply files_MkdirAll in E as [? _]|by eapply MkdirAll_dirs].
Qed.

Lemma create_ok path data m fs fs' : create path data m fs = (fs', Ok tt) ->
  files fs !! path = None /\ files fs' = <[path := MkFile data m]> (files fs) /\ onlyDirs [filepath.Dir path] fs fs'.
Proof.
  unfold create, writeFileExclusive. destruct (os.MkdirAll fs _) as [fs1|] eqn:E; [|done].
  destruct (os.CreateExclusive fs1 path data m) as [fs2|] eqn:Ec; [|done]. intros [= <-].
  pose proof (MkdirAll_dirs _ _ _ (cleanPath_Dir path) E) as Hd. apply files_MkdirAll in E as [E _].
  apply CreateExclusive_Ok in Ec as (Hn & Hf & Hdirs). rewrite E in *. split_and!; [done|done|].
  unfold onlyDirs. by rewrite Hdirs.
Qed.

(** ** The files of a tree *)

Ltac plain_name := repeat split; try discriminate; apply (bool_decide_unpack _); vm_compute; exact I.

Lemma stack_file p (n : gostring) : plain n -> stackOf (filepath.Join [NetDir p; n]) = n :: stackOf (NetDir p).
Proof. intros Hn. by destruct (stackOf_Join (NetDir p) n Hn) as [-> _]. Qed.

Lemma stack_hosts p : stackOf (HostsDir p) = !"hosts" :: stackOf (NetDir p).
Proof. apply stack_file. plain_name. Qed.
Lemma stack_inv p : stackOf (InvitationsDir p) = !"invitations" :: stackOf (NetDir p).
Proof. apply stack_file. plain_name. Qed.
Lemma stack_ed p : stackOf (Ed25519Private p) = !"ed25519_key.priv" :: stackOf (NetDir p).
Proof. apply stack_file. plain_name. Qed.
Lemma stack_wg p : stackOf (WGPrivate p) = !"wg.priv" :: stackOf (NetDir p).
Proof. apply stack_file. plain_name. Qed.
Lemma stack_conf p : stackOf (ConfFile p) = !"gsnet.conf" :: stackOf (NetDir p).
Proof. apply stack_file. plain_name. Qed.
Lemma stack_host p n : plain n -> stackOf (HostFile p n) = n :: !"hosts" :: stackOf (NetDir p).
Proof. intros Hn. unfold HostFile. destruct (stackOf_Join (HostsDir p) n Hn) as [-> _]. by rewrite stack_hosts. Qed.

(** Where [LoadDirectory] looks for fragments. *)
Definition confD (p : Paths) : gostring := filepath.Join [filepath.Dir (ConfFile p); !"conf.d"].

Lemma stack_confD p : stackOf (confD p) = !"conf.d" :: stackOf (NetDir p).
Proof.
  unfold confD. assert (plain !"conf.d") as Hp by plain_name.
  destruct (stackOf_Join (filepath.Dir (ConfFile p)) !"conf.d" Hp) as [-> _].
  rewrite stackOf_Dir_clean by (by apply cleanPath_Join). by rewrite stack_conf.
Qed.

(** Different components, different paths. *)
Ltac apart := intros He; apply (f_equal stackOf) in He;
  rewrite ?stack_ed, ?stack_wg, ?stack_conf, ?stack_confD, ?stack_host in He by done;
  first [discriminate | apply (f_equal length) in He; simpl in He; lia].

Lemma plain_valid name : nodename.Validate name = Ok () -> plain name.
Proof.
  intros [Hne Hf]%nodename.Validate_ok.
  assert (forall c, c ∈ [slash; to_byte 46] -> c ∉ name) as Hno.
  { intros c Hc Hin. eapply Forall_forall in Hf; [|exact Hin]. revert Hf.
    assert (Forall (fun c => ~ nodename.nameByte c) [slash; to_byte 46]) as Hall
      by (apply (bool_decide_unpack _); vm_compute; exact I).
    by eapply Forall_forall in Hall. }
  split_and!; [done| | |apply Hno; set_solver]; intros ->; apply (Hno (to_byte 46)); [set_solver|left|set_solver|left].
Qed.

(** The textual form of a WireGuard key, as wgctrl documents it. *)
Class WGText `{WGTypes} := {
  wg_text : forall k, length k = 32%nat -> wg_string k = base64.EncodeToString base64.StdEncoding k;
  wg_public_length : forall k, length k = 32%nat -> length (wg_public k) = 32%nat
}.

Section tree.
Context `{Unicode, Ed25519, X509, WGTypes}.

(** It succeeds only with generated keys. *)
Lemma Init_keys p name genEd genWG fs fs' : Init p name genEd genWG fs = (fs', Ok tt) ->
  exists ed wg, genEd = Some (keys.privRaw ed) /\ genWG = Some (keys.wgPrivRaw wg).
Proof.
  unfold Init. intros Hrun.
  do 3 apply init_bind_ok in Hrun as (? & ? & _ & Hrun).
  apply init_bind_ok in Hrun as (? & ed & Eed & Hrun). do 2 apply init_bind_ok in Hrun as (? & ? & _ & Hrun).
  apply init_bind_ok in Hrun as (? & wg & Ewg & _). exists ed, wg.
  destruct genEd as [e|]; [|discriminate Eed]. destruct genWG as [g|]; [|discriminate Ewg].
  injection Eed as _ <-. injection Ewg as _ <-. done.
Qed.

Lemma Init_Ok p name ed wg fs fs' : Init p name (Some (keys.privRaw ed)) (Some (keys.wgPrivRaw wg)) fs = (fs', Ok tt) ->
  nodename.Validate name = Ok () /\ exists pem, keys.MarshalPrivatePEM ed = Ok pem /\
  files fs' = <[HostFile p name := MkFile (hostText ed wg) 420]> (<[ConfFile p := MkFile (confText name) 420]>
    (<[WGPrivate p := MkFile (keys.WGPrivateString wg ++ [nl]) 384]> (<[Ed25519Private p := MkFile pem 384]> (files fs)))) /\
  onlyDirs [HostsDir p; InvitationsDir p; filepath.Dir (Ed25519Private p); filepath.Dir (WGPrivate p);
            filepath.Dir (ConfFile p); filepath.Dir (HostFile p name)] fs fs' /\
  files fs !! Ed25519Private p = None.
Proof.
  unfold Init. intros Hrun.
  apply init_bind_ok in Hrun as (f0 & [] & E0 & Hrun). injection E0 as <- E0.
  apply init_bind_ok in Hrun as (f1 & [] & E1 & Hrun). apply mkdirAll_ok in E1 as [F1 D1]; [|by apply cleanPath_Join].
  apply init_bind_ok in Hrun as (f2 & [] & E2 & Hrun). apply mkdirAll_ok in E2 as [F2 D2]; [|by apply cleanPath_Join].
  rewrite keys.GenerateEd25519_raw, keys.GenerateWireGuard_raw in Hrun.
  apply init_bind_ok in Hrun as (fe & ed' & E3' & Hrun). injection E3' as <- <-.
  apply init_bind_ok in Hrun as (f2' & pem & E3 & Hrun). injection E3 as <- E3.
  apply init_bind_ok in Hrun as (f3 & [] & E4 & Hrun). apply create_ok in E4 as (N3 & F3 & D3).
  apply init_bind_ok in Hrun as (fw & wg' & E5' & Hrun). injection E5' as <- <-.
  apply init_bind_ok in Hrun as (f4 & [] & E5 & Hrun). apply create_ok in E5 as (_ & F4 & D4).
  apply init_bind_ok in Hrun as (f5 & [] & E6 & Hrun). apply create_ok in E6 as (_ & F5 & D5).
  apply create_ok in Hrun as (_ & F6 & D6). split.
  { destruct (nodename.Validate name) as [[]|]; [done|discriminate E0]. }
  exists pem. split; [destruct (keys.MarshalPrivatePEM ed); [by injection E3 as ->|discriminate E3]|].
  split; [by rewrite F6, F5, F4, F3, F2, F1|]. split; [|by rewrite <- F1, <- F2].
  pose proof (onlyDirs_trans _ _ _ _ _ (onlyDirs_trans _ _ _ _ _ (onlyDirs_trans _ _ _ _ _
    (onlyDirs_trans _ _ _ _ _ (onlyDirs_trans _ _ _ _ _ D1 D2) D3) D4) D5) D6) as HD. exact HD.
Qed.

Lemma Init_no_confD p name ed wg fs fs' : Init p name (Some (keys.privRaw ed)) (Some (keys.wgPrivRaw wg)) fs = (fs', Ok tt) ->
  confD p ∉ dirs fs -> files fs !! confD p = None ->
  (confD p ∉ dirs fs') /\ files fs' !! confD p = None.
Proof.
  intros (Hv & pem & _ & Hf & Hd & _)%Init_Ok Hn Hnf. pose proof (plain_valid name Hv) as Hp. split.
  - intros Hin. apply Hd in Hin as [?|(q & j & Hq & Hj)]; [done|]. rewrite stack_confD in Hj.
    assert (stackOf q = !"hosts" :: stackOf (NetDir p) \/ stackOf q = !"invitations" :: stackOf (NetDir p)
      \/ stackOf q = stackOf (NetDir p)) as Hs.
    { repeat (apply elem_of_cons in Hq as [->|Hq]); [| | | | | |by apply elem_of_nil in Hq];
        rewrite ?stack_hosts, ?stack_inv, ?stackOf_Dir_clean, ?stack_ed, ?stack_wg, ?stack_conf, ?stack_host
          by (done || by apply cleanPath_Join; destruct Hp); auto. }
    destruct Hs as [Hs|[Hs|Hs]]; rewrite Hs in Hj; destruct j as [|j]; try discriminate;
      apply (f_equal length) in Hj; rewrite length_drop in Hj; simpl in Hj; lia.
  - rewrite Hf, !lookup_insert_ne; [done|apart..].
Qed.

Lemma wfEntry_plain key v : config.canonical !! (lowerByte <$> key) = Some key -> Forall plainByte v -> v <> [] ->
  config.wfEntry (config.MkEntry key v).
Proof.
  intros Hk Hv Hne. pose proof (config.canonical_lookup _ _ Hk) as (H1' & H2' & H3' & H4' & _).
  split; cbn [config.Key config.Value]; auto using trimmed_plain, config.plain_no_nl.
  by eapply config.canonicalKey_canonical.
Qed.

Lemma name_plain name : nodename.Validate name = Ok () -> Forall plainByte name.
Proof.
  intros [_ Hf]%nodename.Validate_ok. eapply Forall_impl; [exact Hf|]. intros c Hc.
  apply nodename.isNameRune_range in Hc. unfold plainByte. lia.
Qed.

(** The configuration file [Init] writes has the one entry it should. *)
Lemma Parse_confText name : nodename.Validate name = Ok () -> Z.of_nat (length name) <= 65000 ->
  config.Parse (confText name) = Ok [config.MkEntry !"Name" name].
Proof.
  intros Hv Hl. apply config.Parse_Render; (apply List.Forall_cons; [|apply List.Forall_nil]).
  - apply wfEntry_plain; [vm_compute; reflexivity|by apply name_plain|by apply nodename.Validate_ok in Hv as [? _]].
  - unfold config.fits, config.renderLine, maxLine. cbn [config.Key config.Value]. rewrite !length_app. simpl. lia.
Qed.
End tree.

Section initialised.
Context `{Unicode, Ed25519, X509, WGText}.
Context (p : Paths) (name : gostring) (ed : keys.Ed25519Private) (wg : keys.WGPrivate) (fs fs' : FS).
Hypothesis Hed : ed_genuine (keys.privRaw ed).
Hypothesis Hwg : length (keys.wgPrivRaw wg) = 32%nat.
Hypothesis Hname : Z.of_nat (length name) <= 65000.
Hypothesis Hdir : confD p ∉ dirs fs.
Hypothesis Hfile : files fs !! confD p = None.
Hypothesis Hinit : Init p name (Some (keys.privRaw ed)) (Some (keys.wgPrivRaw wg)) fs = (fs', Ok tt).

Lemma init_valid : nodename.Validate name = Ok () /\ plain name.
Proof. pose proof (Init_Ok _ _ _ _ _ _ Hinit) as [Hv _]. auto using plain_valid. Qed.

Lemma init_files :
  exists pem, keys.MarshalPrivatePEM ed = Ok pem /\
  files fs' !! HostFile p name = Some (MkFile (hostText ed wg) 420) /\
  files fs' !! ConfFile p = Some (MkFile (confText name) 420) /\
  files fs' !! WGPrivate p = Some (MkFile (keys.WGPrivateString wg ++ [nl]) 384) /\
  files fs' !! Ed25519Private p = Some (MkFile pem 384).
Proof.
  destruct init_valid as [_ Hp]. destruct (Init_Ok _ _ _ _ _ _ Hinit) as (_ & pem & Hpem & Hf & _).
  exists pem. rewrite Hf. split_and!; [done|..];
    repeat first [rewrite lookup_insert_eq; reflexivity | rewrite lookup_insert_ne by apart].
Qed.

Lemma ReadFile_file (q : gostring) f : files fs' !! q = Some f -> os.ReadFile fs' q = Ok (content f).
Proof. intros Hq. unfold os.ReadFile. by rewrite Hq. Qed.

Lemma wg_string_plain k : length k = 32%nat -> Forall plainByte (wg_string k) /\ length (wg_string k) = 44%nat.
Proof.
  intros Hk. rewrite wg_text by done. split; [apply transport.b64_plain|].
  by rewrite base64_lemmas.EncodeToString_length, Hk.
Qed.

Lemma trim_wgfile : TrimSpace (keys.WGPrivateString wg ++ [nl]) = keys.WGPrivateString wg.
Proof.
  unfold keys.WGPrivateString. destruct (wg_string_plain _ Hwg) as [Hp Hl].
  apply TrimSpace_nl; [by apply trimmed_plain|]. intros E. by rewrite E in Hl.
Qed.

Lemma Parse_hostText : config.Parse (hostText ed wg) =
  Ok [config.MkEntry !"Ed25519PublicKey" (keys.String (keys.Public ed));
      config.MkEntry !"WGPublicKey" (keys.WGPublicString (keys.WGPublicOf wg))].
Proof.
  pose proof (keys.String_length _ (keys.Public_length ed Hed)) as Hl1.
  destruct (wg_string_plain _ (wg_public_length _ Hwg)) as [Hp2 Hl2].
  change (wg_string (wg_public _)) with (keys.WGPublicString (keys.WGPublicOf wg)) in Hp2, Hl2.
  apply config.Parse_Render; (apply List.Forall_cons; [|apply List.Forall_cons; [|apply List.Forall_nil]]).
  - apply wfEntry_plain; [vm_compute; reflexivity|apply transport.b64_plain|]. intros E. by rewrite E in Hl1.
  - apply wfEntry_plain; [vm_compute; reflexivity|done|]. intros E. by rewrite E in Hl2.
  - unfold config.fits, config.renderLine, maxLine. cbn [config.Key config.Value]. rewrite !length_app, Hl1. simpl. lia.
  - unfold config.fits, config.renderLine, maxLine. cbn [config.Key config.Value]. rewrite !length_app, Hl2. simpl. lia.
Qed.

Lemma init_LoadDirectory : config.LoadDirectory fs' (ConfFile p) = Ok [config.MkEntry !"Name" name].
Proof.
  destruct init_files as (pem & _ & _ & Hc & _). destruct init_valid as [Hv _].
  destruct (Init_no_confD _ _ _ _ _ _ Hinit Hdir Hfile) as [Hd Hf].
  unfold config.LoadDirectory, config.ParseFile. rewrite (ReadFile_file _ _ Hc). cbn [content].
  rewrite Parse_confText by done. cbn [mbind result_bind]. fold (confD p).
  unfold os.ReadDir. rewrite decide_False by done. by rewrite Hf.
Qed.

Lemma init_load : exists l, daemon.load fs' p = Ok l /\ daemon.NodeName l = name /\ daemon.EdPriv l = ed /\
  daemon.WGPriv l = wg /\ daemon.LMode l = dataplane.ModeSwitch /\ daemon.WGInterface l = !"wg-" ++ name /\
  daemon.VXLANIface l = name /\ daemon.WGListenPort l = 51820.
Proof.
  destruct init_files as (pem & Hpem & Hh & Hc & Hw & He).
  unfold daemon.load. rewrite init_LoadDirectory. cbn [err_map mbind result_bind].
  rewrite (ReadFile_file _ _ He), (ReadFile_file _ _ Hw). cbn [content].
  unfold daemon.parseMode, daemon.prefixEntry, daemon.intEntry, daemon.firstNonEmpty.
  cbn [config.GetFirst config.GetAll config.Key config.Value]. field_names. cbn [err_map mbind result_bind].
  rewrite (keys.ParsePrivatePEM_Marshal ed pem Hed Hpem). cbn [err_map mbind result_bind].
  rewrite trim_wgfile. unfold keys.ParseWireGuardPrivate, keys.WGPrivateString.
  rewrite wg_parse_string by done. cbn. eexists. split; [done|]. cbn. destruct wg. done.
Qed.

Lemma init_fsck : fsck.Fsck fs' p = [].
Proof.
  destruct init_files as (pem & Hpem & Hh & Hc & Hw & He). destruct init_valid as [Hv Hp].
  unfold fsck.Fsck, os.Stat. rewrite Hc. cbn [mode]. rewrite init_LoadDirectory. cbv zeta.
  cbn [config.GetFirst config.GetAll config.Key config.Value]. field_names. cbv iota. cbn [from_option id].
  unfold fsck.checkName. rewrite Hv. cbn [app fsck.checkSubnets mbind list_bind].
  assert (os.Stat fs' (Ed25519Private p) = Ok (os.IsFile 384)) as Se by (unfold os.Stat; by rewrite He).
  assert (os.Stat fs' (WGPrivate p) = Ok (os.IsFile 384)) as Sw by (unfold os.Stat; by rewrite Hw).
  assert (keys.ParseWireGuardPrivate (keys.WGPrivateString wg) = Ok wg) as Pw.
  { unfold keys.ParseWireGuardPrivate, keys.WGPrivateString. rewrite wg_parse_string by done. by destruct wg. }
  unfold fsck.checkPrivateKey. rewrite Se, Sw, (ReadFile_file _ _ He), (ReadFile_file _ _ Hw). cbn [content].
  rewrite (keys.ParsePrivatePEM_Marshal ed pem Hed Hpem), trim_wgfile, Pw. cbn [fsck.errOf].
  unfold fsck.checkHost. rewrite bool_decide_eq_false_2 by (by destruct Hp).
  rewrite (ReadFile_file _ _ Hh). cbn [content]. rewrite Parse_hostText.
  unfold fsck.checkHostMatchesPrivate. rewrite (ReadFile_file _ _ He), (ReadFile_file _ _ Hw). cbn [content ok mbind option_bind].
  rewrite (keys.ParsePrivatePEM_Marshal ed pem Hed Hpem), trim_wgfile, Pw. cbn [ok].
  cbn [config.GetFirst config.Key config.Value]. field_names. cbv iota. cbn [from_option id].
  destruct (wg_string_plain _ (wg_public_length _ Hwg)) as [Hp2 _].
  rewrite !TrimSpace_id by (apply trimmed_plain; [apply transport.b64_plain || exact Hp2]).
  by rewrite !bool_decide_eq_true_2 by done.
Qed.
End initialised.

Lemma keepsFiles_Init `{Unicode, Ed25519, X509, WGTypes} p name genEd genWG : keepsFiles (Init p name genEd genWG).
Proof.
  unfold Init. repeat (apply keepsFiles_bind; [|intros ?]);
    auto using keepsFiles_lift, keepsFiles_mkdirAll, keepsFiles_create.
Qed.

(** C25.  A tree that [Init] created without error, where no configuration fragments
    were lying around: the daemon loads it and finds the node name and exactly
    the generated keys, with the defaults; [Fsck] has nothing to report; and a
    second [Init] is refused.  [Init] never overwrites a file, whether it
    succeeds or not. *)
Theorem init_tree `{Unicode, Ed25519, X509, WGText} p name ed wg fs fs' :
  ed_genuine (keys.privRaw ed) -> length (keys.wgPrivRaw wg) = 32%nat -> Z.of_nat (length name) <= 65000 ->
  confD p ∉ dirs fs -> files fs !! confD p = None ->
  Init p name (Some (keys.privRaw ed)) (Some (keys.wgPrivRaw wg)) fs = (fs', Ok tt) ->
  (exists l, daemon.load fs' p = Ok l /\ daemon.NodeName l = name /\ daemon.EdPriv l = ed /\
     daemon.WGPriv l = wg /\ daemon.LMode l = dataplane.ModeSwitch /\ daemon.WGInterface l = !"wg-" ++ name /\
     daemon.VXLANIface l = name /\ daemon.WGListenPort l = 51820) /\
  fsck.Fsck fs' p = [] /\
  (forall name2 ed2 wg2, is_ok (Init p name2 ed2 wg2 fs').2 = false) /\
  (forall name2 ed2 wg2 fs2 q f, files fs2 !! q = Some f -> files (Init p name2 ed2 wg2 fs2).1 !! q = Some f).
Proof.
  intros Hed Hwg Hl Hd Hf Hrun. split_and!.
  - by eapply init_load.
  - by eapply init_fsck.
  - intros name2 ed2 wg2. destruct (Init p name2 ed2 wg2 fs') as [fs2 [[]|e]] eqn:E; [|done].
    destruct (Init_keys _ _ _ _ _ _ E) as (e2 & g2 & -> & ->). apply Init_Ok in E as (_ & _ & _ & _ & _ & Hnone).
    edestruct (init_files p name ed wg fs fs') as (pem & _ & _ & _ & _ & He); [done..|congruence].
  - intros name2 ed2 wg2 fs2 q f. apply keepsFiles_Init.
Qed.

Lemma Ok_inj {E A} (a b : A) : @Ok E A a = Ok b -> a = b.
Proof. by intros [= ->]. Qed.

Lemma load_wrap w (o : option Z) d : 0 <= w -> 0 <= d < 2 ^ w -> 0 <= default d (wrap_u w <$> o) < 2 ^ w.
Proof.
  intros Hw Hd. destruct o as [z|]; [|exact Hd]. cbn. unfold wrap_u. apply Z.mod_pos_bound. by apply Z.pow_pos_nonneg.
Qed.

(** C38.  Bounds of a configuration.  A configuration that loads has a VXLAN port of
    16 bits and a VXLAN id of 32 bits, a positive MTU, and a WireGuard port that
    is not zero and fits an int.  The two VXLAN numbers are what the text says,
    reduced modulo the width of their field; the WireGuard port is not reduced
    and not checked. *)
Theorem load_bounds `{Unicode, X509, WGTypes} fs p l : daemon.load fs p = Ok l ->
  0 <= daemon.VXLANPort l < 2 ^ 16 /\ 0 <= daemon.VXLANID l < 2 ^ 32 /\
  0 < daemon.MTU l <= max_int64 /\ daemon.WGListenPort l <> 0 /\ is_int64 (daemon.WGListenPort l) /\
  (forall v n, config.GetFirst (daemon.Conf l) !"VXLANPort" = Some v -> Atoi v = Ok n -> daemon.VXLANPort l = n mod 2 ^ 16) /\
  (forall v n, config.GetFirst (daemon.Conf l) !"VXLANID" = Some v -> Atoi v = Ok n -> daemon.VXLANID l = n mod 2 ^ 32) /\
  (forall v n, config.GetFirst (daemon.Conf l) !"Port" = Some v -> Atoi v = Ok n -> n <> 0 -> daemon.WGListenPort l = n).
Proof.
  unfold daemon.load. destruct (config.LoadDirectory _ _) as [es|]; [|done]. cbn [err_map mbind result_bind].
  destruct (config.GetFirst es !"Name") as [name|]; [|done]. cbn [mbind result_bind].
  destruct (os.ReadFile fs (Ed25519Private p)) as [eb|]; [|done]. cbn [err_map mbind result_bind].
  destruct (keys.ParseEd25519PrivatePEM eb) as [ed|]; [|done]. cbn [err_map mbind result_bind].
  destruct (os.ReadFile fs (WGPrivate p)) as [wb|]; [|done]. cbn [err_map mbind result_bind].
  destruct (keys.ParseWireGuardPrivate _) as [wg|]; [|done]. cbn [err_map mbind result_bind].
  destruct (daemon.parseMode es) as [mode|]; [|done]. cbn [mbind result_bind].
  destruct (daemon.prefixEntry es !"InnerAddress" _) as [inner|]; [|done]. cbn [mbind result_bind].
  destruct (daemon.prefixEntry es !"UnderlayAddress" _) as [under|]; [|done]. cbn [mbind result_bind].
  destruct (daemon.parseSubnets _) as [subs|]; [|done]. cbn [mbind result_bind]. intros <-%Ok_inj.
  cbn [daemon.VXLANPort daemon.VXLANID daemon.MTU daemon.WGListenPort daemon.Conf].
  assert (forall key z, daemon.intEntry es key = Some z -> is_int64 z) as Hint.
  { intros key z. unfold daemon.intEntry. destruct (config.GetFirst es key) as [v|]; [|done]. cbn [mbind option_bind].
    destruct (Atoi v) as [z'|] eqn:E; [|done]. intros [= <-]. by eapply Atoi_range. }
  assert (forall key v n, config.GetFirst es key = Some v -> Atoi v = Ok n -> daemon.intEntry es key = Some n) as Hval.
  { intros key v n Hg Ha. unfold daemon.intEntry. rewrite Hg. cbn [mbind option_bind]. by rewrite Ha. }
  refine (conj _ (conj _ (conj _ (conj _ (conj _ (conj _ (conj _ _))))))).
  - apply load_wrap; lia.
  - apply load_wrap; lia.
  - destruct (daemon.intEntry es !"MTU") as [m|] eqn:E; [|by vm_compute]. apply Hint in E as [_ E].
    destruct (Z.ltb_spec 0 m); [done|by vm_compute].
  - destruct (Z.eqb_spec (default 0 (daemon.intEntry es !"Port")) 0); done.
  - destruct (Z.eqb_spec (default 0 (daemon.intEntry es !"Port")) 0); [by vm_compute|].
    destruct (daemon.intEntry es !"Port") as [z|] eqn:E; [by eapply Hint|done].
  - intros v n Hg Ha. by rewrite (Hval _ _ _ Hg Ha).
  - intros v n Hg Ha. by rewrite (Hval _ _ _ Hg Ha).
  - intros v n Hg Ha Hn. rewrite (Hval _ _ _ Hg Ha). cbn [from_option id]. by rewrite (proj2 (Z.eqb_neq _ _) Hn).
Qed.

(** ** A run *)
Module demo.
Import toy.

#[export] Instance wgtext : WGText.
Proof. split; [done|]. intros k _. apply tag_length. Qed.

Definition p : Paths := MkPaths !"/etc/gsnet" !"vpn".
Definition wg : keys.WGPrivate := keys.MkWGPriv (replicate 32 (to_byte 9)).
Definition fs : FS := MkFS ∅ {[ !"/" ]}.
Definition fs' : FS := (Init p !"alice" (Some (keys.privRaw demoPriv)) (Some (keys.wgPrivRaw wg)) fs).1.
End demo.
Import demo toy.

Lemma init_tree_witness : fsck.Fsck fs' p = [] /\ is_ok (Init p !"bob" (Some (keys.privRaw demoPriv)) (Some (keys.wgPrivRaw wg)) fs').2 = false.
Proof.
  destruct (init_tree p !"alice" demoPriv wg fs fs') as (_ & Hfsck & Hsecond & _).
  - vm_compute. reflexivity.
  - reflexivity.
  - vm_compute. discriminate.
  - apply (bool_decide_unpack _). vm_compute. exact I.
  - vm_compute. reflexivity.
  - assert ((Init p !"alice" (Some (keys.privRaw demoPriv)) (Some (keys.wgPrivRaw wg)) fs).2 = Ok tt) as <- by (vm_compute; reflexivity).
    apply surjective_pairing.
  - split; [exact Hfsck|apply Hsecond].
Defined.

Lemma load_bounds_witness : exists l, daemon.load fs' p = Ok l /\ 0 < daemon.MTU l.
Proof.
  destruct (init_load p !"alice" demoPriv wg fs fs') as (l & Hl & _).
  - vm_compute. reflexivity.
  - reflexivity.
  - vm_compute. discriminate.
  - apply (bool_decide_unpack _). vm_compute. exact I.
  - vm_compute. reflexivity.
  - assert ((Init p !"alice" (Some (keys.privRaw demoPriv)) (Some (keys.wgPrivRaw wg)) fs).2 = Ok tt) as <- by (vm_compute; reflexivity).
    apply surjective_pairing.
  - exists l. split; [exact Hl|]. apply (load_bounds fs' p l Hl).
Defined.

Example fsck_loose_key :
  fsck.Fsck (MkFS (<[WGPrivate p := MkFile (keys.WGPrivateString wg) 420]> (files fs')) (dirs fs')) p =
  [fsck.MkFinding fsck.FsckWarning !"/etc/gsnet/vpn/wg.priv" (fsck.KeyLoose !"WireGuard" 420)].
Proof. vm_compute. reflexivity. Qed.
End init_lemmas.
