(* ===== verification/Script.v ===== *)
(** * Hook scripts (internal/script/runner.go; daemon.go: runUp, runDown,
      scriptEnv)

    Running a program is a parameter: given the argument vector, the
    environment and the directory it returns the output and whether it
    succeeded. *)

From Stdlib Require Import Ascii String ZArith Lia.
From stdpp Require Import base tactics list gmap strings.
From S2P Require Import Prelude.
From S2P Require Import GoStrings.
From S2P Require Import FS.
From S2P Require Import FilePath.
From S2P Require Import Daemon.

Local Open Scope Z_scope.

Module script.
Import paths.

Record Env := MkEnv {
  Netname : gostring; Name : gostring; Device : gostring; Interface : gostring; Node : gostring;
  RemoteAddress : gostring; RemotePort : gostring; Subnet : gostring; Weight : gostring;
  InvitationFile : gostring; InvitationURL : gostring
}.

Definition equals : byte := to_byte 61.

(** The variables of a hook and their values, in the order of the source. *)
Definition vars (e : Env) : list (gostring * gostring) :=
  [(!"NETNAME", Netname e); (!"NAME", Name e); (!"DEVICE", Device e); (!"INTERFACE", Interface e); (!"NODE", Node e);
   (!"REMOTEADDRESS", RemoteAddress e); (!"REMOTEPORT", RemotePort e); (!"SUBNET", Subnet e); (!"WEIGHT", Weight e);
   (!"INVITATION_FILE", InvitationFile e); (!"INVITATION_URL", InvitationURL e)].

Definition add (out : list gostring) (kv : gostring * gostring) : list gostring :=
  if bool_decide (kv.2 = []) then out else out ++ [kv.1 ++ equals :: kv.2].

Definition ToOSEnv (environ : list gostring) (e : Env) : list gostring := foldl add environ (vars e).

Record Runner := MkRunner { ConfDir : gostring; Extension : gostring; Interpreter : gostring }.

Record command := MkCommand { cArgs : list gostring; cEnv : list gostring; cDir : gostring }.

Inductive error := errStat (e : osError) | errScript (name : gostring) (e : gostring) (output : gostring).

(** [fi.Mode() & 0o111 != 0]; the directories of the model have mode 0755. *)
Definition isExecutable (fi : os.FileInfo) : bool :=
  match fi with os.IsDir => true | os.IsFile perm => negb (Z.land perm 73 =? 0) end.

Section run.
Context `{Unicode}.
(** [cmd.CombinedOutput]: the output, and the error's text if there is one. *)
Context (exec : command -> bytes * option gostring) (environ : list gostring).

(** The commands started, and the result. *)
Definition Run (fs : FS) (r : Runner) (name : gostring) (env : Env) : list command * result error unit :=
  let path := filepath.Join [ConfDir r; name] ++ Extension r in
  match os.Stat fs path with
  | Err e => if os.IsNotExist e then ([], Ok ()) else ([], Err (errStat e))
  | Ok st =>
      if negb (isExecutable st) then ([], Ok ())
      else
        let args := if negb (bool_decide (Interpreter r = [])) then [Interpreter r; path] else [path] in
        let cmd := MkCommand args (ToOSEnv environ env) (ConfDir r) in
        match exec cmd with
        | (out, Some e) => ([cmd], Err (errScript name e (TrimSpace out)))
        | (_, None) => ([cmd], Ok ())
        end
  end.

(** ** The daemon's hooks *)

Definition scriptEnv (p : Paths) (l : daemon.loaded) : Env :=
  MkEnv (paths.Netname p) (daemon.NodeName l) (daemon.VXLANIface l) (daemon.VXLANIface l) [] [] [] [] [] [] [].

Definition runUp (fs : FS) (p : Paths) (l : daemon.loaded) : list command * result error unit :=
  Run fs (MkRunner (NetDir p) [] []) !"gsnet-up" (scriptEnv p l).

Definition runDown (fs : FS) (p : Paths) (l : daemon.loaded) : list command * result error unit :=
  Run fs (MkRunner (NetDir p) [] []) !"gsnet-down" (scriptEnv p l).
End run.

(** ** What a script sees *)

(** [os/exec] keeps the last value of a variable that occurs twice. *)
Definition Getenv (env : list gostring) (k : gostring) : option gostring :=
  foldl (fun r e => match cutByte equals e with
                    | Some (k', v) => if bool_decide (k' = k) then Some v else r
                    | None => r
                    end) None env.

Lemma Getenv_snoc env kv k : equals ∉ kv.1 ->
  Getenv (env ++ [kv.1 ++ equals :: kv.2]) k = if bool_decide (kv.1 = k) then Some kv.2 else Getenv env k.
Proof.
  intros Hk. unfold Getenv. rewrite foldl_app. cbn [foldl].
  by rewrite (proj2 (cutByte_Some equals _ kv.1 kv.2) (conj eq_refl Hk)).
Qed.

Lemma Getenv_add kvs env k : Forall (fun kv => equals ∉ kv.1) kvs -> k ∉ kvs.*1 ->
  Getenv (foldl add env kvs) k = Getenv env k.
Proof.
  intros Hf. revert env. induction Hf as [|kv kvs Hkv _ IH]; intros env Hk; [done|].
  rewrite fmap_cons, not_elem_of_cons in Hk. destruct Hk as [H1 H2]. cbn [foldl]. rewrite IH by done.
  unfold add. destruct (bool_decide (kv.2 = [])); [done|].
  rewrite (Getenv_snoc env kv) by done. rewrite bool_decide_eq_false_2; [done|congruence].
Qed.

Lemma Getenv_foldl kvs env k v : Forall (fun kv => equals ∉ kv.1) kvs -> NoDup kvs.*1 -> (k, v) ∈ kvs ->
  Getenv (foldl add env kvs) k = if bool_decide (v = []) then Getenv env k else Some v.
Proof.
  intros Hf. revert env. induction Hf as [|kv kvs Hkv Hf IH]; intros env Hd Hin; [by apply elem_of_nil in Hin|].
  rewrite fmap_cons in Hd. apply NoDup_cons in Hd as [Hn Hd]. cbn [foldl]. apply elem_of_cons in Hin as [<-|Hin].
  - rewrite Getenv_add by done. unfold add. cbn [fst snd] in *. case_bool_decide; [done|].
    rewrite (Getenv_snoc env (k, v)) by done. cbn [fst snd]. by rewrite bool_decide_eq_true_2.
  - rewrite (IH _ Hd Hin). case_bool_decide; [|done]. unfold add. case_bool_decide; [done|].
    rewrite (Getenv_snoc env kv) by done. rewrite bool_decide_eq_false_2; [done|]. intros Ek. apply Hn. rewrite Ek. apply list_elem_of_fmap. by exists (k, v).
Qed.

Lemma vars_keys e : Forall (fun kv => equals ∉ kv.1) (vars e) /\ NoDup (vars e).*1.
Proof.
  split.
  - apply (proj1 (Forall_fmap fst (fun k => equals ∉ k) (vars e))). cbn [vars fmap list_fmap fst].
    apply (bool_decide_unpack _). vm_compute. exact I.
  - cbn [vars fmap list_fmap fst]. apply (bool_decide_unpack _). vm_compute. exact I.
Qed.

Section facts.
Context `{Unicode}.

(** Hook scripts.  [Run] starts at most one program: the script of that name,
    run in the configuration directory, exactly when it exists and is
    executable; a script that is missing or not executable is a success, and
    a failing one is an error that carries its trimmed output.  A script sees
    every hook variable that has a value, with that value; a hook variable
    without one, and any other variable, it sees as the daemon's own
    environment has it. *)
Theorem hook_runs exec environ fs r name env :
  let path := filepath.Join [ConfDir r; name] ++ Extension r in
  let cmd := MkCommand (if bool_decide (Interpreter r = []) then [path] else [Interpreter r; path])
               (ToOSEnv environ env) (ConfDir r) in
  Run exec environ fs r name env
  = match os.Stat fs path with
    | Ok st => if isExecutable st
               then ([cmd], match exec cmd with (_, None) => Ok () | (out, Some e) => Err (errScript name e (TrimSpace out)) end)
               else ([], Ok ())
    | Err e => ([], if os.IsNotExist e then Ok () else Err (errStat e))
    end /\
  (forall k v, (k, v) ∈ vars env ->
     Getenv (cEnv cmd) k = if bool_decide (v = []) then Getenv environ k else Some v) /\
  (forall k, k ∉ (vars env).*1 -> Getenv (cEnv cmd) k = Getenv environ k).
Proof.
  cbv zeta. destruct (vars_keys env) as [Hf Hd]. split_and!.
  - unfold Run. destruct (os.Stat _ _) as [st|e]; [|by destruct (os.IsNotExist e)].
    destruct (isExecutable st); [|done]. cbn [negb].
    destruct (bool_decide (Interpreter r = [])); cbn [negb]; by destruct (exec _) as [out [e|]].
  - intros k v Hin. by apply Getenv_foldl.
  - intros k Hk. by apply Getenv_add.
Qed.
End facts.

(** A variable of the daemon's own environment reaches a script under a hook
    variable's name when the hook gives it no value. *)
Example empty_value_inherited :
  Getenv (ToOSEnv [!"NODE=stale"] (MkEnv !"vpn" !"alice" !"gsnet0" !"gsnet0" [] [] [] [] [] [] [])) !"NODE" = Some !"stale" /\
  Getenv (ToOSEnv [!"NAME=stale"] (MkEnv !"vpn" !"alice" !"gsnet0" !"gsnet0" [] [] [] [] [] [] [])) !"NAME" = Some !"alice".
Proof. vm_compute. done. Qed.
End script.
