(* ===== verification/DaemonEvents.v ===== *)
(** * The running daemon (internal/daemon/daemon.go)

    The daemon's state and what it does on each event: a gossip envelope, a
    signal, a control request, a served invitation, a dial attempt, a
    heartbeat.  The data plane is an interface ([Reconciler]); what it promises
    is [ReconcilerSpec].  The observer that the daemon installs on the plane
    reconciles after every applied envelope. *)

From Stdlib Require Import Ascii String ZArith Lia.
From stdpp Require Import base tactics list gmap strings.
From S2P Require Import Prelude.
From S2P Require Import GoStrings.
From S2P Require Import FS.
From S2P Require Import NetIP.
From S2P Require Import Graph.
From S2P Require Import Config.
From S2P Require Import Subnet.
From S2P Require Import Keys.
From S2P Require Import Message.
From S2P Require Import Gossip.
From S2P Require Import Control.
From S2P Require Import Transport.
From S2P Require Import Dataplane.
From S2P Require Import Daemon.
From S2P Require Import DaemonJoin.

Local Open Scope Z_scope.

(** ** dataplane.Reconciler and dataplane.Reporter *)

Class Reconciler (R : Type) := {
  rec_apply : dataplane.State -> R -> R * result gostring unit;
  rec_shutdown : R -> R * result gostring unit;
  rec_stats : option (R -> result gostring (list dataplane.TrafficStats))
}.

(** What a reconciler promises: once it has applied a state without error, it
    realises that state. *)
Class ReconcilerSpec (R : Type) `{Reconciler R} := {
  realises : dataplane.State -> R -> Prop;
  rec_apply_realises : forall s r r', rec_apply s r = (r', Ok ()) -> realises s r'
}.

#[global] Instance fake_reconciler : Reconciler fake.Reconciler := {
  rec_apply := fun s r => (fake.Reconcile s r, Ok ());
  rec_shutdown := fun r => (fake.Shutdown r, Ok ());
  rec_stats := Some (fun r => Ok (fake.Stats r))
}.

#[refine, global] Instance fake_spec : ReconcilerSpec fake.Reconciler := {
  realises := fun s r => fake.Last r = Some s
}.
Proof. intros s r r' [= <-]. unfold fake.Last, fake.Reconcile. apply last_snoc. Defined.

(** The Linux reconciler with the kernel it acts on.  What it realises is
    relative to the device as it was before the state was applied. *)
Section linux_instance.
Context `{KernelLaws, WGTypes, SHA256}.
Context (range : gset linux.fdbKey -> list linux.fdbKey) (text : kerror -> gostring) (applyText : linux.error -> gostring).
Context (closed : option kerror).

#[refine] Instance linux_reconciler : Reconciler (K * linux.Reconciler) := {
  rec_apply := fun s kr => match linux.Reconcile range s kr.2 kr.1 with
                           | (k, Ok r) => ((k, r), Ok ())
                           | (k, Err e) => ((k, kr.2), Err (applyText e))
                           end;
  rec_shutdown := fun kr => let '(r, res) := linux.Shutdown closed kr.2 in ((kr.1, r), err_map text res);
  rec_stats := Some (fun kr => err_map text (linux.Stats kr.2 kr.1))
}.
Proof. Defined.

#[refine] Instance linux_spec : ReconcilerSpec (K * linux.Reconciler) := {
  realises := fun s kr => linux.lastState kr.2 = Some s /\
    exists before, forall ps, dataplane.VXLANInterface s <> dataplane.WGInterface s -> linux.peersApart (dataplane.Peers s) ->
      linux.deviceBefore before (dataplane.WGInterface s) ps ->
      exists ps', Device kr.1 (dataplane.WGInterface s) = Ok ps' /\
        linux.peersMatch s (view.peerMap ps) (view.peerMap ps')
}.
Proof.
  intros s [k r] [k' r']. cbn [rec_apply linux_reconciler fst snd]. destruct (linux.Reconcile range s r k) as [k1 [r1|e]] eqn:E; [|done].
  intros [= <- <-]. split.
  - unfold linux.Reconcile in E. apply linux.bind_ok in E as (k2 & [] & _ & E). injection E as _ <-. reflexivity.
  - exists k. intros ps Hne Hap Hb. by destruct (linux.Reconcile_view range s r k k1 r1 ps Hne Hap Hb E) as [_ Hv].
Defined.
End linux_instance.

Module events.
Import paths.

Record Daemon {R : Type} := MkDaemon {
  dPaths : Paths; dRunDir : gostring; dRec : option R; dLoaded : daemon.loaded; dPlane : gossip.Plane;
  dPool : transport.Server; dEndpoint : netip.AddrPort; dFS : FS; dExited : bool
}.
Arguments Daemon R : clear implicits.
Arguments MkDaemon {R}.

Section daemon.
Context {R : Type} `{Reconciler R, Unicode, Ed25519, X509, WGTypes, MapOrder}.
Implicit Types d : Daemon R.

Definition setRec r d : Daemon R := MkDaemon (dPaths d) (dRunDir d) r (dLoaded d) (dPlane d) (dPool d) (dEndpoint d) (dFS d) (dExited d).
Definition setLoaded l d : Daemon R := MkDaemon (dPaths d) (dRunDir d) (dRec d) l (dPlane d) (dPool d) (dEndpoint d) (dFS d) (dExited d).
Definition setPlane p d : Daemon R := MkDaemon (dPaths d) (dRunDir d) (dRec d) (dLoaded d) p (dPool d) (dEndpoint d) (dFS d) (dExited d).
Definition setPool p d : Daemon R := MkDaemon (dPaths d) (dRunDir d) (dRec d) (dLoaded d) (dPlane d) p (dEndpoint d) (dFS d) (dExited d).
Definition setEndpoint e d : Daemon R := MkDaemon (dPaths d) (dRunDir d) (dRec d) (dLoaded d) (dPlane d) (dPool d) e (dFS d) (dExited d).
Definition setFS fs d : Daemon R := MkDaemon (dPaths d) (dRunDir d) (dRec d) (dLoaded d) (dPlane d) (dPool d) (dEndpoint d) fs (dExited d).
Definition exit d : Daemon R := MkDaemon (dPaths d) (dRunDir d) (dRec d) (dLoaded d) (dPlane d) (dPool d) (dEndpoint d) (dFS d) true.

(** ** Reconciling *)

Section events.
(** The transport's answers, the iteration order of this event's loops, and
    the clock. *)
Context (bcast : nat -> message.Envelope -> option nat) (k : nat) (now : nat -> Z).

Definition stateOf d : dataplane.State := daemon.buildState (dFS d) (dPaths d) k (dLoaded d) (dPlane d).

Definition applyReconcile d : Daemon R * result gostring unit :=
  match dRec d with
  | None => (d, Ok ())
  | Some r => let '(r, res) := rec_apply (stateOf d) r in (setRec (Some r) d, res)
  end.

(** The observer installed with [OnMessage]: its error is logged. *)
Definition notify (evs : list gossip.event) d : Daemon R :=
  foldl (fun d ev => match ev with gossip.Notifies _ => (applyReconcile d).1 | gossip.Broadcasts _ => d end) d evs.

(** The result of a plane operation, with the observer run. *)
Definition observed {E} (d : Daemon R) (res : gossip.Plane * list gossip.event * result E unit) : Daemon R * result E unit :=
  let '(pl, evs, r) := res in (notify evs (setPlane pl d), r).

(** ** Announcing the local node *)

Fixpoint announceSubnets (n : nat) (subs : list subnet.Subnet) d : Daemon R * result gossip.error unit :=
  match subs with
  | [] => (d, Ok ())
  | s :: subs =>
      match observed d (gossip.AnnounceAddSubnet bcast k (now n) (dPlane d) (subnet.String s)) with
      | (d, Err e) => (d, Err e)
      | (d, Ok _) => announceSubnets (S n) subs d
      end
  end.

Definition announceLocal d : Daemon R * result gossip.error unit :=
  let l := dLoaded d in
  match observed d (gossip.AnnounceHello bcast k (now 0%nat) (dPlane d) (daemon.localHello l (dEndpoint d))) with
  | (d, Err e) => (d, Err e)
  | (d, Ok _) => announceSubnets 1 (daemon.Subnets l) d
  end.

(** [d.load], which leaves the daemon as it is on an error. *)
Definition load d : Daemon R * result daemon.error unit :=
  match daemon.load (dFS d) (dPaths d) with
  | Ok l => (setLoaded l d, Ok ())
  | Err e => (d, Err e)
  end.

(** ** Gossip, signals, heartbeat *)

(** [OnGossip]: the plane verifies with [lookupPubKey], which reads the
    current configuration and host files. *)
Definition onGossip (env : message.Envelope) d : Daemon R :=
  let pl := gossip.SetVerifier (daemon.lookupPubKey (dFS d) (dPaths d) (dLoaded d)) (dPlane d) in
  (observed d (gossip.Receive bcast k env pl)).1.

Inductive signal := SIGHUP | SIGALRM.

(** One round of [signalLoop]. *)
Definition onSignal (s : signal) d : Daemon R :=
  match s with
  | SIGHUP =>
      let d := match load d with
               | (d, Err _) => d
               | (d, Ok _) => (announceLocal d).1
               end in
      (applyReconcile d).1
  | SIGALRM => (applyReconcile d).1
  end.

(** One tick of [heartbeat]: what is sent. *)
Definition onHeartbeat d : list gossip.event := (gossip.ResendOutbox bcast k (dPlane d)).1.

(** ** Dialling *)

(** [tryDialPeer]: [c] is the identity of a new connection, [net] what the
    network answers. *)
Definition tryDialPeer (c : nat) (net : gostring -> result transport.dialError unit) (peerName : gostring) d : Daemon R * bool :=
  match daemon.dialTarget (dFS d) (dPaths d) (dLoaded d) peerName with
  | None => (d, false)
  | Some target =>
      match transport.Dial c (net target) target (dPool d) with
      | (pool, Err _) => (setPool pool d, false)
      | (pool, Ok _) => ((announceLocal (setPool pool d)).1, true)
      end
  end.

(** [maintainPeer] until it is cancelled: one element of [rounds] per round,
    with the connection identity and the network's answers; the waits. *)
Fixpoint maintainPeer (rounds : list (nat * (gostring -> result transport.dialError unit))) (peerName : gostring)
    (backoff : Z) d : Daemon R * list Z :=
  match rounds with
  | [] => (d, [])
  | (c, net) :: rounds =>
      let '(d, ok) := tryDialPeer c net peerName d in
      let '(wait, next) := daemon.backoffStep ok backoff in
      let '(d, ws) := maintainPeer rounds peerName next d in (d, wait :: ws)
  end.

(** [dialConnectTo]: who is dialled. *)
Definition dialConnectTo d : list gostring := config.GetAll (daemon.Conf (dLoaded d)) !"ConnectTo".

(** ** Invitations *)

Definition onInviteJoin (cookie name : gostring) (hostConfig : bytes) d : Daemon R * result join.error bytes :=
  let '(fs, pl, evs, r) := join.handleInviteJoin bcast k (now 0%nat) (dFS d) (dPaths d) (dPlane d) cookie name hostConfig in
  (notify evs (setPlane pl (setFS fs d)), r).

(** ** Control requests *)

(** The text of an error in a reply. *)
Context (loadText : daemon.error -> gostring) (gossipText : gossip.error -> gostring).

(** One line of a reply: class, type and the fields after them. *)
Definition line (t : Z) (fields : list gostring) : bytes :=
  joinSp (Itoa control.ClassRequest :: Itoa t :: fields) ++ [nl].

Definition statLine (t : Z) (st : dataplane.TrafficStats) : bytes :=
  line t [dataplane.SPeer st; Itoa (dataplane.RxBytes st); Itoa (dataplane.TxBytes st); Itoa (dataplane.LastHandshake st)].

(** Every map is visited in its own order. *)
Definition controlHandler (m : control.Message) d : Daemon R * bytes * option gostring :=
  let t := control.Type' m in
  let g := gossip.G (dPlane d) in
  if t =? control.ReqStop then (exit d, line t [!"0"], None)
  else if t =? control.ReqReload then
    match load d with
    | (d, Err e) => (d, line t [loadText e], None)
    | (d, Ok _) =>
        match announceLocal d with
        | (d, Err e) => (d, line t [gossipText e], None)
        | (d, Ok _) => ((applyReconcile d).1, line t [!"0"], None)
        end
    end
  else if t =? control.ReqDumpNodes then
    (d, (graph.Nodes k g ≫= fun n => line t [n]) ++ line t [], None)
  else if t =? control.ReqDumpEdges then
    (d, (graph.Edges k g ≫= fun e => line t [graph.From e; graph.To e; Itoa (graph.Weight e)]) ++ line t [], None)
  else if t =? control.ReqDumpSubnets then
    (d, (map_order k (graph.AllSubnets k g) ≫= fun so => line t [so.1; so.2]) ++ line t [], None)
  else if t =? control.ReqDumpTraffic then
    let stats := match dRec d, rec_stats with
                 | Some r, Some f => match f r with Ok l => l | Err _ => [] end
                 | _, _ => []
                 end in
    (d, (stats ≫= statLine t) ++ line t [], None)
  else if t =? control.ReqPurge then
    (setPlane (gossip.setG (daemon.purge k (daemon.NodeName (dLoaded d)) g) (dPlane d)) d, line t [!"0"], None)
  else (d, line t [!"0"], None).
End events.
End daemon.

(** ** The data plane follows the control plane *)

(** What the desired state depends on. *)
Record sameView (p q : gossip.Plane) : Prop := {
  view_nodes : graph.nodes (gossip.G q) = graph.nodes (gossip.G p);
  view_ep : gossip.endpoints q = gossip.endpoints p;
  view_inner : gossip.inners q = gossip.inners p;
  view_underlay : gossip.underlays q = gossip.underlays p
}.

#[global] Instance sameView_refl : Reflexive sameView.
Proof. by intros p. Qed.

Section sync.
Context {R : Type} `{ReconcilerSpec R, Unicode, Ed25519, X509, WGTypes, MapOrder}.
Implicit Types d : Daemon R.

Lemma peerFor_view fs p k l pl pl' name : sameView pl pl' ->
  daemon.peerFor fs p k l pl' name = daemon.peerFor fs p k l pl name.
Proof.
  intros [Hn He Hi Hu]. unfold daemon.peerFor, daemon.allowedIPsFor, graph.NodeSubnets,
    gossip.EndpointOf, gossip.InnerAddrOf, gossip.UnderlayAddrOf. by rewrite Hn, He, Hi, Hu.
Qed.

Lemma buildState_view fs p k l pl pl' : sameView pl pl' ->
  daemon.buildState fs p k l pl' = daemon.buildState fs p k l pl.
Proof.
  intros Hv. unfold daemon.buildState. f_equal. unfold graph.Nodes. rewrite (view_nodes _ _ Hv).
  induction (map_order k (graph.nodes (gossip.G pl))).*1 as [|n ns IH]; [done|].
  cbn [omap list_omap]. rewrite (peerFor_view fs p k l pl pl' n Hv).
  destruct (daemon.peerFor fs p k l pl n); [f_equal|]; exact IH.
Qed.

(** The reconciler realises the desired state computed from the current
    configuration, host files and plane (in some order of its peers). *)
Definition inSync d : Prop := forall r, dRec d = Some r -> exists k, realises (stateOf k d) r.

(** The observer is installed and the plane is well formed. *)
Record running d : Prop := { run_listener : gossip.listener (dPlane d) = true; run_wf : gossip.wf (dPlane d) }.

(** The plane an event leaves behind, up to the fields that no event changes. *)
Definition keeps d d' : Prop :=
  dPlane d' = dPlane d /\ dFS d' = dFS d /\ dPaths d' = dPaths d /\ dLoaded d' = dLoaded d /\
  (is_Some (dRec d') <-> is_Some (dRec d)).

Lemma applyReconcile_keeps k d : keeps d (applyReconcile k d).1.
Proof.
  unfold applyReconcile. destruct (dRec d) as [r|] eqn:E.
  - destruct (rec_apply (stateOf k d) r) as [r' res]. unfold keeps. cbn. rewrite E. split_and!; try done.
  - unfold keeps. split_and!; try done.
Qed.

Lemma notify_keeps k evs d : keeps d (notify k evs d).
Proof.
  unfold notify. revert d. induction evs as [|ev evs IH]; intros d; [by unfold keeps|]. cbn [foldl].
  destruct (IH (match ev with gossip.Broadcasts _ => d | gossip.Notifies _ => (applyReconcile k d).1 end))
    as (H1' & H2' & H3' & H4' & H5').
  destruct ev as [e|e]; [by unfold keeps|].
  destruct (applyReconcile_keeps k d) as (G1 & G2 & G3 & G4 & G5). unfold keeps. split_and!; [congruence..|]. by rewrite H5'.
Qed.

(** Reconciling never fails on this machine. *)
Definition reconciles : Prop := forall (s : dataplane.State) (r : R), exists r', rec_apply s r = (r', Ok ()).

Lemma applyReconcile_sync k d : reconciles -> inSync (applyReconcile k d).1.
Proof.
  intros Hok r. unfold applyReconcile. destruct (dRec d) as [r0|] eqn:E; [|cbn; by rewrite E].
  destruct (Hok (stateOf k d) r0) as [r1 E1]. rewrite E1. cbn. intros [= <-].
  exists k. by apply rec_apply_realises in E1.
Qed.

Definition notifies (ev : gossip.event) : bool := match ev with gossip.Notifies _ => true | _ => false end.

Lemma notify_sync k evs d : reconciles -> inSync d \/ existsb notifies evs = true -> inSync (notify k evs d).
Proof.
  intros Hok. unfold notify. revert d. induction evs as [|ev evs IH]; intros d Hs; cbn [foldl existsb] in *.
  - by destruct Hs.
  - apply IH. destruct ev; [destruct Hs as [?|Hs]; [by left|by right]|]. left. by apply applyReconcile_sync.
Qed.

Lemma notify_silent k evs d : existsb notifies evs = false -> dRec (notify k evs d) = dRec d.
Proof.
  unfold notify. revert d. induction evs as [|ev evs IH]; intros d E; [done|]. cbn [foldl existsb] in *.
  apply orb_false_iff in E as [E1 E2]. destruct ev; [by apply IH|done].
Qed.

(** Without a notification the data plane is left alone; with one it ends in
    sync. *)
Lemma notify_rec k evs d : reconciles -> inSync (notify k evs d) \/ dRec (notify k evs d) = dRec d.
Proof.
  intros Hok. destruct (existsb notifies evs) eqn:E; [left; apply notify_sync; auto|right; by apply notify_silent].
Qed.

Lemma inSync_view d pl : sameView (dPlane d) pl -> inSync d -> inSync (setPlane pl d).
Proof.
  intros Hv Hs r Hr. destruct (Hs r Hr) as [k Hk]. exists k. unfold stateOf in *. cbn. by rewrite buildState_view with (pl := dPlane d).
Qed.

(** One plane operation: it changes nothing the desired state depends on, or
    the observer reconciles after it. *)
Definition soundOp (pl : gossip.Plane) (res : gossip.Plane * list gossip.event) : Prop :=
  gossip.listener res.1 = gossip.listener pl /\ gossip.edPriv res.1 = gossip.edPriv pl /\
  (sameView pl res.1 \/ (gossip.listener pl = true -> existsb notifies res.2 = true)).

Lemma apply_sound k env pl : soundOp pl (gossip.apply k env pl).
Proof.
  destruct (gossip.apply_core k env pl) as [_ _ _ Hl Hp _]. split_and!; [done|done|].
  revert Hl. unfold gossip.apply. destruct (gossip.applyKind k env pl) as [p'|]; [|by left].
  cbn. intros Hl. right. intros Ht. by rewrite Hl, Ht.
Qed.

Lemma sameView_trans p q r : sameView p q -> sameView q r -> sameView p r.
Proof. intros [] []. split; congruence. Qed.

(** [apply] after a bookkeeping step, followed by a broadcast. *)
Lemma soundOp_via k env pl q : sameView pl q -> gossip.listener q = gossip.listener pl -> gossip.edPriv q = gossip.edPriv pl ->
  soundOp pl ((gossip.apply k env q).1, (gossip.apply k env q).2 ++ [gossip.Broadcasts env]).
Proof.
  intros Hv Hl Hp. destruct (apply_sound k env q) as (A1 & A2 & A3). unfold soundOp. cbn [fst snd].
  split_and!; [congruence|congruence|]. destruct A3 as [A3|A3]; [left; by eapply sameView_trans|right].
  intros Ht. rewrite existsb_app, A3; [done|congruence].
Qed.

Lemma Receive_sound bcast k env pl : soundOp pl (gossip.Receive bcast k env pl).1.
Proof.
  assert (soundOp pl (pl, [])) as Hid by (split_and!; by try left).
  destruct (gossip.verify pl env) eqn:Ev; [|by rewrite gossip.Receive_reject].
  destruct (decide (gossip.fresh pl (message.ID env) (message.TS env))) as [Hf|Hf]; [|by rewrite gossip.Receive_stale].
  rewrite gossip.Receive_accept by done. by apply soundOp_via.
Qed.

Lemma originate_sound bcast k now id kind body pl : soundOp pl (gossip.originate bcast k now id kind body pl).1.
Proof. rewrite gossip.originate_unfold. by apply soundOp_via. Qed.

(** ** Events one at a time *)

(** What an operation of the daemon keeps: the daemon still runs, a data plane
    that is in sync stays so, and it ends in sync or has not been touched. *)
Definition soundStep d d' : Prop :=
  running d' /\ (inSync d -> inSync d') /\ (inSync d' \/ dRec d' = dRec d).

Lemma soundStep_refl d : running d -> soundStep d d.
Proof. unfold soundStep. auto. Qed.

Lemma soundStep_trans d d1 d2 : soundStep d d1 -> soundStep d1 d2 -> soundStep d d2.
Proof.
  intros (R1 & S1 & [T1|T1]) (R2 & S2 & T2); split_and!; auto. destruct T2 as [T2|T2]; [by left|right; congruence].
Qed.

Lemma observed_step {E} k d pl0 (res : gossip.Plane * list gossip.event * result E unit) :
  reconciles -> running d -> sameView (dPlane d) pl0 -> gossip.listener pl0 = true -> soundOp pl0 res.1 -> gossip.wf res.1.1 ->
  soundStep d (observed k d res).1.
Proof.
  intros Hok [Hl Hw] Hv0 Hl0 (Sl & _ & Hs) Hwf. destruct res as [[pl evs] r]. cbn [fst snd] in *.
  destruct (notify_keeps k evs (setPlane pl d)) as (Kp & _). unfold observed. cbn [fst]. split_and!.
  - split; rewrite Kp; cbn [dPlane setPlane]; [by rewrite Sl|done].
  - intros Hsync. apply notify_sync; [done|]. destruct Hs as [Hs|Hs]; [left|right; by apply Hs].
    apply inSync_view; [by eapply sameView_trans|done].
  - by apply (notify_rec k evs (setPlane pl d)).
Qed.

Lemma announceSubnets_step bcast k now n subs d : reconciles -> running d -> soundStep d (announceSubnets bcast k now n subs d).1.
Proof.
  intros Hok. revert n d. induction subs as [|s subs IH]; intros n d Hr; [by apply soundStep_refl|]. cbn [announceSubnets].
  set (res := gossip.AnnounceAddSubnet bcast k (now n) (dPlane d) (subnet.String s)).
  assert (soundStep d (observed k d res).1) as Hs.
  { apply (observed_step k d (dPlane d)); [done|done|done|by destruct Hr|apply originate_sound|apply gossip.wf_originate; by destruct Hr]. }
  destruct (observed k d res) as [d1 [[]|e]]; cbn [fst] in *; [|done].
  eapply soundStep_trans; [exact Hs|]. apply IH. apply Hs.
Qed.

Lemma announceLocal_step bcast k now d : reconciles -> running d -> soundStep d (announceLocal bcast k now d).1.
Proof.
  intros Hok Hr. unfold announceLocal. set (res := gossip.AnnounceHello _ _ _ _ _).
  assert (soundStep d (observed k d res).1) as Hs.
  { apply (observed_step k d (dPlane d)); [done|done|done|by destruct Hr|apply originate_sound|apply gossip.wf_originate; by destruct Hr]. }
  destruct (observed k d res) as [d1 [[]|e]]; cbn [fst] in *; [|done].
  eapply soundStep_trans; [exact Hs|]. apply announceSubnets_step; [done|apply Hs].
Qed.

Lemma originate_result bcast k now id kind body pl : (forall n e, bcast n e = None) ->
  (gossip.originate bcast k now id kind body pl).2 = Ok ().
Proof. intros Hb. rewrite gossip.originate_unfold. cbn [snd]. by rewrite Hb. Qed.

Lemma observed_result {E} k d (res : gossip.Plane * list gossip.event * result E unit) : (observed k d res).2 = res.2.
Proof. by destruct res as [[pl evs] r]. Qed.

(** Announcing fails only when the transport does. *)
Lemma announceLocal_Ok bcast k now d : (forall n e, bcast n e = None) -> (announceLocal bcast k now d).2 = Ok ().
Proof.
  intros Hb. assert (forall subs n d, (announceSubnets bcast k now n subs d).2 = Ok ()) as Hs.
  { induction subs as [|s subs IH]; intros n d0; [done|]. cbn [announceSubnets].
    set (res := gossip.AnnounceAddSubnet _ _ _ _ _). pose proof (observed_result k d0 res) as Hr.
    assert (res.2 = Ok ()) as E by by apply originate_result. rewrite E in Hr.
    destruct (observed k d0 res) as [d1 [[]|e]]; [apply IH|done]. }
  unfold announceLocal. set (res := gossip.AnnounceHello _ _ _ _ _). pose proof (observed_result k d res) as Hr.
  assert (res.2 = Ok ()) as E by by apply originate_result. rewrite E in Hr.
  destruct (observed k d res) as [d1 [[]|e]]; [apply Hs|done].
Qed.

Lemma wf_setG g pl : graph.wf g -> gossip.wf pl -> gossip.wf (gossip.setG g pl).
Proof. intros Hg [_ Ho Hk Ha]. split; try done. intros id e He. destruct (Ho id e He). by split. Qed.

(** Purging keeps the nodes, and with them the desired state. *)
Lemma purge_view k node pl : sameView pl (gossip.setG (daemon.purge k node (gossip.G pl)) pl).
Proof.
  assert (forall ns k reach g, graph.nodes (daemon.purgeNodes k reach ns g) = graph.nodes g) as Hn.
  { induction ns as [|n ns IH]; intros k' reach g; [done|]. cbn [daemon.purgeNodes]. rewrite IH.
    case_bool_decide; [done|]. apply daemon.clearEdges_nodes. }
  split; [apply Hn|done..].
Qed.

Lemma purge_step k d : running d ->
  soundStep d (setPlane (gossip.setG (daemon.purge k (daemon.NodeName (dLoaded d)) (gossip.G (dPlane d))) (dPlane d)) d).
Proof.
  intros [Hl Hw]. pose proof (gossip.wf_graph _ Hw) as Hg.
  destruct (daemon.purgeNodes_spec (graph.Reachable (daemon.NodeName (dLoaded d)) (gossip.G (dPlane d)))
    (graph.Nodes k (gossip.G (dPlane d))) k (gossip.G (dPlane d)) [] [] Hg) as (_ & Hwf & _).
  split_and!; [split; [done|by apply wf_setG]| |by right]. intros Hs. apply inSync_view; [apply purge_view|done].
Qed.

(** A file system with the same files gives the same desired state. *)
Lemma peerFor_files fs fs' p k l pl name : files fs' = files fs -> daemon.peerFor fs' p k l pl name = daemon.peerFor fs p k l pl name.
Proof.
  intros Hf. assert (forall q, ok (config.ParseFile fs' q) = ok (config.ParseFile fs q)) as Hp.
  { intros q. unfold config.ParseFile, os.ReadFile. rewrite Hf. destruct (files fs !! q); [done|]. by repeat case_decide. }
  unfold daemon.peerFor. by rewrite Hp.
Qed.

Lemma buildState_files fs fs' p k l pl : files fs' = files fs -> daemon.buildState fs' p k l pl = daemon.buildState fs p k l pl.
Proof.
  intros Hf. unfold daemon.buildState. f_equal. induction (graph.Nodes k (gossip.G pl)) as [|n ns IH]; [done|].
  cbn [omap list_omap]. rewrite (peerFor_files fs fs' p k l pl n Hf).
  destruct (daemon.peerFor fs p k l pl n); [f_equal|]; exact IH.
Qed.

(** The plane is told of the peer that joins: its host configuration has a key,
    and the Hello made of it can be read back by the plane. *)
Definition noticed (name : gostring) (hc : bytes) : bool :=
  match join.joinHello name hc with
  | Some h => is_ok (message.unmarshalHello (message.marshalHello h))
  | None => false
  end.

Lemma apply_hello_notifies k env pl : gossip.listener pl = true -> message.Kind env = message.KindAddNode ->
  existsb notifies (gossip.apply k env pl).2 = is_ok (message.unmarshalHello (message.Payload env)).
Proof.
  intros Hl Ek. unfold gossip.apply, gossip.applyKind. rewrite bool_decide_eq_true_2 by exact Ek.
  destruct (message.unmarshalHello (message.Payload env)) as [h|]; [|done]. cbn [ok mbind option_bind].
  by rewrite (gossip.core_listener _ _ (gossip.learnHello_core h pl)), Hl.
Qed.

Lemma announceHello_notifies bcast k now pl h : gossip.listener pl = true ->
  existsb notifies (gossip.AnnounceHello bcast k now pl h).1.2 = is_ok (message.unmarshalHello (message.marshalHello h)).
Proof.
  intros Hl. unfold gossip.AnnounceHello. rewrite gossip.originate_unfold. cbn [fst snd]. rewrite existsb_app.
  set (env := gossip.sign _ _). set (q := gossip.setSeen _ _).
  assert (message.Kind env = message.KindAddNode /\ message.Payload env = message.marshalHello h) as [Ek Ep]
    by (unfold env, gossip.sign; by destruct (gossip.edPriv pl)).
  rewrite (apply_hello_notifies k env q) by done. rewrite Ep. by destruct (is_ok _).
Qed.

(** What a JOIN does: an answered one of which the plane is told ends in sync;
    otherwise only the files have changed, and not even they if it is refused. *)
Lemma join_step bcast k now cookie name hc d : reconciles -> running d ->
  let '(d', r) := onInviteJoin bcast k now cookie name hc d in
  running d' /\
  match r with
  | Ok _ => if noticed name hc then inSync d' else dRec d' = dRec d /\ dLoaded d' = dLoaded d
  | Err _ => soundStep d d'
  end.
Proof.
  intros Hok [Hl Hw]. unfold onInviteJoin.
  destruct (join.handleInviteJoin _ _ _ _ _ _ _ _ _) as [[[fs pl] evs] r] eqn:Ej.
  destruct (notify_keeps k evs (setPlane pl (setFS fs d))) as (Kp & _).
  assert (running (setPlane pl d) -> running (notify k evs (setPlane pl (setFS fs d)))) as Hrun
    by (intros [? ?]; split; rewrite Kp; done).
  destruct r as [file|e].
  - apply join.join_answered in Ej as (_ & _ & _ & _ & _ & Epl). unfold noticed.
    destruct (join.joinHello name hc) as [h|]; [|injection Epl as -> ->; split; [by apply Hrun|done]].
    assert (pl = (gossip.AnnounceHello bcast k (now 0%nat) (dPlane d) h).1.1 /\
            evs = (gossip.AnnounceHello bcast k (now 0%nat) (dPlane d) h).1.2) as [E1 E2] by (by rewrite <- Epl).
    destruct (originate_sound bcast k (now 0%nat) (gossip.NodeName (dPlane d) ++ !"/hello") message.KindAddNode
        (message.marshalHello h) (dPlane d)) as (El & _ & Hv).
    fold (gossip.AnnounceHello bcast k (now 0%nat) (dPlane d) h) in *. split.
    + apply Hrun. subst pl. split; cbn [dPlane setPlane]; [etrans; [exact El|exact Hl]|by apply gossip.wf_originate].
    + pose proof (announceHello_notifies bcast k (now 0%nat) (dPlane d) h Hl) as En. rewrite <- E2 in En. rewrite <- En.
      destruct (existsb notifies evs) eqn:Eu; [apply notify_sync; auto|].
      destruct (notify_keeps k evs (setPlane pl (setFS fs d))) as (_ & _ & _ & -> & _).
      by rewrite notify_silent.
  - apply join.join_refused in Ej as (Hf & -> & ->). split; [by apply Hrun|]. split_and!; [by apply Hrun| |by right].
    intros Hs r Hr. destruct (Hs r Hr) as [k' Hk]. exists k'. unfold stateOf in *. cbn. by rewrite buildState_files with (fs := dFS d).
Qed.

(** What happens to a running daemon, with the answers of the transport, the
    iteration order of its loops and the clock. *)
Inductive event :=
| EvGossip (bcast : nat -> message.Envelope -> option nat) (k : nat) (env : message.Envelope)
| EvSignal (bcast : nat -> message.Envelope -> option nat) (k : nat) (now : nat -> Z) (s : signal)
| EvDial (bcast : nat -> message.Envelope -> option nat) (k : nat) (now : nat -> Z)
    (c : nat) (net : gostring -> result transport.dialError unit) (peer : gostring)
| EvEndpoint (bcast : nat -> message.Envelope -> option nat) (k : nat) (now : nat -> Z) (ep : netip.AddrPort)
| EvJoin (bcast : nat -> message.Envelope -> option nat) (k : nat) (now : nat -> Z) (cookie name : gostring) (hc : bytes)
| EvControl (bcast : nat -> message.Envelope -> option nat) (k : nat) (now : nat -> Z)
    (lt : daemon.error -> gostring) (gt : gossip.error -> gostring) (m : control.Message).

Definition handle (e : event) d : Daemon R :=
  match e with
  | EvGossip bcast k env => onGossip bcast k env d
  | EvSignal bcast k now s => onSignal bcast k now s d
  | EvDial bcast k now c net peer => (tryDialPeer bcast k now c net peer d).1
  | EvEndpoint bcast k now ep => (announceLocal bcast k now (setEndpoint ep d)).1
  | EvJoin bcast k now cookie name hc => (onInviteJoin bcast k now cookie name hc d).1
  | EvControl bcast k now lt gt m => (controlHandler bcast k now lt gt m d).1.1
  end.

Definition handles (es : list event) d : Daemon R := foldl (fun d e => handle e d) d es.

(** The events that change what the desired state is computed from and do not
    reconcile: a JOIN that is answered without the plane being told, and a
    reload whose announcement the transport refused. *)
Definition unreconciled (e : event) d : Prop :=
  match e with
  | EvJoin bcast k now cookie name hc => is_ok (onInviteJoin bcast k now cookie name hc d).2 = true /\ noticed name hc = false
  | EvControl bcast k now _ _ m =>
      control.Type' m = control.ReqReload /\
      exists l e, daemon.load (dFS d) (dPaths d) = Ok l /\ (announceLocal bcast k now (setLoaded l d)).2 = Err e
  | _ => False
  end.

Lemma signal_step bcast k now s d : reconciles -> running d ->
  let d' := onSignal bcast k now s d in running d' /\ inSync d'.
Proof.
  intros Hok Hr.
  assert (forall d0, running d0 -> running (applyReconcile k d0).1 /\ inSync (applyReconcile k d0).1) as Hrec.
  { intros d0 [Hl Hw]. split; [|by apply applyReconcile_sync].
    destruct (applyReconcile_keeps k d0) as (Kp & _). split; by rewrite Kp. }
  destruct s; [|by apply Hrec]. cbn [onSignal]. apply Hrec. unfold load.
  destruct (daemon.load (dFS d) (dPaths d)) as [l|e]; [|done].
  apply announceLocal_step; [done|]. by destruct Hr.
Qed.

(** One event. *)
Definition handled (e : event) d d' : Prop :=
  running d' /\ (inSync d -> inSync d' \/ unreconciled e d) /\ (inSync d' \/ dRec d' = dRec d).

Lemma soundStep_handled e d d' : soundStep d d' -> handled e d d'.
Proof. intros (? & ? & ?). unfold handled. auto. Qed.

Lemma control_step bcast k now lt gt m d : reconciles -> running d ->
  handled (EvControl bcast k now lt gt m) d (controlHandler bcast k now lt gt m d).1.1.
Proof.
  intros Hok Hr. unfold controlHandler.
  destruct (control.Type' m =? control.ReqStop); [apply soundStep_handled; split_and!; [by destruct Hr|done|by right]|].
  destruct (control.Type' m =? control.ReqReload) eqn:Et.
  { apply Z.eqb_eq in Et. unfold load. destruct (daemon.load (dFS d) (dPaths d)) as [l|e] eqn:El; [|by apply soundStep_handled, soundStep_refl].
    destruct (announceLocal_step bcast k now (setLoaded l d) Hok ltac:(by destruct Hr)) as (Hr' & _ & Hrec).
    destruct (announceLocal bcast k now (setLoaded l d)) as [d1 [[]|e]] eqn:Ea; cbn [fst] in *.
    - assert (inSync (applyReconcile k d1).1) by by apply applyReconcile_sync. unfold handled. split_and!; auto.
      destruct (applyReconcile_keeps k d1) as (Kp & _). destruct Hr'. split; by rewrite Kp.
    - split_and!; [done| |done]. intros _. right. split; [done|]. exists l, e. by rewrite Ea. }
  clear Et. do 4 (destruct (_ =? _); [by apply soundStep_handled, soundStep_refl|]).
  destruct (_ =? _); apply soundStep_handled; [by apply purge_step|by apply soundStep_refl].
Qed.

Lemma handle_step e d : reconciles -> running d -> handled e d (handle e d).
Proof.
  intros Hok Hr. destruct e as [bcast k env|bcast k now s|bcast k now c net peer|bcast k now ep|bcast k now cookie name hc
                               |bcast k now lt gt m]; cbn [handle].
  - apply soundStep_handled. destruct Hr as [Hl Hw].
    set (pl := gossip.SetVerifier (daemon.lookupPubKey (dFS d) (dPaths d) (dLoaded d)) (dPlane d)).
    apply (observed_step k d pl); [done..|apply Receive_sound|].
    apply gossip.wf_Receive. by eapply gossip.wf_planeStep; [apply gossip.step_verifier|].
  - destruct (signal_step bcast k now s d Hok Hr). unfold handled. auto.
  - apply soundStep_handled. unfold tryDialPeer. destruct (daemon.dialTarget _ _ _ _) as [t|]; [|by apply soundStep_refl].
    destruct (transport.Dial _ _ _ _) as [pool [[]|e]]; cbn [fst]; [|split_and!; [by destruct Hr|done|by right]].
    apply (announceLocal_step bcast k now (setPool pool d)); [done|by destruct Hr].
  - apply soundStep_handled, (announceLocal_step bcast k now (setEndpoint ep d)); [done|by destruct Hr].
  - pose proof (join_step bcast k now cookie name hc d Hok Hr) as Hj. unfold handled, unreconciled.
    destruct (onInviteJoin bcast k now cookie name hc d) as [d' [file|e]]; cbn [fst snd is_ok] in *.
    + destruct Hj as [Hr' Hj]. destruct (noticed name hc); [auto|]. destruct Hj as [Hj _]. split_and!; auto.
    + destruct Hj as [_ Hj]. by apply (soundStep_handled (EvGossip bcast 0 message.emptyEnvelope)) in Hj as (? & Hj & ?);
        split_and!; [done|intros Hi; destruct (Hj Hi) as [|[]]; by left|done].
  - by apply control_step.
Qed.

Lemma handles_app es e d : handles (es ++ [e]) d = handle e (handles es d).
Proof. unfold handles. by rewrite foldl_app. Qed.

(** Some events lead from one to the other. *)
Definition reaches d d' : Prop := exists es, d' = handles es d.

#[global] Instance reaches_refl : Reflexive reaches.
Proof. intros d. by exists []. Qed.
#[global] Instance reaches_trans : Transitive reaches.
Proof. intros d d1 d2 [es ->] [es' ->]. exists (es ++ es'). unfold handles. by rewrite foldl_app. Qed.

Lemma reaches_once e d : reaches d (handle e d).
Proof. by exists [e]. Qed.

(** C7.  The data plane follows the control plane.  Start from a daemon whose
    observer is installed and whose plane is well formed, on a machine where
    the reconciler succeeds, and let any sequence of events follow: gossip,
    signals, dialling, a new endpoint, invitations, control requests, each
    with any answer of the transport.  The plane stays well formed.  If the
    data plane realised the desired state computed from the configuration,
    the host files and the plane at the start, it still does at the end, or
    it is as one of two kinds of event left it: a JOIN that is answered
    without the plane being told, because the host configuration it brings
    has no usable Ed25519 key, or a reload of which the transport refused the
    announcement.  A signal brings it in sync in any case. *)
Theorem data_plane_in_sync d es : reconciles -> running d ->
  let d' := handles es d in
  running d' /\
  (inSync d ->
     inSync d' \/
     exists es1 e es2, es = es1 ++ e :: es2 /\ inSync (handles es1 d) /\ unreconciled e (handles es1 d) /\
       dRec d' = dRec (handle e (handles es1 d))) /\
  (forall bcast k now s, inSync (onSignal bcast k now s d')).
Proof.
  intros Hok Hr. cbn zeta.
  assert (running (handles es d) /\ (inSync d -> inSync (handles es d) \/
     exists es1 e es2, es = es1 ++ e :: es2 /\ inSync (handles es1 d) /\ unreconciled e (handles es1 d) /\
       dRec (handles es d) = dRec (handle e (handles es1 d)))) as [Hr' Hi'].
  { induction es as [|e es [Hr1 IH]] using rev_ind; [auto|]. rewrite handles_app.
    destruct (handle_step e (handles es d) Hok Hr1) as (Hr2 & Hs & Hrec). split; [done|]. intros Hi.
    destruct (IH Hi) as [Hi1|(es1 & e1 & es2 & -> & Hi1 & Hu & E)].
    - destruct (Hs Hi1) as [Hi2|Hu]; [by left|right]. by exists es, e, [].
    - destruct Hrec as [Hi2|Hrec]; [by left|right]. exists es1, e1, (es2 ++ [e]). rewrite <- app_assoc.
      split_and!; [done..|congruence]. }
  split_and!; [done|done|]. intros bcast k now s. by apply signal_step.
Qed.

(** The observer does not interfere: the plane and the result are those of the
    announcements alone. *)
Lemma announceLocal_plane bcast k now d :
  let '(pl, _, r) := daemon.announceLocal bcast k now (dLoaded d) (dEndpoint d) (dPlane d) in
  dPlane (announceLocal bcast k now d).1 = pl /\ (announceLocal bcast k now d).2 = r.
Proof.
  assert (forall E (d : Daemon R) (res : gossip.Plane * list gossip.event * result E unit),
    dPlane (observed k d res).1 = res.1.1 /\ (observed k d res).2 = res.2) as Ho.
  { intros E d0 [[pl evs] r]. unfold observed. cbn [fst snd].
    destruct (notify_keeps k evs (setPlane pl d0)) as (Kp & _). by rewrite Kp. }
  assert (forall subs n (d : Daemon R), let '(pl, _, r) := daemon.announceSubnets bcast k now n subs (dPlane d) in
    dPlane (announceSubnets bcast k now n subs d).1 = pl /\ (announceSubnets bcast k now n subs d).2 = r) as Hs.
  { induction subs as [|s subs IH]; intros n d0; [done|]. cbn [announceSubnets daemon.announceSubnets].
    set (res := gossip.AnnounceAddSubnet _ _ _ _ _). destruct (Ho _ d0 res) as [E1 E2].
    destruct (observed k d0 res) as [d1 r1], res as [[pl evs] r]. cbn [fst snd] in *. subst r1.
    destruct r as [[]|e]; [|done]. specialize (IH (S n) d1). rewrite E1 in IH.
    by destruct (daemon.announceSubnets bcast k now (S n) subs pl) as [[pl2 evs2] r2]. }
  unfold announceLocal, daemon.announceLocal. set (res := gossip.AnnounceHello _ _ _ _ _). destruct (Ho _ d res) as [E1 E2].
  destruct (observed k d res) as [d1 r1], res as [[pl evs] r]. cbn [fst snd] in *. subst r1.
  destruct r as [[]|e]; [|done]. specialize (Hs (daemon.Subnets (dLoaded d)) 1%nat d1). rewrite E1 in Hs.
  by destruct (daemon.announceSubnets bcast k now 1 (daemon.Subnets (dLoaded d)) pl) as [[pl2 evs2] r2].
Qed.
End sync.

(** ** A daemon announces itself *)

Definition helloID (node : gostring) : gostring := node ++ !"/hello".

Section announcing.
Context {R : Type} `{ReconcilerSpec R, Unicode, Ed25519, X509, WGTypes, MapOrder}.
Context (bcast : nat -> message.Envelope -> option nat) (k : nat) (now : nat -> Z).
Implicit Types d : Daemon R.

(** The envelope around the node's own Hello. *)
Definition helloEnv d (t : Z) : message.Envelope :=
  gossip.sign (dPlane d) (message.MkEnvelope (helloID (gossip.NodeName (dPlane d))) (gossip.NodeName (dPlane d))
    message.KindAddNode t (message.marshalHello (daemon.localHello (dLoaded d) (dEndpoint d))) []).

Lemma helloEnv_fields d t :
  message.ID (helloEnv d t) = helloID (gossip.NodeName (dPlane d)) /\ message.Origin (helloEnv d t) = gossip.NodeName (dPlane d) /\
  message.Kind (helloEnv d t) = message.KindAddNode /\ message.TS (helloEnv d t) = t /\
  message.Payload (helloEnv d t) = message.marshalHello (daemon.localHello (dLoaded d) (dEndpoint d)).
Proof. unfold helloEnv. by destruct (gossip.sign_fields (dPlane d) (message.MkEnvelope (helloID (gossip.NodeName (dPlane d)))
  (gossip.NodeName (dPlane d)) message.KindAddNode t (message.marshalHello (daemon.localHello (dLoaded d) (dEndpoint d))) []))
  as (-> & -> & -> & -> & -> & _). Qed.

(** What [originate] leaves in the tables of the plane. *)
Lemma originate_core t id kind body pl :
  let q := (gossip.originate bcast k t id kind body pl).1.1 in
  gossip.NodeName q = gossip.NodeName pl /\ gossip.seen q = <[id := t]> (gossip.seen pl) /\
  gossip.outbox q = <[id := gossip.sign pl (message.MkEnvelope id (gossip.NodeName pl) kind t body [])]> (gossip.outbox pl).
Proof.
  rewrite gossip.originate_unfold. cbn zeta. cbn [fst]. set (env := gossip.sign _ _).
  destruct (gossip.apply_core k env (gossip.setSeen (<[id := t]> (gossip.seen pl))
    (gossip.setOutbox (<[id := env]> (gossip.outbox pl)) pl))) as [-> -> -> _ _ _]. done.
Qed.

(** And what it leaves alone. *)
Lemma originate_fixed t id kind body pl :
  let q := (gossip.originate bcast k t id kind body pl).1.1 in
  gossip.NodeName q = gossip.NodeName pl /\ gossip.listener q = gossip.listener pl /\
  gossip.edPriv q = gossip.edPriv pl /\ gossip.pubKeyFor q = gossip.pubKeyFor pl.
Proof.
  rewrite gossip.originate_unfold. cbn zeta. cbn [fst]. set (env := gossip.sign _ _).
  destruct (gossip.apply_core k env (gossip.setSeen (<[id := t]> (gossip.seen pl))
    (gossip.setOutbox (<[id := env]> (gossip.outbox pl)) pl))) as [-> _ _ -> -> ->]. done.
Qed.

(** The parts of a daemon that its announcements leave alone. *)
Definition fixed d d' : Prop := dFS d' = dFS d /\ dPaths d' = dPaths d /\ dLoaded d' = dLoaded d.

Lemma fixed_trans d d1 d2 : fixed d d1 -> fixed d1 d2 -> fixed d d2.
Proof. intros (E1 & E2 & E3) (F1 & F2 & F3). unfold fixed. by rewrite F1, F2, F3. Qed.

Lemma observed_plane {E} d (res : gossip.Plane * list gossip.event * result E unit) :
  dPlane (observed k d res).1 = res.1.1 /\ fixed d (observed k d res).1.
Proof.
  destruct res as [[pl evs] r]. destruct (notify_keeps k evs (setPlane pl d)) as (E1 & E2 & E3 & E4 & _).
  unfold observed, fixed. cbn [fst]. by rewrite E1, E2, E3, E4.
Qed.

Lemma announceSubnets_fixed n subs d : fixed d (announceSubnets bcast k now n subs d).1.
Proof.
  revert n d. induction subs as [|s subs IH]; intros n d; [done|]. cbn [announceSubnets].
  destruct (observed_plane d (gossip.AnnounceAddSubnet bcast k (now n) (dPlane d) (subnet.String s))) as [_ Of].
  destruct (observed k d _) as [d1 [[]|e]]; cbn [fst] in *; [|done]. eapply fixed_trans; [exact Of|apply IH].
Qed.

Lemma announceLocal_fixed d : fixed d (announceLocal bcast k now d).1.
Proof.
  unfold announceLocal. set (res := gossip.AnnounceHello _ _ _ _ _). destruct (observed_plane d res) as [_ Of].
  destruct (observed k d res) as [d1 [[]|e]]; cbn [fst] in *; [|done].
  eapply fixed_trans; [exact Of|apply announceSubnets_fixed].
Qed.

(** What the planes of all these daemons share. *)
Lemma announceLocal_plane_ind (P : gossip.Plane -> Prop) d :
  (forall t id kind body pl, P pl -> P (gossip.originate bcast k t id kind body pl).1.1) ->
  P (dPlane d) -> P (dPlane (announceLocal bcast k now d).1).
Proof.
  intros Ho Hp. assert (forall subs n d, P (dPlane d) -> P (dPlane (announceSubnets bcast k now n subs d).1)) as Hs.
  { clear d Hp. induction subs as [|s subs IH]; intros n d Hp; [done|]. cbn [announceSubnets]. unfold gossip.AnnounceAddSubnet.
    match goal with |- context [observed k d ?res] => destruct (observed_plane d res) as [E _] end.
    destruct (observed k d _) as [d1 [[]|e]]; cbn [fst] in *; [apply IH|]; rewrite E; by apply Ho. }
  unfold announceLocal, gossip.AnnounceHello.
  match goal with |- context [observed k d ?res] => destruct (observed_plane d res) as [E _] end.
  destruct (observed k d _) as [d1 [[]|e]]; cbn [fst] in *; [apply Hs|]; rewrite E; by apply Ho.
Qed.

(** The key the plane signs with is the one it started with: no event, and so
    no reload, changes it. *)
Lemma announce_signer d : gossip.edPriv (dPlane (announceLocal bcast k now d).1) = gossip.edPriv (dPlane d).
Proof.
  apply (announceLocal_plane_ind (fun pl => gossip.edPriv pl = gossip.edPriv (dPlane d))); [|done].
  intros t id kind body pl <-. apply originate_sound.
Qed.

Lemma reload_keeps_signer d : gossip.edPriv (dPlane (onSignal bcast k now SIGHUP d)) = gossip.edPriv (dPlane d).
Proof.
  cbn [onSignal]. unfold load.
  destruct (daemon.load (dFS d) (dPaths d)) as [l|e]; cbn [fst].
  - destruct (applyReconcile_keeps k (announceLocal bcast k now (setLoaded l d)).1) as (Kp & _).
    by rewrite Kp, announce_signer.
  - destruct (applyReconcile_keeps k d) as (Kp & _). by rewrite Kp.
Qed.

(** The other parts. *)
Definition restOf d : gostring * transport.Server * netip.AddrPort * bool := (dRunDir d, dPool d, dEndpoint d, dExited d).

Lemma applyReconcile_rest d : restOf (applyReconcile k d).1 = restOf d.
Proof. unfold applyReconcile. destruct (dRec d) as [r|]; [|done]. by destruct (rec_apply _ r). Qed.

Lemma notify_rest evs d : restOf (notify k evs d) = restOf d.
Proof.
  unfold notify. revert d. induction evs as [|ev evs IH]; intros d; [done|]. cbn [foldl]. rewrite IH.
  destruct ev; [done|apply applyReconcile_rest].
Qed.

Lemma observed_rest {E} d (res : gossip.Plane * list gossip.event * result E unit) : restOf (observed k d res).1 = restOf d.
Proof. destruct res as [[pl evs] r]. exact (notify_rest evs (setPlane pl d)). Qed.

Lemma announceLocal_rec d : is_Some (dRec (announceLocal bcast k now d).1) <-> is_Some (dRec d).
Proof.
  assert (forall E d (res : gossip.Plane * list gossip.event * result E unit), is_Some (dRec (observed k d res).1) <-> is_Some (dRec d)) as Ho.
  { intros E d0 [[pl evs] r]. destruct (notify_keeps k evs (setPlane pl d0)) as (_ & _ & _ & _ & Hr). exact Hr. }
  assert (forall subs n d, is_Some (dRec (announceSubnets bcast k now n subs d).1) <-> is_Some (dRec d)) as Hs.
  { clear d. induction subs as [|s subs IH]; intros n d; [done|]. cbn [announceSubnets].
    match goal with |- context [observed k d ?res] => pose proof (Ho _ d res) as E end.
    destruct (observed k d _) as [d1 [[]|e]]; cbn [fst] in *; [by rewrite IH|done]. }
  unfold announceLocal. match goal with |- context [observed k d ?res] => pose proof (Ho _ d res) as E end.
  destruct (observed k d _) as [d1 [[]|e]]; cbn [fst] in *; [by rewrite Hs|done].
Qed.

Lemma announceLocal_rest d : restOf (announceLocal bcast k now d).1 = restOf d.
Proof.
  assert (forall subs n d, restOf (announceSubnets bcast k now n subs d).1 = restOf d) as Hs.
  { clear d. induction subs as [|s subs IH]; intros n d; [done|]. cbn [announceSubnets].
    match goal with |- context [observed k d ?res] => pose proof (observed_rest d res) as E end.
    destruct (observed k d _) as [d1 [[]|e]]; cbn [fst] in *; [by rewrite IH|done]. }
  unfold announceLocal. match goal with |- context [observed k d ?res] => pose proof (observed_rest d res) as E end.
  destruct (observed k d _) as [d1 [[]|e]]; cbn [fst] in *; [by rewrite Hs|done].
Qed.

(** The node's facts about subnets leave every other entry of the tables
    alone. *)
Lemma announceSubnets_tables n subs d id : (forall s, id <> gossip.NodeName (dPlane d) ++ !"/subnet/" ++ s) ->
  let d' := (announceSubnets bcast k now n subs d).1 in
  gossip.outbox (dPlane d') !! id = gossip.outbox (dPlane d) !! id /\
  gossip.seen (dPlane d') !! id = gossip.seen (dPlane d) !! id.
Proof.
  revert n d. induction subs as [|s subs IH]; intros n d Hid; [done|]. cbn [announceSubnets]. unfold gossip.AnnounceAddSubnet.
  set (i := gossip.NodeName (dPlane d) ++ !"/subnet/" ++ subnet.String s). set (body := message.marshalAddSubnet _).
  destruct (originate_core (now n) i message.KindAddSubnet body (dPlane d)) as (Cn & Cs & Co).
  destruct (observed_plane d (gossip.originate bcast k (now n) i message.KindAddSubnet body (dPlane d))) as [Op _].
  rewrite <- Op in Cn, Cs, Co. destruct (observed k d _) as [d1 [[]|e]]; cbn [fst] in *.
  - destruct (IH (S n) d1) as [-> ->]; [intros x; rewrite Cn; apply Hid|]. by rewrite Co, Cs, !lookup_insert_ne by apply not_eq_sym, Hid.
  - by rewrite Co, Cs, !lookup_insert_ne by apply not_eq_sym, Hid.
Qed.

(** [announceLocal] files the Hello under its ID and touches no fact of
    another node. *)
Lemma announceLocal_tables d :
  let d' := (announceLocal bcast k now d).1 in let me := gossip.NodeName (dPlane d) in
  gossip.outbox (dPlane d') !! helloID me = Some (helloEnv d (now 0%nat)) /\
  forall id, id <> helloID me -> (forall s, id <> me ++ !"/subnet/" ++ s) -> gossip.seen (dPlane d') !! id = gossip.seen (dPlane d) !! id.
Proof.
  unfold announceLocal, gossip.AnnounceHello. set (body := message.marshalHello _).
  destruct (originate_core (now 0%nat) (helloID (gossip.NodeName (dPlane d))) message.KindAddNode body (dPlane d)) as (Cn & Cs & Co).
  destruct (observed_plane d (gossip.originate bcast k (now 0%nat) (helloID (gossip.NodeName (dPlane d))) message.KindAddNode body (dPlane d)))
    as [Op _].
  rewrite <- Op in Cn, Cs, Co. fold (helloID (gossip.NodeName (dPlane d))).
  destruct (observed k d _) as [d1 [[]|e]]; cbn [fst] in *.
  - split.
    + destruct (announceSubnets_tables 1 (daemon.Subnets (dLoaded d)) d1 (helloID (gossip.NodeName (dPlane d)))) as [-> _].
      { intros s E. rewrite Cn in E. apply app_inv_head in E. discriminate E. }
      by rewrite Co, lookup_insert_eq.
    + intros id H1' H2'. destruct (announceSubnets_tables 1 (daemon.Subnets (dLoaded d)) d1 id) as [_ ->]; [intros x; rewrite Cn; apply H2'|].
      by rewrite Cs, lookup_insert_ne by apply not_eq_sym, H1'.
  - split.
    + by rewrite Co, lookup_insert_eq.
    + intros id H1' H2'. by rewrite Cs, lookup_insert_ne by apply not_eq_sym, H1'.
Qed.
End announcing.

(** ** A running daemon *)
Module demo.
Import toy gossip.demo.

Definition d : Daemon fake.Reconciler :=
  MkDaemon daemon.demo.p !"/run" (Some fake.New) daemon.demo.l (gossip.OnMessage daemon.demo.pl) (transport.MkServer ∅)
    netip.AddrPortZero daemon.demo.fs false.

Definition noText {A} (x : A) : gostring := [].
Definition purge : control.Message := control.MkMessage control.ClassRequest control.ReqPurge [].
Definition clock (n : nat) : Z := Z.of_nat n.
Definition alarm : event := EvSignal noErr 0 clock SIGALRM.

(** The same daemon before it has a host file for "b", for which it has issued
    an invitation. *)
Definition dInviting : Daemon fake.Reconciler :=
  setFS (MkFS {[ !"/etc/gsnet/vpn/invitations/c0" := MkFile (!"Name = b" ++ [nl]) 384 ]}
           {[ !"/etc/gsnet/vpn/invitations"; !"/etc/gsnet/vpn/hosts"; !"/etc/gsnet/vpn"; !"/etc/gsnet"; !"/etc"; !"/" ]}) d.

(** "b" joins with a WireGuard key and no Ed25519 key. *)
Definition keyless : event := EvJoin noErr 0 clock !"c0" !"b" (!"WGPublicKey = " ++ daemon.demo.keyText ++ [nl]).
Definition purged : event := EvControl noErr 0 clock noText noText purge.
End demo.
Import demo toy gossip.demo.

Lemma demo_wf : gossip.wf (dPlane d).
Proof.
  apply (gossip.wf_planeStep daemon.demo.pl); [apply gossip.step_observer|].
  unfold daemon.demo.pl, gossip.setAddrs. split.
  - apply graph.wf_AddEdge, graph.wf_New.
  - intros id e He. discriminate He.
  - intros n pub Hn. discriminate Hn.
  - split_and!; [intros n a Hn; discriminate Hn| |intros n s Hn; discriminate Hn].
    intros n a Hn. cbn in Hn. apply lookup_singleton_Some in Hn as [_ <-]. reflexivity.
Qed.

Lemma fake_reconciles : @reconciles fake.Reconciler _.
Proof. intros s r. eexists. reflexivity. Qed.

Lemma data_plane_in_sync_witness : running (handles [alarm; purged] d) /\ inSync (handles [alarm; purged] d).
Proof.
  assert (running d) as Hr by (split; [reflexivity|apply demo_wf]).
  destruct (data_plane_in_sync d [alarm] fake_reconciles Hr) as (Hr1 & _ & _).
  destruct (data_plane_in_sync (handles [alarm] d) [purged] fake_reconciles Hr1) as (Hr2 & Hi & _). split; [exact Hr2|].
  destruct Hi as [Hi|(es1 & e & es2 & E & _ & Hu & _)]; [|exact Hi|].
  - destruct (data_plane_in_sync d [] fake_reconciles Hr) as (_ & _ & Hs). exact (Hs noErr 0%nat clock SIGALRM).
  - destruct es1 as [|e1 es1]; [|by destruct es1]. injection E as <- _. by destruct Hu as [Hu _].
Defined.

(** The exception happens: the daemon is in sync, answers the JOIN and writes
    the host file of a node it already knows of; the desired state now has
    that peer and the data plane does not. *)
Theorem keyless_join_out_of_sync :
  running (handles [alarm] dInviting) /\ inSync (handles [alarm] dInviting) /\
  unreconciled keyless (handles [alarm] dInviting) /\ ~ inSync (handles [alarm; keyless] dInviting).
Proof.
  assert (running dInviting) as Hr by (split; [reflexivity|apply demo_wf]).
  destruct (signal_step noErr 0 clock SIGALRM dInviting fake_reconciles Hr) as [Hr1 Hi1].
  split_and!; [exact Hr1|exact Hi1|vm_compute; done|].
  intros Hs. destruct (dRec (handles [alarm; keyless] dInviting)) as [r|] eqn:Er; [|vm_compute in Er; discriminate Er].
  destruct (Hs r Er) as [k Hk].
  assert (dataplane.Peers <$> (dRec (handles [alarm; keyless] dInviting) ≫= fake.Last)
          = Some (dataplane.Peers (stateOf k (handles [alarm; keyless] dInviting)))) as E
    by (rewrite Er; cbn [mbind option_bind]; by rewrite Hk).
  vm_compute in E. injection E as E. discriminate E.
Qed.

Example dump_nodes_text :
  (controlHandler noErr 0 (fun n => Z.of_nat n) noText noText (control.MkMessage 18 4 []) d).1.2
  = unlines [!"18 4 b"; !"18 4 a"; !"18 4"] \/
  (controlHandler noErr 0 (fun n => Z.of_nat n) noText noText (control.MkMessage 18 4 []) d).1.2
  = unlines [!"18 4 a"; !"18 4 b"; !"18 4"].
Proof. vm_compute. auto. Qed.
End events.
