(* ===== verification/DaemonConcurrent.v ===== *)
(** * The goroutines of a running daemon (internal/daemon/daemon.go)

    Every peer connection, the signal loop, the control connections, the
    dialers, the discovery loop and the connections that bring an invitation
    run in goroutines of their own and nearly all of them end up in
    [applyReconcile].  No lock is held across it: the desired
    state is read peer by peer and handed to the reconciler later.  Here a
    goroutine is a program of small actions; one step of the relation lets one
    goroutine perform one action on the shared daemon.  An action is what the
    code does between two points where another goroutine may run and matter
    for the data plane; the critical sections inside [Plane.apply], inside
    one round of the loop of [buildState] and inside [Reconcile] are taken
    together.

    A program is a list of blocks; an action that fails drops the rest of its
    block, which is how the early returns of the code are written. *)

From Stdlib Require Import Ascii String ZArith Lia.
From stdpp Require Import base tactics list gmap strings.
From S2P Require Import Prelude.
From S2P Require Import GoStrings.
From S2P Require Import FS.
From S2P Require Import NetIP.
From S2P Require Import Graph.
From S2P Require Import Config.
From S2P Require Import Subnet.
From S2P Require Import Keys.
From S2P Require Import Message.
From S2P Require Import Gossip.
From S2P Require Import Control.
From S2P Require Import Transport.
From S2P Require Import Dataplane.
From S2P Require Import Daemon.
From S2P Require Import DaemonJoin.
From S2P Require Import DaemonEvents.

Local Open Scope Z_scope.

Module goroutines.
Import events.

Inductive action :=
| Verify (env : message.Envelope) | Claim (env : message.Envelope)      (* Plane.Receive *)
| Mint (id kind : gostring) (body : bytes)                              (* Plane.originate *)
| Apply (env : message.Envelope) | Send (env : message.Envelope)        (* both *)
| Load | Announce | SetEndpoint (ep : netip.AddrPort)
| JoinCheck (cookie name : gostring) | JoinMkdir                        (* handleInviteJoin *)
| JoinWrite (name : gostring) (hc : bytes)
| JoinRemove (cookie name : gostring) (hc : bytes)
| JoinTell (name : gostring) (hc : bytes)
| Purge                                                                 (* the control request *)
| Build                                                                 (* applyReconcile *)
| Nodes (k : nat) (l : daemon.loaded)
| Visit (k : nat) (l : daemon.loaded) (todo : list gostring) (ps : list dataplane.Peer)
| Install (s : dataplane.State).

Definition block : Type := list action.
Definition goroutine : Type := list block.

(** What starts a goroutine, or a round of one that loops. *)
Inductive event :=
| Gossip (env : message.Envelope) | Signal (s : signal) | Reload | Dialled | Discovered (ep : netip.AddrPort)
| Join (cookie name : gostring) (hc : bytes) | Purged.

Definition program (e : event) : goroutine :=
  match e with
  | Gossip env => [[Verify env; Claim env; Apply env; Send env]]
  | Signal SIGHUP => [[Load; Announce]; [Build]]
  | Signal SIGALRM => [[Build]]
  | Reload => [[Load; Announce; Build]]
  | Dialled => [[Announce]]
  | Discovered ep => [[SetEndpoint ep; Announce]]
  | Join cookie name hc => [[JoinCheck cookie name; JoinMkdir; JoinWrite name hc; JoinRemove cookie name hc; JoinTell name hc]]
  | Purged => [[Purge]]
  end.

(** The shared daemon; [handed] and [sent] record what was given to the
    reconciler and to the transport, [joins] the joins on behalf of which a
    file was written or removed. *)
Record Shared {R : Type} := MkShared {
  dm : Daemon R; handed : list dataplane.State; sent : list message.Envelope; joins : list (gostring * bytes)
}.
Arguments Shared R : clear implicits.
Arguments MkShared {R}.

Section steps.
Context {R : Type} `{Reconciler R, Unicode, Ed25519, X509, WGTypes, MapOrder}.
Context (bcast : nat -> message.Envelope -> option nat).
Implicit Types (s : Shared R) (d : Daemon R).

Definition withDaemon (f : Daemon R -> Daemon R) s : Shared R := MkShared (f (dm s)) (handed s) (sent s) (joins s).

(** The state [buildState] fills in around the list of peers. *)
Definition stateWith (l : daemon.loaded) (ps : list dataplane.Peer) : dataplane.State :=
  dataplane.MkState (daemon.LMode l) (keys.WGKey (daemon.WGPriv l)) (daemon.WGInterface l) (daemon.WGListenPort l)
    (daemon.VXLANIface l) (daemon.VXLANID l) (daemon.VXLANPort l) (daemon.InnerAddr l) (daemon.UnderlayAddr l)
    (daemon.MTU l) ps.

(** A file has been changed for this join. *)
Definition joined (name : gostring) (hc : bytes) (fs : FS) s : Shared R :=
  MkShared (setFS fs (dm s)) (handed s) (sent s) (joins s ++ [(name, hc)]).

(** What [announceLocal] announces, with the configuration and the endpoint it
    starts from. *)
Definition announcements (l : daemon.loaded) (ep : netip.AddrPort) (node : gostring) : block :=
  Mint (node ++ !"/hello") message.KindAddNode (message.marshalHello (daemon.localHello l ep)) ::
  map (fun sub => Mint (node ++ !"/subnet/" ++ subnet.String sub) message.KindAddSubnet
                    (message.marshalAddSubnet (message.MkAddSubnet node (subnet.String sub)))) (daemon.Subnets l).

(** One action, followed by [rest] in its block: the blocks that replace it.
    [k] chooses iteration orders, [now] is the clock. *)
Definition perform (k : nat) (now : Z) (a : action) (rest : block) s : goroutine * Shared R :=
  let d := dm s in
  let pl := dPlane d in
  match a with
  | Verify env =>
      let pl := gossip.SetVerifier (daemon.lookupPubKey (dFS d) (dPaths d) (dLoaded d)) pl in
      (if gossip.verify pl env then [rest] else [], withDaemon (setPlane pl) s)
  | Claim env =>
      let '(pl, won) := gossip.claim (message.ID env) (message.TS env) pl in
      (if won then [rest] else [], withDaemon (setPlane pl) s)
  | Mint id kind body =>
      let env := gossip.sign pl (message.MkEnvelope id (gossip.NodeName pl) kind now body []) in
      ([Apply env :: Send env :: rest],
       withDaemon (setPlane (gossip.setSeen (<[id := now]> (gossip.seen pl))
                               (gossip.setOutbox (<[id := env]> (gossip.outbox pl)) pl))) s)
  | Apply env =>
      let '(pl, evs) := gossip.apply k env pl in
      ((if existsb notifies evs then [[Build]] else []) ++ [rest], withDaemon (setPlane pl) s)
  | Send env =>
      (match bcast 0%nat env with None => [rest] | Some _ => [] end, MkShared d (handed s) (sent s ++ [env]) (joins s))
  | Load => match load d with
            | (d, Ok _) => ([rest], withDaemon (fun _ => d) s)
            | (d, Err _) => ([], withDaemon (fun _ => d) s)
            end
  | Announce => ([announcements (dLoaded d) (dEndpoint d) (gossip.NodeName pl) ++ rest], s)
  | SetEndpoint ep => ([rest], withDaemon (setEndpoint ep) s)
  | JoinCheck cookie name => (if is_ok (join.joinCheck (dFS d) (dPaths d) cookie name) then [rest] else [], s)
  | JoinMkdir => match os.MkdirAll (dFS d) (paths.HostsDir (dPaths d)) with
                 | Ok fs => ([rest], withDaemon (setFS fs) s)
                 | Err _ => ([], s)
                 end
  | JoinWrite name hc => match os.WriteFile (dFS d) (paths.HostFile (dPaths d) name) hc 420 with
                         | Ok fs => ([rest], joined name hc fs s)
                         | Err _ => ([], s)
                         end
  | JoinRemove cookie name hc => match os.Remove (dFS d) (join.invitationFile (dPaths d) cookie) with
                                 | Ok fs => ([rest], joined name hc fs s)
                                 | Err _ => ([rest], s)
                                 end
  | JoinTell name hc => (match join.joinHello name hc with
                         | Some h => [[Mint (gossip.NodeName pl ++ !"/hello") message.KindAddNode (message.marshalHello h)]]
                         | None => []
                         end ++ [rest], s)
  | Purge => ([rest], withDaemon (setPlane (gossip.setG (daemon.purge k (daemon.NodeName (dLoaded d)) (gossip.G pl)) pl)) s)
  | Build => ([match dRec d with Some _ => Nodes k (dLoaded d) :: rest | None => rest end], s)
  | Nodes k l => ([Visit k l (graph.Nodes k (gossip.G pl)) [] :: rest], s)
  | Visit k l [] ps => ([Install (stateWith l ps) :: rest], s)
  | Visit k l (n :: todo) ps =>
      ([Visit k l todo (ps ++ option_list (daemon.peerFor (dFS d) (dPaths d) k l pl n)) :: rest], s)
  | Install st =>
      match dRec d with
      | Some r => ([rest], MkShared (setRec (Some (rec_apply st r).1) d) (handed s ++ [st]) (sent s) (joins s))
      | None => ([rest], s)
      end
  end.

(** One step of one goroutine. *)
Inductive gstep : goroutine * Shared R -> goroutine * Shared R -> Prop :=
| gstep_perform k now a rest bs s : gstep ((a :: rest) :: bs, s) ((perform k now a rest s).1 ++ bs, (perform k now a rest s).2)
| gstep_return bs s : gstep ([] :: bs, s) (bs, s).

Record State := MkState { shared : Shared R; gs : list goroutine }.

Inductive step : State -> State -> Prop :=
| step_start e s ts : step (MkState s ts) (MkState s (ts ++ [program e]))
| step_run i t t' s s' ts : ts !! i = Some t -> gstep (t, s) (t', s') -> step (MkState s ts) (MkState s' (<[i := t']> ts)).

(** Every goroutine has come to its end. *)
Definition quiescent (w : State) : Prop := Forall (fun t => t = []) (gs w).
End steps.

(** ** One goroutine alone

    Run without interruption, a goroutine does what the event functions of
    the running daemon do. *)

Section alone.
Context {R : Type} `{Reconciler R, Unicode, Ed25519, X509, WGTypes, MapOrder}.
Context (bcast : nat -> message.Envelope -> option nat) (k : nat) (now : nat -> Z).
Context (loadText : daemon.error -> gostring) (gossipText : gossip.error -> gostring).
Implicit Types (s : Shared R) (d : Daemon R).

Definition sequential (e : event) d : Daemon R :=
  match e with
  | Gossip env => onGossip bcast k env d
  | Signal sg => onSignal bcast k now sg d
  | Reload => (controlHandler bcast k now loadText gossipText (control.MkMessage control.ClassRequest control.ReqReload []) d).1.1
  | Dialled => (announceLocal bcast k now d).1
  | Discovered ep => (announceLocal bcast k now (setEndpoint ep d)).1
  | Join cookie name hc => (onInviteJoin bcast k now cookie name hc d).1
  | Purged => (controlHandler bcast k now loadText gossipText (control.MkMessage control.ClassRequest control.ReqPurge []) d).1.1
  end.

(** From [t] and [s] the goroutine alone reaches [t'] and the daemon [d]. *)
Definition leads (t : goroutine) s (t' : goroutine) d : Prop :=
  exists s', rtc (gstep bcast) (t, s) (t', s') /\ dm s' = d.

Lemma leads_refl t s : leads t s t (dm s).
Proof. exists s. split; [apply rtc_refl|done]. Qed.

Lemma leads_trans t s t1 d1 t2 d2 : leads t s t1 d1 ->
  (forall s1, dm s1 = d1 -> leads t1 s1 t2 d2) -> leads t s t2 d2.
Proof. intros (s1 & H1' & E1) H2'. destruct (H2' s1 E1) as (s2 & H3' & E2). exists s2. split; [by etrans|done]. Qed.

Lemma leads_step kk nn a rest bs s t d :
  leads ((perform bcast kk nn a rest s).1 ++ bs) (perform bcast kk nn a rest s).2 t d -> leads ((a :: rest) :: bs) s t d.
Proof. intros (s' & Hs & E). exists s'. split; [|done]. eapply rtc_l; [by apply (gstep_perform _ kk nn)|done]. Qed.

Lemma leads_return bs s t d : leads bs s t d -> leads ([] :: bs) s t d.
Proof. intros (s' & Hs & E). exists s'. split; [|done]. eapply rtc_l; [apply gstep_return|done]. Qed.

Lemma visits kk l todo ps rest bs s t d :
  leads ((Install (stateWith l (ps ++ omap (daemon.peerFor (dFS (dm s)) (dPaths (dm s)) kk l (dPlane (dm s))) todo)) :: rest) :: bs) s t d ->
  leads ((Visit kk l todo ps :: rest) :: bs) s t d.
Proof.
  revert ps. induction todo as [|n todo IH]; intros ps Hl.
  - cbn [omap list_omap] in Hl. rewrite app_nil_r in Hl. by apply (leads_step 0 0).
  - apply (leads_step 0 0). cbn [perform fst snd app]. apply IH. cbn [omap list_omap] in Hl.
    destruct (daemon.peerFor _ _ _ _ _ n) as [q|]; cbn [option_list]; [|by rewrite app_nil_r].
    by rewrite <- app_assoc.
Qed.

Lemma builds_alone rest bs s : leads ((Build :: rest) :: bs) s (rest :: bs) (applyReconcile k (dm s)).1.
Proof.
  apply (leads_step k 0). cbn [perform fst snd app]. unfold applyReconcile. destruct (dRec (dm s)) as [r|] eqn:Er.
  - apply (leads_step k 0). cbn [perform fst snd app]. apply visits, (leads_step k 0). cbn [perform app]. rewrite Er. cbn [fst snd].
    change (stateWith _ _) with (stateOf k (dm s)). destruct (rec_apply (stateOf k (dm s)) r) as [r' res]. cbn [fst snd app].
    eexists. split; [apply rtc_refl|done].
  - cbn [fst]. apply leads_refl.
Qed.

(** The observer after an applied envelope. *)
Lemma applies_alone env rest bs s :
  leads ((Apply env :: rest) :: bs) s (rest :: bs)
    (notify k (gossip.apply k env (dPlane (dm s))).2 (setPlane (gossip.apply k env (dPlane (dm s))).1 (dm s))).
Proof.
  apply (leads_step k 0). cbn [perform]. unfold gossip.apply.
  destruct (gossip.applyKind k env (dPlane (dm s))) as [pl|]; [destruct (gossip.listener pl)|];
    cbn [fst snd existsb notifies orb app notify foldl]; [|eexists; split; [apply rtc_refl|done]..].
  eapply leads_trans; [apply (builds_alone [] (rest :: bs))|]. intros s1 E1. apply leads_return. exists s1. split; [apply rtc_refl|exact E1].
Qed.

Lemma sends_alone env rest bs s :
  leads ((Send env :: rest) :: bs) s (match bcast 0%nat env with None => rest :: bs | Some _ => bs end) (dm s).
Proof.
  apply (leads_step 0 0). cbn [perform]. destruct (bcast 0%nat env); (eexists; split; [apply rtc_refl|done]).
Qed.

Lemma notify_app evs env d : notify k (evs ++ [gossip.Broadcasts env]) d = notify k evs d.
Proof. unfold notify. by rewrite foldl_app. Qed.

Lemma mints_alone n id kind body rest bs s :
  let res := observed k (dm s) (gossip.originate bcast k n id kind body (dPlane (dm s))) in
  leads ((Mint id kind body :: rest) :: bs) s (if is_ok res.2 then rest :: bs else bs) res.1.
Proof.
  cbn zeta. rewrite gossip.originate_unfold. unfold observed. cbn [fst snd]. rewrite notify_app.
  apply (leads_step k n). cbn [perform fst snd app]. eapply leads_trans; [apply applies_alone|]. intros s1 E1.
  eapply leads_trans; [apply sends_alone|]. intros s2 E2. exists s2.
  split; [destruct (bcast 0%nat _); apply rtc_refl|exact (eq_trans E2 E1)].
Qed.

(** No observer run changes the name of the plane's node. *)
Lemma originate_name n id kind body d :
  gossip.NodeName (dPlane (observed k d (gossip.originate bcast k n id kind body (dPlane d))).1) = gossip.NodeName (dPlane d).
Proof.
  rewrite gossip.originate_unfold. unfold observed. cbn [fst].
  match goal with |- context [notify k ?evs ?d0] => destruct (notify_keeps k evs d0) as (Kp & _) end. rewrite Kp.
  cbn [dPlane setPlane]. by rewrite (gossip.core_name _ _ (gossip.apply_core k _ _)).
Qed.

Lemma subnets_alone n subs node rest bs s : gossip.NodeName (dPlane (dm s)) = node ->
  let res := announceSubnets bcast k now n subs (dm s) in
  leads ((map (fun sub => Mint (node ++ !"/subnet/" ++ subnet.String sub) message.KindAddSubnet
                    (message.marshalAddSubnet (message.MkAddSubnet node (subnet.String sub)))) subs ++ rest) :: bs) s
    (if is_ok res.2 then rest :: bs else bs) res.1.
Proof.
  revert n s. induction subs as [|sub subs IH]; intros n s <-; [apply leads_refl|]. cbn zeta. cbn [announceSubnets map app].
  eapply leads_trans; [apply (mints_alone (now n))|]. intros s1 E1.
  match goal with |- context [observed k (dm s) (gossip.originate bcast k (now n) ?id ?kind ?body _)] =>
    pose proof (originate_name (now n) id kind body (dm s)) as Hn end.
  fold (gossip.AnnounceAddSubnet bcast k (now n) (dPlane (dm s)) (subnet.String sub)) in *.
  destruct (observed k (dm s) _) as [d1 [[]|e]]; cbn [fst snd is_ok] in *; subst d1;
    [by apply IH|apply leads_refl].
Qed.

Lemma announces_alone rest bs s :
  let res := announceLocal bcast k now (dm s) in
  leads ((Announce :: rest) :: bs) s (if is_ok res.2 then rest :: bs else bs) res.1.
Proof.
  cbn zeta. apply (leads_step k 0). cbn [perform fst snd app]. unfold announcements, announceLocal. cbn [app].
  eapply leads_trans; [apply (mints_alone (now 0%nat))|]. intros s1 E1.
  match goal with |- context [observed k (dm s) (gossip.originate bcast k (now 0%nat) ?id ?kind ?body _)] =>
    pose proof (originate_name (now 0%nat) id kind body (dm s)) as Hn end.
  fold (gossip.AnnounceHello bcast k (now 0%nat) (dPlane (dm s)) (daemon.localHello (dLoaded (dm s)) (dEndpoint (dm s)))) in *.
  destruct (observed k (dm s) _) as [d1 [[]|e]]; cbn [fst snd is_ok] in *; subst d1;
    [by apply subnets_alone|apply leads_refl].
Qed.

Lemma receives_alone env s : leads (program (Gossip env)) s [] (sequential (Gossip env) (dm s)).
Proof.
  apply (leads_step k 0). cbn [perform fst snd program sequential]. unfold onGossip, gossip.Receive.
  set (pl := gossip.SetVerifier _ _). destruct (gossip.verify pl env); cbn [negb];
    [|eexists; split; [apply rtc_refl|done]].
  cbn [app]. apply (leads_step k 0). cbn [perform withDaemon dm dPlane setPlane].
  destruct (gossip.claim _ _ pl) as [pl1 won]. destruct won; cbn [negb fst snd app];
    [|eexists; split; [apply rtc_refl|done]].
  eapply leads_trans; [apply applies_alone|]. intros s1 E1. eapply leads_trans; [apply sends_alone|]. intros s2 E2.
  cbn [withDaemon dm dPlane setPlane] in E1. destruct (gossip.apply k env pl1) as [pl2 evs]. cbn [observed fst snd] in *.
  rewrite notify_app. assert (dm s2 = notify k evs (setPlane pl2 (dm s))) as E by exact (eq_trans E2 E1).
  rewrite <- E. destruct (bcast 0%nat env); [apply leads_refl|apply leads_return, leads_refl].
Qed.

Lemma loads_alone rest bs s : leads ((Load :: rest) :: bs) s (if is_ok (load (dm s)).2 then rest :: bs else bs) (load (dm s)).1.
Proof.
  apply (leads_step k 0). cbn [perform]. unfold load.
  destruct (daemon.load _ _) as [l|e]; (eexists; split; [apply rtc_refl|done]).
Qed.

Lemma tells_alone name hc s :
  leads [[JoinTell name hc]] s [] (match join.joinHello name hc with
                                   | Some h => (observed k (dm s) (gossip.AnnounceHello bcast k (now 0%nat) (dPlane (dm s)) h)).1
                                   | None => dm s
                                   end).
Proof.
  apply (leads_step k 0). cbn [perform fst snd]. destruct (join.joinHello name hc) as [h|]; cbn [app]; [|apply leads_return, leads_refl].
  eapply leads_trans; [apply (mints_alone (now 0%nat))|]. intros s1 E1.
  fold (gossip.AnnounceHello bcast k (now 0%nat) (dPlane (dm s)) h) in *. rewrite <- E1.
  destruct (is_ok _); repeat apply leads_return; apply leads_refl.
Qed.

Lemma setFS_same d : setFS (dFS d) d = d.
Proof. by destruct d. Qed.

Lemma removes_alone cookie name hc rest bs s :
  leads ((JoinRemove cookie name hc :: rest) :: bs) s (rest :: bs)
    (setFS (match os.Remove (dFS (dm s)) (join.invitationFile (dPaths (dm s)) cookie) with Ok fs => fs | Err _ => dFS (dm s) end) (dm s)).
Proof.
  apply (leads_step 0 0). cbn [perform]. destruct (os.Remove _ _) as [fs|e]; (eexists; split; [apply rtc_refl|]); [done|].
  cbn [fst snd]. by rewrite setFS_same.
Qed.

Lemma joins_alone cookie name hc s :
  leads (program (Join cookie name hc)) s [] (sequential (Join cookie name hc) (dm s)).
Proof.
  cbn [program sequential]. unfold onInviteJoin, join.handleInviteJoin.
  apply (leads_step k 0). cbn [perform fst snd].
  assert (dm s = setPlane (dPlane (dm s)) (setFS (dFS (dm s)) (dm s))) as Hid by by destruct (dm s).
  destruct (join.joinCheck _ _ _ _) as [file|e]; cbn [is_ok app]; [|exists s; split; [apply rtc_refl|exact Hid]].
  unfold join.joinCommit. apply (leads_step k 0). cbn [perform].
  destruct (os.MkdirAll _ _) as [fs1|e]; cbn [fst snd app]; [|exists s; split; [apply rtc_refl|exact Hid]].
  apply (leads_step k 0). cbn [perform withDaemon dm dFS dPaths setFS].
  destruct (os.WriteFile fs1 _ _ _) as [fs2|e]; cbn [fst snd app]; [|eexists; split; [apply rtc_refl|reflexivity]].
  eapply leads_trans; [apply removes_alone|]. cbn [joined withDaemon dm dFS dPaths setFS]. intros s3 E3.
  set (fs3 := match os.Remove fs2 _ with Ok fs' => fs' | Err _ => fs2 end) in *.
  pose proof (tells_alone name hc s3) as Ht. rewrite E3 in Ht.
  change (dPlane (setFS _ _)) with (dPlane (dm s)) in Ht. destruct (join.joinHello name hc) as [h|]; [|exact Ht].
  destruct (gossip.AnnounceHello bcast k (now 0%nat) (dPlane (dm s)) h) as [[pl evs] r]. exact Ht.
Qed.

(** Every sequential behaviour of the daemon is one of its interleavings: from
    any state, each of these goroutines can run to its end, and alone it does
    exactly what the event function says. *)
Lemma sequential_runs e s : leads (program e) s [] (sequential e (dm s)).
Proof.
  destruct e as [env|[|]| | |ep|cookie name hc|]; [apply receives_alone|..|apply joins_alone|]; cbn [program sequential onSignal].
  - eapply leads_trans; [apply loads_alone|]. intros s1 E1. destruct (load (dm s)) as [d1 [[]|e]]; cbn [fst snd is_ok] in *; subst d1.
    + eapply leads_trans; [apply announces_alone|]. intros s2 <-.
      assert (leads [[Build]] s2 [] (applyReconcile k (dm s2)).1) as Hb.
      { eapply leads_trans; [apply builds_alone|]. intros s3 <-. apply leads_return, leads_refl. }
      destruct (is_ok _); [by apply leads_return|done].
    + eapply leads_trans; [apply builds_alone|]. intros s3 <-. apply leads_return, leads_refl.
  - eapply leads_trans; [apply builds_alone|]. intros s3 <-. apply leads_return, leads_refl.
  - eapply leads_trans; [apply loads_alone|]. intros s1 E1.
    change (controlHandler bcast k now loadText gossipText _ (dm s)) with
      (let t := control.ReqReload in match load (dm s) with
       | (d, Err e) => (d, line t [loadText e], None)
       | (d, Ok _) => match announceLocal bcast k now d with
           | (d, Err e) => (d, line t [gossipText e], None)
           | (d, Ok _) => ((applyReconcile k d).1, line t [!"0"], @None gostring)
           end end).
    cbn zeta. destruct (load (dm s)) as [d1 [[]|e]]; cbn [fst snd is_ok] in *; subst d1; [|apply leads_refl].
    eapply leads_trans; [apply announces_alone|]. intros s2 E2.
    destruct (announceLocal bcast k now (dm s1)) as [d2 [[]|e]]; cbn [fst snd is_ok] in *; subst d2; [|apply leads_refl].
    eapply leads_trans; [apply builds_alone|]. intros s3 <-. apply leads_return, leads_refl.
  - eapply leads_trans; [apply announces_alone|]. intros s2 <-. destruct (is_ok _); [apply leads_return|]; apply leads_refl.
  - apply (leads_step k 0). cbn [perform fst snd app]. eapply leads_trans; [apply announces_alone|]. intros s2 E2.
    cbn [withDaemon dm] in *. rewrite <- E2. destruct (is_ok _); [apply leads_return|]; apply leads_refl.
  - apply (leads_step k 0). cbn [perform fst snd app]. apply leads_return. eexists. split; [apply rtc_refl|done].
Qed.

(** A SIGALRM alone, with what it hands over. *)
Lemma alarm_runs s r : dRec (dm s) = Some r ->
  rtc (gstep bcast) (program (Signal SIGALRM), s)
    ([], MkShared (setRec (Some (rec_apply (stateOf k (dm s)) r).1) (dm s)) (handed s ++ [stateOf k (dm s)]) (sent s) (joins s)).
Proof.
  intros Er. pose proof (gstep_perform bcast k 0) as Hg.
  assert (forall todo ps, rtc (gstep bcast) ([[Visit k (dLoaded (dm s)) todo ps]], s)
    ([[Install (stateWith (dLoaded (dm s)) (ps ++ omap (daemon.peerFor (dFS (dm s)) (dPaths (dm s)) k (dLoaded (dm s)) (dPlane (dm s))) todo))]], s)) as Hv.
  { induction todo as [|n todo IH]; intros ps.
    - cbn [omap list_omap]. rewrite app_nil_r. apply rtc_once, (Hg (Visit k _ [] ps) [] [] s).
    - eapply rtc_l; [apply (Hg (Visit k _ (n :: todo) ps) [] [] s)|]. cbn [perform fst snd app omap list_omap].
      etrans; [apply IH|]. destruct (daemon.peerFor _ _ _ _ _ n); cbn [option_list]; [by rewrite <- app_assoc|by rewrite app_nil_r]. }
  eapply rtc_l; [apply (Hg Build [] [] s)|]. cbn [perform fst snd app]. rewrite Er.
  eapply rtc_l; [apply (Hg (Nodes k _) [] [] s)|]. cbn [perform fst snd app]. etrans; [apply Hv|]. cbn [app].
  eapply rtc_l; [apply (Hg (Install _) [] [] s)|]. cbn [perform]. rewrite Er. cbn [fst snd app].
  apply rtc_once, gstep_return.
Qed.
End alone.

(** ** What every interleaving keeps *)

(** An action after which the rest of its block still runs, when the transport
    accepts what it is given. *)
Definition safe (a : action) : bool :=
  match a with Verify _ | Claim _ | Load | JoinCheck _ _ | JoinMkdir | JoinWrite _ _ => false | _ => true end.

Section told.
Context `{Unicode, Ed25519}.

(** The block will certainly read the desired state again: the plane is told of
    a peer, and its observer reconciles. *)
Fixpoint builds (b : block) : bool :=
  match b with
  | [] => false
  | Build :: _ => true
  | JoinTell name hc :: b => noticed name hc || builds b
  | a :: b => safe a && builds b
  end.

(** After every [Load] of the goroutine, and after every file it changes for a
    join of which the plane is told, the desired state is read again. *)
Fixpoint rebuilds (after : bool) (b : block) : bool :=
  match b with
  | [] => true
  | Load :: b => (builds b || after) && rebuilds after b
  | JoinWrite name hc :: b | JoinRemove _ name hc :: b => (negb (noticed name hc) || (builds b || after)) && rebuilds after b
  | _ :: b => rebuilds after b
  end.
Fixpoint wellFormed (t : goroutine) : bool :=
  match t with
  | [] => true
  | b :: t => rebuilds (existsb builds t) b && wellFormed t
  end.
End told.

Section interleaving.
Context {R : Type} `{ReconcilerSpec R, Unicode, Ed25519, X509, WGTypes, MapOrder}.
Context (bcast : nat -> message.Envelope -> option nat).
Context (accepts : forall n e, bcast n e = None) (Hok : @reconciles R _).
Context (before : list (gostring * bytes)). (* the joins at the start *)
Implicit Types (s : Shared R) (d : Daemon R).

(** The action will hand the current desired state to the reconciler, if
    nothing changes until then. *)
Definition covers d (a : action) : Prop :=
  match a with
  | Build => True
  | Nodes _ l => l = dLoaded d
  | Visit k l todo ps => l = dLoaded d /\ exists visited, graph.Nodes k (gossip.G (dPlane d)) = visited ++ todo /\
      ps = omap (daemon.peerFor (dFS d) (dPaths d) k l (dPlane d)) visited
  | Install st => exists k, st = stateOf k d
  | JoinTell name hc => noticed name hc = true
  | Mint _ kind body => kind = message.KindAddNode /\ is_ok (message.unmarshalHello body) = true
  | Apply env => message.Kind env = message.KindAddNode /\ is_ok (message.unmarshalHello (message.Payload env)) = true
  | _ => False
  end.

Fixpoint blockCovers d (b : block) : Prop :=
  match b with
  | [] => False
  | a :: b => covers d a \/ (safe a = true /\ blockCovers d b)
  end.
Definition goCovers d (t : goroutine) : Prop := Exists (blockCovers d) t.

(** The desired state is the same. *)
Record sameDesired d d' : Prop := {
  same_view : sameView (dPlane d) (dPlane d'); same_fs : files (dFS d') = files (dFS d); same_paths : dPaths d' = dPaths d;
  same_loaded : dLoaded d' = dLoaded d
}.

Lemma stateOf_same d d' k : sameDesired d d' -> stateOf k d' = stateOf k d.
Proof. intros [Hv Hf Hp Hl]. unfold stateOf. rewrite Hp, Hl, (buildState_files (dFS d)) by done. by apply buildState_view. Qed.

Lemma covers_same d d' a : sameDesired d d' -> covers d a -> covers d' a.
Proof.
  intros Hs. pose proof Hs as [Hv Hf Hp Hl]. destruct a; try done; cbn [covers].
  - by rewrite Hl.
  - intros (-> & vis & Hn & ->). split; [done|]. exists vis. rewrite Hp. split.
    + unfold graph.Nodes in *. by rewrite (view_nodes _ _ Hv).
    + clear Hn. induction vis as [|n vis IH]; [done|]. cbn [omap list_omap].
      rewrite (peerFor_files (dFS d) (dFS d')), (peerFor_view _ _ _ _ _ _ n Hv) by done. destruct (daemon.peerFor _ _ _ _ _ n); [f_equal|]; exact IH.
  - intros [k ->]. exists k. by rewrite (stateOf_same d d').
Qed.

Lemma blockCovers_same d d' b : sameDesired d d' -> blockCovers d b -> blockCovers d' b.
Proof.
  intros Hs. induction b as [|a b IH]; [done|]. cbn [blockCovers]. intros [Hc|[Ha Hb]]; [left; by eapply covers_same|auto].
Qed.

Lemma goCovers_same d d' t : sameDesired d d' -> goCovers d t -> goCovers d' t.
Proof. intros Hs Ht. eapply Exists_impl; [exact Ht|]. intros b. by apply blockCovers_same. Qed.

Lemma builds_cover d b : builds b = true -> blockCovers d b.
Proof.
  induction b as [|a b IH]; [done|]. cbn [builds blockCovers]. destruct a as [| | | | | | | |c n| |n hc|c n hc|n hc| | | | |]; try done; cbn; auto.
  destruct (noticed n hc); auto.
Qed.

Lemma existsb_builds d t : existsb builds t = true -> goCovers d t.
Proof. intros (b & Hb & Hc)%existsb_exists. apply List.Exists_exists. exists b. split; [done|]. by apply builds_cover. Qed.

(** A file was changed since the start for a join of which the plane is not
    told. *)
Definition untold s : Prop :=
  exists new name hc, joins s = before ++ new /\ (name, hc) ∈ new /\ noticed name hc = false.

Lemma untold_later s s' : joins s `prefix_of` joins s' -> untold s -> untold s'.
Proof.
  intros [js Ej] (new & name & hc & E & Hin & Ho). exists (new ++ js), name, hc. rewrite Ej, E.
  split_and!; [by rewrite <- app_assoc|set_solver|done].
Qed.

(** The effect of one action on a goroutine that has [bs] still to run. *)
Record sound (s s' : Shared R) (t t' : goroutine) : Prop := {
  sound_listener : gossip.listener (dPlane (dm s')) = true;
  sound_rec : is_Some (dRec (dm s'));
  sound_wf : wellFormed t' = true;
  sound_last : forall r st, dRec (dm s') = Some r -> last (handed s') = Some st -> realises st r;
  sound_handed : handed s ⊆ handed s';
  sound_joins : joins s `prefix_of` joins s';
  sound_cover : untold s' \/ goCovers (dm s') t' \/
    (sameDesired (dm s) (dm s') /\
      (goCovers (dm s) t -> goCovers (dm s') t' \/ exists k, stateOf k (dm s') ∈ handed s'))
}.

Lemma wellFormed_tail a rest bs : wellFormed ((a :: rest) :: bs) = true -> wellFormed (rest :: bs) = true /\ wellFormed bs = true.
Proof.
  cbn [wellFormed]. rewrite !andb_true_iff. intros [Hr Hb]. split_and!; [|done..].
  destruct a; try done; cbn [rebuilds] in Hr; by apply andb_true_iff in Hr as [_ Hr].
Qed.

(** An action that changes nothing the desired state depends on and hands
    nothing over. *)
Lemma sound_quiet s s' t bs news b : t = b :: bs ->
  gossip.listener (dPlane (dm s')) = true -> is_Some (dRec (dm s)) ->
  (forall r st, dRec (dm s) = Some r -> last (handed s) = Some st -> realises st r) ->
  dRec (dm s') = dRec (dm s) -> handed s' = handed s -> joins s' = joins s -> sameDesired (dm s) (dm s') ->
  wellFormed (news ++ bs) = true -> (blockCovers (dm s) b -> goCovers (dm s) news) -> sound s s' t (news ++ bs).
Proof.
  intros -> Hl Hr Hlast Er Eh Ej Hs Hw Hc. split; rewrite ?Er, ?Eh, ?Ej; try done.
  right. right. split; [done|]. intros Hg. left. unfold goCovers in *. apply Exists_app. apply Exists_cons in Hg as [Hg|Hg].
  - left. by eapply goCovers_same, Hc.
  - right. by eapply goCovers_same.
Qed.

Lemma announcements_safe l ep node : forallb (fun a => match a with Mint _ _ _ => true | _ => false end) (announcements l ep node) = true.
Proof. cbn. induction (daemon.Subnets l) as [|x xs IH]; [done|]. exact IH. Qed.

Lemma mints_prefix ms d b after : forallb (fun a => match a with Mint _ _ _ => true | _ => false end) ms = true ->
  rebuilds after (ms ++ b) = rebuilds after b /\ (blockCovers d b -> blockCovers d (ms ++ b)).
Proof.
  induction ms as [|a ms IH]; [done|]. cbn [forallb app]. rewrite andb_true_iff. intros [Ha Hm]. destruct a; try done.
  destruct (IH Hm) as [E Hc]. split; [exact E|]. intros Hb. right. split; [done|auto].
Qed.

(** An action that changes a file for a join. *)
Lemma sound_join name hc fs a rest bs s : gossip.listener (dPlane (dm s)) = true -> is_Some (dRec (dm s)) ->
  (forall r st, dRec (dm s) = Some r -> last (handed s) = Some st -> realises st r) ->
  before `prefix_of` joins s -> (forall after b, rebuilds after (a :: b) = (negb (noticed name hc) || (builds b || after)) && rebuilds after b) ->
  wellFormed ((a :: rest) :: bs) = true -> sound s (joined name hc fs s) ((a :: rest) :: bs) (rest :: bs).
Proof.
  intros Hl Hr Hlast [js Ej] Ha Hw. pose proof (wellFormed_tail _ _ _ Hw) as [Hwr _].
  split; cbn; try done; [by eexists|]. cbn [wellFormed] in Hw. rewrite Ha, !andb_true_iff, !orb_true_iff, negb_true_iff in Hw.
  destruct Hw as [[[Hn|[Hb|Hb]] _] _].
  - left. exists (js ++ [(name, hc)]), name, hc. cbn. rewrite Ej. split_and!; [by rewrite <- app_assoc|set_solver|done].
  - right. left. apply Exists_cons_hd. by apply builds_cover.
  - right. left. apply Exists_cons_tl. by apply existsb_builds.
Qed.

(** The invariant of the shared daemon and its goroutines. *)
Record inv (w : State) : Prop := {
  inv_listener : gossip.listener (dPlane (dm (shared w))) = true;
  inv_rec : is_Some (dRec (dm (shared w)));
  inv_wf : Forall (fun t => wellFormed t = true) (gs w);
  inv_last : forall r st, dRec (dm (shared w)) = Some r -> last (handed (shared w)) = Some st -> realises st r;
  inv_joins : before `prefix_of` joins (shared w);
  inv_cover : untold (shared w) \/ (exists k, stateOf k (dm (shared w)) ∈ handed (shared w)) \/ Exists (goCovers (dm (shared w))) (gs w)
}.
Lemma sameDesired_plane d pl : sameView (dPlane d) pl -> sameDesired d (setPlane pl d).
Proof. by split. Qed.

Lemma apply_step k env rest bs s : gossip.listener (dPlane (dm s)) = true -> is_Some (dRec (dm s)) ->
  (forall r st, dRec (dm s) = Some r -> last (handed s) = Some st -> realises st r) ->
  wellFormed (rest :: bs) = true ->
  sound s (perform bcast k 0 (Apply env) rest s).2 ((Apply env :: rest) :: bs) ((perform bcast k 0 (Apply env) rest s).1 ++ bs).
Proof.
  intros Hl Hr Hlast Hw. cbn [perform]. destruct (apply_sound k env (dPlane (dm s))) as (A1 & _ & A3).
  destruct (gossip.apply k env (dPlane (dm s))) as [pl evs] eqn:Ea. cbn [fst snd] in *.
  assert (wellFormed (((if existsb notifies evs then [[Build]] else []) ++ [rest]) ++ bs) = true) as Hw'.
  { destruct (existsb notifies evs); done. }
  destruct (existsb notifies evs) eqn:Ee.
  - split; cbn; try done; [congruence|]. right. left. apply Exists_cons_hd. by left.
  - destruct A3 as [Hv|Hn]; [|by specialize (Hn Hl)].
    eapply sound_quiet; [done|cbn; congruence|done..|by apply sameDesired_plane|done|].
    intros [[Ek Eu]|[_ Hc]]; [|by apply Exists_cons_hd].
    pose proof (apply_hello_notifies k env (dPlane (dm s)) Hl Ek) as En. rewrite Ea in En. cbn [snd] in En. congruence.
Qed.

Lemma install_step st rest bs s r : gossip.listener (dPlane (dm s)) = true -> dRec (dm s) = Some r ->
  wellFormed (rest :: bs) = true ->
  sound s (perform bcast 0 0 (Install st) rest s).2 ((Install st :: rest) :: bs) (rest :: bs).
Proof.
  intros Hl Er Hw. cbn [perform]. rewrite Er. cbn [snd]. destruct (Hok st r) as [r' E]. rewrite E. cbn [fst].
  split; cbn [dm handed setRec dPlane dRec]; [done|by eexists|done| |set_solver|done|].
  - intros r0 st0 [= <-]. rewrite last_snoc. intros [= <-]. by eapply rec_apply_realises.
  - right. right. assert (sameDesired (dm s) (setRec (Some r') (dm s))) as Hs by by split.
    split; [done|]. intros [[[k ->]|[_ Hc]]|Hc]%Exists_cons.
    + right. exists k. rewrite (stateOf_same _ _ k Hs). set_solver.
    + left. apply Exists_cons_hd. by eapply blockCovers_same.
    + left. apply Exists_cons_tl. by eapply goCovers_same.
Qed.

Lemma perform_sound k now a rest bs s : gossip.listener (dPlane (dm s)) = true -> is_Some (dRec (dm s)) ->
  (forall r st, dRec (dm s) = Some r -> last (handed s) = Some st -> realises st r) ->
  before `prefix_of` joins s -> wellFormed ((a :: rest) :: bs) = true ->
  sound s (perform bcast k now a rest s).2 ((a :: rest) :: bs) ((perform bcast k now a rest s).1 ++ bs).
Proof.
  intros Hl Hr Hlast Hj Hw. pose proof (wellFormed_tail _ _ _ Hw) as [Hwr Hwb].
  assert (sameDesired (dm s) (dm s)) as Hrefl by done.
  destruct a as [env|env|id kind body|env|env| | |ep|cookie name| |name hc|cookie name hc|name hc| | |k0 l|k0 l todo ps|st]; cbn [perform].
  - set (pl := gossip.SetVerifier _ _).
    eapply sound_quiet; [done|done|done..|by apply sameDesired_plane|by destruct (gossip.verify pl env)|].
    by intros [[]|[? _]].
  - destruct (gossip.claim _ _ _) as [pl won] eqn:Ec.
    assert (sameView (dPlane (dm s)) pl /\ gossip.listener pl = true) as [Hv Hl'].
    { unfold gossip.claim in Ec. destruct (gossip.seen _ !! _); [destruct (_ <=? _)|]; injection Ec as <- <-; done. }
    eapply sound_quiet; [done|done|done..|by apply sameDesired_plane|by destruct won|]. by intros [[]|[? _]].
  - eapply sound_quiet; [done|done|done..|by apply sameDesired_plane|done|].
    intros [[Ek Eb]|[_ Hc]]; apply Exists_cons_hd; [left|cbn; auto].
    cbn [covers]. unfold gossip.sign. by destruct (gossip.edPriv _).
  - by apply apply_step.
  - rewrite accepts. eapply sound_quiet; [done..|]. intros [[]|[_ Hc]]. by apply Exists_cons_hd.
  - unfold load. destruct (daemon.load _ _) as [l|e].
    + split; cbn; try done. right. left. cbn [wellFormed rebuilds] in Hw. rewrite !andb_true_iff, orb_true_iff in Hw.
      destruct Hw as [[[Hb|Hb] _] _]; [apply Exists_cons_hd; by apply builds_cover|apply Exists_cons_tl; by apply existsb_builds].
    + eapply sound_quiet; [done..|]. by intros [[]|[? _]].
  - destruct (mints_prefix _ (dm s) rest (existsb builds bs) (announcements_safe (dLoaded (dm s)) (dEndpoint (dm s))
      (gossip.NodeName (dPlane (dm s))))) as [E Hc].
    eapply sound_quiet; [done..| |].
    + cbn [fst app wellFormed] in *. by rewrite E.
    + intros [[]|[_ Hb]]. apply Exists_cons_hd. auto.
  - eapply sound_quiet; [done..|]. intros [[]|[_ Hc]]. by apply Exists_cons_hd.
  - destruct (is_ok _); (eapply sound_quiet; [done..|]); by intros [[]|[? _]].
  - destruct (os.MkdirAll _ _) as [fs|e] eqn:E; (eapply sound_quiet; [done..| | |]); try done; try by intros [[]|[? _]].
    split; cbn; try done. by apply files_MkdirAll in E as [-> _].
  - destruct (os.WriteFile _ _ _ _) as [fs|e]; [by apply sound_join|].
    eapply sound_quiet; [done..|]. by intros [[]|[? _]].
  - destruct (os.Remove _ _) as [fs|e]; [by apply sound_join|].
    eapply sound_quiet; [done..|]. intros [[]|[_ Hc]]. by apply Exists_cons_hd.
  - eapply sound_quiet; [done..| |]; [by destruct (join.joinHello name hc)|].
    intros [Hn|[_ Hc]]; [|destruct (join.joinHello name hc); [apply Exists_cons_tl|]; by apply Exists_cons_hd].
    cbn [covers] in Hn. unfold noticed in Hn. destruct (join.joinHello name hc) as [h|]; [|done]. apply Exists_cons_hd. by left.
  - eapply sound_quiet; [done..| |done|]; [apply sameDesired_plane, purge_view|].
    intros [[]|[_ Hc]]. by apply Exists_cons_hd.
  - destruct Hr as [r Er]. rewrite Er. eapply sound_quiet; [done|done|by exists r|done..|]. intros _. apply Exists_cons_hd. by left.
  - eapply sound_quiet; [done..|]. intros [->|[_ Hc]]; apply Exists_cons_hd; [left|by right]. split; [done|]. by exists [].
  - destruct todo as [|n todo].
    + eapply sound_quiet; [done..|]. intros [(-> & vis & Hn & ->)|[_ Hc]]; apply Exists_cons_hd; [left|by right].
      exists k0. rewrite app_nil_r in Hn. unfold stateOf, daemon.buildState. by rewrite Hn.
    + eapply sound_quiet; [done..|]. intros [(-> & vis & Hn & ->)|[_ Hc]]; apply Exists_cons_hd; [left|by right].
      split; [done|]. exists (vis ++ [n]). split; [by rewrite <- app_assoc|]. rewrite omap_app. cbn [omap list_omap].
      by destruct (daemon.peerFor _ _ _ _ _ n).
  - destruct Hr as [r Er]. pose proof (install_step st rest bs s r Hl Er Hwr) as Hi. cbn [perform] in Hi. by rewrite Er in *.
Qed.

Lemma gstep_sound t s t' s' : gstep bcast (t, s) (t', s') -> gossip.listener (dPlane (dm s)) = true -> is_Some (dRec (dm s)) ->
  (forall r st, dRec (dm s) = Some r -> last (handed s) = Some st -> realises st r) ->
  before `prefix_of` joins s -> wellFormed t = true -> sound s s' t t'.
Proof.
  inversion 1; subst; intros Hl Hr Hlast Hj Hw; [by apply perform_sound|].
  apply (sound_quiet s' s' _ t' [] []); done.
Qed.

Lemma program_wf e : wellFormed (program e) = true.
Proof.
  destruct e as [env|[|]| | |ep|cookie name hc|]; try done. cbn. by destruct (noticed name hc).
Qed.

Lemma step_inv w w' : step bcast w w' -> inv w -> inv w'.
Proof.
  intros [e s ts|i t t' s s' ts Hi Hg] [Il Ir Iw Ilast Ij Ic]; cbn [shared gs] in *.
  - split; cbn [shared gs]; [done..| |done|done|].
    + apply Forall_app. split; [done|]. apply List.Forall_cons; [apply program_wf|apply List.Forall_nil].
    + destruct Ic as [Ic|[Ic|Ic]]; [by left|by right; left|right; right]. apply Exists_app. by left.
  - assert (wellFormed t = true) as Hw by by eapply Forall_lookup_1 in Iw.
    destruct (gstep_sound t s t' s' Hg Il Ir Ilast Ij Hw) as [Sl Sr Sw Slast Sh Sj Sc]. split; cbn [shared gs]; try done.
    + by apply Forall_insert.
    + by etrans.
    + assert (t' ∈ <[i := t']> ts) as Hin.
      { apply list_elem_of_lookup_2 with i, list_lookup_insert_eq. by eapply lookup_lt_Some. }
      assert (forall P : goroutine -> Prop, P t' -> Exists P (<[i := t']> ts)) as Hhere
        by (intros P HP; apply Exists_exists; by exists t').
      destruct Sc as [Sc|[Sc|[Hs Sc]]]; [by left|right; right; by apply Hhere|].
      destruct Ic as [Ic|[[k Ic]|Ic]].
      { left. by apply (untold_later s). }
      { right. left. exists k. rewrite (stateOf_same _ _ k Hs). by apply Sh. }
      apply Exists_exists in Ic as (t0 & Ht0 & Hc0). apply list_elem_of_lookup_1 in Ht0 as [j Hj]. right.
      destruct (decide (j = i)) as [->|Hne].
      * rewrite Hi in Hj. injection Hj as <-. destruct (Sc Hc0) as [Hc|Hc]; [right; by apply Hhere|by left].
      * right. apply Exists_exists. exists t0. split; [|by eapply goCovers_same].
        apply list_elem_of_lookup_2 with j. by rewrite list_lookup_insert_ne.
Qed.

Lemma steps_inv w w' : rtc (step bcast) w w' -> inv w -> inv w'.
Proof. induction 1; eauto using step_inv. Qed.

(** A data plane that realises the desired state, handed over last: so it is
    after the first reconcile, before the daemon serves. *)
Record started s : Prop := {
  start_listener : gossip.listener (dPlane (dm s)) = true;
  start_handed : exists k r, dRec (dm s) = Some r /\ last (handed s) = Some (stateOf k (dm s)) /\ realises (stateOf k (dm s)) r
}.

Lemma started_sync s : started s -> inSync (dm s).
Proof. intros [_ (k & r & Er & _ & Hr)] r' Er'. exists k. congruence. Qed.

Lemma started_inv w : started (shared w) -> quiescent w -> joins (shared w) = before -> inv w.
Proof.
  intros [Hl (k & r & Hr & Hlast & Hre)] Hq Ej. split; [done|by exists r| | |by rewrite Ej|].
  - eapply Forall_impl; [exact Hq|]. by intros t ->.
  - intros r0 st. intros E1 E2. assert (r0 = r) as -> by congruence. assert (st = stateOf k (dm (shared w))) as -> by congruence. done.
  - right. left. exists k. apply last_Some in Hlast as [l ->]. set_solver.
Qed.

(** One goroutine of a quiescent daemon runs to its end. *)
Lemma run_alone i t t' s s' ts : rtc (gstep bcast) (t, s) (t', s') -> ts !! i = Some t ->
  rtc (step bcast) (MkState s ts) (MkState s' (<[i := t']> ts)).
Proof.
  intros Hr. remember (t, s) as x eqn:Ex. remember (t', s') as y eqn:Ey. revert t s ts Ex.
  induction Hr as [x|x [t1 s1] y Hs Hr IH]; intros t s ts -> Hi.
  - injection Ey as -> ->. by rewrite list_insert_id.
  - eapply rtc_l; [by apply (step_run _ i t t1 s s1)|].
    rewrite <- (list_insert_insert_eq ts i t' t1). apply (IH Ey t1); [done|]. apply list_lookup_insert_eq. by eapply lookup_lt_Some.
Qed.
End interleaving.

(** C8.  Reconciling concurrently.  Start from a daemon at rest whose data plane
    realises the desired state, on a machine where the reconciler succeeds and
    the transport accepts what it is given.  However the goroutines for
    gossip, signals, reloads, dials, discovery, invitations and purges
    interleave, the data plane realises the state that was handed over last.
    Whenever no goroutine is under way, the current desired state has been
    handed over (so it is never forgotten), or a file has been changed since
    the start for a JOIN that brought no usable Ed25519 key, of which the
    plane is not told; if it was the last state handed over the data plane is
    in sync.  In any case a SIGALRM handled then brings the daemon back to a
    state from which all this holds again. *)
Theorem desired_state_handed {R : Type} `{ReconcilerSpec R, Unicode, Ed25519, X509, WGTypes, MapOrder}
    bcast (w0 w : @State R) :
  (forall n e, bcast n e = None) -> @reconciles R _ -> quiescent w0 -> started (shared w0) -> rtc (step bcast) w0 w ->
  (forall r st, dRec (dm (shared w)) = Some r -> last (handed (shared w)) = Some st -> realises st r) /\
  (quiescent w -> (exists k, stateOf k (dm (shared w)) ∈ handed (shared w)) \/
     exists new name hc, joins (shared w) = joins (shared w0) ++ new /\ (name, hc) ∈ new /\ noticed name hc = false) /\
  (forall k, last (handed (shared w)) = Some (stateOf k (dm (shared w))) -> inSync (dm (shared w))) /\
  (quiescent w -> exists w', rtc (step bcast) w w' /\ quiescent w' /\ started (shared w') /\ inSync (dm (shared w'))).
Proof.
  intros Ha Hok Hq0 Hs Hr. assert (inv (joins (shared w0)) w0) as Hi by by eapply started_inv.
  destruct (steps_inv bcast Ha Hok _ _ _ Hr Hi) as [Hl [r Er] _ Hlast _ Hc]. split_and!; [done|..].
  - intros Hq. destruct Hc as [Hc|[Hc|Hc]]; [by right|by left|]. apply Exists_exists in Hc as (t & Ht & Hc).
    unfold quiescent in Hq. rewrite Forall_forall in Hq. rewrite (Hq t Ht) in Hc. by apply Exists_nil in Hc.
  - intros k Hk r' Hr'. exists k. by apply Hlast.
  - intros Hq. destruct w as [s1 ts]. cbn [shared gs] in *. pose proof (alarm_runs bcast 0 s1 r Er) as Hrun.
    destruct (Hok (stateOf 0 (dm s1)) r) as [r1 E1]. rewrite E1 in Hrun. cbn [fst] in Hrun.
    eexists. split.
    + eapply rtc_l; [apply (step_start _ (Signal SIGALRM))|]. eapply (run_alone bcast (length ts)); [exact Hrun|].
      by rewrite lookup_app_r, Nat.sub_diag by lia.
    + cbn [shared]. match goal with |- _ /\ ?P /\ _ => assert P as Hs' end.
      { split; [done|]. exists 0%nat, r1. cbn. split_and!; [done|by rewrite last_snoc|by eapply rec_apply_realises]. }
      split_and!; [|done|by apply started_sync].
      unfold quiescent in *. cbn [gs] in *. rewrite insert_app_r_alt, Nat.sub_diag by lia. apply Forall_app. split; [done|].
      apply List.Forall_cons; [done|apply List.Forall_nil].
Qed.

(** ** Schedules *)

Section schedules.
Context {R : Type} `{Reconciler R, Unicode, Ed25519, X509, WGTypes, MapOrder}.
Context (bcast : nat -> message.Envelope -> option nat).

(** Start a goroutine, or let one run for some steps. *)
Inductive order := Start (e : event) | Go (i n : nat).

Definition turn (i : nat) (w : @State R) : @State R :=
  match gs w !! i with
  | Some ((a :: rest) :: bs) =>
      let '(news, s) := perform bcast 0 0 a rest (shared w) in MkState s (<[i := news ++ bs]> (gs w))
  | Some ([] :: bs) => MkState (shared w) (<[i := bs]> (gs w))
  | _ => w
  end.

Definition follow (w : @State R) (o : order) : @State R :=
  match o with
  | Start e => MkState (shared w) (gs w ++ [program e])
  | Go i n => Nat.iter n (turn i) w
  end.

Lemma turn_steps i w : rtc (step bcast) w (turn i w).
Proof.
  destruct w as [s ts]. unfold turn. cbn [gs shared]. destruct (ts !! i) as [[|[|a rest] bs]|] eqn:Hi; [done| | |done].
  - apply rtc_once. eapply step_run; [done|apply gstep_return].
  - destruct (perform bcast 0 0 a rest s) as [news s'] eqn:Ep. apply rtc_once. eapply step_run; [done|].
    pose proof (gstep_perform bcast 0 0 a rest bs s) as Hg. by rewrite Ep in Hg.
Qed.

Lemma follow_steps os w : rtc (step bcast) w (foldl follow w os).
Proof.
  revert w. induction os as [|o os IH]; intros w; [done|]. cbn [foldl]. etrans; [|apply IH].
  destruct o as [e|i n]; cbn [follow]; [destruct w; apply rtc_once, step_start|].
  induction n as [|n IHn]; [done|]. cbn [Nat.iter]. etrans; [exact IHn|apply turn_steps].
Qed.
End schedules.

(** ** Two announcements of one peer, delivered over two connections *)
Module demo.
Import toy gossip.demo.

Definition fs : FS :=
  MkFS {[ !"/etc/gsnet/vpn/hosts/a" :=
            MkFile (!"WGPublicKey = " ++ daemon.demo.keyText ++ [nl] ++
                    !"Ed25519PublicKey = " ++ keys.String (keys.Public priv) ++ [nl]) 420 ]}
    {[ !"/etc/gsnet/vpn/hosts" ]}.

Definition l : daemon.loaded :=
  daemon.MkLoaded !"b" [] (keys.MkPriv []) (keys.MkWGPriv []) dataplane.ModeSwitch !"wg-b" 51820 !"b" 42 4789 1420
    netip.PrefixZero netip.PrefixZero [].

Definition d0 : Daemon fake.Reconciler :=
  MkDaemon daemon.demo.p !"/run" (Some fake.New) l (gossip.OnMessage (gossip.NewPlane !"b" graph.New)) (transport.MkServer ∅)
    netip.AddrPortZero fs false.

(** After the first reconcile. *)
Definition s0 : Shared fake.Reconciler := MkShared (applyReconcile 0 d0).1 [stateOf 0 d0] [] [].

(** Node "a" announces its endpoint, and later another one. *)
Definition helloA (ts : Z) (ep : gostring) : message.Envelope :=
  gossip.sign planeA (message.MkEnvelope !"a/hello" !"a" message.KindAddNode ts
    (message.marshalHello (message.MkHello !"a" (keys.Raw (keys.Public priv)) daemon.demo.keyText ep [] [])) []).
Definition old : message.Envelope := helloA 5 !"198.51.100.7:51820".
Definition new : message.Envelope := helloA 7 !"203.0.113.9:51820".

(** The first goroutine has read the desired state when the second one runs;
    then it hands over what it read. *)
Definition race : list order := [Start (Gossip old); Go 0 7; Start (Gossip new); Go 1 20; Go 0 20].
Definition wRace : @State fake.Reconciler := foldl (follow noErr) (MkState s0 []) race.
(** The same, one after the other. *)
Definition wOrder : @State fake.Reconciler :=
  foldl (follow noErr) (MkState s0 []) [Start (Gossip old); Go 0 20; Start (Gossip new); Go 1 20].
(** A JOIN without an Ed25519 key, for a node the plane already knows. *)
Definition sInviting : Shared fake.Reconciler :=
  MkShared (applyReconcile 0 events.demo.dInviting).1 [stateOf 0 events.demo.dInviting] [] [].
Definition keyless : event := Join !"c0" !"b" (!"WGPublicKey = " ++ daemon.demo.keyText ++ [nl]).
Definition wKeyless : @State fake.Reconciler := foldl (follow noErr) (MkState sInviting []) [Start keyless; Go 0 20].
End demo.
Import demo toy gossip.demo.

Definition endpoints (st : dataplane.State) : list netip.AddrPort := dataplane.Endpoint <$> dataplane.Peers st.

Lemma s0_started : started s0.
Proof.
  split; [reflexivity|]. exists 0%nat, (fake.Reconcile (stateOf 0 d0) fake.New). split_and!; reflexivity.
Qed.

Lemma ended {R} (w : @State R) : gs w = [[]; []] -> quiescent w.
Proof. unfold quiescent. intros ->. by repeat apply List.Forall_cons; try apply List.Forall_nil. Qed.

Lemma desired_state_handed_witness :
  quiescent wOrder /\ inSync (dm (shared wOrder)) /\
  exists k, stateOf k (dm (shared wOrder)) ∈ handed (shared wOrder).
Proof.
  assert (quiescent wOrder) as Hq by (apply ended; vm_compute; reflexivity).
  destruct (desired_state_handed noErr (MkState s0 []) wOrder) as (_ & Hh & Hl & _);
    [reflexivity|intros s r; eexists; reflexivity|apply List.Forall_nil|apply s0_started|apply follow_steps|].
  split_and!; [exact Hq|apply (Hl 0%nat); vm_compute; reflexivity|].
  destruct (Hh Hq) as [Hk|(new & name & hc & E & Hin & _)]; [exact Hk|].
  assert (joins (shared wOrder) = []) as Ej by (vm_compute; reflexivity). rewrite Ej in E.
  change (joins (shared (MkState s0 []))) with (@nil (gostring * bytes)) in E. cbn [app] in E. subst new. destruct (not_elem_of_nil _ Hin).
Defined.

(** The exception happens: the JOIN is served to its end, nothing is under way,
    and the desired state, which now has the peer, was never handed over. *)
Theorem keyless_join_not_handed :
  started sInviting /\ rtc (step noErr) (MkState sInviting []) wKeyless /\ quiescent wKeyless /\
  forall k, stateOf k (dm (shared wKeyless)) ∉ handed (shared wKeyless).
Proof.
  split_and!.
  - split; [reflexivity|]. exists 0%nat, (fake.Reconcile (stateOf 0 events.demo.dInviting) fake.New). split_and!; reflexivity.
  - apply follow_steps.
  - assert (gs wKeyless = [[]]) as E by (vm_compute; reflexivity). unfold quiescent. rewrite E.
    apply List.Forall_cons; [reflexivity|apply List.Forall_nil].
  - intros k Hin. apply (list_elem_of_fmap_2 dataplane.Peers) in Hin.
    assert (dataplane.Peers <$> handed (shared wKeyless) = [[]]) as E by (vm_compute; reflexivity). rewrite E in Hin.
    apply list_elem_of_singleton in Hin. vm_compute in Hin. discriminate Hin.
Qed.

(** C39.  A stale data plane.  Two goroutines deliver two announcements of
    the same peer, the older and the newer one.  The older is applied and its
    goroutine reads the desired state; then the newer one is applied, read
    and handed over; then the first goroutine hands over what it had read.
    Both calls end, nothing is under way, the plane holds the newer endpoint,
    and the data plane holds the older one: no lock orders the hand-over after
    the reading. *)
Theorem stale_data_plane :
  started s0 /\ rtc (step noErr) (MkState s0 []) wRace /\ quiescent wRace /\
  gossip.EndpointOf (dPlane (dm (shared wRace))) !"a" = !"203.0.113.9:51820" /\
  (endpoints <$> (dRec (dm (shared wRace)) ≫= fake.Last)) = Some [netip.MkAddrPort (netip.Addr4 0xC6336407) 51820] /\
  ~ inSync (dm (shared wRace)).
Proof.
  split_and!; [apply s0_started|apply follow_steps| |vm_compute; reflexivity|vm_compute; reflexivity|].
  - apply ended. vm_compute. reflexivity.
  - intros Hs. destruct (dRec (dm (shared wRace))) as [r|] eqn:Er; [|vm_compute in Er; discriminate Er].
    destruct (Hs r Er) as [k Hk].
    assert (endpoints <$> (dRec (dm (shared wRace)) ≫= fake.Last) = Some (endpoints (stateOf k (dm (shared wRace))))) as E
      by (rewrite Er; cbn [mbind option_bind]; by rewrite Hk).
    vm_compute in E. discriminate E.
Qed.
End goroutines.
