(* ===== verification/DaemonRun.v ===== *)
(** * The daemon from start to end (daemon.go: Run)

    [Run] composes what the other files model: loading, the listener, the
    plane, the first announcement and reconcile, the hook scripts, the PID
    file, the control socket, the sandbox, and on the way back the closing of
    the transport, the hook, the shutdown of the reconciler and the removal of
    the two files.  The network's answers and serving are parameters; serving
    is any change of the daemon's state, with the error [Serve] returns.  The
    process may also exit while it serves, which skips every deferred call,
    and closing the transport may wait for ever. *)

From Stdlib Require Import Ascii String ZArith Lia.
From stdpp Require Import base tactics list gmap strings.
From S2P Require Import Prelude.
From S2P Require Import GoStrings.
From S2P Require Import FS.
From S2P Require Import FilePath.
From S2P Require Import Graph.
From S2P Require Import NetIP.
From S2P Require Import Config.
From S2P Require Import Keys.
From S2P Require Import Message.
From S2P Require Import Gossip.
From S2P Require Import Control.
From S2P Require Import Transport.
From S2P Require Import TransportWire.
From S2P Require Import ControlSocket.
From S2P Require Import Dataplane.
From S2P Require Import Daemon.
From S2P Require Import DaemonJoin.
From S2P Require Import Sandbox.
From S2P Require Import Script.
From S2P Require Import DaemonEvents.

Local Open Scope Z_scope.

Module run.
Import paths events.

(** [Exits]: the process ended inside; [Hangs]: a call never returned. *)
Inductive outcome (E A : Type) := Fine (a : A) | Fails (e : E) | Exits | Hangs.
Arguments Fine {E A} a.
Arguments Fails {E A} e.
Arguments Exits {E A}.
Arguments Hangs {E A}.

Section run.
Context {R : Type} `{ReconcilerSpec R, Unicode, Ed25519, X509, WGTypes, MapOrder, sandbox.OS}.

Inductive error :=
| errLoad (e : daemon.error) | errListen (e : gostring) | errAnnounce (e : gossip.error) | errRandom
| errWrite (e : osError) | errSocket (e : osError) | errSandbox (e : sandbox.error) | errServe (e : gostring)
| errNilReconciler.

(** The daemon, the operating system's view of the process, the programs
    started so far, and the gossip listener. *)
Record world := MkWorld { wD : Daemon R; wOS : sandbox.W; wRan : list script.command; wListen : transport_wire.Listening }.

Definition M (A : Type) : Type := world -> world * outcome error A.
#[global] Instance M_ret : MRet M := fun A a w => (w, Fine a).
#[global] Instance M_bind : MBind M := fun A B f m w =>
  match m w with
  | (w, Fine a) => f a w
  | (w, Fails e) => (w, Fails e)
  | (w, Exits) => (w, Exits)
  | (w, Hangs) => (w, Hangs)
  end.

Definition withD (d : Daemon R) (w : world) : world := MkWorld d (wOS w) (wRan w) (wListen w).
Definition failing {A} (e : error) : M A := fun w => (w, Fails e).

(** [defer f()]: runs when the function returns or panics. *)
Definition deferring {A} (f : world -> world) (m : M A) : M A := fun w =>
  match m w with
  | (w, Fine a) => (f w, Fine a)
  | (w, Fails e) => (f w, Fails e)
  | (w, Exits) => (w, Exits)
  | (w, Hangs) => (w, Hangs)
  end.

(** A step of the daemon that can fail. *)
Definition daemonStep {E} (f : Daemon R -> Daemon R * result E unit) (wrap : E -> error) : M unit := fun w =>
  let '(d, r) := f (wD w) in
  (withD d w, match r with Ok _ => Fine () | Err e => Fails (wrap e) end).
(** One whose error is only logged. *)
Definition daemonTry {E} (f : Daemon R -> Daemon R * result E unit) : M unit := fun w => (withD (f (wD w)).1 w, Fine ()).
Definition orFail (o : option error) : M unit := match o with Some e => failing e | None => mret () end.

(** What the outside answers: [net.Listen] for an address, the random bytes
    of the cookie, the umask and further errors of binding the control socket,
    what serving does, and whether the transport's handlers end when it is
    closed. *)
Record answers := MkAnswers {
  aListen : gostring -> result gostring gostring; aRandom : option bytes; aPID : Z;
  aUmask : Z; aBind : option osError; aChmod : option osError;
  aServe : Daemon R -> Daemon R * option gostring; aDrains : bool
}.

Context (bcast : nat -> message.Envelope -> option nat) (k : nat) (now : nat -> Z).
Context (exec : script.command -> bytes * option gostring) (environ : list gostring).

(** The configured address of the gossip listener, from [Daemon.GossipAddr]. *)
Context (GossipAddr : gostring).
Definition gossipAddr : gostring := if bool_decide (GossipAddr = []) then !":51820" else GossipAddr.
Definition LocalGossipAddr (w : world) : gostring := default [] (transport_wire.LocalAddr (wListen w)).

(** The transport server: its logger, then its listener. *)
Definition startTransport (a : answers) : M unit := fun w =>
  let l := transport_wire.SetLogger (transport_wire.MkListening gossipAddr None false false) in
  let '(l, pool, r) := transport_wire.Start (aListen a) l (transport.MkServer ∅) in
  (MkWorld (setPool pool (wD w)) (wOS w) (wRan w) l, match r with Ok _ => Fine () | Err e => Fails (errListen e) end).

Definition closeTransport (a : answers) : M unit := fun w =>
  let '(l, pool, returns) := transport_wire.Close (aDrains a) (wListen w) (dPool (wD w)) in
  (MkWorld (setPool pool (wD w)) (wOS w) (wRan w) l, if returns : bool then Fine () else Hangs).

(** The plane of a daemon that starts. *)
Definition newPlane (d : Daemon R) : gossip.Plane :=
  let l := dLoaded d in
  gossip.OnMessage (gossip.SetVerifier (daemon.lookupPubKey (dFS d) (dPaths d) l)
    (gossip.SetSigner (daemon.EdPriv l) (gossip.NewPlane (daemon.NodeName l) graph.New))).

Definition writeFile (q : gostring) (data : bytes) (perm : Z) : M unit :=
  daemonStep (fun d => match os.WriteFile (dFS d) q data perm with
                       | Ok fs => (setFS fs d, Ok ())
                       | Err e => (d, Err e)
                       end) errWrite.

Definition removeFile (q : gostring) (w : world) : world :=
  match os.Remove (dFS (wD w)) q with
  | Ok fs => withD (setFS fs (wD w)) w
  | Err _ => w
  end.

(** [srv.Listen]. *)
Definition openSocket (a : answers) (path : gostring) : M unit :=
  daemonStep (fun d => let '(fs, r) := control_socket.Listen (aUmask a) (aBind a) (aChmod a) (dFS d) path in (setFS fs d, r)) errSocket.

(** The hooks, whose errors are logged. *)
Definition started (cmds : list script.command) (w : world) : world := MkWorld (wD w) (wOS w) (wRan w ++ cmds) (wListen w).
Definition runUp : M unit := fun w =>
  (started (script.runUp exec environ (dFS (wD w)) (dPaths (wD w)) (dLoaded (wD w))).1 w, Fine ()).
Definition runDown : M unit := fun w =>
  (started (script.runDown exec environ (dFS (wD w)) (dPaths (wD w)) (dLoaded (wD w))).1 w, Fine ()).

Definition applySandbox : M unit := fun w =>
  let '(os, r) := sandbox.applySandbox (daemon.Conf (dLoaded (wD w))) (dPaths (wD w)) (dRunDir (wD w)) (wOS w) in
  (MkWorld (wD w) os (wRan w) (wListen w), match r with Ok _ => Fine () | Err e => Fails (errSandbox e) end).

(** Its error is logged; a daemon without a reconciler panics here, which runs
    the deferred calls. *)
Definition shutdown : M unit := fun w =>
  match dRec (wD w) with
  | Some r => (withD (setRec (Some (rec_shutdown r).1) (wD w)) w, Fine ())
  | None => (w, Fails errNilReconciler)
  end.

(** [srv.Serve]: an error other than a cancelled context is returned in the end. *)
Definition serve (a : answers) : M (option gostring) := fun w =>
  let '(d, err) := aServe a (wD w) in
  (withD d w, if dExited d then Exits else Fine err).

(** The part of [Run] after the socket is open. *)
Definition serving (a : answers) : M unit :=
  _ ← applySandbox;
  err ← serve a;
  _ ← closeTransport a;
  _ ← runDown;
  _ ← shutdown;
  orFail (errServe <$> err).

Definition Run (a : answers) : M unit := fun w =>
  let pidPath := paths.PIDFile (dPaths (wD w)) (dRunDir (wD w)) in
  let sockPath := paths.ControlSocket (dPaths (wD w)) (dRunDir (wD w)) in
  (_ ← daemonStep load errLoad;
   _ ← startTransport a;
   _ ← daemonTry (E := unit) (fun d => (setPlane (newPlane d) d, Ok ()));
   _ ← daemonStep (announceLocal bcast k now) errAnnounce;
   _ ← daemonTry (applyReconcile k);
   _ ← runUp;
   cookie ← match aRandom a with Some buf => mret (control.NewCookie buf) | None => failing errRandom end;
   _ ← writeFile pidPath (control.encodePIDFile (control.MkPIDFile (aPID a) cookie)) 384;
   deferring (removeFile pidPath)
     (_ ← openSocket a sockPath;
      deferring (removeFile sockPath) (serving a))) w.

(** ** What a run does *)

Definition pidPath (w : world) : gostring := paths.PIDFile (dPaths (wD w)) (dRunDir (wD w)).
Definition sockPath (w : world) : gostring := paths.ControlSocket (dPaths (wD w)) (dRunDir (wD w)).
Definition upOf (d : Daemon R) : list script.command := (script.runUp exec environ (dFS d) (dPaths d) (dLoaded d)).1.
Definition downOf (d : Daemon R) : list script.command := (script.runDown exec environ (dFS d) (dPaths d) (dLoaded d)).1.

(** The daemon with the plane it starts with, before it announces anything. *)
Definition unannounced (l : daemon.loaded) (d : Daemon R) : Daemon R :=
  let d := setPool (transport.MkServer ∅) (setLoaded l d) in setPlane (newPlane d) d.

(** A daemon [d] that was started in the world [w] and has announced itself
    and reconciled: it has loaded its tree and changed no file; its plane
    carries the loaded name, signs with the loaded key, verifies with the keys
    on file, calls the observer, is well formed, and has the node's own Hello,
    signed, in the outbox; its pool is empty; and if the reconciler works, the
    data plane realises the desired state. *)
Record ready (w : world) (d : Daemon R) : Prop := {
  rd_loaded : daemon.load (dFS (wD w)) (dPaths (wD w)) = Ok (dLoaded d);
  rd_files : dFS d = dFS (wD w) /\ dPaths d = dPaths (wD w);
  rd_rest : restOf d = (dRunDir (wD w), transport.MkServer ∅, dEndpoint (wD w), dExited (wD w));
  rd_running : running d;
  rd_plane : gossip.NodeName (dPlane d) = daemon.NodeName (dLoaded d) /\
    gossip.edPriv (dPlane d) = Some (daemon.EdPriv (dLoaded d)) /\
    gossip.pubKeyFor (dPlane d) = Some (daemon.lookupPubKey (dFS d) (dPaths d) (dLoaded d));
  rd_hello : gossip.outbox (dPlane d) !! helloID (gossip.NodeName (dPlane d)) = Some (helloEnv d (now 0%nat));
  rd_rec : is_Some (dRec d) <-> is_Some (dRec (wD w));
  rd_sync : @reconciles R _ -> inSync d
}.

(** The PID file was written, with a cookie of fresh random bytes, and the
    socket was bound, or not: the file system then. *)
Definition opened (a : answers) (w : world) (d : Daemon R) (socket : FS * result osError unit) : Prop := exists buf fs1,
  aRandom a = Some buf /\
  os.WriteFile (dFS d) (pidPath w) (control.encodePIDFile (control.MkPIDFile (aPID a) (control.NewCookie buf))) 384 = Ok fs1 /\
  control_socket.Listen (aUmask a) (aBind a) (aChmod a) fs1 (sockPath w) = socket.

Definition sandboxed (w : world) (d : Daemon R) : sandbox.W * result sandbox.error unit :=
  sandbox.applySandbox (daemon.Conf (dLoaded d)) (dPaths d) (dRunDir d) (wOS w).

(** The PID file and the socket are gone, and no other file of [fs] has
    changed. *)
Definition cleaned (w : world) (fs : FS) (w' : world) : Prop :=
  files (dFS (wD w')) !! pidPath w = None /\ files (dFS (wD w')) !! sockPath w = None /\
  forall q, q <> pidPath w -> q <> sockPath w -> files (dFS (wD w')) !! q = files fs !! q.

(** What is left of the process: the system's view, the programs started, and
    whether the gossip listener is open. *)
Definition leaves (w' : world) (os : sandbox.W) (ran : list script.command) (open : bool) : Prop :=
  wOS w' = os /\ wRan w' = ran /\ transport_wire.listening (wListen w') = open.

(** Where a run ended. *)
Inductive stage :=
| NotLoaded | NotListening | NotAnnounced | NotWritten | NoSocket | NoSandbox | Exited | Hung | Panicked | Served.

(** How a run that began in [w] ends: the stage, the world and the outcome. *)
Inductive ends (a : answers) (w : world) : stage -> world -> outcome error unit -> Prop :=
| end_load e : daemon.load (dFS (wD w)) (dPaths (wD w)) = Err e -> ends a w NotLoaded w (Fails (errLoad e))
| end_listen l e w' :
    daemon.load (dFS (wD w)) (dPaths (wD w)) = Ok l -> aListen a gossipAddr = Err e ->
    dRec (wD w') = dRec (wD w) -> dFS (wD w') = dFS (wD w) -> leaves w' (wOS w) (wRan w) false ->
    ends a w NotListening w' (Fails (errListen e))
| end_announce l e w' :
    daemon.load (dFS (wD w)) (dPaths (wD w)) = Ok l -> is_ok (aListen a gossipAddr) = true ->
    announceLocal bcast k now (unannounced l (wD w)) = (wD w', Err e) ->
    dFS (wD w') = dFS (wD w) -> leaves w' (wOS w) (wRan w) true ->
    ends a w NotAnnounced w' (Fails (errAnnounce e))
| end_random w' : ready w (wD w') -> aRandom a = None -> leaves w' (wOS w) (wRan w ++ upOf (wD w')) true ->
    ends a w NotWritten w' (Fails errRandom)
| end_write buf e w' : ready w (wD w') -> aRandom a = Some buf ->
    os.WriteFile (dFS (wD w)) (pidPath w) (control.encodePIDFile (control.MkPIDFile (aPID a) (control.NewCookie buf))) 384 = Err e ->
    leaves w' (wOS w) (wRan w ++ upOf (wD w')) true ->
    ends a w NotWritten w' (Fails (errWrite e))
| end_socket d fs e w' : ready w d -> opened a w d (fs, Err e) -> dRec (wD w') = dRec d -> leaves w' (wOS w) (wRan w ++ upOf d) true ->
    cleaned w (dFS (wD w)) w' ->
    ends a w NoSocket w' (Fails (errSocket e))
| end_sandbox d fs e w' : ready w d -> opened a w d (fs, Ok ()) -> (sandboxed w d).2 = Err e -> dRec (wD w') = dRec d ->
    leaves w' (sandboxed w d).1 (wRan w ++ upOf d) true -> cleaned w (dFS (wD w)) w' ->
    ends a w NoSandbox w' (Fails (errSandbox e))
| end_exit d fs err w' : ready w d -> opened a w d (fs, Ok ()) -> (sandboxed w d).2 = Ok () ->
    aServe a (setFS fs d) = (wD w', err) -> dExited (wD w') = true ->
    leaves w' (sandboxed w d).1 (wRan w ++ upOf d) true ->
    ends a w Exited w' Exits
| end_hang d fs d' err w' : ready w d -> opened a w d (fs, Ok ()) -> (sandboxed w d).2 = Ok () ->
    aServe a (setFS fs d) = (d', err) -> dExited d' = false -> aDrains a = false ->
    wD w' = setPool (transport.closeAll (dPool d')) d' -> leaves w' (sandboxed w d).1 (wRan w ++ upOf d) false ->
    ends a w Hung w' Hangs
| end_panic d fs d' err w' : ready w d -> opened a w d (fs, Ok ()) -> (sandboxed w d).2 = Ok () ->
    aServe a (setFS fs d) = (d', err) -> dExited d' = false -> aDrains a = true ->
    dRec d' = None -> dPool (wD w') = transport.MkServer ∅ ->
    leaves w' (sandboxed w d).1 (wRan w ++ upOf d ++ downOf d') false -> cleaned w (dFS d') w' ->
    ends a w Panicked w' (Fails errNilReconciler)
| end_serve d fs d' r err w' : ready w d -> opened a w d (fs, Ok ()) -> (sandboxed w d).2 = Ok () ->
    aServe a (setFS fs d) = (d', err) -> dExited d' = false -> aDrains a = true ->
    dRec d' = Some r -> dRec (wD w') = Some (rec_shutdown r).1 -> dPool (wD w') = transport.MkServer ∅ ->
    leaves w' (sandboxed w d).1 (wRan w ++ upOf d ++ downOf d') false -> cleaned w (dFS d') w' ->
    ends a w Served w' (match err with None => Fine () | Some e => Fails (errServe e) end).

(** *** Lemmas *)

Lemma newPlane_wf d : gossip.wf (newPlane d).
Proof.
  unfold newPlane. eapply gossip.wf_planeStep; [apply gossip.step_observer|].
  eapply gossip.wf_planeStep; [apply gossip.step_verifier|].
  eapply gossip.wf_planeStep; [apply gossip.step_signer|]. apply gossip.wf_NewPlane, graph.wf_New.
Qed.

(** Announcing and reconciling make a started daemon ready. *)
Lemma started_ready w l d : daemon.load (dFS (wD w)) (dPaths (wD w)) = Ok l ->
  announceLocal bcast k now (unannounced l (wD w)) = (d, Ok ()) -> ready w (applyReconcile k d).1.
Proof.
  intros El Ea. set (d0 := unannounced l (wD w)) in *. assert ((announceLocal bcast k now d0).1 = d) as E by by rewrite Ea.
  destruct (announceLocal_fixed bcast k now d0) as (F1 & F2 & F3). pose proof (announceLocal_rest bcast k now d0) as Fr.
  destruct (announceLocal_tables bcast k now d0) as [Ho _].
  assert (gossip.NodeName (dPlane d) = daemon.NodeName l /\ gossip.edPriv (dPlane d) = Some (daemon.EdPriv l) /\
    gossip.pubKeyFor (dPlane d) = Some (daemon.lookupPubKey (dFS d0) (dPaths d0) l) /\
    gossip.listener (dPlane d) = true /\ gossip.wf (dPlane d)) as (Pn & Pk & Pv & Pl & Pw).
  { rewrite <- E. apply (announceLocal_plane_ind bcast k now (fun pl => gossip.NodeName pl = daemon.NodeName l /\
      gossip.edPriv pl = Some (daemon.EdPriv l) /\ gossip.pubKeyFor pl = Some (daemon.lookupPubKey (dFS d0) (dPaths d0) l) /\
      gossip.listener pl = true /\ gossip.wf pl)).
    - intros t id kind body pl (Qn & Qk & Qv & Ql & Qw).
      destruct (originate_fixed bcast k t id kind body pl) as (-> & -> & -> & ->).
      split_and!; [done..|by apply gossip.wf_originate].
    - split_and!; try reflexivity. apply newPlane_wf. }
  rewrite E in *. destruct (applyReconcile_keeps k d) as (K1 & K2 & K3 & K4 & K5). pose proof (applyReconcile_rest k d) as Kr.
  change (dFS d0) with (dFS (wD w)) in *. change (dPaths d0) with (dPaths (wD w)) in *. change (dLoaded d0) with l in *.
  split.
  - by rewrite K4, F3.
  - by rewrite K2, K3, F1, F2.
  - by rewrite Kr, Fr.
  - split; by rewrite K1.
  - by rewrite K1, K2, K3, K4, F1, F2, F3.
  - rewrite K1, Pn. change (gossip.NodeName (dPlane d0)) with (daemon.NodeName l) in Ho. rewrite Ho. f_equal.
    unfold helloEnv, gossip.sign. rewrite K1, Pk, Pn, K4, F3.
    assert (dEndpoint (applyReconcile k d).1 = dEndpoint d0) as ->; [|done].
    assert (restOf (applyReconcile k d).1 = restOf d0) as Er by by rewrite Kr. unfold restOf in Er. by injection Er.
  - rewrite K5, <- E. exact (announceLocal_rec bcast k now d0).
  - intros Hok. by apply applyReconcile_sync.
Qed.

Lemma removeFile_files q w : (forall p, files (dFS (wD (removeFile q w))) !! p = if decide (q = p) then None else files (dFS (wD w)) !! p) /\
  dRec (wD (removeFile q w)) = dRec (wD w) /\ dPool (wD (removeFile q w)) = dPool (wD w) /\
  wOS (removeFile q w) = wOS w /\ wRan (removeFile q w) = wRan w /\ wListen (removeFile q w) = wListen w.
Proof.
  unfold removeFile, os.Remove. destruct (files (dFS (wD w)) !! q) eqn:E; (split; [|done]); intros p.
  - cbn. by rewrite lookup_delete.
  - by case_decide; [subst|].
Qed.

(** The deferred calls. *)
Lemma removed w fs w1 : (forall q, q <> pidPath w -> q <> sockPath w -> files (dFS (wD w1)) !! q = files fs !! q) ->
  let w' := removeFile (pidPath w) (removeFile (sockPath w) w1) in
  cleaned w fs w' /\ dRec (wD w') = dRec (wD w1) /\ dPool (wD w') = dPool (wD w1) /\
  forall os ran open, leaves w1 os ran open -> leaves w' os ran open.
Proof.
  intros Hf w'. destruct (removeFile_files (sockPath w) w1) as (F1 & R1 & P1 & O1 & C1 & L1).
  destruct (removeFile_files (pidPath w) (removeFile (sockPath w) w1)) as (F2 & R2 & P2 & O2 & C2 & L2).
  fold w' in F2, R2, P2, O2, C2, L2. split_and!; [|congruence|congruence|].
  - split_and!; [by rewrite F2, decide_True| |intros q H1' H2'; rewrite F2, decide_False, F1, decide_False by congruence; by apply Hf].
    rewrite F2. case_decide; [done|]. by rewrite F1, decide_True.
  - intros os ran open (<- & <- & <-). unfold leaves. by rewrite O2, O1, C2, C1, L2, L1.
Qed.

Lemma opened_files a w d fs : ready w d -> opened a w d (fs, Ok ()) ->
  forall q, q <> pidPath w -> q <> sockPath w -> files fs !! q = files (dFS (wD w)) !! q.
Proof.
  intros Hr (buf & fs1 & _ & Hw & Hl) q H1' H2'.
  pose proof (control_socket.Listen_spec (aUmask a) (aBind a) (aChmod a) fs1 (sockPath w)) as Hs. rewrite Hl in Hs.
  destruct Hs as [_ ->]. rewrite lookup_insert_ne by congruence.
  destruct (files_WriteFile _ _ _ _ _ q Hw H1') as [-> _]. by destruct (rd_files w d Hr) as [-> _].
Qed.

Lemma deferring_ext {A} f (m m' : M A) w w' : m w = m' w' -> deferring f m w = deferring f m' w'.
Proof. unfold deferring. by intros ->. Qed.

Lemma deferring_bind {A B} f (m : M A) (g : A -> M B) w w1 a : m w = (w1, Fine a) ->
  deferring f (m ≫= g) w = deferring f (g a) w1.
Proof. intros E. apply deferring_ext. unfold mbind, M_bind. by rewrite E. Qed.

(** From serving on. *)
Definition afterSandbox (a : answers) : M unit :=
  err ← serve a; _ ← closeTransport a; _ ← runDown; _ ← shutdown; orFail (errServe <$> err).

Lemma serve_ends a w d fs w1 : ready w d -> opened a w d (fs, Ok ()) -> (sandboxed w d).2 = Ok () ->
  wD w1 = setFS fs d -> leaves w1 (sandboxed w d).1 (wRan w ++ upOf d) true ->
  let '(w', o) := deferring (removeFile (pidPath w)) (deferring (removeFile (sockPath w)) (afterSandbox a)) w1 in
  exists st, ends a w st w' o.
Proof.
  intros Hr Ho Hs Ed Hl. unfold afterSandbox, serve, mbind, M_bind, deferring. rewrite Ed.
  destruct (aServe a (setFS fs d)) as [d' err] eqn:Ea. destruct (dExited d') eqn:Ex.
  { exists Exited. by eapply end_exit. }
  destruct Hl as (L1 & L2 & L3). unfold closeTransport, transport_wire.Close. destruct (aDrains a) eqn:Ec; cbn [withD wD wOS wRan wListen].
  2:{ exists Hung. by eapply end_hang. }
  unfold runDown, started, shutdown. cbn [wD wOS wRan wListen setPool dRec].
  match goal with |- context [script.runDown ?a ?b ?c ?d ?e] => change (script.runDown a b c d e).1 with (downOf d') end.
  destruct (dRec d') as [r|] eqn:Er.
  - set (w2 := withD _ _). destruct (removed w (dFS d') w2) as (Hc & Hrec & Hp & Hlv); [done|].
    assert (leaves w2 (sandboxed w d).1 (wRan w ++ upOf d ++ downOf d') false) as Hw2
      by (split_and!; [exact L1|cbn; by rewrite L2, app_assoc|done]).
    destruct err as [e|]; cbn [fmap option_fmap option_map orFail]; unfold failing, mret, M_ret; exists Served;
      [apply (end_serve a w d fs d' r (Some e))|apply (end_serve a w d fs d' r None)]; auto; try (etrans; [exact Hp|done]).
  - match goal with |- context [removeFile (sockPath w) ?x] => set (w2 := x) end.
    destruct (removed w (dFS d') w2) as (Hc & Hrec & Hp & Hlv); [done|]. exists Panicked. eapply end_panic; eauto.
    apply Hlv. split_and!; [exact L1|cbn; by rewrite L2, app_assoc|done].
Qed.

(** With the sandbox. *)
Lemma serving_ends a w d fs w1 : ready w d -> opened a w d (fs, Ok ()) ->
  wD w1 = setFS fs d -> leaves w1 (wOS w) (wRan w ++ upOf d) true ->
  let '(w', o) := deferring (removeFile (pidPath w)) (deferring (removeFile (sockPath w)) (serving a)) w1 in
  exists st, ends a w st w' o.
Proof.
  intros Hr Hop Ed (L1 & L2 & L3). set (w2 := MkWorld (setFS fs d) (sandboxed w d).1 (wRan w1) (wListen w1)).
  assert (applySandbox w1 = (w2, match (sandboxed w d).2 with Ok _ => Fine () | Err e => Fails (errSandbox e) end)) as Es.
  { unfold applySandbox, w2, sandboxed. rewrite Ed, L1. cbn [setFS dLoaded dPaths dRunDir].
    by destruct (sandbox.applySandbox _ _ _ (wOS w)) as [os r]. }
  destruct (sandboxed w d).2 as [[]|e] eqn:Er.
  - unfold serving. rewrite (deferring_ext _ _ _ _ _ (deferring_bind (removeFile (sockPath w)) applySandbox _ _ _ _ Es)).
    by apply (serve_ends a w d fs w2).
  - unfold deferring, serving, mbind, M_bind. rewrite Es. exists NoSandbox.
    destruct (removed w (dFS (wD w)) w2) as (Hc & Hrec & _ & Hlv); [by apply (opened_files a w d)|].
    apply (end_sandbox a w d fs); auto. by apply Hlv.
Qed.

(** From the PID file on. *)
Lemma withPID_ends a w d buf fs1 w1 : ready w d -> aRandom a = Some buf ->
  os.WriteFile (dFS d) (pidPath w) (control.encodePIDFile (control.MkPIDFile (aPID a) (control.NewCookie buf))) 384 = Ok fs1 ->
  wD w1 = setFS fs1 d -> leaves w1 (wOS w) (wRan w ++ upOf d) true ->
  let '(w', o) := deferring (removeFile (pidPath w))
     (_ ← openSocket a (sockPath w); deferring (removeFile (sockPath w)) (serving a)) w1 in
  exists st, ends a w st w' o.
Proof.
  intros Hr Hb Hw Ed Hl.
  pose proof (control_socket.Listen_spec (aUmask a) (aBind a) (aChmod a) fs1 (sockPath w)) as Hs.
  destruct (control_socket.Listen (aUmask a) (aBind a) (aChmod a) fs1 (sockPath w)) as [fs r] eqn:El. destruct Hs as [_ Hf].
  set (w2 := withD (setFS fs (setFS fs1 d)) w1).
  assert (openSocket a (sockPath w) w1 = (w2, match r with Ok _ => Fine () | Err e => Fails (errSocket e) end)) as Eo
    by (unfold openSocket, daemonStep; rewrite Ed; cbn [dFS setFS]; by rewrite El).
  destruct r as [[]|e].
  2:{ unfold deferring at 1, mbind, M_bind. rewrite Eo. exists NoSocket.
      destruct (removeFile_files (pidPath w) w2) as (F & Rc & _ & O & C & L). destruct Hl as (L1 & L2 & L3).
      apply (end_socket a w d fs e); [done|by exists buf, fs1|exact Rc|split_and!; [by rewrite O|by rewrite C|by rewrite L]|].
      assert (files fs !! sockPath w = None) as Hn by (rewrite Hf; apply lookup_delete_eq). split_and!.
      - by rewrite F, decide_True.
      - rewrite F. by case_decide.
      - intros q H1' H2'. rewrite F, decide_False by congruence. cbn. rewrite Hf, lookup_delete_ne by congruence.
        destruct (files_WriteFile _ _ _ _ _ q Hw H1') as [-> _]. by destruct (rd_files w d Hr) as [-> _]. }
  rewrite (deferring_bind _ _ _ _ _ _ Eo). apply (serving_ends a w d fs); [done|by exists buf, fs1|done|exact Hl].
Qed.

Lemma Run_ends a w : let '(w', o) := Run a w in exists st, ends a w st w' o.
Proof.
  unfold Run. fold (pidPath w) (sockPath w).
  unfold mbind at 1, M_bind at 1, daemonStep at 1, load.
  destruct (daemon.load (dFS (wD w)) (dPaths (wD w))) as [l|e] eqn:El.
  2:{ exists NotLoaded. destruct w as [d os ran li]. by apply end_load. }
  unfold mbind at 1, M_bind at 1, startTransport at 1, transport_wire.Start. cbn [transport_wire.Addr transport_wire.SetLogger].
  destruct (aListen a gossipAddr) as [addr|e] eqn:Ea.
  2:{ exists NotListening. by eapply end_listen. }
  unfold mbind at 1, M_bind at 1, daemonTry at 1. cbn [withD wD wOS wRan wListen fst].
  match goal with |- context [withD ?x _] => change x with (unannounced l (wD w)) end.
  unfold mbind at 1, M_bind at 1, daemonStep at 1. cbn [withD wD wOS wRan wListen].
  destruct (announceLocal bcast k now (unannounced l (wD w))) as [d [[]|e]] eqn:En.
  2:{ exists NotAnnounced. apply (end_announce a w l e); [done|by rewrite Ea|done| |done].
      pose proof (announceLocal_fixed bcast k now (unannounced l (wD w))) as (F & _). rewrite En in F. exact F. }
  pose proof (started_ready w l d El En) as Hr.
  unfold mbind at 1, M_bind at 1, daemonTry at 1. cbn [withD wD wOS wRan wListen fst].
  set (d1 := (applyReconcile k d).1) in *. clearbody d1.
  unfold mbind at 1, M_bind at 1, runUp at 1, started at 1. cbn [withD wD wOS wRan wListen]. fold (upOf d1).
  unfold mbind at 1, M_bind at 1. destruct (aRandom a) as [buf|] eqn:Er; cbn [failing].
  2:{ exists NotWritten. by apply end_random. }
  unfold mret at 1, M_ret at 1. unfold mbind at 1, M_bind at 1, writeFile, daemonStep at 1. cbn [withD wD wOS wRan wListen].
  destruct (os.WriteFile (dFS d1) (pidPath w) _ 384) as [fs1|e] eqn:Ew.
  2:{ exists NotWritten. apply (end_write a w buf e); [done|done| |done]. by destruct (rd_files w d1 Hr) as [<- _]. }
  by apply (withPID_ends a w d1 buf fs1).
Qed.


(** A run that succeeds has served and shut the reconciler down. *)
Lemma run_succeeds a w : (Run a w).2 = Fine () ->
  exists d fs d' r, ready w d /\ opened a w d (fs, Ok ()) /\ aServe a (setFS fs d) = (d', None) /\
    dRec d' = Some r /\ dRec (wD (Run a w).1) = Some (rec_shutdown r).1 /\ cleaned w (dFS d') (Run a w).1.
Proof.
  intros E. pose proof (Run_ends a w) as Hr. destruct (Run a w) as [w' o]. cbn [fst snd] in *. destruct Hr as [st Hr].
  destruct Hr; try discriminate E. destruct err as [e|]; [discriminate E|]. by exists d, fs, d', r.
Qed.
End run.
End run.
