(* ===== verification/Discovery.v ===== *)
(** * Endpoint discovery (internal/daemon/discovery.go)

    One round of the discovery loop asks the gateway and the STUN servers; the
    loop stores a new endpoint and announces it.  What the network answers in
    a round is a record of its own; between two rounds the rest of the daemon
    runs. *)

From Stdlib Require Import Ascii String ZArith Lia.
From stdpp Require Import base tactics list gmap strings relations.
From S2P Require Import Prelude.
From S2P Require Import GoStrings.
From S2P Require Import FS.
From S2P Require Import Graph.
From S2P Require Import NetIP.
From S2P Require Import Binary.
From S2P Require Import Config.
From S2P Require Import Keys.
From S2P Require Import Message.
From S2P Require Import Gossip.
From S2P Require Import Transport.
From S2P Require Import Stun.
From S2P Require Import Upnp.
From S2P Require Import Dataplane.
From S2P Require Import Daemon.
From S2P Require Import DaemonEvents.

Local Open Scope Z_scope.

Module discovery.
Import events.

(** [endpointStore] *)
Definition Get (e : netip.AddrPort) : netip.AddrPort := e.
Definition Set' (e ap : netip.AddrPort) : netip.AddrPort * bool := if bool_decide (e = ap) then (e, false) else (ap, true).

(** What the network answers in one round. *)
Record answers := MkAnswers {
  nSearch : option gostring; nOffers : list (bool * bytes * option gostring);
  nGet : gostring -> result gostring bytes; nPost : upnp.request -> result gostring (Z * bytes);
  nStun : gostring -> stun.network
}.

Section discovery.
Context {R : Type} `{Reconciler R, Unicode, UpperCase, Ed25519, X509, WGTypes, MapOrder}.
Context (xmlDevices : bytes -> result gostring (list upnp.innerDevice)) (xmlExternalIP : bytes -> result gostring gostring).
Context (resolve : gostring -> gostring -> result gostring gostring).
Implicit Types d : Daemon R.

Inductive error := errUpnp (e : upnp.error) | errBadIP (ip : gostring).

Definition getExternalIP (n : answers) (g : upnp.IGD) : result error netip.Addr :=
  match upnp.GetExternalIPAddress (nPost n) xmlExternalIP g with
  | Err e => Err (errUpnp e)
  | Ok ip => match netip.ParseAddr ip with Some a => Ok a | None => Err (errBadIP ip) end
  end.

(** The gateway kept for the next round, and the endpoint. *)
Definition refreshUPnP (n : answers) (igd : option upnp.IGD) (wgPort : Z) : option upnp.IGD * netip.AddrPort :=
  match (match igd with
         | Some g => Ok g
         | None => upnp.Discover (nGet n) xmlDevices resolve (nSearch n) (nOffers n)
         end) with
  | Err _ => (None, netip.AddrPortZero)
  | Ok g =>
      match upnp.AddPortMapping (nPost n) g !"UDP" wgPort wgPort !"gsnet" 3600 with
      | Err _ => (None, netip.AddrPortZero)
      | Ok _ =>
          match getExternalIP n g with
          | Ok ext => if netip.IsValid ext then (Some g, netip.MkAddrPort ext (uint16 wgPort)) else (Some g, netip.AddrPortZero)
          | Err _ => (Some g, netip.AddrPortZero)
          end
      end
  end.

(** The loop over the STUN servers; a panic stops the program. *)
Fixpoint stunLoop (n : answers) (port : Z) (servers : list gostring) : outcome netip.AddrPort :=
  match servers with
  | [] => Returns netip.AddrPortZero
  | srv :: servers =>
      r ← stun.QueryOnEphemeralPort (nStun n srv);
      match r with
      | Err _ => stunLoop n port servers
      | Ok ap => Returns (netip.MkAddrPort (netip.apAddr ap) port)
      end
  end.

Definition asksGateway (mode : gostring) : bool := bool_decide (mode = !"yes") || bool_decide (mode = !"udponly").

Definition discoverOnce (n : answers) (l : daemon.loaded) (servers : list gostring) (mode : gostring) (igd : option upnp.IGD)
  : outcome (option upnp.IGD * netip.AddrPort) :=
  let port := uint16 (daemon.WGListenPort l) in
  let '(igd, ep) := if asksGateway mode then refreshUPnP n igd port else (igd, netip.AddrPortZero) in
  if netip.apIsValid ep then Returns (igd, ep)
  else ep ← stunLoop n port servers; Returns (igd, ep).

(** ** The loop *)

(** The servers, the mode and the seconds between rounds; [None] when there is
    nothing to do. *)
Definition settings (conf : list config.Entry) : option (list gostring * gostring * Z) :=
  let servers := config.GetAll conf !"STUN" in
  let raw := ToLower (default [] (config.GetFirst conf !"UPnP")) in
  let mode := if bool_decide (raw = []) then !"no" else raw in
  let refresh := match config.GetFirst conf !"UPnPRefreshPeriod" with
                 | Some v => match Atoi v with Ok n => if 0 <? n then n else 60 | Err _ => 60 end
                 | None => 60
                 end in
  if bool_decide (servers = []) && bool_decide (mode = !"no") then None else Some (servers, mode, refresh).

(** One round. *)
Definition round (bcast : nat -> message.Envelope -> option nat) (k : nat) (now : nat -> Z)
    (n : answers) (servers : list gostring) (mode : gostring) (igd : option upnp.IGD) d : outcome (option upnp.IGD * Daemon R) :=
  '(igd, ep) ← discoverOnce n (dLoaded d) servers mode igd;
  let '(stored, changed) := Set' (Get (dEndpoint d)) ep in
  Returns (igd, if netip.apIsValid ep && changed then (announceLocal bcast k now (setEndpoint stored d)).1 else d).

(** The rounds until the context is done, with what the rest of the daemon
    does after each. *)
Fixpoint rounds (bcast : nat -> message.Envelope -> option nat) (k : nat) (now : nat -> Z) (servers : list gostring) (mode : gostring)
    (ns : list (answers * (Daemon R -> Daemon R))) (igd : option upnp.IGD) d : outcome (option upnp.IGD * Daemon R) :=
  match ns with
  | [] => Returns (igd, d)
  | (n, rest) :: ns =>
      '(igd, d) ← round bcast k now n servers mode igd d;
      rounds bcast k now servers mode ns igd (rest d)
  end.

(** The whole of [runDiscovery]: the daemon in the end, and the port whose
    mapping it asks the gateway to delete. *)
Definition runDiscovery (bcast : nat -> message.Envelope -> option nat) (k : nat) (now : nat -> Z)
    (ns : list (answers * (Daemon R -> Daemon R))) d : outcome (Daemon R * option Z) :=
  match settings (daemon.Conf (dLoaded d)) with
  | None => Returns (d, None)
  | Some (servers, mode, _) =>
      match rounds bcast k now servers mode ns None d with
      | Returns (igd, d') => Returns (d', (fun _ => daemon.WGListenPort (dLoaded d)) <$> igd)
      | Panics => Panics
      end
  end.

(** ** Lemmas *)

Lemma stunLoop_valid n port servers ep : stunLoop n port servers = Returns ep -> netip.apIsValid ep = true ->
  netip.apPort ep = port /\ exists srv ap, srv ∈ servers /\ stun.QueryOnEphemeralPort (nStun n srv) = Returns (Ok ap) /\
    netip.apAddr ep = netip.apAddr ap.
Proof.
  induction servers as [|srv servers IH]; cbn [stunLoop]; [by intros [= <-]|].
  destruct (stun.QueryOnEphemeralPort (nStun n srv)) as [[ap|e]|] eqn:E; cbn [mbind outcome_bind]; [| |done].
  - intros [= <-] _. cbn. split; [done|]. exists srv, ap. split_and!; [apply list_elem_of_here|done..].
  - intros Hs Hv. destruct (IH Hs Hv) as (Hp & srv' & ap & Hin & Hq & Ha). split; [done|].
    exists srv', ap. split_and!; [by apply list_elem_of_further|done..].
Qed.

Lemma refreshUPnP_valid n igd port igd' ep : 0 <= port < 65536 -> refreshUPnP n igd port = (igd', ep) -> netip.apIsValid ep = true ->
  netip.apPort ep = port /\ exists g ip, igd' = Some g /\
    upnp.AddPortMapping (nPost n) g !"UDP" port port !"gsnet" 3600 = Ok () /\
    upnp.GetExternalIPAddress (nPost n) xmlExternalIP g = Ok ip /\ netip.ParseAddr ip = Some (netip.apAddr ep).
Proof.
  intros Hp. unfold refreshUPnP, getExternalIP. set (found := match igd with Some g => _ | None => _ end).
  destruct found as [g|e]; [|by intros [= <- <-]].
  destruct (upnp.AddPortMapping _ _ _ _ _ _ _) as [[]|e] eqn:E1; [|by intros [= <- <-]].
  destruct (upnp.GetExternalIPAddress _ _ _) as [ip|e] eqn:E2; [|by intros [= <- <-]].
  destruct (netip.ParseAddr ip) as [a|] eqn:E3; [|by intros [= <- <-]].
  destruct (netip.IsValid a); intros [= <- <-]; [|done]. intros _. cbn. unfold uint16, wrap_u. rewrite Z.mod_small by done.
  split; [done|]. by exists g, ip.
Qed.

Lemma uint16_range n : 0 <= uint16 n < 65536.
Proof. apply Z.mod_pos_bound. lia. Qed.

(** C37.  One round, whatever the network answers: either it panics, or the daemon
    is as before, or it has stored and announced an endpoint it did not have.
    An endpoint it announces is valid, its port is the WireGuard port (modulo
    2^16), and its address comes from a gateway that has just confirmed the
    mapping of that very port, or from a configured STUN server. *)
Theorem discovery_round bcast k now n servers mode igd igd' d d' :
  round bcast k now n servers mode igd d = Returns (igd', d') ->
  d' = d \/ exists ep,
    d' = (announceLocal bcast k now (setEndpoint ep d)).1 /\ ep <> dEndpoint d /\ netip.apIsValid ep = true /\
    let port := uint16 (daemon.WGListenPort (dLoaded d)) in
    netip.apPort ep = port /\
    ((asksGateway mode = true /\ exists g ip, igd' = Some g /\
        upnp.AddPortMapping (nPost n) g !"UDP" port port !"gsnet" 3600 = Ok () /\
        upnp.GetExternalIPAddress (nPost n) xmlExternalIP g = Ok ip /\ netip.ParseAddr ip = Some (netip.apAddr ep)) \/
     (exists srv ap, srv ∈ servers /\ stun.QueryOnEphemeralPort (nStun n srv) = Returns (Ok ap) /\
        netip.apAddr ep = netip.apAddr ap)).
Proof.
  unfold round, discoverOnce. set (port := uint16 _).
  destruct (if asksGateway mode then _ else _) as [igd1 ep1] eqn:E1.
  unfold Set', Get. destruct (netip.apIsValid ep1) eqn:Ev.
  - cbn [mbind outcome_bind]. case_bool_decide as Hd; cbn; intros [= -> <-]; [left; by rewrite andb_false_r|].
    rewrite Ev. right. exists ep1. (split; [done|split; [congruence|split; [done|]]]).
    destruct (asksGateway mode) eqn:Em; [|injection E1 as -> <-; discriminate Ev].
    destruct (refreshUPnP_valid n igd port igd' ep1 (uint16_range _) E1 Ev) as (Hp & g & ip & Hg). cbv zeta. split; [done|].
    left. split; [done|]. by exists g, ip.
  - destruct (stunLoop n port servers) as [ep|] eqn:Es; cbn [mbind outcome_bind]; [|done].
    destruct (netip.apIsValid ep) eqn:Ev2; [|case_bool_decide; cbn; intros [= <- <-]; by left].
    case_bool_decide as Hd; cbn; intros [= <- <-]; [by left|]. right. exists ep. (split; [done|split; [congruence|split; [done|]]]).
    destruct (stunLoop_valid n port servers ep Es Ev2) as [Hp Hs]. cbv zeta. split; [done|]. by right.
Qed.

Lemma round_step bcast k now n servers mode igd igd' d d' :
  round bcast k now n servers mode igd d = Returns (igd', d') -> reaches d d'.
Proof.
  unfold round. destruct (discoverOnce _ _ _ _ _) as [[igd1 ep]|]; cbn [mbind outcome_bind]; [|done].
  unfold Set', Get. destruct (netip.apIsValid ep); case_bool_decide; cbn; intros [= <- <-]; try reflexivity.
  apply (reaches_once (EvEndpoint bcast k now _)).
Qed.

Lemma rounds_steps bcast k now servers mode ns igd igd' d d' :
  Forall (fun x => forall d, reaches d (x.2 d)) ns ->
  rounds bcast k now servers mode ns igd d = Returns (igd', d') -> reaches d d'.
Proof.
  intros Hf. revert igd d. induction Hf as [|[n rest] ns Hr _ IH]; intros igd d; cbn [rounds]; [intros [= <- <-]; reflexivity|].
  destruct (round bcast k now n servers mode igd d) as [[igd1 d1]|] eqn:E; cbn [mbind outcome_bind]; [|done].
  intros Hs%IH. apply round_step in E. etrans; [exact E|]. etrans; [apply Hr|exact Hs].
Qed.

(** The discovery loop is one of the daemon's event sources.  When all that
    runs beside it is events of the daemon, then so is everything up to its
    end, so it keeps what every event keeps; without STUN servers and with
    UPnP off it does nothing; and it asks the gateway to delete a mapping only
    if it has one. *)
Theorem discovery_events bcast k now ns d d' del :
  Forall (fun x => forall d, reaches d (x.2 d)) ns ->
  runDiscovery bcast k now ns d = Returns (d', del) ->
  reaches d d' /\
  (config.GetAll (daemon.Conf (dLoaded d)) !"STUN" = [] -> default [] (config.GetFirst (daemon.Conf (dLoaded d)) !"UPnP") = [] ->
     d' = d /\ del = None) /\
  (forall servers mode refresh, settings (daemon.Conf (dLoaded d)) = Some (servers, mode, refresh) ->
     asksGateway mode = false -> del = None) /\
  (forall servers mode refresh, settings (daemon.Conf (dLoaded d)) = Some (servers, mode, refresh) -> 0 < refresh).
Proof.
  intros Hf Hrun. unfold runDiscovery in Hrun. split_and!.
  - destruct (settings _) as [[[servers mode] refresh]|]; [|injection Hrun as <- <-; reflexivity].
    destruct (rounds _ _ _ _ _ _ _ _) as [[igd d1]|] eqn:E; [|done]. injection Hrun as <- _. by eapply rounds_steps.
  - intros Hs Hu. assert (settings (daemon.Conf (dLoaded d)) = None) as E.
    { unfold settings. rewrite Hs, Hu. reflexivity. }
    rewrite E in Hrun. by injection Hrun as <- <-.
  - intros servers mode refresh Es Em. rewrite Es in Hrun.
    assert (forall ns igd d igd' d', rounds bcast k now servers mode ns igd d = Returns (igd', d') -> igd' = igd) as Hk.
    { induction ns0 as [|[n rest] ns0 IH]; intros igd d0 igd' d0'; cbn [rounds]; [by intros [= <- <-]|].
      unfold round, discoverOnce. rewrite Em. cbn [netip.apIsValid netip.AddrPortZero netip.apAddr netip.IsValid].
      destruct (stunLoop _ _ _) as [ep|]; cbn [mbind outcome_bind]; [|done].
      destruct (Set' _ _) as [stored ch]. cbn [mbind outcome_bind]. apply IH. }
    destruct (rounds _ _ _ _ _ _ _ _) as [[igd d1]|] eqn:E; [|done]. apply Hk in E as ->. by injection Hrun as _ <-.
  - unfold settings. intros servers mode refresh. destruct (_ && _); [done|]. intros [= _ _ <-].
    destruct (config.GetFirst _ _) as [v|]; [|lia]. destruct (Atoi v) as [z|]; [|lia]. destruct (Z.ltb_spec 0 z); lia.
Qed.

(** C40.  A STUN server can stop the daemon.  If it is asked first and answers with a
    response whose last attribute has a length that is not a multiple of four
    and no padding after it, parsing the response panics; nothing recovers,
    so the program ends, whatever the later rounds would have been. *)
Theorem stun_reply_stops_daemon bcast k now n rest ns d srv servers mode refresh txid typ v more :
  settings (daemon.Conf (dLoaded d)) = Some (srv :: servers, mode, refresh) -> asksGateway mode = false ->
  nStun n srv = stun.MkNetwork true true (Some txid) true
    (stun.response txid (binary.bePut 2 typ ++ binary.bePut 2 (Z.of_nat (length v)) ++ v) :: more) ->
  length txid = 12%nat -> stun.foreign (typ, v) -> (length v mod 4 <> 0)%nat -> (length v <= 1400)%nat ->
  runDiscovery bcast k now ((n, rest) :: ns) d = Panics.
Proof.
  intros Hs Hm Hn Ht Hfo Hv Hl. unfold runDiscovery. rewrite Hs. cbn [rounds]. unfold round, discoverOnce. rewrite Hm.
  cbn [netip.apIsValid netip.AddrPortZero netip.apAddr netip.IsValid stunLoop]. rewrite Hn.
  unfold stun.QueryOnEphemeralPort, stun.Query. cbn [stun.nListen stun.nResolve stun.nRandom stun.nWrite stun.nDatagrams negb stun.queryLoop].
  rewrite take_ge.
  - rewrite stun.truncated_padding_panics by (done || lia). reflexivity.
  - unfold stun.response, stun.bufSize. rewrite !length_app, !binary_lemmas.length_bePut, Ht. lia.
Qed.
End discovery.

(** ** A node that asks one STUN server *)
Module demo.
Import toy gossip.demo events.demo.

Definition txid : bytes := replicate 12 (to_byte 7).
Definition withConf (c : list config.Entry) (l : daemon.loaded) : daemon.loaded :=
  daemon.MkLoaded (daemon.NodeName l) c (daemon.EdPriv l) (daemon.WGPriv l) (daemon.LMode l) (daemon.WGInterface l)
    (daemon.WGListenPort l) (daemon.VXLANIface l) (daemon.VXLANID l) (daemon.VXLANPort l) (daemon.MTU l)
    (daemon.InnerAddr l) (daemon.UnderlayAddr l) (daemon.Subnets l).
Definition d0 : Daemon fake.Reconciler := setLoaded (withConf [config.MkEntry !"STUN" !"stun.example:3478"] (dLoaded d)) d.

Definition answers_with (b : bytes) : answers :=
  MkAnswers None [] (fun _ => Err []) (fun _ => Err []) (fun _ => stun.MkNetwork true true (Some txid) true [b]).
(** 203.0.113.9, and a response that is cut short. *)
Definition good : answers :=
  answers_with (stun.response txid (stun.attribute stun.attrXorMappedAddress
    (stun.xorMapped (to_byte <$> [203; 0; 113; 9]) 40000))).
Definition cut : answers := answers_with (stun.response txid (binary.bePut 2 0x8022 ++ binary.bePut 2 1 ++ [to_byte 65])).
Definition noXML {A} (b : bytes) : result gostring A := Err [].
Definition noURL (a b : gostring) : result gostring gostring := Err [].
Definition clock (n : nat) : Z := Z.of_nat n.
Definition public : netip.AddrPort := netip.MkAddrPort (netip.Addr4 (203 * 2 ^ 24 + 113 * 2 ^ 8 + 9)) (uint16 (daemon.WGListenPort (dLoaded d0))).
Definition d1' : Daemon fake.Reconciler := (announceLocal noErr 0 clock (setEndpoint public d0)).1.
End demo.
Import demo toy gossip.demo.

Lemma good_round : round noXML noXML noURL noErr 0 clock good [!"stun.example:3478"] !"no" None d0 = Returns (None, d1').
Proof.
  unfold round. assert (discoverOnce noXML noXML noURL good (dLoaded d0) [!"stun.example:3478"] !"no" None = Returns (None, public)) as ->
    by (vm_compute; reflexivity).
  cbn [mbind outcome_bind]. assert (Set' (Get (dEndpoint d0)) public = (public, true)) as -> by (vm_compute; reflexivity). reflexivity.
Qed.

Lemma discovery_round_witness : d1' <> d0 /\ exists srv, srv ∈ [!"stun.example:3478"].
Proof.
  assert (d1' <> d0) as Hne by (intros E%(f_equal dEndpoint); vm_compute in E; discriminate E).
  destruct (discovery_round noXML noXML noURL noErr 0 clock good [!"stun.example:3478"] !"no" None None d0 d1' good_round)
    as [E|(ep & _ & _ & _ & _ & [(Hm & _)|(srv & _ & Hin & _)])]; [by destruct Hne|discriminate Hm|eauto].
Defined.

Lemma discovery_events_witness : reaches d0 d1'.
Proof.
  destruct (discovery_events noXML noXML noURL noErr 0 clock [(good, fun d => d)] d0 d1' None) as [Hs _]; [| |exact Hs].
  - apply Forall_singleton. intros d. by exists [].
  - unfold runDiscovery. assert (settings (daemon.Conf (dLoaded d0)) = Some ([!"stun.example:3478"], !"no", 60)) as -> by (vm_compute; reflexivity).
    cbn [rounds]. rewrite good_round. reflexivity.
Defined.

Lemma stun_reply_stops_daemon_witness : runDiscovery noXML noXML noURL noErr 0 clock [(cut, fun d => d)] d0 = Panics.
Proof.
  apply (stun_reply_stops_daemon noXML noXML noURL noErr 0 clock cut (fun d => d) [] d0 !"stun.example:3478" [] !"no" 60
    txid 0x8022 [to_byte 65] []); (done || (cbn; lia)).
Defined.
End discovery.
