(* ===== verification/Lifecycle.v ===== *)
(** * Starting and stopping the two servers
      (control/server.go: Serve, trackConn, untrackConn, closeAllConns, Close;
       transport/transport.go: Serve, Dial, track, untrack, closeAll, Close)

    Each server is a transition system.  Its threads are the accept loop, one
    handler per connection, the goroutine that waits for the context, and the
    caller of [Close].  An action is what one of them does
    between two points where another can run; [act] is the state after it, if
    it is possible.  An action is either the server's own or the doing of a
    client, of the program around the server or of the operating system, which
    may make [Accept] fail with the listener open. *)

From Stdlib Require Import Ascii String ZArith Lia.
From stdpp Require Import base tactics list gmap fin_sets sets relations.
From S2P Require Import Prelude.

(** ** Runs of a system *)
Section system.
Context {A S : Type} (act : A -> S -> option S) (own : A -> bool).

Definition step (s s' : S) : Prop := exists a, act a s = Some s'.
Definition ownStep (s s' : S) : Prop := exists a, own a = true /\ act a s = Some s'.
(** Nothing is left to do without a client. *)
Definition quiet (s : S) : Prop := forall a, own a = true -> act a s = None.

(** Own steps that all lower a measure end, after at most that many. *)
Lemma ownStep_bound (mu : S -> nat) : (forall s s', ownStep s s' -> mu s' < mu s) ->
  forall n s s', nsteps ownStep n s s' -> n <= mu s.
Proof.
  intros Hmu. induction n as [|n IH]; intros s s' Hs; [lia|]. inversion Hs as [|? ? y ? H1 H2]; subst.
  specialize (Hmu _ _ H1). specialize (IH _ _ H2). lia.
Qed.

Lemma rtc_invariant (P : S -> Prop) : (forall s s', P s -> step s s' -> P s') -> forall s s', rtc step s s' -> P s -> P s'.
Proof. intros Hp s s' Hr. induction Hr; eauto. Qed.

(** A sequence of actions is a run. *)
Lemma rtc_run l s s' : foldl (fun o a => o ≫= act a) (Some s) l = Some s' -> rtc step s s'.
Proof.
  revert s. induction l as [|a l IH]; intros s E; [by injection E as ->|]. cbn in E.
  destruct (act a s) as [s1|] eqn:Ea; [eapply rtc_l; [by exists a|by apply IH]|].
  exfalso. clear -E. induction l; [done|by apply IHl].
Qed.

Lemma ownStep_step s s' : ownStep s s' -> step s s'.
Proof. intros (a & _ & Ha). by exists a. Qed.
End system.

(** ** The control server *)
Module control_server.

(** [ReturnedErr]: the listener had been closed; [Failed]: it had not. *)
Inductive loop := Accepting | Waiting | Returned | ReturnedErr | Failed.
#[global] Instance loop_eq_dec : EqDecision loop.
Proof. solve_decision. Defined.

(** The goroutine of [Serve] that waits for the context. *)
Inductive closer := Blocked | ListenerClosed | Swept.
#[global] Instance closer_eq_dec : EqDecision closer.
Proof. solve_decision. Defined.

(** A call of [Close]. *)
Inductive call := NotCalled | Called | CloseReturned.
#[global] Instance call_eq_dec : EqDecision call.
Proof. solve_decision. Defined.

(** [opened] holds the connections that neither end has closed; [wg] the
    handlers that run; [held] what the accept loop has accepted and not yet
    handed over, and whether it is tracked. *)
Record state := MkState {
  ctxDone : bool; listener : bool; closing : closer; conns : gset nat; opened : gset nat; wg : gset nat;
  held : option (nat * bool); serve : loop; close : call
}.

Definition Listen : state := MkState false true Blocked ∅ ∅ ∅ None Accepting NotCalled.

Definition setConns x s := MkState (ctxDone s) (listener s) (closing s) x (opened s) (wg s) (held s) (serve s) (close s).
Definition setOpened x s := MkState (ctxDone s) (listener s) (closing s) (conns s) x (wg s) (held s) (serve s) (close s).
Definition setWg x s := MkState (ctxDone s) (listener s) (closing s) (conns s) (opened s) x (held s) (serve s) (close s).
Definition setHeld x s := MkState (ctxDone s) (listener s) (closing s) (conns s) (opened s) (wg s) x (serve s) (close s).
Definition setServe x s := MkState (ctxDone s) (listener s) (closing s) (conns s) (opened s) (wg s) (held s) x (close s).
Definition setClosing x s := MkState (ctxDone s) (listener s) x (conns s) (opened s) (wg s) (held s) (serve s) (close s).
Definition cancel s := MkState true (listener s) (closing s) (conns s) (opened s) (wg s) (held s) (serve s) (close s).
Definition closeListener s := MkState (ctxDone s) false (closing s) (conns s) (opened s) (wg s) (held s) (serve s) (close s).
Definition setClose x s := MkState (ctxDone s) (listener s) (closing s) (conns s) (opened s) (wg s) (held s) (serve s) x.

Definition trackConn (c : nat) (s : state) : state := setConns ({[c]} ∪ conns s) s.
Definition untrackConn (c : nat) (s : state) : state := setConns (conns s ∖ {[c]}) s.
Definition closeAllConns (s : state) : state := setOpened (opened s ∖ conns s) s.

(** The deferred calls of a handler: close, untrack, done. *)
Definition handlerEnds (c : nat) (s : state) : state :=
  setWg (wg s ∖ {[c]}) (untrackConn c (setOpened (opened s ∖ {[c]}) s)).

Inductive action :=
| Cancel | Accept (c : nat) | AcceptErrs | HandlerQuits (c : nat) | PeerCloses (c : nat) | CallClose
| CloserListener | CloserSweep | Track | Spawn | AcceptFails | ReadFails (c : nat) | WaitDone | CloseWaits.

Definition own (a : action) : bool :=
  match a with Cancel | Accept _ | AcceptErrs | HandlerQuits _ | PeerCloses _ | CallClose => false | _ => true end.

Definition act (a : action) (s : state) : option state :=
  match a with
  | Cancel => Some (cancel s)
  | Accept c =>
      if bool_decide (serve s = Accepting /\ held s = None /\ listener s = true /\ c ∉ opened s ∪ wg s ∪ conns s)
      then Some (setHeld (Some (c, false)) (setOpened ({[c]} ∪ opened s) s)) else None
  | AcceptErrs => (* any other error of [Accept], such as too many open files *)
      if bool_decide (serve s = Accepting /\ held s = None /\ listener s = true)
      then Some (setServe (if ctxDone s then Waiting else Failed) s) else None
  | HandlerQuits c => if bool_decide (c ∈ wg s) then Some (handlerEnds c s) else None
  | PeerCloses c => Some (setOpened (opened s ∖ {[c]}) s)
  | CallClose => if bool_decide (close s = NotCalled) then Some (setClose Called (closeListener s)) else None
  | CloserListener =>
      if ctxDone s && bool_decide (closing s = Blocked) then Some (setClosing ListenerClosed (closeListener s)) else None
  | CloserSweep =>
      if bool_decide (closing s = ListenerClosed) then Some (setClosing Swept (closeAllConns s)) else None
  | Track => match held s with Some (c, false) => Some (setHeld (Some (c, true)) (trackConn c s)) | _ => None end
  | Spawn => match held s with Some (c, true) => Some (setHeld None (setWg ({[c]} ∪ wg s) s)) | _ => None end
  | AcceptFails =>
      if bool_decide (serve s = Accepting /\ held s = None /\ listener s = false)
      then Some (setServe (if ctxDone s then Waiting else ReturnedErr) s) else None
  | ReadFails c => if bool_decide (c ∈ wg s /\ c ∉ opened s) then Some (handlerEnds c s) else None
  | WaitDone => if bool_decide (serve s = Waiting /\ wg s = ∅) then Some (setServe Returned s) else None
  | CloseWaits => if bool_decide (close s = Called /\ wg s = ∅) then Some (setClose CloseReturned s) else None
  end.

Definition heldSet (s : state) : gset nat := match held s with Some (c, _) => {[c]} | None => ∅ end.

Record wf (s : state) : Prop := {
  wf_closing : closing s <> Blocked -> ctxDone s = true /\ listener s = false;
  wf_listener : listener s = false -> ctxDone s = true \/ close s <> NotCalled;
  wf_opened : opened s ⊆ wg s ∪ heldSet s;
  wf_tracked : wg s ⊆ conns s;
  wf_held : forall c, held s = Some (c, true) -> c ∈ conns s;
  wf_fresh : forall c b, held s = Some (c, b) -> c ∉ wg s;
  wf_conns : conns s ⊆ wg s ∪ heldSet s;
  wf_loop : serve s <> Accepting -> held s = None;
  wf_waiting : serve s = Waiting \/ serve s = Returned -> ctxDone s = true;
  wf_returned : serve s = Returned -> wg s = ∅;
  wf_error : serve s = ReturnedErr -> close s <> NotCalled;
  wf_called : close s <> NotCalled -> listener s = false;
  wf_swept : closing s = Swept -> exists c, opened s ⊆ {[c]}
}.

Lemma wf_Listen : wf Listen.
Proof. split; cbn; try done; try set_solver. Qed.

Ltac wf_sets :=
  match goal with
  | |- _ = Swept -> _ => let E := fresh in intros E; first
      [ match goal with Ws : _ -> exists c, _ ⊆ _ |- _ => destruct (Ws E) as [x Hx]; exists x; clear -Hx; set_solver end
      | match goal with n : nat, Wo : ?op ⊆ _ ∪ {[?n]}, Wt : _ ⊆ _ |- _ => exists n; clear -Wo Wt; set_solver end
      | match goal with Wo : ?op ⊆ _ ∪ ∅, Wt : _ ⊆ _ |- _ => exists 0; clear -Wo Wt; set_solver end ]
  | Wr : _ = Returned -> _ |- _ = Returned -> _ => let E := fresh in intros E; rewrite (Wr E); clear; set_solver
  | Wh : ?b = true -> _ |- forall c, Some (?n, ?b) = _ -> _ => intros c [= <- ->]; specialize (Wh eq_refl); set_solver
  | Wo : _ ⊆ _, Wt : _ ⊆ _, Wn : _ ⊆ _ |- _ ⊆ _ => try (clear -Wo Wt Wn; set_solver); set_solver
  | _ => intros; simplify_eq; set_solver
  end.

Lemma wf_act a s s' : wf s -> act a s = Some s' -> wf s'.
Proof.
  intros [Wc Wl Wo Wt Wh Wf Wn Wp Ww Wr We Wk Ws] Ha. destruct s as [cd li cl cs op w h sv ca]. unfold heldSet in *. cbn in *.
  assert (forall c b, h = Some (c, b) -> (c ∉ w) /\ (b = true -> c ∈ cs)) as Hh by (intros c [] ->; split; eauto; done).
  clear Wh Wf. destruct h as [[n b]|]; [destruct (Hh n b eq_refl) as [Wf Wh]|]; clear Hh;
    destruct a; cbn in Ha; repeat case_match; simplify_eq; repeat case_bool_decide; destruct_and?; simplify_eq; cbn in *.
  all: rewrite ?andb_true_iff, ?bool_decide_eq_true in *; destruct_and?; try specialize (Wh eq_refl).
  all: split; cbn; try done; try assumption; try (intros; intuition congruence).
  all: wf_sets.
Qed.

Lemma wf_reachable s : rtc (step act) Listen s -> wf s.
Proof.
  intros Hr. apply (rtc_invariant act wf) with (s := Listen); [|done|apply wf_Listen].
  intros x y Hx [a Ha]. by eapply wf_act.
Qed.

(** What is left of the server's own work. *)
Definition mu (s : state) : nat :=
  (match closing s with Blocked => 2 | ListenerClosed => 1 | Swept => 0 end)
  + (match held s with None => 0 | Some (_, false) => 3 | Some (_, true) => 2 end)
  + size (wg s) + (match serve s with Accepting => 2 | Waiting => 1 | _ => 0 end)
  + (match close s with Called => 1 | _ => 0 end).

Lemma size_add (c : nat) (X : gset nat) : size ({[c]} ∪ X) <= S (size X).
Proof. rewrite size_union_alt, size_singleton. assert (size (X ∖ {[c]}) <= size X) by (apply subseteq_size; set_solver). lia. Qed.

Lemma size_sub (c : nat) (X : gset nat) : c ∈ X -> size (X ∖ {[c]}) < size X.
Proof. intros Hc. apply subset_size. set_solver. Qed.

Lemma own_decreases s s' : ownStep act own s s' -> mu s' < mu s.
Proof.
  intros (a & Ho & Ha).
  destruct a as [|?| |?|?| | | | | | |c| |]; try discriminate Ho; cbn in Ha.
  - destruct (ctxDone s); [|done]. cbn in Ha. case_bool_decide as E; simplify_eq. unfold mu. cbn. rewrite E. lia.
  - case_bool_decide as E; simplify_eq. unfold mu. cbn. rewrite E. lia.
  - destruct (held s) as [[c []]|] eqn:E; simplify_eq. unfold mu. cbn. rewrite E. lia.
  - destruct (held s) as [[c []]|] eqn:E; simplify_eq. unfold mu. cbn. rewrite E. pose proof (size_add c (wg s)). lia.
  - case_bool_decide as E; simplify_eq. destruct E as (E & Eh & _). unfold mu. cbn. rewrite E. destruct (ctxDone s); lia.
  - case_bool_decide as E; simplify_eq. destruct E as [E _]. unfold mu. cbn. pose proof (size_sub c (wg s) E). lia.
  - case_bool_decide as E; simplify_eq. destruct E as [E _]. unfold mu. cbn. rewrite E. lia.
  - case_bool_decide as E; simplify_eq. destruct E as [E _]. unfold mu. cbn. rewrite E. lia.
Qed.

Lemma own_ctxDone s s' : rtc (ownStep act own) s s' -> ctxDone s = true -> ctxDone s' = true.
Proof.
  induction 1 as [|x y z (a & _ & Ha) _ IH]; [done|]. intros Hx. apply IH.
  destruct x as [cd li cl cs op w h sv ca], a; cbn in *; repeat case_match; simplify_eq; done.
Qed.

Lemma own_failed s s' : rtc (ownStep act own) s s' -> serve s' = Failed -> serve s = Failed.
Proof.
  induction 1 as [|x y z (a & Ho & Ha) _ IH]; [done|]. intros Hz. specialize (IH Hz).
  destruct x as [cd li cl cs op w h sv ca], a; try discriminate Ho; cbn in *; repeat case_match; simplify_eq; cbn in *; congruence.
Qed.

Lemma own_called s s' : rtc (ownStep act own) s s' -> close s <> NotCalled -> close s' <> NotCalled.
Proof.
  induction 1 as [|x y z (a & _ & Ha) _ IH]; [done|]. intros Hx. apply IH.
  destruct x as [cd li cl cs op w h sv ca], a; cbn in *; repeat case_match; simplify_eq; cbn; done.
Qed.

(** With the listener closed and nothing open, the server's own work leaves no
    handler, and [Serve] has returned. *)
Lemma quiet_idle s : wf s -> listener s = false -> quiet act own s -> opened s = ∅ ->
  wg s = ∅ /\ (serve s = Returned \/ serve s = ReturnedErr \/ serve s = Failed).
Proof.
  intros Hw Hl Hq Ho.
  assert (held s = None) as Hh.
  { destruct (held s) as [[c []]|] eqn:E; [specialize (Hq Spawn eq_refl)|specialize (Hq Track eq_refl)|done];
      cbn in Hq; by rewrite E in Hq. }
  assert (wg s = ∅) as Hwg.
  { apply set_eq. intros c. split; [|set_solver]. intros Hin. exfalso. specialize (Hq (ReadFails c) eq_refl). cbn in Hq.
    rewrite bool_decide_eq_true_2 in Hq; [done|]. rewrite Ho. set_solver. }
  split; [done|]. destruct (serve s) eqn:E; [| |by left|by right; left|by right; right].
  - specialize (Hq AcceptFails eq_refl). cbn in Hq. by rewrite bool_decide_eq_true_2 in Hq.
  - specialize (Hq WaitDone eq_refl). cbn in Hq. by rewrite bool_decide_eq_true_2 in Hq.
Qed.

Lemma quiet_swept s : wf s -> ctxDone s = true -> quiet act own s -> listener s = false.
Proof.
  intros Hw Hc Hq. apply (wf_closing s Hw). intros E. specialize (Hq CloserListener eq_refl). cbn in Hq.
  by rewrite Hc, E in Hq.
Qed.

Lemma close_ends s : wg s = ∅ -> quiet act own s -> close s <> NotCalled -> close s = CloseReturned.
Proof.
  intros Hg Hq Hn. destruct (close s) eqn:E; [done| |done]. specialize (Hq CloseWaits eq_refl). cbn in Hq.
  by rewrite bool_decide_eq_true_2 in Hq.
Qed.

(** C21.  Stopping the control server.  In every state a running server can reach,
    in any interleaving of its threads with its clients and with a call of
    [Close], and whatever [Accept] returns: when [Serve] has returned without an
    error, no handler runs and no connection is left open; once the connections have been closed at most one
    of them is still open; the server's own work ends, after at most [mu]
    steps; when the context is done, or [Close] was called, and that work has
    ended, either a connection is still open, or no handler runs and [Serve]
    has returned, without an error unless [Close] was called or [Accept] had
    already failed while the listener was open, and a call of [Close] has
    returned too. *)
Theorem serve_shutdown s : rtc (step act) Listen s ->
  (serve s = Returned -> wg s = ∅ /\ opened s = ∅) /\
  (closing s = Swept -> exists c, opened s ⊆ {[c]}) /\
  (forall n s', nsteps (ownStep act own) n s s' -> n <= mu s) /\
  (ctxDone s = true \/ close s <> NotCalled -> forall s', rtc (ownStep act own) s s' -> quiet act own s' ->
     opened s' <> ∅ \/
     wg s' = ∅ /\ (serve s' = Returned \/ (serve s' = ReturnedErr /\ close s' <> NotCalled) \/
                   (serve s' = Failed /\ serve s = Failed)) /\
     (close s' <> NotCalled -> close s' = CloseReturned)).
Proof.
  intros Hr. pose proof (wf_reachable s Hr) as Hw. split_and!.
  - intros Hs. pose proof (wf_returned s Hw Hs) as Hg. split; [done|].
    assert (held s = None) as Hh by (apply (wf_loop s Hw); by rewrite Hs). pose proof (wf_opened s Hw) as Ho.
    unfold heldSet in Ho. rewrite Hh, Hg in Ho. set_solver.
  - apply (wf_swept s Hw).
  - intros n s'. apply (ownStep_bound act own mu). apply own_decreases.
  - intros Hc s' Hs Hq. destruct (decide (opened s' = ∅)) as [He|He]; [right|by left].
    assert (wf s') as Hw'.
    { apply wf_reachable. etrans; [exact Hr|]. eapply rtc_subrel; [|exact Hs]. intros x y. apply ownStep_step. }
    assert (listener s' = false) as Hl.
    { destruct Hc as [Hc|Hc]; [by eapply quiet_swept, Hq; [|eapply own_ctxDone]|].
      by eapply (wf_called s' Hw'), own_called. }
    destruct (quiet_idle s' Hw' Hl Hq He) as [Hg Hv]. split_and!; [done| |by apply close_ends].
    destruct Hv as [Hv|[Hv|Hv]]; [by left|right; left|right; right]; (split; [done|]);
      [by apply (wf_error s' Hw')|by apply (own_failed s s')].
Qed.

(** [Close] does not wait for a connection that was accepted and has no
    handler yet, and [Close] alone closes no connection. *)
Definition closeRaced : state := MkState false false Blocked {[7]} {[7]} {[7]} None Accepting CloseReturned.

Lemma close_race : rtc (step act) Listen closeRaced /\ close closeRaced = CloseReturned /\ wg closeRaced = {[7]}.
Proof.
  split_and!; [|done|done].
  apply (rtc_run act [Accept 7; CallClose; CloseWaits; Track; Spawn]). vm_compute. reflexivity.
Qed.

(** A connection accepted before the listener is closed and tracked after the
    connections are closed stays open: [Serve] then waits for that client. *)
Definition raced : state :=
  MkState true false Swept {[7]} {[7]} {[7]} None Waiting NotCalled.

Lemma shutdown_race : rtc (step act) Listen raced /\ quiet act own raced /\ serve raced = Waiting.
Proof.
  split_and!; [|intros []; try done; intros _; cbn|done].
  - apply (rtc_run act [Accept 7; Cancel; CloserListener; CloserSweep; Track; Spawn; AcceptFails]). vm_compute. reflexivity.
  - rewrite bool_decide_eq_false_2; [done|]. set_solver.
Qed.

(** Any error of [Accept] ends [Serve], and with it the daemon, although the
    listener is open and nothing was cancelled. *)
Definition outOfFiles : state := MkState false true Blocked ∅ ∅ ∅ None Failed NotCalled.

Lemma accept_error_stops : rtc (step act) Listen outOfFiles /\ serve outOfFiles = Failed /\ listener outOfFiles = true.
Proof. split_and!; [|done|done]. apply (rtc_run act [AcceptErrs]). vm_compute. reflexivity. Qed.

Lemma serve_shutdown_witness : exists c, opened raced ⊆ {[c]}.
Proof. destruct (serve_shutdown raced (proj1 shutdown_race)) as (_ & H & _). by apply H. Defined.
End control_server.

(** ** The transport *)
Module transport_server.

Inductive loop := Accepting | Waiting | Returned | ReturnedErr. (* with the error of [Accept] *)
#[global] Instance loop_eq_dec : EqDecision loop.
Proof. solve_decision. Defined.

Inductive closer := Blocked | ListenerClosed | Swept.
#[global] Instance closer_eq_dec : EqDecision closer.
Proof. solve_decision. Defined.

(** A call of [Close]. *)
Inductive call := NotCalled | Called | ClosedAll | CloseReturned.
#[global] Instance call_eq_dec : EqDecision call.
Proof. solve_decision. Defined.

(** The running handlers, by what they do next: read the first line (or the
    body of a JOIN), look at the context, or read a gossip line; [held] is the
    connection that the accept loop has accepted and not yet counted. *)
Record state := MkState {
  ctxDone : bool; listener : bool; closing : closer; conns : gset nat; opened : gset nat; held : option nat;
  firstLine : gset nat; checks : gset nat; reads : gset nat; serve : loop; close : call
}.

Definition wg (s : state) : gset nat := firstLine s ∪ checks s ∪ reads s.

Definition Start : state := MkState false true Blocked ∅ ∅ None ∅ ∅ ∅ Accepting NotCalled.

Definition setConns x s := MkState (ctxDone s) (listener s) (closing s) x (opened s) (held s) (firstLine s) (checks s) (reads s) (serve s) (close s).
Definition setOpened x s := MkState (ctxDone s) (listener s) (closing s) (conns s) x (held s) (firstLine s) (checks s) (reads s) (serve s) (close s).
Definition setHandlers f c r s := MkState (ctxDone s) (listener s) (closing s) (conns s) (opened s) (held s) f c r (serve s) (close s).
Definition setServe x s := MkState (ctxDone s) (listener s) (closing s) (conns s) (opened s) (held s) (firstLine s) (checks s) (reads s) x (close s).
Definition setClosing x s := MkState (ctxDone s) (listener s) x (conns s) (opened s) (held s) (firstLine s) (checks s) (reads s) (serve s) (close s).
Definition setClose x s := MkState (ctxDone s) (listener s) (closing s) (conns s) (opened s) (held s) (firstLine s) (checks s) (reads s) (serve s) x.
Definition cancel s := MkState true (listener s) (closing s) (conns s) (opened s) (held s) (firstLine s) (checks s) (reads s) (serve s) (close s).
Definition closeListener s := MkState (ctxDone s) false (closing s) (conns s) (opened s) (held s) (firstLine s) (checks s) (reads s) (serve s) (close s).
Definition setHeld x s := MkState (ctxDone s) (listener s) (closing s) (conns s) (opened s) x (firstLine s) (checks s) (reads s) (serve s) (close s).

Definition track (c : nat) (s : state) : state := setConns ({[c]} ∪ conns s) s.
Definition untrack (c : nat) (s : state) : state := setConns (conns s ∖ {[c]}) s.
Definition closeAll (s : state) : state := setOpened (opened s ∖ conns s) s.

Definition handlerEnds (c : nat) (s : state) : state :=
  untrack c (setHandlers (firstLine s ∖ {[c]}) (checks s ∖ {[c]}) (reads s ∖ {[c]}) (setOpened (opened s ∖ {[c]}) s)).

Inductive action :=
| Cancel | Accept (c : nat) | AcceptErrs | SaysGossip (c : nat) | Message (c : nat) | Dial (c : nat) | HandlerQuits (c : nat)
| PeerCloses (c : nat) | CallClose
| CloserListener | CloserSweep | Spawn | Check (c : nat) | ReadFails (c : nat) | AcceptFails | WaitDone | CloseSweep | CloseWaits.

Definition own (a : action) : bool :=
  match a with
  | Cancel | Accept _ | AcceptErrs | SaysGossip _ | Message _ | Dial _ | HandlerQuits _ | PeerCloses _ | CallClose => false
  | _ => true
  end.

Definition act (a : action) (s : state) : option state :=
  match a with
  | Cancel => Some (cancel s)
  | Accept c =>
      if bool_decide (serve s = Accepting /\ held s = None /\ listener s = true /\ c ∉ wg s ∪ opened s ∪ conns s)
      then Some (setHeld (Some c) (setOpened ({[c]} ∪ opened s) s)) else None
  | AcceptErrs => (* an error of [Accept] with the listener open *)
      if bool_decide (serve s = Accepting /\ held s = None /\ listener s = true)
      then Some (setServe (if ctxDone s then Waiting else ReturnedErr) s) else None
  | SaysGossip c =>
      if bool_decide (c ∈ firstLine s)
      then Some (setHandlers (firstLine s ∖ {[c]}) ({[c]} ∪ checks s) (reads s) (track c s)) else None
  | Message c =>
      if bool_decide (c ∈ reads s) then Some (setHandlers (firstLine s) ({[c]} ∪ checks s) (reads s ∖ {[c]}) s) else None
  | Dial c =>
      if bool_decide ((c ∉ wg s ∪ opened s ∪ conns s) /\ held s <> Some c)
      then Some (setHandlers (firstLine s) ({[c]} ∪ checks s) (reads s) (track c (setOpened ({[c]} ∪ opened s) s))) else None
  | HandlerQuits c => if bool_decide (c ∈ wg s) then Some (handlerEnds c s) else None
  | PeerCloses c => Some (setOpened (opened s ∖ {[c]}) s)
  | CallClose => if bool_decide (close s = NotCalled) then Some (setClose Called (closeListener s)) else None
  | CloserListener =>
      if ctxDone s && bool_decide (closing s = Blocked) then Some (setClosing ListenerClosed (closeListener s)) else None
  | CloserSweep => if bool_decide (closing s = ListenerClosed) then Some (setClosing Swept (closeAll s)) else None
  | Spawn => match held s with
             | Some c => Some (setHeld None (setHandlers ({[c]} ∪ firstLine s) (checks s) (reads s) s))
             | None => None
             end
  | Check c =>
      if bool_decide (c ∈ checks s)
      then Some (if ctxDone s then handlerEnds c s else setHandlers (firstLine s) (checks s ∖ {[c]}) ({[c]} ∪ reads s) s)
      else None
  | ReadFails c => if bool_decide (c ∈ firstLine s ∪ reads s /\ c ∉ opened s) then Some (handlerEnds c s) else None
  | AcceptFails =>
      if bool_decide (serve s = Accepting /\ held s = None /\ listener s = false)
      then Some (setServe (if ctxDone s then Waiting else ReturnedErr) s) else None
  | WaitDone => if bool_decide (serve s = Waiting /\ wg s = ∅) then Some (setServe Returned s) else None
  | CloseSweep => if bool_decide (close s = Called) then Some (setClose ClosedAll (closeAll s)) else None
  | CloseWaits => if bool_decide (close s = ClosedAll /\ wg s = ∅) then Some (setClose CloseReturned s) else None
  end.

Definition heldSet (s : state) : gset nat := match held s with Some c => {[c]} | None => ∅ end.

Record wf (s : state) : Prop := {
  wf_closing : closing s <> Blocked -> ctxDone s = true /\ listener s = false;
  wf_close : close s <> NotCalled -> listener s = false;
  wf_opened : opened s ⊆ wg s ∪ heldSet s;
  wf_held : heldSet s ## wg s ∪ conns s;
  wf_untracked : firstLine s ## conns s;
  wf_tracked : checks s ∪ reads s ⊆ conns s;
  wf_swept : closing s = Swept -> reads s ## opened s
}.

Lemma wf_Start : wf Start.
Proof. split; cbn; try done; set_solver. Qed.

(** Set goals element by element. *)
Ltac pointwise :=
  let x := fresh "x" in
  set_unfold; intros x;
  repeat match goal with
  | c : nat |- _ =>
      lazymatch c with x => fail | _ => idtac end;
      lazymatch goal with H : c <> x |- _ => fail | _ => destruct (decide (c = x)); [subst c|] end
  end;
  repeat match goal with H : forall y : nat, _ |- _ => specialize (H x) end;
  first [tauto | intuition congruence].

Lemma wf_tact a s s' : wf s -> act a s = Some s' -> wf s'.
Proof.
  intros [Wc Wl Wo Wh Wu Wt Ws] Ha. unfold wg, heldSet in *.
  assert (closing s = Swept -> ctxDone s = true) as Hd by (intros E; apply Wc; by rewrite E).
  destruct a as [|c| |c|c|c|c|c| | | | |c|c| | | |]; cbn in Ha; unfold wg in *;
    destruct (held s) as [h|] eqn:Eh;
    try (case_bool_decide as E; [|done]); try (destruct (ctxDone s) eqn:Ed; cbn in Ha);
    try (case_bool_decide as E; [|done]); simplify_eq; destruct_and?;
    (split; cbn; unfold wg, heldSet; cbn; try done; try assumption; try (intros; intuition congruence)).
  all: try match goal with |- _ = Swept -> _ => intros E'; try specialize (Ws E'); try specialize (Hd E'); try done end.
  all: rewrite ?Eh; cbn.
  all: try match goal with E : Some ?h <> Some ?c |- _ => assert (h <> c) by congruence; clear E end.
  all: clear Wc Wl Hd; repeat match goal with H : _ = _ |- _ => clear H end.
  all: pointwise.
Qed.

Lemma wf_treachable s : rtc (step act) Start s -> wf s.
Proof.
  intros Hr. apply (rtc_invariant act wf) with (s := Start); [|done|apply wf_Start].
  intros x y Hx [a Ha]. by eapply wf_tact.
Qed.

Definition mu (s : state) : nat :=
  (match closing s with Blocked => 2 | ListenerClosed => 1 | Swept => 0 end)
  + (match held s with Some _ => 2 | None => 0 end) + size (firstLine s) + 2 * size (checks s) + size (reads s)
  + (match serve s with Accepting => 2 | Waiting => 1 | _ => 0 end)
  + (match close s with NotCalled => 3 | Called => 2 | ClosedAll => 1 | CloseReturned => 0 end).

Lemma size_minus (c : nat) (X : gset nat) : size (X ∖ {[c]}) <= size X.
Proof. apply subseteq_size. set_solver. Qed.

Lemma own_tdecreases s s' : ownStep act own s s' -> mu s' < mu s.
Proof.
  intros (a & Ho & Ha).
  destruct a as [|?| |?|?|?|?|?| | | | |c|c| | | |]; try discriminate Ho; cbn in Ha.
  - destruct (ctxDone s); [|done]. cbn in Ha. case_bool_decide as E; simplify_eq. unfold mu. cbn. rewrite E. lia.
  - case_bool_decide as E; simplify_eq. unfold mu. cbn. rewrite E. lia.
  - destruct (held s) as [c|] eqn:E; simplify_eq. pose proof (control_server.size_add c (firstLine s)). unfold mu. cbn. rewrite E. lia.
  - case_bool_decide as E; simplify_eq. pose proof (control_server.size_sub c (checks s) E).
    pose proof (size_minus c (firstLine s)). pose proof (size_minus c (reads s)).
    pose proof (control_server.size_add c (reads s)). unfold mu. destruct (ctxDone s); cbn; lia.
  - case_bool_decide as E; simplify_eq. destruct E as [[E|E]%elem_of_union _]; unfold mu; cbn;
      pose proof (control_server.size_sub c _ E); pose proof (size_minus c (firstLine s)); pose proof (size_minus c (checks s));
      pose proof (size_minus c (reads s)); lia.
  - case_bool_decide as E; simplify_eq. destruct E as (E & Eh & _). unfold mu. cbn. rewrite E. destruct (ctxDone s); lia.
  - case_bool_decide as E; simplify_eq. destruct E as [E _]. unfold mu. cbn. rewrite E. lia.
  - case_bool_decide as E; simplify_eq. unfold mu. cbn. rewrite E. lia.
  - case_bool_decide as E; simplify_eq. destruct E as [E _]. unfold mu. cbn. rewrite E. lia.
Qed.

(** What the server's own work keeps. *)
Lemma own_keeps s s' : rtc (ownStep act own) s s' ->
  (ctxDone s = true -> ctxDone s' = true) /\ (close s <> NotCalled -> close s' <> NotCalled).
Proof.
  induction 1 as [|x y z (a & Ho & Ha) _ [IH1 IH2]]; [done|].
  assert ((ctxDone x = true -> ctxDone y = true) /\ (close x <> NotCalled -> close y <> NotCalled)) as [H1 H2]; [|split; auto].
  destruct a; try discriminate Ho; cbn in Ha; repeat case_match; simplify_eq; done.
Qed.

(** A peer that is connected and has said nothing is left alone. *)
Lemma own_silent c s s' : rtc (ownStep act own) s s' -> wf s -> c ∈ firstLine s -> c ∈ opened s -> close s <> CloseReturned ->
  c ∈ firstLine s' /\ c ∈ opened s' /\ close s' <> CloseReturned.
Proof.
  induction 1 as [|x y z (a & Ho & Ha) _ IH]; [done|]. intros Hw Hf Hop Hc.
  pose proof (wf_untracked x Hw c Hf) as Hn. pose proof (wf_tracked x Hw c) as Ht. apply IH; [by eapply wf_tact|..].
  all: destruct a as [|?| |?|?|?|?|?| | | | |c'|c'| | | |]; try discriminate Ho; cbn in Ha; unfold wg in *; repeat case_match; simplify_eq;
    cbn; try done; repeat case_bool_decide; destruct_and?; simplify_eq; try done; clear IH Hw; set_solver.
Qed.

(** With the context done and [Close] called, what can still be missing. *)
Lemma quiet_closed s : wf s -> ctxDone s = true -> close s <> NotCalled -> quiet act own s ->
  (forall c, c ∈ firstLine s -> c ∉ opened s) ->
  close s = CloseReturned /\ wg s = ∅ /\ opened s = ∅ /\ (serve s = Returned \/ serve s = ReturnedErr).
Proof.
  intros Hw Hd Hcl Hq Hsil.
  assert (closing s = Swept) as Hs.
  { destruct (closing s) eqn:E; [|specialize (Hq CloserSweep eq_refl)|done].
    - specialize (Hq CloserListener eq_refl). cbn in Hq. by rewrite Hd, E in Hq.
    - cbn in Hq. by rewrite E in Hq. }
  assert (wg s = ∅) as Hwg.
  { apply set_eq. intros c. split; [|set_solver]. unfold wg. intros Hin. exfalso.
    apply elem_of_union in Hin as [[Hin|Hin]%elem_of_union|Hin].
    - specialize (Hq (ReadFails c) eq_refl). cbn in Hq. rewrite bool_decide_eq_true_2 in Hq; [done|]. split; [set_solver|auto].
    - specialize (Hq (Check c) eq_refl). cbn in Hq. by rewrite bool_decide_eq_true_2 in Hq.
    - specialize (Hq (ReadFails c) eq_refl). cbn in Hq. rewrite bool_decide_eq_true_2 in Hq; [done|].
      split; [set_solver|]. intros Hop. exact (wf_swept s Hw Hs c Hin Hop). }
  assert (held s = None) as Hh.
  { destruct (held s) as [c|] eqn:E; [|done]. specialize (Hq Spawn eq_refl). cbn in Hq. by rewrite E in Hq. }
  split_and!; [|done| |].
  - destruct (close s) eqn:E; [done|specialize (Hq CloseSweep eq_refl)|specialize (Hq CloseWaits eq_refl)|done]; cbn in Hq;
      by rewrite bool_decide_eq_true_2 in Hq.
  - pose proof (wf_opened s Hw) as Ho. unfold heldSet in Ho. rewrite Hwg, Hh in Ho. set_solver.
  - pose proof (wf_close s Hw Hcl) as Hl. destruct (serve s) eqn:E; [specialize (Hq AcceptFails eq_refl)|specialize (Hq WaitDone eq_refl)|by left|by right];
      cbn in Hq; by rewrite bool_decide_eq_true_2 in Hq.
Qed.

(** C11.  Stopping the transport.  In every reachable state, the server's own work
    ends, after at most [mu] steps.  Once the context is done and [Close] was
    called, and that work has ended, either [Close] has returned, with no
    handler running and no connection open, or some peer is connected and has
    not yet sent its first line.  Such a peer is enough: as long as it stays
    silent and connected, [Close] does not return, whatever the server does. *)
Theorem close_shutdown s : rtc (step act) Start s ->
  (forall n s', nsteps (ownStep act own) n s s' -> n <= mu s) /\
  (ctxDone s = true -> close s <> NotCalled -> forall s', rtc (ownStep act own) s s' -> quiet act own s' ->
     (close s' = CloseReturned /\ wg s' = ∅ /\ opened s' = ∅) \/ exists c, c ∈ firstLine s' /\ c ∈ opened s') /\
  (forall c, c ∈ firstLine s -> c ∈ opened s -> close s <> CloseReturned ->
     forall s', rtc (ownStep act own) s s' -> close s' <> CloseReturned).
Proof.
  intros Hr. pose proof (wf_treachable s Hr) as Hw. split_and!.
  - intros n s'. apply (ownStep_bound act own mu). apply own_tdecreases.
  - intros Hd Hc s' Hs Hq. destruct (own_keeps s s' Hs) as [K1 K2].
    assert (wf s') as Hw'.
    { apply wf_treachable. etrans; [exact Hr|]. eapply rtc_subrel; [|exact Hs]. intros x y. apply ownStep_step. }
    destruct (decide (firstLine s' ∩ opened s' = ∅)) as [He|He].
    + left. destruct (quiet_closed s' Hw') as (H1 & H2 & H3 & _); auto. set_solver.
    + right. apply set_choose_L in He as [c Hc']. exists c. set_solver.
  - intros c Hf Ho Hc s' Hs. by destruct (own_silent c s s' Hs Hw Hf Ho Hc) as (_ & _ & ?).
Qed.

(** One silent peer. *)
Definition silent : state := MkState true false Swept ∅ {[3]} None {[3]} ∅ ∅ Waiting ClosedAll.

Lemma silent_reachable : rtc (step act) Start silent.
Proof.
  apply (rtc_run act [Accept 3; Spawn; Cancel; CloserListener; CloserSweep; AcceptFails; CallClose; CloseSweep]). vm_compute. reflexivity.
Qed.

Lemma silent_quiet : quiet act own silent.
Proof.
  intros [|c| |c|c|c|c|c| | | | |c|c| | | |] Ho; try discriminate Ho; cbn; try done; rewrite bool_decide_eq_false_2; try done; set_solver.
Qed.

Lemma close_shutdown_witness : exists c, c ∈ firstLine silent /\ c ∈ opened silent.
Proof.
  destruct (close_shutdown silent silent_reachable) as (_ & H & _).
  destruct (H eq_refl ltac:(discriminate) silent (rtc_refl _ _) silent_quiet) as [[E _]|Hc]; [discriminate E|exact Hc].
Defined.
End transport_server.
