(* ===== verification/Cli.v ===== *)
(** * The command line tool: commands on the configuration tree
      (cmd/gsnet/main.go)

    init, get, set, add, del, export, import, invite, fsck and pcap, over the
    file system and the standard output.  A command that fails keeps what it
    did before.  Random bytes and generated keys are arguments. *)

From Stdlib Require Import Ascii String ZArith Lia.
From stdpp Require Import base tactics list gmap strings.
From S2P Require Import Prelude.
From S2P Require Import GoStrings.
From S2P Require Import GoFmt.
From S2P Require Import NodeName.
From S2P Require Import FS.
From S2P Require Import FilePath.
From S2P Require Import Config.
From S2P Require Import Keys.
From S2P Require Import Invite.
From S2P Require Import Daemon.
From S2P Require Import DaemonJoin.
From S2P Require Import DaemonInit.

Local Open Scope Z_scope.

Module cli.
Import paths pathlib.

(** ** Effects *)

(** What a command prints: text, a finding of [Fsck], or the line that reports
    a join (its names are quoted). *)
Inductive output := Text (s : bytes) | FindingLine (f : fsck.FsckFinding) | JoinedLine (netname name inviter : gostring).

Record world := MkWorld { wfs : FS; stdout : list output }.

Inductive error :=
| errUsage (text : gostring) | errConfig (e : config.error) | errOS (e : osError) | errInit (e : init.error)
| errName (e : nodename.error) | errKeys (e : keys.error) | errNoName | errFindings (n : nat)
| errNeedsValue (flag : gostring) | errNumber (e : numError) | errUnknownArg (arg : gostring) | errNoInterface.

Definition C (A : Type) : Type := world -> world * result error A.
#[global] Instance C_ret : MRet C := fun A a w => (w, Ok a).
#[global] Instance C_bind : MBind C := fun A B f m w =>
  match m w with (w', Ok a) => f a w' | (w', Err e) => (w', Err e) end.

Definition fail {A} (e : error) : C A := fun w => (w, Err e).
Definition lift {A} (r : result error A) : C A := fun w => (w, r).
(** A pure question to the file system. *)
Definition ask {E A} (f : E -> error) (q : FS -> result E A) : C A := fun w => (w, err_map f (q (wfs w))).
Definition print (o : output) : C unit := fun w => (MkWorld (wfs w) (stdout w ++ [o]), Ok ()).
Definition println (s : gostring) : C unit := print (Text (s ++ [nl])).
(** An operation that changes the file system. *)
Definition change (q : FS -> result osError FS) : C unit := fun w =>
  match q (wfs w) with Ok fs => (MkWorld fs (stdout w), Ok ()) | Err e => (w, Err (errOS e)) end.

Definition writeFile (path : gostring) (data : bytes) (perm : Z) : C unit :=
  change (fun fs => os.WriteFile fs path data perm).
Definition mkdirAll (path : gostring) : C unit := change (fun fs => os.MkdirAll fs path).

Definition forM {A} (f : A -> C unit) : list A -> C unit :=
  fix go l := match l with [] => mret () | a :: l => _ ← f a; go l end.

Section commands.
Context `{Unicode, Ed25519, X509, WGTypes, SHA256}.

(** ** init, get, set, add, del *)

Definition cmdInit (p : Paths) (args : list gostring) (genEd genWG : option bytes) : C unit :=
  match args with
  | [name] => fun w => let '(fs, r) := init.Init p name genEd genWG (wfs w) in
                       (MkWorld fs (stdout w), err_map errInit r)
  | _ => fail (errUsage !"init <name>")
  end.

Definition cmdGet (p : Paths) (args : list gostring) : C unit :=
  match args with
  | [key] =>
      entries ← ask errConfig (fun fs => config.LoadDirectory fs (ConfFile p));
      forM println (config.GetAll entries key)
  | _ => fail (errUsage !"get <key>")
  end.

(** [ParseFile], where a missing file has no entries. *)
Definition parseOrEmpty (path : gostring) (fs : FS) : result config.error (list config.Entry) :=
  match config.ParseFile fs path with
  | Ok es => Ok es
  | Err e => if config.isNotExist e then Ok [] else Err e
  end.

Definition mutateConf (p : Paths) (key value : gostring) (replace : bool) : C unit :=
  entries ← ask errConfig (parseOrEmpty (ConfFile p));
  let entries := if replace then filter (fun e => EqualFold (config.Key e) key = false) entries else entries in
  writeFile (ConfFile p) (config.Render (entries ++ [config.MkEntry key value])) 420.

Definition cmdSet (p : Paths) (args : list gostring) : C unit :=
  match args with
  | [key; value] => mutateConf p key value true
  | _ => fail (errUsage !"set <key> <value>")
  end.

Definition cmdAdd (p : Paths) (args : list gostring) : C unit :=
  match args with
  | [key; value] => mutateConf p key value false
  | _ => fail (errUsage !"add <key> <value>")
  end.

(** Whether [del key value] drops an entry; an empty value drops every entry
    of the key. *)
Definition dropped (key value : gostring) (e : config.Entry) : Prop :=
  EqualFold (config.Key e) key = true /\ (value = [] \/ config.Value e = value).

Definition cmdDel (p : Paths) (args : list gostring) : C unit :=
  match args with
  | key :: (([] | [_]) as rest) =>
      let value := default [] (head rest) in
      entries ← ask errConfig (fun fs => config.ParseFile fs (ConfFile p));
      writeFile (ConfFile p) (config.Render (filter (fun e => ~ dropped key value e) entries)) 420
  | _ => fail (errUsage !"del <key> [value]")
  end.

(** ** export and import *)

Definition exportText (name host : bytes) : bytes := !"Name = " ++ name ++ nl :: host.

Definition cmdExport (p : Paths) : C unit :=
  entries ← ask errConfig (fun fs => config.LoadDirectory fs (ConfFile p));
  name ← lift (match config.GetFirst entries !"Name" with Some n => Ok n | None => Err errNoName end);
  host ← ask errOS (fun fs => os.ReadFile fs (HostFile p name));
  print (Text (exportText name host)).

Definition writeHost (p : Paths) (name : gostring) (lines : list gostring) : C unit :=
  _ ← mkdirAll (HostsDir p);
  writeFile (HostFile p name) (concat lines) 420.

(** The strings [ReadString('\n')] returns until the end of the input; the
    last one has no newline and may be empty. *)
Definition readStrings (s : bytes) : list gostring :=
  ((fun l => l ++ [nl]) <$> removelast (splitByte nl s)) ++ [List.last (splitByte nl s) []].

(** The name a line introduces, if it is a [Name = ...] line. *)
Definition nameLine (line : gostring) : option gostring :=
  let trimmed := TrimSpace line in
  if bool_decide (trimmed = []) || HasPrefix trimmed !"#" then None
  else match cutByte config.eqSign trimmed with
       | Some (k, v) => if EqualFold (TrimSpace k) !"Name" then Some (TrimSpace v) else None
       | None => None
       end.

(** The loop of [cmdImport] with its variables [name] and [lines]. *)
Fixpoint importLines (p : Paths) (ls : list gostring) (name : gostring) (lines : list gostring) : C unit :=
  match ls with
  | [] => if bool_decide (name = []) then mret () else writeHost p name lines
  | line :: ls =>
      if bool_decide (line = []) then importLines p ls name lines
      else match nameLine line with
           | Some n =>
               if bool_decide (name = []) then importLines p ls n lines
               else _ ← writeHost p name lines; importLines p ls n []
           | None => importLines p ls name (lines ++ [line])
           end
  end.

Definition cmdImport (p : Paths) (stdin : bytes) : C unit := importLines p (readStrings stdin) [] [].

(** ** invite *)

Definition invitationFor (p : Paths) (invitee selfName addr : gostring) (selfHost : bytes) : invite.File :=
  let other := match selfHost with
               | [] => []
               | _ => match config.Parse selfHost with Ok es => es | Err _ => [] end
               end in
  invite.MkFile (Netname p)
    (invite.MkBlock invitee [] [selfName] [] [] [])
    [invite.MkBlock selfName addr [] [] [] other].

(** [buf] is what the random source returns for the cookie. *)
Definition cmdInvite (p : Paths) (args : list gostring) (buf : bytes) : C unit :=
  match args with
  | [invitee] =>
      _ ← lift (err_map errName (nodename.Validate invitee));
      entries ← ask errConfig (fun fs => config.LoadDirectory fs (ConfFile p));
      selfName ← lift (match config.GetFirst entries !"Name" with Some n => Ok n | None => Err errNoName end);
      let addr := default [] (config.GetFirst entries !"Address") in
      let port := match config.GetFirst entries !"Port" with
                  | Some v => default 51820 (fmt.Sscanf1 v)
                  | None => 51820
                  end in
      edBytes ← ask errOS (fun fs => os.ReadFile fs (Ed25519Private p));
      edPriv ← lift (err_map errKeys (keys.ParseEd25519PrivatePEM edBytes));
      let cookie := invite.NewCookie buf in
      let url := invite.BuildURL addr port (keys.Public edPriv) cookie in
      _ ← mkdirAll (InvitationsDir p);
      selfHost ← (fun w => (w, Ok (match os.ReadFile (wfs w) (HostFile p selfName) with Ok b => b | Err _ => [] end)));
      _ ← writeFile (join.invitationFile p cookie) (invite.Render (invitationFor p invitee selfName addr selfHost)) 384;
      println (invite.urlString url)
  | _ => fail (errUsage !"invite <name>")
  end.

(** ** fsck and pcap *)

Definition isError (f : fsck.FsckFinding) : bool :=
  match fsck.Level f with fsck.FsckError => true | _ => false end.

Definition cmdFsck (p : Paths) : C unit := fun w =>
  let findings := fsck.Fsck (wfs w) p in
  let errors := length (filter (fun f => isError f = true) findings) in
  (MkWorld (wfs w) (stdout w ++ (FindingLine <$> findings)),
   if bool_decide (errors = 0%nat) then Ok () else Err (errFindings errors)).

(** The argument loop of [cmdPcap]: interface and snapshot length. *)
Fixpoint pcapArgs (args : list gostring) (iface : gostring) (snaplen : Z) : result error (gostring * Z) :=
  match args with
  | [] => Ok (iface, snaplen)
  | a :: args =>
      if bool_decide (a = !"-s") then
        match args with
        | [] => Err (errNeedsValue !"-s")
        | v :: args => match ParseUint 10 32 v with
                       | Ok n => pcapArgs args iface n
                       | Err e => Err (errNumber e)
                       end
        end
      else if bool_decide (a = !"-i") then
        match args with
        | [] => Err (errNeedsValue !"-i")
        | v :: args => pcapArgs args v snaplen
        end
      else Err (errUnknownArg a)
  end.

(** The interface used when none was given. *)
Definition defaultIface (entries : list config.Entry) : gostring :=
  match config.GetFirst entries !"VXLANInterface" with
  | Some v => v
  | None => match config.GetFirst entries !"Interface" with
            | Some v => v
            | None => default [] (config.GetFirst entries !"Name")
            end
  end.

(** [Capture] is the packet capture itself. *)
Definition cmdPcap (Capture : gostring -> Z -> C unit) (p : Paths) (args : list gostring) : C unit :=
  '(iface, snaplen) ← lift (pcapArgs args [] 65535);
  iface ← (if bool_decide (iface = [])
           then entries ← ask errConfig (fun fs => config.LoadDirectory fs (ConfFile p)); mret (defaultIface entries)
           else mret iface);
  if bool_decide (iface = []) then fail errNoInterface else Capture iface snaplen.
End commands.

(** ** Editing the configuration *)

Section edits.
Context `{Unicode}.

(** A key and a value that can stand on a line. *)
Record lineEntry (k v : gostring) : Prop := {
  lk_ne : k <> []; lk_trim : trimmed k; lk_eq : config.eqSign ∉ k; lk_nl : nl ∉ k; lk_hash : head k <> Some (to_byte 35);
  lv_ne : v <> []; lv_trim : trimmed v; lv_nl : nl ∉ v
}.

(** The edit commands as edits of the list of entries. *)
Inductive edit := Set_ (key value : gostring) | Add (key value : gostring) | Del (key value : gostring).

Definition applyEdit (ed : edit) (es : list config.Entry) : list config.Entry :=
  match ed with
  | Set_ k v => filter (fun e => EqualFold (config.Key e) k = false) es ++ [config.MkEntry (config.canonicalKey k) v]
  | Add k v => es ++ [config.MkEntry (config.canonicalKey k) v]
  | Del k v => filter (fun e => ~ dropped k v e) es
  end.

Definition runEdit (p : Paths) (ed : edit) : C unit :=
  match ed with
  | Set_ k v => cmdSet p [k; v]
  | Add k v => cmdAdd p [k; v]
  | Del k v => cmdDel p (if bool_decide (v = []) then [k] else [k; v])
  end.

(** The new entry of an edit, if it has one, can be written on a line. *)
Definition wfEdit (ed : edit) : Prop :=
  match ed with
  | Set_ k v | Add k v => lineEntry k v /\ config.fits (config.MkEntry k v) /\
                          config.fits (config.MkEntry (config.canonicalKey k) v)
  | Del _ _ => True
  end.

Lemma parseLines_app ls1 ls2 es1 : config.parseLines ls1 = Ok es1 ->
  config.parseLines (ls1 ++ ls2) = (es2 ← config.parseLines ls2; Ok (es1 ++ es2)).
Proof.
  revert es1. induction ls1 as [|l ls1 IH]; intros es1 H1; cbn [app config.parseLines] in *.
  - injection H1 as <-. by destruct (config.parseLines ls2).
  - case_decide; [by apply IH|]. destruct (config.parseLine _) as [e|]; [|done]. cbn [mbind result_bind] in *.
    destruct (config.parseLines ls1) as [es|]; [|done]. injection H1 as <-.
    rewrite (IH es) by done. by destruct (config.parseLines ls2).
Qed.

(** A line that the edit commands write is read back with the canonical key. *)
Lemma parseLine_edit k v : lineEntry k v ->
  let l := config.renderLine (config.MkEntry k v) in
  trimmed l /\ (nl ∉ l) /\ config.parseLines [l] = Ok [config.MkEntry (config.canonicalKey k) v].
Proof.
  intros [] l. assert (trimmed l) as Ht by by apply trimmed_app.
  assert (nl ∉ l) as Hnl.
  { unfold l, config.renderLine. cbn [config.Key config.Value]. rewrite !not_elem_of_app. split_and!; [done| |done].
    apply (bool_decide_unpack _). vm_compute. exact I. }
  split_and!; [done|done|]. cbn [config.parseLines]. rewrite TrimSpace_id by done. rewrite decide_False.
  2:{ unfold l, config.renderLine. cbn [config.Key config.Value]. destruct k as [|b k]; [done|].
      intros [|Hp]; [done|]. apply bool_decide_eq_true in Hp as [r Hr]. by injection Hr as ->. }
  unfold config.parseLine.
  assert (cutByte config.eqSign l = Some (k ++ [sp], sp :: v)) as ->.
  { apply cutByte_Some. split; [unfold l, config.renderLine; by rewrite <- app_assoc|].
    rewrite not_elem_of_app. split; [done|]. apply (bool_decide_unpack _). vm_compute. exact I. }
  cbn [mbind result_bind]. rewrite TrimSpace_sp_r, TrimSpace_sp_l by done. by rewrite !decide_False by done.
Qed.

Lemma Parse_Render_snoc es k v : Forall config.wfEntry es -> Forall config.fits es ->
  lineEntry k v -> config.fits (config.MkEntry k v) ->
  config.Parse (config.Render (es ++ [config.MkEntry k v])) = Ok (es ++ [config.MkEntry (config.canonicalKey k) v]).
Proof.
  intros Hw Hf Hkv Hfit. destruct (parseLine_edit k v Hkv) as (Ht & Hnl & Hp).
  assert (Forall (fun l => scanLine l /\ trimmed l) (config.renderLine <$> es ++ [config.MkEntry k v])) as Hall.
  { rewrite fmap_app. apply Forall_app. split; [|by apply Forall_singleton].
    apply Forall_fmap, Forall_forall. intros e He. split.
    - apply config.scanLine_renderLine; by eapply Forall_forall.
    - apply config.renderLine_trimmed. by eapply Forall_forall. }
  unfold config.Parse. rewrite config.Render_unlines, scanLines_unlines
    by (eapply Forall_impl; [exact Hall|]; by intros l [? _]).
  assert (dropCR <$> (config.renderLine <$> es ++ [config.MkEntry k v]) = config.renderLine <$> es ++ [config.MkEntry k v]) as ->.
  { rewrite <- (list_fmap_id (config.renderLine <$> _)) at 2. apply list_fmap_ext. intros i l Hl.
    apply dropCR_trimmed. eapply Forall_lookup_1 in Hall as [_ ?]; done. }
  rewrite fmap_app. erewrite parseLines_app by by apply config.parseLines_render.
  change (config.renderLine <$> [config.MkEntry k v]) with [config.renderLine (config.MkEntry k v)]. by rewrite Hp.
Qed.
End edits.

(** ** Runs of commands *)

Lemma cli_bind_ok {A B} (m : C A) (f : A -> C B) w w1 a : m w = (w1, Ok a) -> (m ≫= f) w = f a w1.
Proof. intros E. unfold mbind, C_bind. by rewrite E. Qed.

Lemma cli_bind_err {A B} (m : C A) (f : A -> C B) w w1 e : m w = (w1, Err e) -> (m ≫= f) w = (w1, Err e).
Proof. intros E. unfold mbind, C_bind. by rewrite E. Qed.

Lemma ask_ok {E A} (f : E -> error) (q : FS -> result E A) w a : q (wfs w) = Ok a -> ask f q w = (w, Ok a).
Proof. intros Eq. unfold ask. by rewrite Eq. Qed.

Lemma ask_err {E A} (f : E -> error) (q : FS -> result E A) w e : q (wfs w) = Err e -> ask f q w = (w, Err (f e)).
Proof. intros Eq. unfold ask. by rewrite Eq. Qed.

(** A write to an existing file succeeds, and touches that file only. *)
Lemma writeFile_existing path data perm w f : files (wfs w) !! path = Some f ->
  writeFile path data perm w
  = (MkWorld (MkFS (<[path := MkFile data (mode f)]> (files (wfs w))) (dirs (wfs w))) (stdout w), Ok ()).
Proof. intros Hf. unfold writeFile, change, os.WriteFile. by rewrite Hf. Qed.

Lemma writeFile_run path data perm w w' : writeFile path data perm w = (w', Ok ()) ->
  os.ReadFile (wfs w') path = Ok data /\ stdout w' = stdout w /\
  (forall q, q <> path -> files (wfs w') !! q = files (wfs w) !! q) /\ dirs (wfs w') = dirs (wfs w).
Proof.
  unfold writeFile, change. destruct (os.WriteFile (wfs w) path data perm) as [fs|] eqn:E; [|done]. intros [= <-].
  cbn [wfs stdout]. split_and!; [by eapply ReadFile_WriteFile|done| |].
  - intros q Hq. by destruct (files_WriteFile _ _ _ _ _ _ E Hq).
  - unfold os.WriteFile in E. destruct (files (wfs w) !! path); [by injection E as <-|].
    repeat case_decide; inv_ok; done.
Qed.

Lemma mkdirAll_run path w w' : mkdirAll path w = (w', Ok ()) ->
  files (wfs w') = files (wfs w) /\ stdout w' = stdout w /\ dirs (wfs w) ⊆ dirs (wfs w').
Proof.
  unfold mkdirAll, change. destruct (os.MkdirAll (wfs w) path) as [fs|] eqn:E; [|done]. intros [= <-].
  apply files_MkdirAll in E as [? ?]. done.
Qed.

Section edit_theorem.
Context `{Unicode, Ed25519, X509, WGTypes, SHA256}.

Lemma fold_canonicalKey k : Forall asciiByte k -> EqualFold (config.canonicalKey k) k = true.
Proof.
  intros Hk. unfold config.canonicalKey. rewrite ToLower_ascii by done.
  destruct (config.canonical !! (lowerByte <$> k)) as [c|] eqn:E; [|apply EqualFold_refl].
  pose proof (config.canonical_lookup _ _ E) as (_ & Hp & _).
  rewrite EqualFold_ascii by (done || by apply config.plain_ascii). apply bool_decide_eq_true.
  assert (Forall (fun p => lowerByte <$> p.2 = p.1) config.canonicalList) as Hall
    by (apply (bool_decide_unpack _); vm_compute; exact I).
  apply elem_of_list_to_map_2 in E. by eapply Forall_forall in Hall; [|exact E].
Qed.

Lemma Forall_filtered {A} (Q P : A -> Prop) `{!forall e, Decision (P e)} l : Forall Q l -> Forall Q (filter P l).
Proof. intros Hf. apply Forall_forall. intros e [_ He]%list_elem_of_filter. by eapply Forall_forall. Qed.

Lemma GetAll_none es k : Forall (fun e => EqualFold (config.Key e) k = false) es -> config.GetAll es k = [].
Proof. induction 1 as [|e es He _ IH]; [done|]. cbn [config.GetAll]. by rewrite He. Qed.

(** After [set], the key has exactly the new value. *)
Lemma GetAll_set k v k' es : Forall asciiByte k -> EqualFold k k' = true ->
  config.GetAll (applyEdit (Set_ k v) es) k' = [v].
Proof.
  intros Ha Hk. cbn [applyEdit]. rewrite config.GetAll_app, GetAll_none.
  - cbn [app config.GetAll config.Key config.Value].
    by rewrite (EqualFold_trans _ _ k' (fold_canonicalKey k Ha)), Hk.
  - apply Forall_forall. intros e [He _]%list_elem_of_filter.
    rewrite EqualFold_sym, <- (EqualFold_trans k k' (config.Key e)) by done. by rewrite EqualFold_sym.
Qed.

Lemma ParseFile_Ok fs path es : config.ParseFile fs path = Ok es ->
  exists f, files fs !! path = Some f /\ config.Parse (content f) = Ok es.
Proof.
  unfold config.ParseFile, os.ReadFile. destruct (files fs !! path) as [f|]; [eauto|]. by case_decide.
Qed.

Lemma ParseFile_file fs path f : files fs !! path = Some f -> config.ParseFile fs path = config.Parse (content f).
Proof. intros Hf. unfold config.ParseFile, os.ReadFile. by rewrite Hf. Qed.

(** The text an edit leaves in the file. *)
Definition editText (ed : edit) (es : list config.Entry) : bytes :=
  match ed with
  | Set_ k v => config.Render (filter (fun e => EqualFold (config.Key e) k = false) es ++ [config.MkEntry k v])
  | Add k v => config.Render (es ++ [config.MkEntry k v])
  | Del k v => config.Render (filter (fun e => ~ dropped k v e) es)
  end.

Lemma Parse_editText ed es : Forall config.wfEntry es -> Forall config.fits es -> wfEdit ed ->
  config.Parse (editText ed es) = Ok (applyEdit ed es) /\ Forall config.fits (applyEdit ed es).
Proof.
  intros Hw Hf He. destruct ed as [k v|k v|k v]; cbn [editText applyEdit wfEdit] in *; [destruct He as (Hl & Hf1 & Hf2)..|].
  - split; [by apply Parse_Render_snoc; auto using Forall_filtered|].
    apply Forall_app. split; [by apply Forall_filtered|by apply Forall_singleton].
  - split; [by apply Parse_Render_snoc|]. apply Forall_app. split; [done|by apply Forall_singleton].
  - split; [apply config.Parse_Render|]; by apply Forall_filtered.
Qed.

Lemma runEdit_existing p ed w f es :
  files (wfs w) !! ConfFile p = Some f -> config.Parse (content f) = Ok es ->
  runEdit p ed w = writeFile (ConfFile p) (editText ed es) 420 w.
Proof.
  intros Hf Hes. assert (config.ParseFile (wfs w) (ConfFile p) = Ok es) as Hp by by rewrite (ParseFile_file _ _ f).
  assert (parseOrEmpty (ConfFile p) (wfs w) = Ok es) as Hp' by (unfold parseOrEmpty; by rewrite Hp).
  destruct ed as [k v|k v|k v]; cbn [runEdit editText cmdSet cmdAdd].
  - unfold mutateConf. by erewrite cli_bind_ok by by apply ask_ok.
  - unfold mutateConf. by erewrite cli_bind_ok by by apply ask_ok.
  - case_bool_decide as Hv; [subst v|]; unfold cmdDel;
      by erewrite cli_bind_ok by by apply ask_ok.
Qed.

Lemma runEdit_step p ed w es : config.ParseFile (wfs w) (ConfFile p) = Ok es -> Forall config.fits es -> wfEdit ed ->
  exists w', runEdit p ed w = (w', Ok ()) /\ config.ParseFile (wfs w') (ConfFile p) = Ok (applyEdit ed es) /\
    Forall config.fits (applyEdit ed es) /\ stdout w' = stdout w /\
    (forall q, q <> ConfFile p -> files (wfs w') !! q = files (wfs w) !! q).
Proof.
  intros (f & Hf & Hes)%ParseFile_Ok Hfit He.
  destruct (Parse_editText ed es (config.Parse_wf _ _ Hes) Hfit He) as [Hp Hfit'].
  erewrite runEdit_existing by done. erewrite writeFile_existing by done. eexists. split; [done|]. cbn [wfs stdout].
  split_and!; try done.
  - erewrite ParseFile_file by apply lookup_insert_eq. done.
  - intros q Hq. cbn [files]. by rewrite lookup_insert_ne.
Qed.

Definition runEdits (p : Paths) (eds : list edit) : C unit := forM (runEdit p) eds.

(** C20.  The set, add and del commands implement edits of the list of entries: any
    sequence of them, whose new keys and values can stand on a line of the
    file, runs without error on a file that parses, changes no other file and
    prints nothing, and leaves a file that parses to the entries edited in the
    same order; after a set the key has exactly the new value.  A file that
    does not parse is reported and left alone. *)
Theorem config_edits_refine p eds w :
  match config.ParseFile (wfs w) (ConfFile p) with
  | Ok es =>
      Forall config.fits es -> Forall wfEdit eds ->
      exists w', runEdits p eds w = (w', Ok ()) /\
        config.ParseFile (wfs w') (ConfFile p) = Ok (foldl (fun es ed => applyEdit ed es) es eds) /\
        stdout w' = stdout w /\ (forall q, q <> ConfFile p -> files (wfs w') !! q = files (wfs w) !! q)
  | Err e => config.isNotExist e = false -> forall ed, runEdit p ed w = (w, Err (errConfig e))
  end /\
  (forall k v k' es, Forall asciiByte k -> EqualFold k k' = true -> config.GetAll (applyEdit (Set_ k v) es) k' = [v]).
Proof.
  split; [|by intros; apply GetAll_set].
  destruct (config.ParseFile (wfs w) (ConfFile p)) as [es|e] eqn:E.
  - intros Hf Hw. revert es w E Hf. induction Hw as [|ed eds He _ IH]; intros es w E Hf.
    + exists w. done.
    + destruct (runEdit_step p ed w es E Hf He) as (w1 & E1 & P1 & F1 & S1 & O1).
      destruct (IH _ _ P1 F1) as (w2 & E2 & P2 & S2 & O2). exists w2. unfold runEdits in *. cbn [forM].
      erewrite cli_bind_ok by exact E1. split_and!; [done|done|congruence|]. intros q Hq. by rewrite O2, O1.
  - intros Hn ed. assert (parseOrEmpty (ConfFile p) (wfs w) = Err e) as Hp by (unfold parseOrEmpty; by rewrite E, Hn).
    destruct ed as [k v|k v|k v]; cbn [runEdit cmdSet cmdAdd]; [unfold mutateConf..|].
    1,2: by erewrite cli_bind_err by by apply ask_err.
    case_bool_decide; cbn [cmdDel]; by erewrite cli_bind_err by by apply ask_err.
Qed.
End edit_theorem.

(** ** export and import *)

Section import_export.
Context `{Unicode, Ed25519, X509, WGTypes, SHA256}.

Definition withNl (l : gostring) : gostring := l ++ [nl].

Lemma concat_withNl ls : concat (withNl <$> ls) = unlines ls.
Proof. unfold unlines. induction ls as [|l ls IH]; [done|]. rewrite fmap_cons. cbn [concat]. by rewrite IH, bind_cons. Qed.

Lemma readStrings_unlines ls rest : Forall (fun l => nl ∉ l) ls ->
  readStrings (unlines ls ++ rest) = (withNl <$> ls) ++ readStrings rest.
Proof.
  induction 1 as [|l ls Hl _ IH]; [done|]. rewrite unlines_cons, <- app_assoc. cbn [app]. rewrite fmap_cons.
  cbn [app]. rewrite <- IH. unfold readStrings. rewrite splitByte_app by done.
  destruct (splitByte nl (unlines ls ++ rest)) as [|a t] eqn:E; [by destruct (splitByte_ne nl (unlines ls ++ rest))|].
  change (removelast (l :: a :: t)) with (l :: removelast (a :: t)). rewrite fmap_cons. cbn [app]. by f_equal.
Qed.

(** A line that no name line can be mistaken for. *)
Definition bodyLine (l : gostring) : Prop := (nl ∉ l) /\ nameLine (withNl l) = None.

#[global] Instance bodyLine_dec l : Decision (bodyLine l).
Proof. unfold bodyLine. apply _. Defined.

Lemma importLines_body p ls rest name acc : Forall bodyLine ls ->
  importLines p ((withNl <$> ls) ++ rest) name acc = importLines p rest name (acc ++ (withNl <$> ls)).
Proof.
  intros Hl. revert acc. induction Hl as [|l ls [_ Hl] _ IH]; intros acc; [by rewrite app_nil_r|].
  rewrite fmap_cons. cbn [app importLines]. rewrite bool_decide_eq_false_2 by (unfold withNl; by destruct l).
  rewrite Hl, IH. by rewrite <- app_assoc.
Qed.

Lemma nameLine_name n : nodename.Validate n = Ok () -> nameLine (withNl (!"Name = " ++ n)) = Some n.
Proof.
  intros Hv. assert (n <> []) as Hne by (by apply nodename.Validate_ok in Hv as [? _]).
  assert (trimmed n) as Ht by (apply trimmed_plain, init_lemmas.name_plain, Hv).
  assert (trimmed (!"Name" ++ !" = " ++ n)) as Htn.
  { apply (trimmed_app !"Name" !" = " n); try done; apply (bool_decide_unpack _); vm_compute; exact I. }
  unfold nameLine, withNl. change (!"Name = " ++ n) with (!"Name" ++ !" = " ++ n).
  rewrite TrimSpace_nl by (done || discriminate). rewrite bool_decide_eq_false_2 by discriminate.
  change (HasPrefix (!"Name" ++ !" = " ++ n) !"#") with (bool_decide (!"#" `prefix_of` !"Name" ++ !" = " ++ n)).
  rewrite bool_decide_eq_false_2 by (intros [x Hx]; discriminate). cbn [orb].
  assert (cutByte config.eqSign (!"Name" ++ !" = " ++ n) = Some (!"Name ", sp :: n)) as ->
    by (apply cutByte_Some; split; [reflexivity|apply (bool_decide_unpack _); vm_compute; exact I]).
  change (TrimSpace !"Name ") with !"Name". rewrite EqualFold_refl. by rewrite TrimSpace_sp_l.
Qed.

(** [hosts/n] can be created or replaced. *)
Definition hostWritable (p : Paths) (fs : FS) (n : gostring) : Prop :=
  dirFree fs (HostsDir p) /\ HostFile p n ∉ dirs fs.

Lemma cleanPath_HostsDir p : cleanPath (HostsDir p).
Proof. by apply cleanPath_Join. Qed.

Lemma writeHost_run p n lines w : plain n -> hostWritable p (wfs w) n ->
  exists w' m, writeHost p n lines w = (w', Ok ()) /\ stdout w' = stdout w /\
    files (wfs w') = <[HostFile p n := MkFile (concat lines) m]> (files (wfs w)) /\
    (forall n', plain n' -> hostWritable p (wfs w) n' -> hostWritable p (wfs w') n').
Proof.
  intros Hn [Hfree Hnd].
  destruct (mkdir_write (wfs w) (HostsDir p) n (concat lines) 420 (cleanPath_HostsDir p) Hn Hfree Hnd)
    as (fs1 & fs2 & m & E1 & E2 & F1 & F2 & D1 & D2).
  exists (MkWorld fs2 (stdout w)), m. cbn [wfs stdout]. split_and!; [|done|done|].
  - unfold writeHost. erewrite cli_bind_ok; [|unfold mkdirAll, change; by rewrite E1].
    unfold writeFile, change. cbn [wfs stdout]. fold (HostFile p n) in E2. by rewrite E2.
  - intros n' Hn' [_ Hnd']. split.
    + apply Forall_forall. intros a Ha. rewrite F2, lookup_insert_ne.
      * by eapply (Forall_forall (fun a => files (wfs w) !! a = None)) in Hfree.
      * intros <-. revert Ha. apply file_not_ancestor; [apply cleanPath_HostsDir|done].
    + rewrite D2, D1, elem_of_union, elem_of_list_to_set. intros [Hin|Hin]; [|done].
      revert Hin. apply file_not_ancestor; [apply cleanPath_HostsDir|done].
Qed.

Lemma HostFile_inj p n n' : plain n -> plain n' -> HostFile p n = HostFile p n' -> n = n'.
Proof.
  intros Hn Hn' E. pose proof (join.stack_HostFile p n Hn) as E1. rewrite E, (join.stack_HostFile p n' Hn') in E1.
  by injection E1.
Qed.

(** An exported host: its name and the lines of its host file. *)
Definition hostText (h : gostring * list gostring) : bytes := exportText h.1 (unlines h.2).

Definition goodHost (p : Paths) (fs : FS) (h : gostring * list gostring) : Prop :=
  nodename.Validate h.1 = Ok () /\ Forall bodyLine h.2 /\ hostWritable p fs h.1.

Lemma hostText_lines h : hostText h = unlines ((!"Name = " ++ h.1) :: h.2).
Proof. unfold hostText, exportText. rewrite unlines_cons. by rewrite <- app_assoc. Qed.

(** The writes an import makes once the first name has been read. *)
Lemma importLines_hosts p hosts n ls w : goodHost p (wfs w) (n, ls) -> Forall (goodHost p (wfs w)) hosts ->
  NoDup (n :: hosts.*1) ->
  exists w', importLines p (readStrings (hosts ≫= hostText)) n (withNl <$> ls) w = (w', Ok ()) /\
    stdout w' = stdout w /\
    (forall h, h ∈ (n, ls) :: hosts -> os.ReadFile (wfs w') (HostFile p h.1) = Ok (unlines h.2)) /\
    (forall q, q ∉ HostFile p <$> n :: hosts.*1 -> files (wfs w') !! q = files (wfs w) !! q).
Proof.
  revert n ls w. induction hosts as [|[n2 ls2] hosts IH]; intros n ls w (Hv & Hb & Hw) Hall Hnd.
  - destruct (writeHost_run p n (withNl <$> ls) w (init_lemmas.plain_valid n Hv) Hw) as (w' & m & E & S & F & _).
    exists w'. split_and!; [|done| |].
    + assert (n <> []) by (by apply nodename.Validate_ok in Hv as [? _]).
      cbn [mbind list_bind]. change (readStrings []) with [@nil byte]. cbn [importLines].
      rewrite bool_decide_eq_true_2 by done. by rewrite bool_decide_eq_false_2.
    + intros h [->|?%elem_of_nil]%elem_of_cons; [|done]. unfold os.ReadFile. cbn [fst snd].
      rewrite F, lookup_insert_eq. cbn [content]. by rewrite concat_withNl.
    + intros q Hq. rewrite F, lookup_insert_ne; [done|]. set_solver.
  - apply Forall_cons in Hall as [(Hv2 & Hb2 & Hw2) Hall]. cbn [fst snd] in *.
    pose proof (init_lemmas.plain_valid n Hv) as Hpn.
    destruct (writeHost_run p n (withNl <$> ls) w Hpn Hw) as (w1 & m & E1 & S1 & F1 & Hkeep).
    assert (Forall (goodHost p (wfs w1)) hosts) as Hall1.
    { eapply Forall_impl; [exact Hall|]. intros h (? & ? & ?). split_and!; auto using init_lemmas.plain_valid. }
    destruct (IH n2 ls2 w1) as (w2 & E2 & S2 & R2 & O2);
      [split_and!; auto using init_lemmas.plain_valid|done|by apply NoDup_cons in Hnd as [_ ?]|].
    exists w2. split_and!; [|congruence| |].
    + rewrite bind_cons, hostText_lines, readStrings_unlines.
      2:{ apply Forall_cons. split.
          - intros Hin. cbn [fst] in Hin. apply elem_of_app in Hin as [Hin|Hin]; [by vm_compute in Hin; set_solver|].
            revert Hin. apply config.plain_no_nl, init_lemmas.name_plain, Hv2.
          - eapply Forall_impl; [exact Hb2|]. by intros l [? _]. }
      rewrite fmap_cons. cbn [fst snd app importLines].
      rewrite bool_decide_eq_false_2 by discriminate. rewrite nameLine_name by done.
      assert (n <> []) by (by apply nodename.Validate_ok in Hv as [? _]).
      rewrite bool_decide_eq_false_2 by done. erewrite cli_bind_ok by exact E1.
      rewrite importLines_body by done. exact E2.
    + intros h [->|Hh]%elem_of_cons; [|by apply R2]. cbn [fst snd].
      unfold os.ReadFile. rewrite O2, F1, lookup_insert_eq; [cbn [content]; by rewrite concat_withNl|].
      intros (n' & En & Hn')%list_elem_of_fmap. apply NoDup_cons in Hnd as [Hnd _]. apply Hnd.
      assert (plain n') as Hp'.
      { apply elem_of_cons in Hn' as [->|(h & -> & Hh)%list_elem_of_fmap]; [by apply init_lemmas.plain_valid|].
        eapply Forall_forall in Hall as (? & _); [|exact Hh]. by apply init_lemmas.plain_valid. }
      by rewrite (HostFile_inj p n n').
    + intros q Hq. rewrite O2, F1, lookup_insert_ne; [done|..]; set_solver.
Qed.

(** The whole import, from the first line. *)
Lemma cmdImport_hosts p hosts w : Forall (goodHost p (wfs w)) hosts -> NoDup hosts.*1 ->
  exists w', cmdImport p (hosts ≫= hostText) w = (w', Ok ()) /\ stdout w' = stdout w /\
    (forall h, h ∈ hosts -> os.ReadFile (wfs w') (HostFile p h.1) = Ok (unlines h.2)) /\
    (forall q, q ∉ HostFile p <$> hosts.*1 -> files (wfs w') !! q = files (wfs w) !! q).
Proof.
  intros Hall Hnd. destruct hosts as [|[n ls] hosts].
  { exists w. split_and!; [done|done|by intros h ?%elem_of_nil|done]. }
  apply Forall_cons in Hall as [Hg Hall]. pose proof Hg as (Hv & Hb & _). cbn [fst snd] in *.
  destruct (importLines_hosts p hosts n ls w Hg Hall Hnd) as (w' & E & S & R & O).
  exists w'. split_and!; [|done..]. unfold cmdImport.
  rewrite bind_cons, hostText_lines, readStrings_unlines.
  2:{ apply Forall_cons. split.
      - intros Hin. cbn [fst] in Hin. apply elem_of_app in Hin as [Hin|Hin]; [by vm_compute in Hin; set_solver|].
        revert Hin. apply config.plain_no_nl, init_lemmas.name_plain, Hv.
      - eapply Forall_impl; [exact Hb|]. by intros l [? _]. }
  rewrite fmap_cons. cbn [fst snd app importLines].
  rewrite bool_decide_eq_false_2 by discriminate. rewrite nameLine_name by done.
  rewrite bool_decide_eq_true_2 by done. rewrite importLines_body by done. exact E.
Qed.

(** C33.  export prints the local host file under a name line, and importing the
    concatenation of any number of exports (of nodes with different valid
    names, whose host files hold whole lines none of which is itself a name
    line) writes each host file exactly as it was exported, changes no other
    file and prints nothing. *)
Theorem export_import_roundtrip p hosts w :
  Forall (goodHost p (wfs w)) hosts -> NoDup hosts.*1 ->
  (exists w', cmdImport p (hosts ≫= hostText) w = (w', Ok ()) /\ stdout w' = stdout w /\
    (forall h, h ∈ hosts -> os.ReadFile (wfs w') (HostFile p h.1) = Ok (unlines h.2)) /\
    (forall q, q ∉ HostFile p <$> hosts.*1 -> files (wfs w') !! q = files (wfs w) !! q)) /\
  (forall p0 w0 es n ls, config.LoadDirectory (wfs w0) (ConfFile p0) = Ok es ->
     config.GetFirst es !"Name" = Some n -> os.ReadFile (wfs w0) (HostFile p0 n) = Ok (unlines ls) ->
     cmdExport p0 w0 = (MkWorld (wfs w0) (stdout w0 ++ [Text (hostText (n, ls))]), Ok ())).
Proof.
  intros Hall Hnd. split; [by apply cmdImport_hosts|].
  intros p0 w0 es n ls Hes Hn Hr. unfold cmdExport.
  erewrite cli_bind_ok by by apply ask_ok. rewrite Hn. erewrite cli_bind_ok by reflexivity.
  erewrite cli_bind_ok by by apply ask_ok. done.
Qed.

(** An imported name is not checked: this one names the WireGuard private key,
    whatever the layout. *)
Lemma import_overwrites_key p w f : files (wfs w) !! WGPrivate p = Some f -> dirFree (wfs w) (HostsDir p) ->
  exists w', cmdImport p (unlines [!"Name = ../wg.priv"; !"x"]) w = (w', Ok ()) /\
    os.ReadFile (wfs w') (WGPrivate p) = Ok (unlines [!"x"]).
Proof.
  intros Hf Hfree. assert (HostFile p !"../wg.priv" = WGPrivate p) as Hp.
  { unfold HostFile, HostsDir. change !"../wg.priv" with (!"../" ++ !"wg.priv").
    rewrite Join_dotdot; [done|apply join.plain_hosts|join.plain_lit]. }
  assert (nameLine (withNl !"Name = ../wg.priv") = Some !"../wg.priv") as Hn.
  { unfold nameLine. change (TrimSpace (withNl !"Name = ../wg.priv")) with !"Name = ../wg.priv".
    rewrite bool_decide_eq_false_2 by discriminate.
    change (HasPrefix !"Name = ../wg.priv" !"#") with false. cbn [orb].
    change (cutByte config.eqSign !"Name = ../wg.priv") with (Some (!"Name ", !" ../wg.priv")).
    cbv iota beta. change (TrimSpace !"Name ") with !"Name". by rewrite EqualFold_refl. }
  unfold cmdImport. rewrite <- (app_nil_r (unlines _)), readStrings_unlines
    by (apply (bool_decide_unpack _); vm_compute; exact I).
  rewrite fmap_cons. cbn [app importLines]. rewrite bool_decide_eq_false_2 by discriminate. rewrite Hn.
  rewrite bool_decide_eq_true_2 by done.
  rewrite importLines_body by (apply Forall_singleton; split; [apply (bool_decide_unpack _); vm_compute; exact I|reflexivity]).
  change (readStrings []) with [@nil byte]. cbn [importLines]. rewrite bool_decide_eq_true_2 by done.
  rewrite bool_decide_eq_false_2 by discriminate. unfold writeHost.
  erewrite cli_bind_ok; [|unfold mkdirAll, change; by rewrite MkdirAll_free].
  rewrite Hp. eexists. split; [by erewrite writeFile_existing|].
  unfold os.ReadFile. cbn [wfs files]. by rewrite lookup_insert_eq.
Qed.
End import_export.

(** ** A tree to run commands on *)
Module demo.
Import toy.

Definition p : Paths := MkPaths !"/etc/gsnet" !"vpn".
Definition w : world :=
  MkWorld (MkFS {[ !"/etc/gsnet/vpn/gsnet.conf" := MkFile (unlines [!"# local"; !"name alice"; !"Port = 1"]) 420;
                   !"/etc/gsnet/vpn/hosts/alice" := MkFile (unlines [!"Subnet = 10.0.0.0/24"]) 420;
                   !"/etc/gsnet/vpn/wg.priv" := MkFile !"k" 384 ]}
             {[ !"/etc/gsnet/vpn/hosts"; !"/etc/gsnet/vpn"; !"/etc/gsnet"; !"/etc"; !"/" ]}) [].
Definition edits : list edit := [Set_ !"port" !"655"; Add !"ConnectTo" !"bob"; Del !"name" []].
Definition hosts : list (gostring * list gostring) := [(!"bob", [!"Address = 192.0.2.7"]); (!"carol", [])].
End demo.
Import demo toy.

Lemma config_edits_refine_witness : exists w', runEdits p edits w = (w', Ok ()) /\
  config.ParseFile (wfs w') (ConfFile p) = Ok [config.MkEntry !"Port" !"655"; config.MkEntry !"ConnectTo" !"bob"].
Proof.
  destruct (config_edits_refine p edits w) as [Hrun _].
  assert (config.ParseFile (wfs w) (ConfFile p) = Ok [config.MkEntry !"Name" !"alice"; config.MkEntry !"Port" !"1"]) as E
    by (vm_compute; reflexivity).
  rewrite E in Hrun. destruct Hrun as (w' & E1 & E2 & _).
  - apply (bool_decide_unpack _). vm_compute. exact I.
  - assert (forall k v : gostring, bool_decide (k <> [] /\ trimmed k /\ (config.eqSign ∉ k) /\ (nl ∉ k) /\
      head k <> Some (to_byte 35) /\ v <> [] /\ trimmed v /\ (nl ∉ v)) = true -> lineEntry k v) as Hline
      by (intros k v (? & ? & ? & ? & ? & ? & ? & ?)%bool_decide_eq_true; by split).
    repeat apply List.Forall_cons; [..|apply List.Forall_nil]; cbn [wfEdit]; try exact I;
      (split; [apply Hline; vm_compute; reflexivity|apply (bool_decide_unpack _); vm_compute; exact I]).
  - exists w'. split; [exact E1|]. rewrite E2. vm_compute. reflexivity.
Defined.

Lemma export_import_roundtrip_witness : exists w', cmdImport p (hosts ≫= hostText) w = (w', Ok ()) /\
  os.ReadFile (wfs w') (HostFile p !"bob") = Ok (!"Address = 192.0.2.7" ++ [nl]).
Proof.
  destruct (export_import_roundtrip p hosts w) as [(w' & E & _ & R & _) _].
  - repeat apply List.Forall_cons; [..|apply List.Forall_nil];
      (split; [vm_compute; reflexivity|split; [|split]]; apply (bool_decide_unpack _); vm_compute; exact I).
  - apply (bool_decide_unpack _). vm_compute. exact I.
  - exists w'. split; [exact E|]. apply (R (!"bob", [!"Address = 192.0.2.7"])). left.
Defined.

Example get_after_set :
  stdout (runEdits p edits w).1 = [] /\
  stdout ((_ ← runEdits p edits; cmdGet p [!"PORT"]) w).1 = [Text (!"655" ++ [nl])].
Proof. vm_compute. done. Qed.

Example import_prefix_lines :
  os.ReadFile (wfs (cmdImport p (unlines [!"Port = 2"; !"Name = dave"; !"Weight = 3"]) w).1) (HostFile p !"dave")
  = Ok (unlines [!"Port = 2"; !"Weight = 3"]).
Proof. vm_compute. reflexivity. Qed.

End cli.
