(* ===== verification/CliJoin.v ===== *)
(** * Joining a network: the join command (cmd/gsnet/main.go) and the client
      calls it makes (internal/transport/client.go)

    The network is a function that answers one connection: it changes the
    state of the other end and returns the bytes that come back, or nothing if
    the connection cannot be made.  Together with [Cli] and [DaemonJoin] this
    gives the whole path from "gsnet invite" on one node to a tree on another
    node that its daemon can load. *)

From Stdlib Require Import Ascii String ZArith Lia.
From stdpp Require Import base tactics list gmap strings.
From S2P Require Import Prelude.
From S2P Require Import GoStrings.
From S2P Require Import GoFmt.
From S2P Require Import NodeName.
From S2P Require Import FS.
From S2P Require Import FilePath.
From S2P Require Import Graph.
From S2P Require Import NetIP.
From S2P Require Import Config.
From S2P Require Import Base64.
From S2P Require Import Keys.
From S2P Require Import Message.
From S2P Require Import Gossip.
From S2P Require Import Invite.
From S2P Require Import Transport.
From S2P Require Import Dataplane.
From S2P Require Import Daemon.
From S2P Require Import DaemonJoin.
From S2P Require Import DaemonInit.
From S2P Require Import Cli.

Local Open Scope Z_scope.

Module cli_join.
Import paths pathlib invite_crypto.

Inductive netError := netEphemeral | netDial | netClient (e : transport.clientError).

Inductive error :=
| jUsage | jURL (e : invite.urlError) | jGenerate (e : keys.error) | jGet (e : netError) | jParse (e : invite.fileError) | jNoInviter | jNoKey
| jKey (e : keys.error) | jHash (url file : gostring) | jJoin (e : netError) | jLocal (e : cli.error).

Section client.
Context `{Unicode, Ed25519, SHA256, SessionCrypto}.
Context {S : Type}.
(** One connection: address, what is written to it, state of the other end. *)
Context (net : gostring -> bytes -> S -> S * option bytes).

Definition roundtrip (addr cmd : gostring) (eph : Ephemeral) (cookie keyHash : gostring) (st : S) : S * result netError bytes :=
  let '(st, reply) := net addr cmd st in
  (st, match reply with
       | None => Err netDial
       | Some r => err_map netClient (transport.readReply r eph cookie keyHash)
       end).

Definition InviteGet (rnd : bytes) (addr cookie keyHash : gostring) (st : S) : S * result netError bytes :=
  match NewEphemeral rnd with
  | None => (st, Err netEphemeral)
  | Some eph => roundtrip addr (transport.getCommand eph cookie) eph cookie keyHash st
  end.

Definition InviteJoin (rnd : bytes) (addr cookie inviteeName : gostring) (hostConfig : bytes) (keyHash : gostring) (st : S)
  : S * result netError bytes :=
  match NewEphemeral rnd with
  | None => (st, Err netEphemeral)
  | Some eph => roundtrip addr (transport.joinCommand eph cookie inviteeName hostConfig) eph cookie keyHash st
  end.

(** ** The command, over the local tree and the network *)

Definition J (A : Type) : Type := cli.world * S -> (cli.world * S) * result error A.
#[global] Instance J_ret : MRet J := fun A a w => (w, Ok a).
#[global] Instance J_bind : MBind J := fun A B f m w =>
  match m w with (w', Ok a) => f a w' | (w', Err e) => (w', Err e) end.

Definition liftR {A} (r : result error A) : J A := fun w => (w, r).
Definition local {A} (m : cli.C A) : J A := fun '(w, st) => let '(w, r) := m w in ((w, st), err_map jLocal r).
Definition remote {A} (f : netError -> error) (m : S -> S * result netError A) : J A := fun '(w, st) =>
  let '(st, r) := m st in ((w, st), err_map f r).

Context `{X509, WGTypes}.

Definition inviterEntries (inviter : invite.Block) : list config.Entry :=
  (if bool_decide (invite.Address inviter = []) then [] else [config.MkEntry !"Address" (invite.Address inviter)])
  ++ invite.Other inviter.

Definition joinConf (invitee : invite.Block) : list config.Entry :=
  config.MkEntry !"Name" (invite.Name invitee) :: (config.MkEntry !"ConnectTo" <$> invite.ConnectTo invitee).

(** The checks on the fetched file, up to the inviter's key. *)
Definition checkInviter (u : invite.URL) (file : invite.File) : result error invite.Block :=
  match invite.Hosts file with
  | [] => Err jNoInviter
  | inviter :: _ =>
      let pubStr := default [] (TrimSpace <$> config.GetFirst (invite.Other inviter) !"Ed25519PublicKey") in
      if bool_decide (pubStr = []) then Err jNoKey
      else
        inviterPub ← err_map jKey (keys.ParseEd25519PublicBase64 pubStr);
        if negb (bool_decide (keys.Hash inviterPub = invite.KeyHash u))
        then Err (jHash (invite.KeyHash u) (keys.Hash inviterPub))
        else Ok inviter
  end.

(** Step 3: the local configuration tree. *)
Definition writeTree (fp : Paths) (file : invite.File) (inviter : invite.Block) (edPriv : keys.Ed25519Private)
    (wgPriv : keys.WGPrivate) (myHost : bytes) : cli.C unit :=
  let name := invite.Name (invite.Invitee file) in
  _ ← cli.mkdirAll (HostsDir fp);
  _ ← cli.mkdirAll (InvitationsDir fp);
  let edPEM := default [] (ok (keys.MarshalPrivatePEM edPriv)) in
  _ ← cli.writeFile (Ed25519Private fp) edPEM 384;
  _ ← cli.writeFile (WGPrivate fp) (keys.WGPrivateString wgPriv ++ [nl]) 384;
  _ ← cli.writeFile (ConfFile fp) (config.Render (joinConf (invite.Invitee file))) 420;
  _ ← cli.writeFile (HostFile fp name) myHost 420;
  _ ← cli.writeFile (HostFile fp (invite.Name inviter)) (config.Render (inviterEntries inviter)) 420;
  cli.print (cli.JoinedLine (Netname fp) name (invite.Name inviter)).

(** [genEd] and [genWG] are what the key generators return, [rnd1] and [rnd2]
    the randomness of the two ephemeral keys. *)
Definition cmdJoin (p : Paths) (args : list gostring) (genEd genWG : option bytes) (rnd1 rnd2 : bytes) : J unit :=
  match args with
  | [url] =>
      u ← liftR (err_map jURL (invite.ParseURL url));
      let addr := invite.Host u ++ !":" ++ Itoa (invite.Port u) in
      edPriv ← liftR (err_map jGenerate (keys.GenerateEd25519 genEd));
      wgPriv ← liftR (err_map jGenerate (keys.GenerateWireGuard genWG));
      body ← remote jGet (InviteGet rnd1 addr (invite.Cookie u) (invite.KeyHash u));
      file ← liftR (err_map jParse (invite.ParseFile body));
      inviter ← liftR (checkInviter u file);
      let name := invite.Name (invite.Invitee file) in
      let myHost := config.Render
        [config.MkEntry !"Ed25519PublicKey" (keys.String (keys.Public edPriv));
         config.MkEntry !"WGPublicKey" (keys.WGPublicString (keys.WGPublicOf wgPriv))] in
      _ ← remote jJoin (InviteJoin rnd2 addr (invite.Cookie u) name myHost (invite.KeyHash u));
      let netname := if bool_decide (invite.Netname file = []) then Netname p else invite.Netname file in
      local (writeTree (MkPaths (ConfRoot p) netname) file inviter edPriv wgPriv myHost)
  | _ => liftR (Err jUsage)
  end.
End client.
Arguments J S A : clear implicits.

(** ** The inviter's end of the connection *)

Section serve.
Context `{Unicode, Ed25519, SHA256, SessionCrypto, MapOrder}.
Context (bcast : nat -> message.Envelope -> option nat) (k : nat) (now : Z).
Context (joinErrText : join.error -> gostring) (errText : transport.failure -> gostring) (b64Err : gostring -> gostring).
(** The randomness the server uses for a connection. *)
Context (rndOf : bytes -> bytes).

Definition getCallback (p : Paths) (cookie : gostring) (st : FS * gossip.Plane) : result gostring bytes :=
  err_map joinErrText (join.handleInviteGet st.1 p cookie).

Definition joinCallback (p : Paths) (cookie name : gostring) (hostConfig : bytes) (st : FS * gossip.Plane)
  : (FS * gossip.Plane) * result gostring bytes :=
  let '(fs, pl, _, r) := join.handleInviteJoin bcast k now st.1 p st.2 cookie name hostConfig in
  ((fs, pl), err_map joinErrText r).

(** A daemon that listens on [self]: the transport's dispatcher with the
    daemon's two callbacks. *)
Definition daemonNet (self : gostring) (p : Paths) (priv : keys.Ed25519Private)
    (addr : gostring) (cmd : bytes) (st : FS * gossip.Plane) : (FS * gossip.Plane) * option bytes :=
  if negb (bool_decide (addr = self)) then (st, None)
  else
    let '(st, r) := transport.handleInbound errText b64Err priv (Some (getCallback p)) (Some (joinCallback p))
                      (rndOf cmd) cmd st in
    (st, match r with Some (transport.ServedReply s) => Some s | _ => None end).
End serve.

(** ** Lemmas: names, cookies, texts *)

Lemma cookie_chars buf : Forall (fun c => plainByte c /\ c <> slash /\ c <> to_byte 46) (invite.NewCookie buf).
Proof.
  assert (forall v, 0 <= v < 64 -> plainByte (base64.encChar base64.RawURLEncoding v) /\
    base64.encChar base64.RawURLEncoding v <> slash /\ base64.encChar base64.RawURLEncoding v <> to_byte 46) as Hc.
  { intros v Hv. assert (Forall (fun n => plainByte (base64.encChar base64.RawURLEncoding (Z.of_nat n)) /\
      base64.encChar base64.RawURLEncoding (Z.of_nat n) <> slash /\
      base64.encChar base64.RawURLEncoding (Z.of_nat n) <> to_byte 46) (seq 0 64)) as Hf
      by (apply (bool_decide_unpack _); vm_compute; exact I).
    rewrite Forall_forall in Hf. specialize (Hf (Z.to_nat v)). rewrite Z2Nat.id in Hf by lia.
    apply Hf, elem_of_seq. lia. }
  unfold invite.NewCookie. induction buf as [|a|a b|a b c t IH] using base64_lemmas.triples_ind;
    cbn [base64.EncodeToString app base64.pad base64.padded base64.RawURLEncoding];
    repeat (apply List.Forall_nil || exact IH || (apply List.Forall_cons; [apply Hc; base64_lemmas.sextets;
      Z.to_euclidean_division_equations; lia|])).
Qed.

Lemma cookie_plain buf : length buf = invite.cookieBytes ->
  invite.NewCookie buf <> [] /\ plain (invite.NewCookie buf) /\ Forall plainByte (invite.NewCookie buf).
Proof.
  intros Hb. pose proof (cookie_chars buf) as Hf.
  assert (invite.NewCookie buf <> []) as Hne
    by (intros E%base64_lemmas.EncodeToString_nil; by rewrite E in Hb).
  split_and!; [done| |eapply Forall_impl; [exact Hf|]; by intros c [? _]].
  rewrite Forall_forall in Hf. split_and!; [done| | |].
  - intros E. destruct (Hf (to_byte 46)) as (_ & _ & Hd); [rewrite E; left|done].
  - intros E. destruct (Hf (to_byte 46)) as (_ & _ & Hd); [rewrite E; left|done].
  - intros Hin. by destruct (Hf _ Hin) as (_ & Hs & _).
Qed.

Section lemmas.
Context `{Unicode, Ed25519, SHA256, SessionCrypto, X509, WGTypes}.

(** A well-formed entry with a key of the table and a printable value. *)
Lemma entry_plain key v : config.canonical !! (lowerByte <$> key) = Some key -> Forall plainByte v -> v <> [] ->
  Z.of_nat (length v) <= 65000 -> (length key <= 100)%nat ->
  config.wfEntry (config.MkEntry key v) /\ config.fits (config.MkEntry key v).
Proof.
  intros Hk Hv Hne Hl Hlk. split; [by apply init_lemmas.wfEntry_plain|].
  unfold config.fits, config.renderLine, maxLine. cbn [config.Key config.Value]. rewrite !length_app. simpl. lia.
Qed.

(** A text that a configuration line can carry. *)
Definition shortPlain (v : gostring) : Prop := Forall plainByte v /\ v <> [] /\ Z.of_nat (length v) <= 65000.

Lemma shortPlain_name n : nodename.Validate n = Ok () -> Z.of_nat (length n) <= 65000 -> shortPlain n.
Proof.
  intros Hv Hl. split_and!; [by apply init_lemmas.name_plain|by apply nodename.Validate_ok in Hv as [? _]|done].
Qed.

(** The entries of a host file that an invitation can carry. *)
Record hostEntries (ed : keys.Ed25519Private) (hes : list config.Entry) : Prop := {
  he_wf : Forall config.wfEntry hes;
  he_fits : Forall config.fits hes;
  he_other : Forall (fun e => invite.special (config.Key e) = false) hes;
  he_key : config.GetFirst hes !"Ed25519PublicKey" = Some (keys.String (keys.Public ed))
}.

Lemma invitation_wf p invitee self addr hb hes ed :
  (Netname p = [] \/ shortPlain (Netname p)) -> shortPlain invitee -> shortPlain self -> shortPlain addr ->
  config.Parse hb = Ok hes -> hostEntries ed hes ->
  let f := cli.invitationFor p invitee self addr hb in
  invite.wfFile f /\ invite.Invitee f = invite.MkBlock invitee [] [self] [] [] [] /\
  invite.Hosts f = [invite.MkBlock self addr [] [] [] hes] /\ invite.Netname f = Netname p.
Proof.
  intros Hn (Hi & Hi1 & Hi2) (Hs & Hs1 & Hs2) (Ha & Ha1 & Ha2) Hp [Hw Hf Ho Hk] f.
  assert (invite.Hosts f = [invite.MkBlock self addr [] [] [] hes]) as Hh.
  { unfold f, cli.invitationFor. cbn [invite.Hosts]. destruct hb as [|b hb]; [|by rewrite Hp].
    injection Hp as <-. discriminate Hk. }
  assert (forall v, Forall plainByte v -> v <> [] -> Z.of_nat (length v) <= 65000 ->
    forall key, key ∈ [!"Name"; !"Netname"; !"ConnectTo"; !"Address"] ->
    config.wfEntry (config.MkEntry key v) /\ config.fits (config.MkEntry key v)) as Hent.
  { intros v Hv Hv1 Hv2 key Hkey. apply entry_plain; [|done..|].
    - repeat (apply elem_of_cons in Hkey as [->|Hkey]; [vm_compute; reflexivity|]). by apply elem_of_nil in Hkey.
    - repeat (apply elem_of_cons in Hkey as [->|Hkey]; [simpl; lia|]). by apply elem_of_nil in Hkey. }
  split_and!; [|done|exact Hh|done]. split.
  - assert (Forall (fun e => config.wfEntry e /\ config.fits e) (invite.blockEntries (invite.Netname f) (invite.Invitee f))) as Hall.
    { unfold f, invite.blockEntries. cbn [cli.invitationFor invite.Netname invite.Invitee invite.Name invite.ConnectTo
        invite.Address invite.Ifconfig invite.Route invite.Other].
      rewrite (bool_decide_eq_true_2 (@nil byte = [])) by done. cbn [app fmap list_fmap].
      apply List.Forall_cons; [by apply Hent; [..|set_solver]|].
      case_bool_decide as Hnn; cbn [app].
      - apply List.Forall_cons; [by apply Hent; [..|set_solver]|apply List.Forall_nil].
      - destruct Hn as [Hn|(Hn1 & Hn2 & Hn3)]; [done|].
        apply List.Forall_cons; [by apply Hent; [..|set_solver]|].
        apply List.Forall_cons; [by apply Hent; [..|set_solver]|apply List.Forall_nil]. }
    split; [eapply Forall_impl; [exact Hall|]; by intros e [? ?]..|apply List.Forall_nil].
  - rewrite Hh. apply List.Forall_cons; [|apply List.Forall_nil].
    assert (Forall (fun e => config.wfEntry e /\ config.fits e) (invite.blockEntries [] (invite.MkBlock self addr [] [] [] hes))) as Hall.
    { unfold invite.blockEntries. cbn [invite.Name invite.ConnectTo invite.Address invite.Ifconfig invite.Route invite.Other].
      rewrite (bool_decide_eq_true_2 (@nil byte = [])) by done. rewrite bool_decide_eq_false_2 by done. cbn [app fmap list_fmap].
      apply List.Forall_cons; [by apply Hent; [..|set_solver]|].
      apply List.Forall_cons; [by apply Hent; [..|set_solver]|].
      rewrite Forall_forall in Hw, Hf. apply Forall_forall. auto. }
    split; [eapply Forall_impl; [exact Hall|]; by intros e [? ?]..|exact Ho].
Qed.

(** ** The inviter *)

(** A tree from which invitations can be made: a valid name, an address, a
    usable port, a private key whose public half is in the node's host file. *)
Record inviter (p : Paths) (fs : FS) (self addr : gostring) (port : Z) (ed : keys.Ed25519Private)
    (hes : list config.Entry) : Prop := {
  iv_conf : exists es, config.LoadDirectory fs (ConfFile p) = Ok es /\ config.GetFirst es !"Name" = Some self /\
    config.GetFirst es !"Address" = Some addr /\
    match config.GetFirst es !"Port" with Some v => default 51820 (fmt.Sscanf1 v) | None => 51820 end = port;
  iv_key : exists pem, os.ReadFile fs (Ed25519Private p) = Ok pem /\ keys.ParseEd25519PrivatePEM pem = Ok ed;
  iv_genuine : ed_genuine (keys.privRaw ed);
  iv_host : exists hb, os.ReadFile fs (HostFile p self) = Ok hb /\ config.Parse hb = Ok hes;
  iv_entries : hostEntries ed hes;
  iv_net : Netname p = [] \/ shortPlain (Netname p);
  iv_self : nodename.Validate self = Ok () /\ Z.of_nat (length self) <= 65000;
  iv_addr : shortPlain addr /\ slash ∉ addr;
  iv_port : 0 < port <= 65535;
  iv_dirs : dirFree fs (InvitationsDir p) /\ dirFree fs (HostsDir p)
}.

(** What [cmdInvite] leaves behind: the file under the cookie, and the URL on
    the standard output. *)
Lemma cmdInvite_run p w self addr port ed hes invitee buf :
  inviter p (cli.wfs w) self addr port ed hes -> nodename.Validate invitee = Ok () -> Z.of_nat (length invitee) <= 65000 ->
  length buf = invite.cookieBytes -> join.invitationFile p (invite.NewCookie buf) ∉ dirs (cli.wfs w) ->
  exists w' m file hb, cli.cmdInvite p [invitee] buf w = (w', Ok ()) /\
    cli.stdout w' = cli.stdout w ++ [cli.Text (invite.urlString (invite.BuildURL addr port (keys.Public ed) (invite.NewCookie buf)) ++ [nl])] /\
    files (cli.wfs w') = <[join.invitationFile p (invite.NewCookie buf) := MkFile (invite.Render file) m]> (files (cli.wfs w)) /\
    dirs (cli.wfs w') = list_to_set (os.ancestors (length (InvitationsDir p)) (InvitationsDir p)) ∪ dirs (cli.wfs w) /\
    file = cli.invitationFor p invitee self addr hb /\ config.Parse hb = Ok hes.
Proof.
  intros [(es & Hes & Hn & Ha & Hp) (pem & Hpem & Hed) _ (hb & Hhb & Hparse) _ _ _ _ _ [Hfree _]] Hv Hl Hb Hnd.
  destruct (cookie_plain buf Hb) as (_ & Hc & _).
  set (file := cli.invitationFor p invitee self addr hb).
  destruct (mkdir_write (cli.wfs w) (InvitationsDir p) (invite.NewCookie buf) (invite.Render file) 384
    ltac:(by apply cleanPath_Join) Hc Hfree Hnd) as (fs1 & fs2 & m & E1 & E2 & F1 & F2 & D1 & D2).
  fold (join.invitationFile p (invite.NewCookie buf)) in E2, F2.
  exists (cli.MkWorld fs2 (cli.stdout w ++ [cli.Text (invite.urlString (invite.BuildURL addr port (keys.Public ed) (invite.NewCookie buf)) ++ [nl])])),
    m, file, hb. cbn [cli.wfs cli.stdout].
  split_and!; [|done|done|by rewrite D2|done|done].
  unfold cli.cmdInvite. rewrite Hv. erewrite cli.cli_bind_ok by reflexivity.
  erewrite cli.cli_bind_ok by by apply cli.ask_ok. rewrite Hn. erewrite cli.cli_bind_ok by reflexivity.
  rewrite Ha. cbn [from_option id]. rewrite Hp.
  erewrite cli.cli_bind_ok by by apply cli.ask_ok. rewrite Hed. erewrite cli.cli_bind_ok by reflexivity.
  erewrite cli.cli_bind_ok; [|unfold cli.mkdirAll, cli.change; by rewrite E1].
  erewrite cli.cli_bind_ok; [|cbn [cli.wfs]; unfold os.ReadFile in Hhb |- *; rewrite F1;
    destruct (files (cli.wfs w) !! HostFile p self); [injection Hhb as ->; reflexivity|by case_decide]].
  fold file. erewrite cli.cli_bind_ok; [|unfold cli.writeFile, cli.change; cbn [cli.wfs]; by rewrite E2]. done.
Qed.

(** ** The handlers behind the exchange *)

Lemma join_succeeds `{MapOrder} bcast k now fs p pl cookie name hc file f :
  plain cookie -> plain name -> os.ReadFile fs (join.invitationFile p cookie) = Ok file ->
  invite.ParseFile file = Ok f -> invite.Name (invite.Invitee f) = name ->
  dirFree fs (HostsDir p) -> HostFile p name ∉ dirs fs ->
  exists fs' pl' evs, join.handleInviteJoin bcast k now fs p pl cookie name hc = (fs', pl', evs, Ok file) /\
    os.ReadFile fs' (HostFile p name) = Ok hc /\ files fs' !! join.invitationFile p cookie = None /\
    (forall q, q <> HostFile p name -> q <> join.invitationFile p cookie -> files fs' !! q = files fs !! q).
Proof.
  intros Hc Hn Hr Hp Hname Hfree Hnd.
  destruct (mkdir_write fs (HostsDir p) name hc 420 ltac:(by apply cleanPath_Join) Hn Hfree Hnd)
    as (fs1 & fs2 & m & E1 & E2 & _). fold (HostFile p name) in E2.
  assert (exists fs' pl' evs, join.handleInviteJoin bcast k now fs p pl cookie name hc = (fs', pl', evs, Ok file))
    as (fs' & pl' & evs & E).
  { unfold join.handleInviteJoin, join.joinCheck, join.joinCommit. rewrite Hr, Hp, Hname.
    rewrite bool_decide_eq_true_2 by done. cbn [negb]. rewrite E1, E2.
    destruct (match join.joinHello name hc with Some h => _ | None => _ end) as [pl' evs]. eauto. }
  exists fs', pl', evs. split; [done|]. unfold join.handleInviteJoin in E.
  destruct (join.joinCheck fs p cookie name) as [file'|] eqn:Ej; [|done].
  apply join.joinCommit_Ok in E as (_ & ? & ? & ?); [done..|by rewrite Hr].
Qed.

(** ** The invitee's tree *)

(** Nothing is in the way of a new tree. *)
Record freshTree (fp : Paths) (fs : FS) (self peer : gostring) : Prop := {
  ft_hosts : dirFree fs (HostsDir fp);
  ft_inv : dirFree fs (InvitationsDir fp);
  ft_dirs : Forall (fun q => q ∉ dirs fs)
    [Ed25519Private fp; WGPrivate fp; ConfFile fp; HostFile fp self; HostFile fp peer; init_lemmas.confD fp];
  ft_confD : files fs !! init_lemmas.confD fp = None
}.

Lemma writeFile_total path data perm w : path ∉ dirs (cli.wfs w) -> filepath.Dir path ∈ dirs (cli.wfs w) ->
  exists m, cli.writeFile path data perm w
    = (cli.MkWorld (MkFS (<[path := MkFile data m]> (files (cli.wfs w))) (dirs (cli.wfs w))) (cli.stdout w), Ok ()).
Proof.
  intros Hn Hd. unfold cli.writeFile, cli.change, os.WriteFile.
  destruct (files (cli.wfs w) !! path) as [f|]; [by exists (mode f)|]. exists perm.
  by rewrite decide_False, decide_True.
Qed.

(** The directories a new tree has. *)
Definition treeDirs (fp : Paths) (fs : FS) : gset gostring :=
  list_to_set (os.ancestors (length (InvitationsDir fp)) (InvitationsDir fp)) ∪
  (list_to_set (os.ancestors (length (HostsDir fp)) (HostsDir fp)) ∪ dirs fs).

Ltac stacks := rewrite ?init_lemmas.stack_ed, ?init_lemmas.stack_wg, ?init_lemmas.stack_conf, ?init_lemmas.stack_confD,
  ?init_lemmas.stack_hosts, ?init_lemmas.stack_inv, ?init_lemmas.stack_host by done.

(** A path one or two levels below the tree's root is not among the
    directories that creating the tree adds. *)
Lemma not_treeDir fp fs q : q ∉ dirs fs ->
  (exists c, stackOf q = c :: stackOf (NetDir fp) /\ c <> !"hosts" /\ c <> !"invitations") \/
  (exists c, stackOf q = c :: !"hosts" :: stackOf (NetDir fp)) -> q ∉ treeDirs fp fs.
Proof.
  intros Hn Hs. unfold treeDirs. rewrite !elem_of_union, !elem_of_list_to_set.
  assert (forall sub, sub = !"hosts" \/ sub = !"invitations" -> forall n, q ∉ os.ancestors n (filepath.Join [NetDir fp; sub])) as Ha.
  { intros sub Hsub n. assert (stackOf (filepath.Join [NetDir fp; sub]) = sub :: stackOf (NetDir fp)) as E
      by (destruct Hsub as [-> | ->]; [apply init_lemmas.stack_hosts|apply init_lemmas.stack_inv]).
    assert (cleanPath (filepath.Join [NetDir fp; sub])) as Hcl
      by (apply cleanPath_Join; by destruct Hsub as [-> | ->]).
    destruct Hs as [(c & Ec & Hh & Hi)|(c & Ec)].
    - apply sibling_not_ancestor; [done|by rewrite E, Ec|]. rewrite E, Ec. intros [= <-]. tauto.
    - apply deeper_not_ancestor; [done|]. rewrite E, Ec. simpl. lia. }
  unfold InvitationsDir, HostsDir. intros [Hin|[Hin|Hin]]; [..|done]; revert Hin; apply Ha; auto.
Qed.

Lemma freshTree_nodir fp fs self peer q : freshTree fp fs self peer -> plain self -> plain peer ->
  q ∈ [Ed25519Private fp; WGPrivate fp; ConfFile fp; HostFile fp self; HostFile fp peer; init_lemmas.confD fp] ->
  q ∉ treeDirs fp fs.
Proof.
  intros [_ _ Hd _] Hs Hp Hq. apply not_treeDir; [by eapply Forall_forall in Hd|].
  repeat (apply elem_of_cons in Hq as [->|Hq];
    [first [left; eexists; stacks; split_and!; [reflexivity|discriminate..] | right; eexists; stacks; reflexivity]|]).
  by apply elem_of_nil in Hq.
Qed.

Lemma treeDirs_root fp fs c : plain c -> filepath.Dir (filepath.Join [NetDir fp; c]) ∈ treeDirs fp fs.
Proof.
  intros Hc. unfold treeDirs. rewrite (Dir_sibling _ c !"hosts") by (done || apply join.plain_hosts).
  apply elem_of_union_r, elem_of_union_l, elem_of_list_to_set, Dir_ancestor.
  intros E. pose proof (init_lemmas.stack_hosts fp) as Hst. by rewrite E in Hst.
Qed.

Lemma treeDirs_hosts fp fs n : plain n -> filepath.Dir (HostFile fp n) ∈ treeDirs fp fs.
Proof.
  intros Hn. unfold HostFile, treeDirs. rewrite Dir_Join by (done || by apply cleanPath_Join).
  apply elem_of_union_r, elem_of_union_l, elem_of_list_to_set, ancestors_self.
Qed.

(** The tree that the third step of [cmdJoin] writes. *)
Lemma writeTree_run fp w f blk ed wg pem my : let self := invite.Name (invite.Invitee f) in let peer := invite.Name blk in
  freshTree fp (cli.wfs w) self peer -> plain self -> plain peer -> self <> peer -> keys.MarshalPrivatePEM ed = Ok pem ->
  exists w', writeTree fp f blk ed wg my w = (w', Ok ()) /\
    cli.stdout w' = cli.stdout w ++ [cli.JoinedLine (Netname fp) self peer] /\
    os.ReadFile (cli.wfs w') (Ed25519Private fp) = Ok pem /\
    os.ReadFile (cli.wfs w') (WGPrivate fp) = Ok (keys.WGPrivateString wg ++ [nl]) /\
    os.ReadFile (cli.wfs w') (ConfFile fp) = Ok (config.Render (joinConf (invite.Invitee f))) /\
    os.ReadFile (cli.wfs w') (HostFile fp self) = Ok my /\
    os.ReadFile (cli.wfs w') (HostFile fp peer) = Ok (config.Render (inviterEntries blk)) /\
    os.ReadDir (cli.wfs w') (init_lemmas.confD fp) = Err ENOENT.
Proof.
  intros self peer Hft Hs Hp Hne Hpem. pose proof (fun q => freshTree_nodir _ _ _ _ q Hft Hs Hp) as Hnd.
  destruct Hft as [Hh Hi _ Hcd].
  unfold writeTree. rewrite Hpem. cbn [ok from_option id].
  erewrite cli.cli_bind_ok; [|unfold cli.mkdirAll, cli.change; by rewrite (MkdirAll_free _ _ Hh)].
  erewrite cli.cli_bind_ok; [|unfold cli.mkdirAll, cli.change; cbn [cli.wfs cli.stdout]; rewrite (MkdirAll_free (MkFS _ _) _ Hi); reflexivity].
  cbn [files dirs]. fold (treeDirs fp (cli.wfs w)).
  assert (Forall plain [!"ed25519_key.priv"; !"wg.priv"; !"gsnet.conf"]) as Hpl
    by (repeat apply List.Forall_cons; [init_lemmas.plain_name..|apply List.Forall_nil]).
  apply Forall_cons in Hpl as [Hp1 Hpl]. apply Forall_cons in Hpl as [Hp2 Hpl]. apply Forall_cons in Hpl as [Hp3 _].
  edestruct (writeFile_total (Ed25519Private fp)) as [m1 E1]; [| |erewrite cli.cli_bind_ok by exact E1; clear E1];
    [apply Hnd; set_solver|by apply treeDirs_root|].
  edestruct (writeFile_total (WGPrivate fp)) as [m2 E1]; [| |erewrite cli.cli_bind_ok by exact E1; clear E1];
    [apply Hnd; set_solver|by apply treeDirs_root|].
  edestruct (writeFile_total (ConfFile fp)) as [m3 E1]; [| |erewrite cli.cli_bind_ok by exact E1; clear E1];
    [apply Hnd; set_solver|by apply treeDirs_root|].
  edestruct (writeFile_total (HostFile fp self)) as [m4 E1]; [| |erewrite cli.cli_bind_ok by exact E1; clear E1];
    [apply Hnd; set_solver|by apply treeDirs_hosts|].
  edestruct (writeFile_total (HostFile fp peer)) as [m5 E1]; [| |erewrite cli.cli_bind_ok by exact E1; clear E1];
    [apply Hnd; set_solver|by apply treeDirs_hosts|].
  cbn [cli.wfs cli.stdout files dirs].
  assert (HostFile fp peer <> HostFile fp self) as Hhf by (intros E%cli.HostFile_inj; [congruence|done..]).
  eexists. split; [reflexivity|]. cbn [cli.wfs cli.stdout]. unfold os.ReadFile, os.ReadDir. cbn [files dirs].
  split_and!; try done;
    try (repeat first [rewrite lookup_insert_eq; reflexivity | rewrite lookup_insert_ne by (done || init_lemmas.apart)]).
  rewrite decide_False by (apply Hnd; set_solver). by rewrite Hcd.
Qed.
End lemmas.

Section end_to_end.
Context `{Unicode, Ed25519, SHA256, SessionCrypto, MapOrder, X509, init_lemmas.WGText}.

(** The daemon loads what [writeTree] wrote. *)
Lemma joined_load fp fs name peer ed wg pem :
  shortPlain name -> shortPlain peer -> ed_genuine (keys.privRaw ed) -> length (keys.wgPrivRaw wg) = 32%nat ->
  keys.MarshalPrivatePEM ed = Ok pem ->
  os.ReadFile fs (Ed25519Private fp) = Ok pem ->
  os.ReadFile fs (WGPrivate fp) = Ok (keys.WGPrivateString wg ++ [nl]) ->
  os.ReadFile fs (ConfFile fp) = Ok (config.Render [config.MkEntry !"Name" name; config.MkEntry !"ConnectTo" peer]) ->
  os.ReadDir fs (init_lemmas.confD fp) = Err ENOENT ->
  exists l, daemon.load fs fp = Ok l /\ daemon.NodeName l = name /\ daemon.EdPriv l = ed /\ daemon.WGPriv l = wg /\
    daemon.WGListenPort l = 51820 /\ config.GetAll (daemon.Conf l) !"ConnectTo" = [peer] /\ daemon.Subnets l = [] /\
    daemon.InnerAddr l = netip.PrefixZero /\ daemon.UnderlayAddr l = netip.PrefixZero /\ daemon.LMode l = dataplane.ModeSwitch.
Proof.
  intros (Hn & Hn1 & Hn2) (Hp & Hp1 & Hp2) Hed Hwg Hpem He Hw Hc Hd.
  destruct (entry_plain !"Name" name) as [W1 F1]; [vm_compute; reflexivity|done..|simpl; lia|].
  destruct (entry_plain !"ConnectTo" peer) as [W2 F2]; [vm_compute; reflexivity|done..|simpl; lia|].
  assert (config.LoadDirectory fs (ConfFile fp) = Ok [config.MkEntry !"Name" name; config.MkEntry !"ConnectTo" peer]) as HL.
  { unfold config.LoadDirectory, config.ParseFile. rewrite Hc, config.Parse_Render
      by (repeat apply List.Forall_cons; done || apply List.Forall_nil).
    cbn [mbind result_bind]. fold (init_lemmas.confD fp). by rewrite Hd. }
  assert (config.GetAll [config.MkEntry !"Name" name; config.MkEntry !"ConnectTo" peer] !"ConnectTo" = [peer]) as HG
    by (cbn [config.GetAll config.Key config.Value]; by field_names).
  unfold daemon.load. rewrite HL. cbn [err_map mbind result_bind]. rewrite He, Hw.
  unfold daemon.parseMode, daemon.prefixEntry, daemon.intEntry, daemon.firstNonEmpty.
  cbn [config.GetFirst config.GetAll config.Key config.Value]. field_names. cbn [err_map mbind result_bind].
  rewrite (keys.ParsePrivatePEM_Marshal ed pem Hed Hpem). cbn [err_map mbind result_bind].
  rewrite init_lemmas.trim_wgfile by done. unfold keys.ParseWireGuardPrivate, keys.WGPrivateString.
  rewrite wg_parse_string by done. cbn. eexists. split; [done|]. cbn [daemon.NodeName daemon.EdPriv daemon.WGPriv daemon.WGListenPort].
  split_and!; [done|done|by destruct wg|done|exact HG|done..].
Qed.

(** Both ends of a session always have a key: X25519 succeeds on the public
    keys of honest parties. *)
Definition dhWorks : Prop := forall a b, length a = 32%nat -> length b = 32%nat ->
  exists ea eb, NewEphemeral a = Some ea /\ NewEphemeral b = Some eb /\ forall c, is_Some (DeriveKey ea (Pub eb) c).

Context (bcast : nat -> message.Envelope -> option nat) (k : nat) (now : Z).
Context (joinErrText : join.error -> gostring) (errText : transport.failure -> gostring) (b64Err : gostring -> gostring).
Context (rndOf : bytes -> bytes).

Lemma InviteGet_daemon self p priv rnd cookie keyHash st body :
  dhWorks -> (forall cmd, length (rndOf cmd) = 32%nat) -> length rnd = 32%nat -> ed_genuine (keys.privRaw priv) ->
  cookie <> [] -> Forall plainByte cookie -> keys.Hash (keys.Public priv) = keyHash ->
  join.handleInviteGet st.1 p cookie = Ok body -> transport.findInviterEd25519Pub body = Some (keys.Public priv) ->
  InviteGet (daemonNet bcast k now joinErrText errText b64Err rndOf self p priv) rnd self cookie keyHash st = (st, Ok body).
Proof.
  intros Hdh Hr Hrnd Hg Hc Hcp Hh Hget Hfind. unfold InviteGet.
  destruct (Hdh rnd rnd Hrnd Hrnd) as (eph & _ & He & _). rewrite He. unfold roundtrip, daemonNet.
  rewrite bool_decide_eq_true_2 by done. cbn [negb].
  erewrite transport.handleInbound_get by done. unfold getCallback. rewrite Hget. cbn [err_map].
  set (cmd := transport.getCommand eph cookie). destruct (Hdh (rndOf cmd) rnd (Hr cmd) Hrnd) as (server & eph' & Hs & He' & Hk).
  rewrite He in He'. injection He' as <-.
  by erewrite transport.exchange_read by (done || by right).
Qed.

Lemma InviteJoin_daemon self p priv rnd cookie keyHash fs pl name hc body fs' pl' evs :
  dhWorks -> (forall cmd, length (rndOf cmd) = 32%nat) -> length rnd = 32%nat -> ed_genuine (keys.privRaw priv) ->
  cookie <> [] -> Forall plainByte cookie -> name <> [] -> Forall plainByte name -> keys.Hash (keys.Public priv) = keyHash ->
  join.handleInviteJoin bcast k now fs p pl cookie name hc = (fs', pl', evs, Ok body) ->
  transport.findInviterEd25519Pub body = Some (keys.Public priv) ->
  InviteJoin (daemonNet bcast k now joinErrText errText b64Err rndOf self p priv) rnd self cookie name hc keyHash (fs, pl)
  = ((fs', pl'), Ok body).
Proof.
  intros Hdh Hr Hrnd Hg Hc Hcp Hn Hnp Hh Hj Hfind. unfold InviteJoin.
  destruct (Hdh rnd rnd Hrnd Hrnd) as (eph & _ & He & _). rewrite He. unfold roundtrip, daemonNet.
  rewrite bool_decide_eq_true_2 by done. cbn [negb].
  erewrite transport.handleInbound_join by done. unfold joinCallback. cbn [fst snd]. rewrite Hj. cbn [err_map].
  set (cmd := transport.joinCommand eph cookie name hc).
  destruct (Hdh (rndOf cmd) rnd (Hr cmd) Hrnd) as (server & eph' & Hs & He' & Hk).
  rewrite He in He'. injection He' as <-.
  by erewrite transport.exchange_read by (done || by right).
Qed.

(** The inviter's key, as both programs find it in the invitation. *)
Lemma invitation_key p invitee self addr hb hes ed :
  ed_genuine (keys.privRaw ed) ->
  (Netname p = [] \/ shortPlain (Netname p)) -> shortPlain invitee -> shortPlain self -> shortPlain addr ->
  config.Parse hb = Ok hes -> hostEntries ed hes ->
  let f := cli.invitationFor p invitee self addr hb in
  invite.ParseFile (invite.Render f) = Ok f /\
  transport.findInviterEd25519Pub (invite.Render f) = Some (keys.Public ed) /\
  (forall port cookie, checkInviter (invite.BuildURL addr port (keys.Public ed) cookie) f
                       = Ok (invite.MkBlock self addr [] [] [] hes)).
Proof.
  intros Hg Hn Hi Hs Ha Hp He f.
  destruct (invitation_wf p invitee self addr hb hes ed Hn Hi Hs Ha Hp He) as (Hw & _ & Hh & _).
  fold f in Hw, Hh. destruct He as [_ _ _ Hk].
  pose proof (invite.ParseFile_Render f Hw) as Hpf.
  assert (TrimSpace (keys.String (keys.Public ed)) = keys.String (keys.Public ed)) as Ht
    by apply TrimSpace_id, trimmed_plain, transport.b64_plain.
  pose proof (keys.Public_length ed Hg) as Hl.
  split_and!; [done| |].
  - unfold transport.findInviterEd25519Pub. rewrite Hpf. cbn [ok mbind option_bind]. rewrite Hh.
    cbn [head mbind option_bind invite.Other]. rewrite Hk. cbn [mbind option_bind]. rewrite Ht.
    by rewrite keys.ParseBase64_String.
  - intros port cookie. unfold checkInviter. rewrite Hh. cbn [invite.Other]. rewrite Hk.
    cbn [fmap option_fmap option_map from_option id]. rewrite Ht.
    rewrite bool_decide_eq_false_2
      by (intros E; pose proof (keys.String_length _ Hl) as Hsl; by rewrite E in Hsl).
    rewrite keys.ParseBase64_String by done. cbn [err_map mbind result_bind invite.BuildURL invite.KeyHash].
    by rewrite bool_decide_eq_true_2.
Qed.

Lemma lookup_hostKey fs p l name es pub : name <> daemon.NodeName l ->
  config.ParseFile fs (HostFile p name) = Ok es ->
  config.GetFirst es !"Ed25519PublicKey" = Some (keys.String pub) -> length (keys.pubRaw pub) = keys.PublicKeySize ->
  daemon.lookupPubKey fs p l name = Some pub.
Proof.
  intros Hne Hp Hk Hl. unfold daemon.lookupPubKey. rewrite bool_decide_eq_false_2 by done.
  rewrite Hp. cbn [ok mbind option_bind]. rewrite Hk. cbn [mbind option_bind].
  rewrite TrimSpace_id by apply trimmed_plain, transport.b64_plain. by rewrite keys.ParseBase64_String.
Qed.

(** The host file the invitee keeps for the inviter. *)
Lemma inviter_hostfile self addr hes ed : shortPlain addr -> hostEntries ed hes ->
  let es := inviterEntries (invite.MkBlock self addr [] [] [] hes) in
  config.Parse (config.Render es) = Ok es /\
  config.GetFirst es !"Address" = Some addr /\
  config.GetFirst es !"Ed25519PublicKey" = Some (keys.String (keys.Public ed)) /\
  config.GetFirst es !"Port" = config.GetFirst hes !"Port" /\
  config.GetFirst es !"WGPublicKey" = config.GetFirst hes !"WGPublicKey".
Proof.
  intros (Ha & Ha1 & Ha2) [Hw Hf _ Hk] es.
  destruct (entry_plain !"Address" addr) as [W F]; [vm_compute; reflexivity|done..|simpl; lia|].
  assert (es = config.MkEntry !"Address" addr :: hes) as E
    by (unfold es, inviterEntries; cbn [invite.Address invite.Other]; by rewrite bool_decide_eq_false_2).
  rewrite E. split; [apply config.Parse_Render; by apply List.Forall_cons|].
  cbn [config.GetFirst config.Key config.Value]. by field_names.
Qed.

Lemma cmdJoin_run {S} (net : gostring -> bytes -> S -> S * option bytes) p u ed wg rnd1 rnd2 w st st1 st2 body body2 f blk w' :
  invite.ParseURL (invite.urlString u) = Ok u ->
  let addr := invite.Host u ++ !":" ++ Itoa (invite.Port u) in
  InviteGet net rnd1 addr (invite.Cookie u) (invite.KeyHash u) st = (st1, Ok body) ->
  invite.ParseFile body = Ok f -> checkInviter u f = Ok blk ->
  InviteJoin net rnd2 addr (invite.Cookie u) (invite.Name (invite.Invitee f)) (init.hostText ed wg) (invite.KeyHash u) st1
    = (st2, Ok body2) ->
  writeTree (MkPaths (ConfRoot p) (if bool_decide (invite.Netname f = []) then Netname p else invite.Netname f))
    f blk ed wg (init.hostText ed wg) w = (w', Ok ()) ->
  cmdJoin net p [invite.urlString u] (Some (keys.privRaw ed)) (Some (keys.wgPrivRaw wg)) rnd1 rnd2 (w, st) = ((w', st2), Ok ()).
Proof.
  intros Hu addr Hget Hf Hblk Hjoin Hw. unfold init.hostText in *. subst addr.
  unfold cmdJoin, mbind, J_bind, liftR, remote, local. rewrite Hu. cbn [err_map].
  rewrite keys.GenerateEd25519_raw, keys.GenerateWireGuard_raw. cbn [err_map]. rewrite Hget. cbn [err_map].
  rewrite Hf. cbn [err_map]. rewrite Hblk. cbn [err_map]. rewrite Hjoin. cbn [err_map]. by rewrite Hw.
Qed.

(** The inviter's tree once the invitation lies in it: the daemon serves it,
    and answers the join. *)
Lemma inviter_serves pA fsA fs1 plA self addr port edA hes invitee buf m f hb my :
  inviter pA fsA self addr port edA hes -> nodename.Validate invitee = Ok () -> Z.of_nat (length invitee) <= 65000 ->
  length buf = invite.cookieBytes -> HostFile pA invitee ∉ dirs fsA ->
  f = cli.invitationFor pA invitee self addr hb -> config.Parse hb = Ok hes ->
  let cookie := invite.NewCookie buf in
  files fs1 = <[join.invitationFile pA cookie := MkFile (invite.Render f) m]> (files fsA) ->
  dirs fs1 = list_to_set (os.ancestors (length (InvitationsDir pA)) (InvitationsDir pA)) ∪ dirs fsA ->
  join.handleInviteGet fs1 pA cookie = Ok (invite.Render f) /\
  exists fs2 pl2 evs, join.handleInviteJoin bcast k now fs1 pA plA cookie invitee my = (fs2, pl2, evs, Ok (invite.Render f)) /\
    os.ReadFile fs2 (HostFile pA invitee) = Ok my /\ join.handleInviteGet fs2 pA cookie = Err join.errUnknown.
Proof.
  intros Hiv Hv Hl Hb Hnd -> Hhb cookie F1 D1. destruct Hiv as [_ _ _ _ He Hnet [Hs Hs1] [Ha _] _ [_ Hfree]].
  destruct (cookie_plain buf Hb) as (_ & Hc & _). fold cookie in Hc.
  pose proof (shortPlain_name _ Hv Hl) as Hi. pose proof (shortPlain_name _ Hs Hs1) as Hss.
  destruct (invitation_wf pA invitee self addr hb hes edA Hnet Hi Hss Ha Hhb He) as (Hw & Hinv & _).
  assert (os.ReadFile fs1 (join.invitationFile pA cookie) = Ok (invite.Render (cli.invitationFor pA invitee self addr hb))) as Hread
    by (unfold os.ReadFile; rewrite F1, lookup_insert_eq; done).
  split; [unfold join.handleInviteGet; by rewrite Hread|].
  pose proof (init_lemmas.plain_valid _ Hv) as Hpi.
  destruct (join_succeeds bcast k now fs1 pA plA cookie invitee my _ _ Hc Hpi Hread (invite.ParseFile_Render _ Hw))
    as (fs2 & pl2 & evs & E & Hr2 & Hgone & _).
  - by rewrite Hinv.
  - apply Forall_forall. intros a Hin. rewrite F1, lookup_insert_ne.
    + by eapply (Forall_forall (fun a => files fsA !! a = None)) in Hfree.
    + intros <-. revert Hin. apply deeper_not_ancestor; [by apply cleanPath_Join|].
      rewrite (join.stack_invitationFile pA cookie Hc), init_lemmas.stack_hosts. simpl. lia.
  - rewrite D1, elem_of_union, elem_of_list_to_set. intros [Hin|Hin]; [|done]. revert Hin.
    apply deeper_not_ancestor; [by apply cleanPath_Join|].
    rewrite (join.stack_HostFile pA invitee Hpi), init_lemmas.stack_inv. simpl. lia.
  - exists fs2, pl2, evs. split_and!; [done..|]. unfold join.handleInviteGet, os.ReadFile. rewrite Hgone. by case_decide.
Qed.

(** The paths of the tree that "gsnet join" creates. *)
Definition joinedPaths (pA pB : Paths) : Paths :=
  MkPaths (ConfRoot pB) (if bool_decide (Netname pA = []) then Netname pB else Netname pA).

Section pair.
Context (pA : Paths) (wA : cli.world) (plA : gossip.Plane) (self addr : gostring) (port : Z)
        (edA : keys.Ed25519Private) (hes : list config.Entry) (invitee : gostring) (buf : bytes)
        (pB : Paths) (wB : cli.world) (edB : keys.Ed25519Private) (wgB : keys.WGPrivate) (pem rnd1 rnd2 : bytes).

(** What both sides of a join need. *)
Record joinable : Prop := {
  jn_inviter : inviter pA (cli.wfs wA) self addr port edA hes;
  jn_name : nodename.Validate invitee = Ok ();
  jn_length : Z.of_nat (length invitee) <= 65000;
  jn_other : invitee <> self;
  jn_buf : length buf = invite.cookieBytes;
  jn_invitation : join.invitationFile pA (invite.NewCookie buf) ∉ dirs (cli.wfs wA);
  jn_hostfile : HostFile pA invitee ∉ dirs (cli.wfs wA);
  jn_tree : freshTree (joinedPaths pA pB) (cli.wfs wB) invitee self;
  jn_genuine : ed_genuine (keys.privRaw edB);
  jn_wg : length (keys.wgPrivRaw wgB) = 32%nat;
  jn_pem : keys.MarshalPrivatePEM edB = Ok pem;
  jn_dh : dhWorks;
  jn_rnd : forall cmd, length (rndOf cmd) = 32%nat;
  jn_rnd1 : length rnd1 = 32%nat;
  jn_rnd2 : length rnd2 = 32%nat
}.

(** The entries of the host file the new node keeps for its inviter. *)
Definition inviterFile : list config.Entry := inviterEntries (invite.MkBlock self addr [] [] [] hes).

(** The entries of the host file the inviter keeps for the new node. *)
Definition inviteeFile : list config.Entry :=
  [config.MkEntry !"Ed25519PublicKey" (keys.String (keys.Public edB));
   config.MkEntry !"WGPublicKey" (keys.WGPublicString (keys.WGPublicOf wgB))].

(** What a join leaves on both sides. *)
Record joined (fsA fsB : FS) (l : daemon.loaded) : Prop := {
  jd_load : daemon.load fsB (joinedPaths pA pB) = Ok l;
  jd_name : daemon.NodeName l = invitee;
  jd_ed : daemon.EdPriv l = edB;
  jd_wg : daemon.WGPriv l = wgB;
  jd_port : daemon.WGListenPort l = 51820;
  jd_connect : config.GetAll (daemon.Conf l) !"ConnectTo" = [self];
  jd_subnets : daemon.Subnets l = [];
  jd_inner : daemon.InnerAddr l = netip.PrefixZero;
  jd_underlay : daemon.UnderlayAddr l = netip.PrefixZero;
  jd_theirs : config.ParseFile fsB (HostFile (joinedPaths pA pB) self) = Ok inviterFile;
  jd_ours : config.ParseFile fsA (HostFile pA invitee) = Ok inviteeFile;
  jd_used : join.handleInviteGet fsA pA (invite.NewCookie buf) = Err join.errUnknown
}.

Lemma join_pair : joinable -> exists wA1 url, cli.cmdInvite pA [invitee] buf wA = (wA1, Ok ()) /\
  cli.stdout wA1 = cli.stdout wA ++ [cli.Text (url ++ [nl])] /\
  exists wB' fsA plA' l,
    cmdJoin (daemonNet bcast k now joinErrText errText b64Err rndOf (addr ++ !":" ++ Itoa port) pA edA)
      pB [url] (Some (keys.privRaw edB)) (Some (keys.wgPrivRaw wgB)) rnd1 rnd2 (wB, (cli.wfs wA1, plA)) = ((wB', (fsA, plA')), Ok ()) /\
    joined fsA (cli.wfs wB') l.
Proof.
  intros [Hiv Hv Hl Hne Hb Hnd1 Hnd2 Hft Hed Hwg Hpem Hdh Hr Hr1 Hr2].
  destruct (cmdInvite_run pA wA self addr port edA hes invitee buf Hiv Hv Hl Hb Hnd1)
    as (wA1 & m & f & hb & Einv & Sinv & F1 & D1 & Ef & Hhb).
  destruct (inviter_serves pA (cli.wfs wA) (cli.wfs wA1) plA self addr port edA hes invitee buf m f hb
    (init.hostText edB wgB) Hiv Hv Hl Hb Hnd2 Ef Hhb F1 D1) as (Hget & fsA & plA' & evs & Ejoin & RA & Hgone).
  destruct Hiv as [_ _ Hg _ He Hnet [Hs Hs1] [Ha Hsl] Hport _]. destruct (cookie_plain buf Hb) as (Hc & _ & Hcp).
  pose proof (shortPlain_name _ Hv Hl) as Hi. pose proof (shortPlain_name _ Hs Hs1) as Hss.
  destruct (invitation_wf pA invitee self addr hb hes edA Hnet Hi Hss Ha Hhb He) as (_ & Hinv & _ & Hnn).
  destruct (invitation_key pA invitee self addr hb hes edA Hg Hnet Hi Hss Ha Hhb He) as (Hpf & Hfind & Hck).
  rewrite <- Ef in Hinv, Hnn, Hpf, Hfind, Hck.
  set (blk := invite.MkBlock self addr [] [] [] hes) in *.
  destruct (writeTree_run (joinedPaths pA pB) wB f blk edB wgB pem (init.hostText edB wgB)) as (wB' & Ew & _ & Re & Rw & Rc & _ & Rp & Rd);
    [rewrite Hinv; exact Hft|rewrite Hinv; by apply init_lemmas.plain_valid|by apply init_lemmas.plain_valid
    |rewrite Hinv; exact Hne|exact Hpem|].
  eexists wA1, _. split_and!; [exact Einv|exact Sinv|].
  rewrite Hinv in Rc. destruct (joined_load (joinedPaths pA pB) (cli.wfs wB') invitee self edB wgB pem Hi Hss Hed Hwg Hpem Re Rw Rc Rd)
    as (l & El & Nl & Edl & Wl & Pl & Cl & Sl & Il & Ul & _).
  exists wB', fsA, plA', l. split.
  - eapply cmdJoin_run with (f := f) (blk := blk);
      [|by apply InviteGet_daemon|exact Hpf|apply Hck| |rewrite Hnn; exact Ew].
    + apply invite.ParseURL_string. split; cbn [invite.BuildURL invite.Host invite.Port invite.KeyHash invite.Cookie];
        [by destruct Ha as (_ & ? & _)|done| |done].
      unfold keys.Hash. by rewrite base64_lemmas.EncodeToString_raw_length, sha256_length.
    + rewrite Hinv. cbn [invite.Name]. destruct Hi as (Hi1 & Hi2 & _). by eapply InviteJoin_daemon.
  - destruct (inviter_hostfile self addr hes edA Ha He) as (Hp & _). fold blk in Hp.
    unfold blk in Rp at 1. cbn [invite.Name] in Rp. split; try done; unfold config.ParseFile; [by rewrite Rp|].
    rewrite RA. by apply init_lemmas.Parse_hostText.
Qed.

(** The keys and the address that the two host files hold. *)
Lemma inviterFile_entries : joinable ->
  config.GetFirst inviterFile !"Address" = Some addr /\
  config.GetFirst inviterFile !"Ed25519PublicKey" = Some (keys.String (keys.Public edA)) /\
  config.GetFirst inviterFile !"Port" = config.GetFirst hes !"Port" /\
  config.GetFirst inviterFile !"WGPublicKey" = config.GetFirst hes !"WGPublicKey".
Proof.
  intros Hj. destruct (jn_inviter Hj) as [_ _ _ _ He _ _ [Ha _] _ _]. apply (inviter_hostfile self addr hes edA Ha He).
Qed.

Lemma joined_knows_inviter fsA fsB l : joinable -> joined fsA fsB l ->
  daemon.lookupPubKey fsB (joinedPaths pA pB) l self = Some (keys.Public edA).
Proof.
  intros Hj Hd. destruct (inviterFile_entries Hj) as (_ & Hk & _). eapply lookup_hostKey; [|apply (jd_theirs _ _ _ Hd)|exact Hk|].
  - rewrite (jd_name _ _ _ Hd). apply not_eq_sym, (jn_other Hj).
  - apply keys.Public_length, (iv_genuine _ _ _ _ _ _ _ (jn_inviter Hj)).
Qed.

Lemma joined_known_to_inviter fsA fsB l l' : joinable -> joined fsA fsB l -> daemon.NodeName l' <> invitee ->
  daemon.lookupPubKey fsA pA l' invitee = Some (keys.Public edB).
Proof.
  intros Hj Hd Hne. eapply lookup_hostKey; [by apply not_eq_sym|apply (jd_ours _ _ _ Hd)| |].
  - unfold inviteeFile. cbn [config.GetFirst config.Key config.Value]. by field_names.
  - apply keys.Public_length, (jn_genuine Hj).
Qed.

Lemma joined_dials fsA fsB l : joinable -> joined fsA fsB l -> config.GetFirst hes !"Port" = None ->
  daemon.dialTarget fsB (joinedPaths pA pB) l self = Some (addr ++ !":51820").
Proof.
  intros Hj Hd Hno. destruct (inviterFile_entries Hj) as (Ha & _ & Hp & _).
  unfold daemon.dialTarget, daemon.hostPort, daemon.intEntry. rewrite (jd_theirs _ _ _ Hd). cbn [ok mbind option_bind].
  rewrite Ha. cbn [mbind option_bind]. rewrite Hp, Hno. cbn [mbind option_bind from_option id]. by rewrite (jd_port _ _ _ Hd).
Qed.
End pair.

(** C10.  From "gsnet invite" to a working pair.  Let a node have a valid name, an
    address, a port and keys, and let nothing be in the way of its invitation
    or of the new node's tree.  Then "gsnet invite" prints a URL, and "gsnet
    join" with that URL, talking to the inviter's daemon, succeeds: the new
    tree loads with the invited name, the generated keys and a connection to
    the inviter; each side finds the other's public key in its host files; the
    invitation is used up.  If the inviter's host file names no port, the new
    node dials the default port, whatever port the URL had. *)
Theorem invite_then_join pA wA plA self addr port edA hes invitee buf pB wB edB wgB pem rnd1 rnd2 :
  joinable pA wA self addr port edA hes invitee buf pB wB edB wgB pem rnd1 rnd2 ->
  let fp := joinedPaths pA pB in
  exists wA1 url, cli.cmdInvite pA [invitee] buf wA = (wA1, Ok ()) /\
    cli.stdout wA1 = cli.stdout wA ++ [cli.Text (url ++ [nl])] /\
  exists wB' fsA plA',
    cmdJoin (daemonNet bcast k now joinErrText errText b64Err rndOf (addr ++ !":" ++ Itoa port) pA edA)
      pB [url] (Some (keys.privRaw edB)) (Some (keys.wgPrivRaw wgB)) rnd1 rnd2 (wB, (cli.wfs wA1, plA)) = ((wB', (fsA, plA')), Ok ()) /\
    (exists l, daemon.load (cli.wfs wB') fp = Ok l /\ daemon.NodeName l = invitee /\ daemon.EdPriv l = edB /\
       daemon.WGPriv l = wgB /\ config.GetAll (daemon.Conf l) !"ConnectTo" = [self] /\
       daemon.lookupPubKey (cli.wfs wB') fp l self = Some (keys.Public edA) /\
       (config.GetFirst hes !"Port" = None ->
        daemon.dialTarget (cli.wfs wB') fp l self = Some (addr ++ !":51820"))) /\
    (forall l, daemon.NodeName l <> invitee -> daemon.lookupPubKey fsA pA l invitee = Some (keys.Public edB)) /\
    join.handleInviteGet fsA pA (invite.NewCookie buf) = Err join.errUnknown.
Proof.
  intros Hj fp. destruct (join_pair _ _ plA _ _ _ _ _ _ _ _ _ _ _ _ _ _ Hj) as (wA1 & url & Einv & Sinv & wB' & fsA & plA' & l & Ejoin & Hd).
  exists wA1, url. split_and!; [exact Einv|exact Sinv|]. exists wB', fsA, plA'. split_and!; [exact Ejoin| | |by destruct Hd].
  - exists l. split_and!; [by destruct Hd..| |].
    + by eapply joined_knows_inviter.
    + by eapply joined_dials.
  - intros l' Hnl. by eapply joined_known_to_inviter.
Qed.
End end_to_end.

(** ** A run *)
Module demo.
Import toy transport.demo gossip.demo init_lemmas.demo.

(** Alice's tree: what [Init] made, with an address and a port added. *)
Definition wA : cli.world :=
  cli.MkWorld (MkFS (<[ConfFile p := MkFile (unlines [!"Name = alice"; !"Address = vpn.example.org"; !"Port = 655"]) 420]> (files fs'))
                 (dirs fs')) [].
Definition wB : cli.world := cli.MkWorld (MkFS ∅ {[ !"/" ]}) [].
Definition pB : Paths := MkPaths !"/etc/gsnet" [].
Definition buf : bytes := replicate 24 (to_byte 9).
Definition wgB : keys.WGPrivate := keys.MkWGPriv (replicate 32 (to_byte 3)).
Definition edB : keys.Ed25519Private := keys.MkPriv (replicate 64 (to_byte 5)).
Definition rnd (n : Z) : bytes := replicate 32 (to_byte n).
Definition hes : list config.Entry :=
  [config.MkEntry !"Ed25519PublicKey" (keys.String (keys.Public demoPriv));
   config.MkEntry !"WGPublicKey" (keys.WGPublicString (keys.WGPublicOf wg))].

Lemma alice_ready : inviter p (cli.wfs wA) !"alice" !"vpn.example.org" 655 demoPriv hes.
Proof.
  split.
  - exists [config.MkEntry !"Name" !"alice"; config.MkEntry !"Address" !"vpn.example.org"; config.MkEntry !"Port" !"655"].
    split_and!; vm_compute; reflexivity.
  - exists (default [] (ok (keys.MarshalPrivatePEM demoPriv))). split; vm_compute; reflexivity.
  - vm_compute. reflexivity.
  - exists (init.hostText demoPriv wg). split; vm_compute; reflexivity.
  - split; [apply invite.entryOk_wf; apply (bool_decide_unpack _); vm_compute; exact I
           |apply (bool_decide_unpack _); vm_compute; exact I..|vm_compute; reflexivity].
  - right. split_and!; [apply (bool_decide_unpack _); vm_compute; exact I|discriminate|vm_compute; discriminate].
  - split; [vm_compute; reflexivity|vm_compute; discriminate].
  - split; [split_and!; [apply (bool_decide_unpack _); vm_compute; exact I|discriminate|vm_compute; discriminate]|].
    apply (bool_decide_unpack _). vm_compute. exact I.
  - lia.
  - split; apply (bool_decide_unpack _); vm_compute; exact I.
Qed.

Lemma bob_ready : freshTree (MkPaths !"/etc/gsnet" !"vpn") (cli.wfs wB) !"bob" !"alice".
Proof. split; apply (bool_decide_unpack _); vm_compute; exact I. Qed.

Lemma toy_dhWorks : dhWorks.
Proof. intros a b _ _. eexists _, _. split_and!; [reflexivity..|]. intros c. eexists. reflexivity. Qed.

Lemma alice_bob : joinable (fun _ => rnd 200) p wA !"alice" !"vpn.example.org" 655 demoPriv hes !"bob" buf pB wB edB wgB
  (default [] (ok (keys.MarshalPrivatePEM edB))) (rnd 77) (rnd 78).
Proof.
  split; [apply alice_ready|vm_compute; reflexivity|vm_compute; discriminate|discriminate|reflexivity
    |apply (bool_decide_unpack _); vm_compute; exact I|apply (bool_decide_unpack _); vm_compute; exact I|apply bob_ready
    |vm_compute; reflexivity|reflexivity|vm_compute; reflexivity|apply toy_dhWorks|reflexivity|reflexivity|reflexivity].
Qed.
End demo.
Import demo toy transport.demo gossip.demo init_lemmas.demo.

Lemma invite_then_join_witness : exists wA1 url, cli.cmdInvite p [!"bob"] buf wA = (wA1, Ok ()) /\
  exists wB' fsA plA' l,
    cmdJoin (daemonNet noErr 0 5 noText noText noText (fun _ => rnd 200) !"vpn.example.org:655" p demoPriv)
      pB [url] (Some (keys.privRaw edB)) (Some (keys.wgPrivRaw wgB)) (rnd 77) (rnd 78) (wB, (cli.wfs wA1, planeA)) = ((wB', (fsA, plA')), Ok ()) /\
    daemon.load (cli.wfs wB') p = Ok l /\ daemon.NodeName l = !"bob" /\
    daemon.dialTarget (cli.wfs wB') p l !"alice" = Some !"vpn.example.org:51820".
Proof.
  destruct (invite_then_join noErr 0 5 noText noText noText (fun _ => rnd 200)
    p wA planeA !"alice" !"vpn.example.org" 655 demoPriv hes !"bob" buf pB wB edB wgB
    (default [] (ok (keys.MarshalPrivatePEM edB))) (rnd 77) (rnd 78) alice_bob)
    as (wA1 & url & E1 & _ & wB' & fsA & plA' & E2 & (l & El & Nl & _ & _ & _ & _ & Dl) & _).
  exists wA1, url. split; [exact E1|]. exists wB', fsA, plA', l. split_and!; [exact E2|exact El|exact Nl|].
  apply Dl. vm_compute. reflexivity.
Defined.
End cli_join.
