(* ===== verification/CliControl.v ===== *)
(** * The control socket from the client's side
      (internal/control/server.go: Dial, Send, ReadLine; cmd/gsnet/main.go:
      dump, top, stop, reload, retry, purge, pid)

    A connection is the server's end of it (its phase and the daemon's state)
    together with the bytes it has written and the client has not read.  The
    server answers each line as it arrives.  A read on a connection that is
    open and silent blocks; that is a value of its own here. *)

From Stdlib Require Import Ascii String ZArith Lia.
From stdpp Require Import base tactics list gmap strings.
From S2P Require Import Prelude.
From S2P Require Import GoStrings.
From S2P Require Import GoFmt.
From S2P Require Import Base64.
From S2P Require Import FS.
From S2P Require Import Graph.
From S2P Require Import Config.
From S2P Require Import Keys.
From S2P Require Import Message.
From S2P Require Import Gossip.
From S2P Require Import Control.
From S2P Require Import Transport.
From S2P Require Import Dataplane.
From S2P Require Import Daemon.
From S2P Require Import DaemonJoin.
From S2P Require Import DaemonInit.
From S2P Require Import DaemonEvents.
From S2P Require Import Cli.

Local Open Scope Z_scope.

Module session.
Import control.

(** ** What the server writes *)

Section wire.
(** The text of a decoding error, and the server's process id. *)
Context (errText : error -> gostring) (pid : Z).

Definition replyBytes (r : reply) : bytes :=
  match r with
  | RGreeting g => encodeGreeting g
  | RAck => !"4 0 " ++ Itoa pid ++ [nl]
  | RDecodeError e => Itoa ClassRequest ++ !" -1 " ++ errText e ++ [nl]
  | RBadClass => Itoa ClassRequest ++ !" -1 bad class" ++ [nl]
  | RDefault t => Itoa ClassRequest ++ sp :: Itoa t ++ !" 0" ++ [nl]
  | ROutput b => b
  | RHandlerError t m => Itoa ClassRequest ++ sp :: Itoa t ++ sp :: m ++ [nl]
  end.

(** ** The server's end, line by line *)

Inductive phase := WaitsAuth | Serves | Closed.

Context {S : Type}.
Context (Handler : option (Message -> S -> S * bytes * option gostring)).
(** Whether the process has exited, which closes every connection. *)
Context (exited : S -> bool).
Context (nodeName cookie : gostring).

Record conn := MkConn { ph : phase; st : S; unread : bytes }.

(** The server reads one line of its client. *)
Definition serverLine (line : gostring) (c : conn) : conn :=
  match ph c with
  | Closed => c
  | WaitsAuth =>
      match authenticate cookie (TrimSpace line) with
      | Err _ => MkConn Closed (st c) (unread c)
      | Ok _ => MkConn Serves (st c) (unread c ++ replyBytes RAck)
      end
  | Serves =>
      let '(st, out) := serveLine Handler line (st c) in
      MkConn (if exited st then Closed else Serves) st (unread c ++ (out ≫= replyBytes))
  end.

(** A new connection: the greeting is written at once. *)
Definition accept (st : S) : conn := MkConn WaitsAuth st (replyBytes (RGreeting (MkGreeting nodeName 1 0))).

(** ** The client *)

Inductive clientError := errEOF | errGreeting (e : error) | errAck (line : gostring) | errRejected (line : gostring) | errWrite.

(** A call returns, or waits for ever. *)
Inductive io (E A : Type) := Done (r : result E A) | Blocks.
Arguments Done {E A} r.
Arguments Blocks {E A}.

Definition N (A : Type) : Type := conn -> conn * io clientError A.
#[global] Instance N_ret : MRet N := fun A a c => (c, Done (Ok a)).
#[global] Instance N_bind : MBind N := fun A B f m c =>
  match m c with
  | (c, Done (Ok a)) => f a c
  | (c, Done (Err e)) => (c, Done (Err e))
  | (c, Blocks) => (c, Blocks)
  end.

Definition liftR {A} (r : result clientError A) : N A := fun c => (c, Done r).

(** What a read finds when no whole line is left. *)
Definition atEnd {A} (c : conn) : io clientError A := match ph c with Closed => Done (Err errEOF) | _ => Blocks end.

(** [ReadString('\n')] *)
Definition readString : N gostring := fun c =>
  match readLine (unread c) with
  | Some (line, rest) => (MkConn (ph c) (st c) rest, Done (Ok line))
  | None => (c, atEnd c)
  end.

(** Writing a line and its newline: the server reads the line. *)
Definition writeLine (line : gostring) : N unit := fun c =>
  match ph c with
  | Closed => (c, Done (Err errWrite))
  | _ => (serverLine line c, Done (Ok ()))
  end.

Record Client := MkClient { ServerName : gostring; ServerPID : Z }.

(** [Dial], once the connection is made. *)
Definition Dial (cookie : gostring) : N Client :=
  greet ← readString;
  g ← liftR (err_map errGreeting (ParseGreeting (TrimSpace greet)));
  _ ← writeLine (removelast (authLine cookie));
  ack ← readString;
  '(_, code, p) ← liftR (match fmt.Sscanf3 (TrimSpace ack) with Some x => Ok x | None => Err (errAck ack) end);
  if negb (code =? 0) then liftR (Err (errRejected ack))
  else mret (MkClient (gName g) p).

Definition Send (t : Z) (args : list gostring) : N gostring :=
  _ ← writeLine (removelast (EncodeMessage t args));
  readString.

(** ** The loops over a multi-line reply

    The client sends nothing more, so the lines it will read are those already
    written. *)

Definition linesOf (c : conn) : list gostring := (fun l => l ++ [nl]) <$> completeLines (unread c).

Definition terminator (t : Z) : gostring := joinSp [Itoa ClassRequest; Itoa t].

(** The loop of [runControlDump]: what it prints, and how it ends. *)
Fixpoint dumpLoop (c : conn) (term line : gostring) (rest : list gostring) : list gostring * io clientError unit :=
  if bool_decide (line = term) then ([], Done (Ok ()))
  else match rest with
       | [] => ([line ++ [nl]], atEnd c)
       | next :: rest => let '(out, r) := dumpLoop c term (TrimRightCRLF next) rest in ((line ++ [nl]) :: out, r)
       end.

Definition runControlDump (t : Z) (c : conn) : list gostring * io clientError unit :=
  match Send t [] c with
  | (c, Done (Ok first)) => dumpLoop c (terminator t) (TrimRightCRLF first) (linesOf c)
  | (c, Done (Err e)) => ([], Done (Err e))
  | (c, Blocks) => ([], Blocks)
  end.
End wire.
Arguments Done {E A} r.
Arguments Blocks {E A}.
Arguments conn S : clear implicits.

(** ** top *)

Section top.
(** The clock, in nanoseconds since the epoch. *)
Context (now : Z).

Definition formatHandshake (nanos : gostring) : gostring :=
  if bool_decide (nanos = !"0") || bool_decide (nanos = []) then !"never"
  else match Atoi nanos with
       | Err _ => !"never"
       | Ok n => if n =? 0 then !"never"
                 else time.durationString (time.RoundSecond (time.Sub now n)) ++ !" ago"
       end.

Definition topHeader : gostring :=
  fmt.padRight 20 !"PEER" ++ sp :: fmt.padLeft 12 !"RX_BYTES" ++ sp :: fmt.padLeft 12 !"TX_BYTES" ++ !" LAST_HANDSHAKE" ++ [nl].

(** The row printed for a line, if it has enough fields. *)
Definition topRow (line : gostring) : list gostring :=
  match Fields line with
  | _ :: _ :: peer :: rx :: tx :: hs :: _ =>
      [fmt.padRight 20 peer ++ sp :: fmt.padLeft 12 rx ++ sp :: fmt.padLeft 12 tx ++ sp :: formatHandshake hs ++ [nl]]
  | _ => []
  end.

Fixpoint topLoop {S} (c : conn S) (term line : gostring) (rest : list gostring) : list gostring * io clientError unit :=
  if bool_decide (line = term) then ([], Done (Ok ()))
  else match rest with
       | [] => (topRow line, atEnd c)
       | next :: rest => let '(out, r) := topLoop c term (TrimRightCRLF next) rest in (topRow line ++ out, r)
       end.
End top.

(** ** Lemmas *)

Section session_lemmas.
Context (errText : error -> gostring) (pid : Z) {S : Type}.
Context (Handler : option (Message -> S -> S * bytes * option gostring)).
Context (nodeName cookie : gostring).

Definition serverLines (exited : S -> bool) (lines : list gostring) (c : conn S) : conn S :=
  foldl (fun c l => serverLine errText pid Handler exited cookie l c) c lines.

Lemma serverLines_serves lines s out : 
  serverLines (fun _ => false) lines (MkConn Serves s out)
  = let '(s', rs) := serveLines Handler lines s in MkConn Serves s' (out ++ (rs ≫= replyBytes errText pid)).
Proof.
  revert s out. induction lines as [|l lines IH]; intros s out; [cbn; by rewrite app_nil_r|].
  cbn [serverLines foldl serveLines]. cbn [serverLine ph st unread].
  destruct (serveLine Handler l s) as [s1 r1]. unfold serverLines in IH. rewrite IH.
  destruct (serveLines Handler lines s1) as [s2 r2]. by rewrite bind_app, (assoc_L (++)).
Qed.

Lemma serverLines_closed exited lines s out : serverLines exited lines (MkConn Closed s out) = MkConn Closed s out.
Proof. induction lines as [|l lines IH]; [done|]. exact IH. Qed.

(** Serving line by line is serving the whole input: the incremental server
    and [Server.handle] reach the same state and write the same bytes, and the
    connection is closed exactly when authentication failed. *)
Lemma serverLines_handle input s :
  let c := serverLines (fun _ => false) (completeLines input) (accept errText pid nodeName s) in
  let '(s', out, r) := handle Handler nodeName cookie input s in
  st c = s' /\ unread c = out ≫= replyBytes errText pid /\ (ph c = Closed <-> is_ok r = false).
Proof.
  unfold handle, accept. destruct (completeLines input) as [|l lines]; [cbn; by rewrite app_nil_r|].
  change (serverLines (fun _ => false) (l :: lines) ?c) with (serverLines (fun _ => false) lines (serverLine errText pid Handler (fun _ => false) cookie l c)).
  cbn [serverLine ph st unread].
  destruct (authenticate cookie (TrimSpace l)) as [[]|e].
  - rewrite serverLines_serves. destruct (serveLines Handler lines s) as [s' rs]. cbn [st unread ph].
    rewrite !bind_cons, <- (assoc_L (++)). done.
  - rewrite serverLines_closed. cbn [st unread ph]. rewrite bind_singleton. done.
Qed.

(** ** A session with the right cookie *)

Context (exited : S -> bool).

Lemma readString_line ph (s : S) l rest : nl ∉ l ->
  readString (MkConn ph s ((l ++ [nl]) ++ rest)) = (MkConn ph s rest, Done (Ok (l ++ [nl]))).
Proof. intros Hl. unfold readString. cbn [unread]. rewrite <- app_assoc. cbn [app]. by rewrite readLine_line. Qed.

Lemma ack_scan : 0 <= pid <= max_int64 -> fmt.Sscanf3 (TrimSpace (!"4 0 " ++ Itoa pid ++ [nl])) = Some (4, 0, pid).
Proof.
  intros Hp. destruct (Itoa_plain pid) as [Hne Hpl].
  assert (TrimSpace (!"4 0 " ++ Itoa pid ++ [nl]) = !"4 0 " ++ Itoa pid) as ->.
  { change (!"4 0 " ++ Itoa pid ++ [nl]) with (joinSp [!"4"; !"0"; Itoa pid] ++ [nl]).
    apply TrimSpace_tokenLine; [done|].
    repeat apply Forall_cons_2; try apply Forall_nil_2; [apply (bool_decide_unpack _); vm_compute; exact I..|apply Itoa_token]. }
  unfold fmt.Sscanf3. change (!"4 0 " ++ Itoa pid) with (Itoa 4 ++ (sp :: Itoa 0 ++ (sp :: Itoa pid))).
  assert (forall x : gostring, forall c, head (sp :: x) = Some c -> fmt.decimal c = false) as Hsp by (intros x c [= <-]; reflexivity).
  assert (forall x, fmt.matchSpace (sp :: x) = Some (sp :: x)) as Hm.
  { intros x. unfold fmt.matchSpace. rewrite spaceLen_sp. reflexivity. }
  assert (forall z x, 0 <= z <= max_int64 -> (forall c, head x = Some c -> fmt.decimal c = false) ->
    fmt.scanInt (sp :: Itoa z ++ x) = Some (z, x)) as Hs.
  { intros z x Hz Hx. rewrite <- (fmt.scanInt_Itoa z x Hz Hx). unfold fmt.scanInt. f_equal.
    destruct (Itoa_plain z) as [Hzn Hzp]. destruct (Itoa z) as [|b t]; [done|]. apply Forall_cons in Hzp as [Hb _].
    pose proof (spaceLen_plain b (t ++ x) Hb) as Hsl. cbn [app]. rewrite (fmt.skipSpace_id (b :: t ++ x)) by done.
    unfold fmt.skipSpace.
    assert (dropSpaces spaceLen 0 (sp :: b :: t ++ x) = b :: t ++ x) as ->
      by (cbn [dropSpaces]; rewrite spaceLen_sp; cbn [dropSpaces]; by rewrite Hsl).
    cbn [length].
    replace (Datatypes.S (Datatypes.S (length (t ++ x))) - Datatypes.S (length (t ++ x)))%nat with 1%nat by lia.
    cbn [take]. rewrite bool_decide_eq_false_2; [done|]. apply (bool_decide_unpack _). vm_compute. exact I. }
  rewrite (fmt.scanInt_Itoa 4 _ ltac:(unfold max_int64; lia) (Hsp _)). cbn [mbind option_bind]. rewrite Hm. cbn [mbind option_bind].
  rewrite (Hs 0 _ ltac:(unfold max_int64; lia) (Hsp _)). cbn [mbind option_bind]. rewrite Hm. cbn [mbind option_bind].
  rewrite <- (app_nil_r (Itoa pid)). by rewrite Hs.
Qed.

(** [Dial] with the cookie the server holds. *)
Lemma Dial_accept buf s : cookie = NewCookie buf -> token nodeName -> 0 <= pid <= max_int64 ->
  Dial errText pid Handler exited cookie cookie (accept errText pid nodeName s)
  = (MkConn Serves s [], Done (Ok (MkClient nodeName pid))).
Proof.
  intros -> Hn Hp.
  destruct (ParseGreeting_encode (MkGreeting nodeName 1 0)) as (Hg1 & Hg2 & Hg3); [done|by vm_compute..|].
  destruct (authLine_accepted buf) as (_ & _ & Ha).
  destruct (Itoa_plain pid) as [_ Hpl].
  unfold Dial, accept, mbind, N_bind. cbn [replyBytes]. rewrite Hg2, <- (app_nil_r (_ ++ [nl])).
  rewrite readString_line by done. rewrite <- Hg2, Hg3. cbn [err_map liftR].
  unfold writeLine. cbn [ph serverLine]. rewrite Ha. cbn [unread st app replyBytes].
  rewrite (app_assoc !"4 0 "), <- (app_nil_r ((!"4 0 " ++ Itoa pid) ++ [nl])).
  rewrite readString_line.
  2:{ rewrite not_elem_of_app. split; [apply (bool_decide_unpack _); vm_compute; exact I|by apply config.plain_no_nl]. }
  rewrite <- app_assoc, ack_scan by done. cbn [liftR]. by destruct (0 =? 0) eqn:E.
Qed.

(** A request that the handler answers. *)
Lemma Send_serves t s s' out m Handle : is_int64 t -> Handler = Some Handle -> nl ∉ m ->
  Handle (MkMessage ClassRequest t []) s = (s', (m ++ [nl]) ++ out, None) ->
  Send errText pid Handler exited cookie t [] (MkConn Serves s [])
  = (MkConn (if exited s' then Closed else Serves) s' out, Done (Ok (m ++ [nl]))).
Proof.
  intros Ht HH Hm Hh. unfold Send, writeLine, mbind, N_bind. cbn [ph serverLine st unread].
  rewrite EncodeMessage_tokens, removelast_last. unfold serveLine.
  assert (Forall token [Itoa ClassRequest; Itoa t]) as Htok by eauto using Forall_cons_2, Forall_nil_2, Itoa_token.
  rewrite TrimSpace_id by by apply trimmed_joinSp.
  rewrite bool_decide_eq_false_2 by by apply joinSp_ne. rewrite DecodeMessage_tokens by done.
  cbn [Class]. rewrite bool_decide_eq_true_2 by done. cbn [negb]. rewrite HH, Hh. cbn [app].
  rewrite bind_singleton. cbn [replyBytes app]. by apply readString_line.
Qed.

(** A line that is not the terminator and comes back from the reader as it was. *)
Definition dumpLine (t : Z) (l : gostring) : Prop := (nl ∉ l) /\ (cr ∉ l) /\ l <> terminator t.

Lemma terminator_clean t : (nl ∉ terminator t) /\ (cr ∉ terminator t).
Proof.
  apply transport.words_no_crlf. do 2 (apply List.Forall_cons; [apply Itoa_plain|]). apply List.Forall_nil.
Qed.

Lemma completeLines_unlines ls : Forall (fun l => nl ∉ l) ls -> completeLines (unlines ls) = ls.
Proof. induction 1 as [|l ls Hl _ IH]; [done|]. rewrite unlines_cons, completeLines_line by done. by rewrite IH. Qed.

Lemma dumpLoop_ends (c : conn S) t l ls : Forall (dumpLine t) (l :: ls) ->
  dumpLoop c (terminator t) l ((fun l => l ++ [nl]) <$> ls ++ [terminator t])
  = ((fun l => l ++ [nl]) <$> l :: ls, Done (Ok ())).
Proof.
  revert l. induction ls as [|l2 ls IH]; intros l [(Hl1 & Hl2 & Hl3) Hls]%Forall_cons; cbn [app fmap list_fmap dumpLoop].
  - rewrite bool_decide_eq_false_2 by done. destruct (terminator_clean t) as [T1 T2].
    rewrite transport.TrimRightCRLF_line by done. by rewrite bool_decide_eq_true_2.
  - rewrite bool_decide_eq_false_2 by done. pose proof Hls as [(H1 & H2 & H3) _]%Forall_cons.
    rewrite transport.TrimRightCRLF_line by done. specialize (IH l2 Hls).
    change (list_fmap _ _ ?f ?x) with (f <$> x) in *. rewrite IH. done.
Qed.

(** A dump whose reply is its rows and the terminator prints the rows and ends. *)
Lemma runControlDump_rows t s s' rows Handle : is_int64 t -> Handler = Some Handle -> Forall (dumpLine t) rows ->
  Handle (MkMessage ClassRequest t []) s = (s', unlines (rows ++ [terminator t]), None) ->
  runControlDump errText pid Handler exited cookie t (MkConn Serves s []) = ((fun l => l ++ [nl]) <$> rows, Done (Ok ())).
Proof.
  intros Ht HH Hr Hh. destruct (terminator_clean t) as [T1 T2]. unfold runControlDump.
  destruct rows as [|l rows].
  - rewrite (Send_serves t s s' [] (terminator t) Handle Ht HH T1 Hh).
    rewrite transport.TrimRightCRLF_line by done. destruct (linesOf _); cbn [dumpLoop]; by rewrite bool_decide_eq_true_2.
  - pose proof Hr as [(H1 & H2 & H3) Hr']%Forall_cons.
    rewrite (Send_serves t s s' (unlines (rows ++ [terminator t])) l Handle Ht HH H1) by by rewrite Hh.
    rewrite transport.TrimRightCRLF_line by done. unfold linesOf. cbn [unread].
    rewrite completeLines_unlines; [by apply dumpLoop_ends|].
    apply Forall_app. split; [|by constructor]. eapply Forall_impl; [exact Hr'|]. by intros x (? & _).
Qed.

(** The same for [top]: a row per line. *)
Lemma topLoop_ends now (c : conn S) t l ls : Forall (dumpLine t) (l :: ls) ->
  topLoop now c (terminator t) l ((fun l => l ++ [nl]) <$> ls ++ [terminator t]) = ((l :: ls) ≫= topRow now, Done (Ok ())).
Proof.
  revert l. induction ls as [|l2 ls IH]; intros l [(Hl1 & Hl2 & Hl3) Hls]%Forall_cons; cbn [app fmap list_fmap topLoop].
  - rewrite bool_decide_eq_false_2 by done. destruct (terminator_clean t) as [T1 T2].
    rewrite transport.TrimRightCRLF_line by done. by rewrite bool_decide_eq_true_2.
  - rewrite bool_decide_eq_false_2 by done. pose proof Hls as [(H1 & H2 & H3) _]%Forall_cons.
    rewrite transport.TrimRightCRLF_line by done. specialize (IH l2 Hls).
    change (list_fmap _ _ ?f ?x) with (f <$> x) in *. rewrite IH. done.
Qed.

Lemma first_line (a b x y : gostring) : nl ∉ a -> nl ∉ b -> a ++ nl :: x = b ++ nl :: y -> b = a /\ y = x.
Proof.
  intros Ha Hb E. assert (cutByte nl (a ++ nl :: x) = Some (a, x)) as E1 by by apply cutByte_Some.
  assert (cutByte nl (b ++ nl :: y) = Some (b, y)) as E2 by by apply cutByte_Some.
  rewrite E, E2 in E1. by injection E1 as -> ->.
Qed.

(** What [top] reads after its request, for a reply of rows and terminator. *)
Lemma topLoop_reply now t rows (c : conn S) first rest : Forall (dumpLine t) rows ->
  unlines (rows ++ [terminator t]) = (first ++ [nl]) ++ rest -> nl ∉ first -> unread c = rest ->
  topLoop now c (terminator t) (TrimRightCRLF (first ++ [nl])) (linesOf c) = (rows ≫= topRow now, Done (Ok ())).
Proof.
  intros Hr Hrest Hf Hc. destruct (terminator_clean t) as [T1 T2]. destruct rows as [|l rows]; cbn [app] in Hrest; rewrite unlines_cons in Hrest.
  - assert (first = terminator t) as ->.
    { rewrite <- !app_assoc in Hrest. by apply first_line in Hrest as [? _]. }
    rewrite transport.TrimRightCRLF_line by done. destruct (linesOf c); cbn [topLoop]; by rewrite bool_decide_eq_true_2.
  - pose proof Hr as [(H1 & H2 & H3) Hr']%Forall_cons.
    assert (first = l /\ rest = unlines (rows ++ [terminator t])) as [-> ->].
    { rewrite <- !app_assoc in Hrest. by apply first_line in Hrest as [? ?]. }
    rewrite transport.TrimRightCRLF_line by done. unfold linesOf. rewrite Hc, completeLines_unlines; [by apply topLoop_ends|].
    apply Forall_app. split; [|by constructor]. eapply Forall_impl; [exact Hr'|]. by intros x (? & _).
Qed.

(** A dump whose reply is one line that is not the terminator waits for ever. *)
Lemma runControlDump_blocks t s s' l Handle : is_int64 t -> Handler = Some Handle -> dumpLine t l ->
  Handle (MkMessage ClassRequest t []) s = (s', l ++ [nl], None) -> exited s' = false ->
  runControlDump errText pid Handler exited cookie t (MkConn Serves s []) = ([l ++ [nl]], Blocks).
Proof.
  intros Ht HH (H1 & H2 & H3) Hh Hx. unfold runControlDump.
  rewrite (Send_serves t s s' [] l Handle Ht HH H1) by by rewrite Hh, app_nil_r.
  rewrite transport.TrimRightCRLF_line by done. unfold linesOf. cbn [unread completeLines dumpLoop]. rewrite Hx.
  cbn. by rewrite bool_decide_eq_false_2.
Qed.
End session_lemmas.
End session.

(** ** The commands *)
Module cli_control.
Import paths control session.

Inductive error :=
| cUsage (text : gostring) | cKind (kind : gostring) | cOS (e : osError) | cPID (e : control.error) | cConnect
| cClient (e : clientError) | cInternal (name : gostring) | cNeedsSeconds | cSeconds | cUnknownArg (arg : gostring).

Definition ioMap {E F A} (f : E -> F) (r : io E A) : io F A :=
  match r with Done r => Done (err_map f r) | Blocks => Blocks end.

Section commands.
Context (errText : control.error -> gostring) (pid : Z) {S : Type}.
Context (Handler : option (Message -> S -> S * bytes * option gostring)) (exited : S -> bool) (cookie : gostring).
(** [net.Dial] of a UNIX socket: the server's end of the new connection. *)
Context (connect : gostring -> option (conn S)).
Context (fs : FS) (p : Paths) (runDir : gostring).

Definition dialControl : io error (conn S) :=
  match os.ReadFile fs (paths.PIDFile p runDir) with
  | Err e => Done (Err (cOS e))
  | Ok pidBytes =>
      match ParsePIDFile pidBytes with
      | Err e => Done (Err (cPID e))
      | Ok pf =>
          match connect (ControlSocket p runDir) with
          | None => Done (Err cConnect)
          | Some c =>
              match Dial errText pid Handler exited cookie (Cookie pf) c with
              | (c, Done (Ok _)) => Done (Ok c)
              | (_, Done (Err e)) => Done (Err (cClient e))
              | (_, Blocks) => Blocks
              end
          end
      end
  end.

(** The request of a dump kind. *)
Definition dumpRequest (kind : gostring) : option Z :=
  if bool_decide (kind = !"nodes") || bool_decide (kind = !"reachable") then Some ReqDumpNodes
  else if bool_decide (kind = !"edges") then Some ReqDumpEdges
  else if bool_decide (kind = !"subnets") then Some ReqDumpSubnets
  else if bool_decide (kind = !"connections") then Some ReqDumpConnections
  else if bool_decide (kind = !"graph") then Some ReqDumpGraph
  else if bool_decide (kind = !"invitations") then Some ReqDumpInvitations
  else None.

(** What is printed, and how the command ends. *)
Definition cmdDump (args : list gostring) : list gostring * io error unit :=
  match args with
  | [kind] =>
      match dumpRequest kind with
      | None => ([], Done (Err (cKind kind)))
      | Some req =>
          match dialControl with
          | Blocks => ([], Blocks)
          | Done (Err e) => ([], Done (Err e))
          | Done (Ok c) => let '(out, r) := runControlDump errText pid Handler exited cookie req c in (out, ioMap cClient r)
          end
      end
  | _ => ([], Done (Err (cUsage !"dump nodes|edges|subnets|connections|graph|invitations")))
  end.

(** stop, reload, retry, purge and pid. *)
Definition cmdSimple (name : gostring) : list gostring * io error unit :=
  let send req :=
    match dialControl with
    | Blocks => ([], Blocks)
    | Done (Err e) => ([], Done (Err e))
    | Done (Ok c) => ([], ioMap cClient (match (Send errText pid Handler exited cookie req [] c).2 with
                                         | Done (Ok _) => Done (Ok ())
                                         | Done (Err e) => Done (Err e)
                                         | Blocks => Blocks
                                         end))
    end in
  if bool_decide (name = !"stop") then send ReqStop
  else if bool_decide (name = !"reload") then send ReqReload
  else if bool_decide (name = !"retry") then send ReqRetry
  else if bool_decide (name = !"purge") then send ReqPurge
  else if bool_decide (name = !"pid") then
    match os.ReadFile fs (paths.PIDFile p runDir) with
    | Err e => ([], Done (Err (cOS e)))
    | Ok pidBytes => match ParsePIDFile pidBytes with
                     | Err e => ([], Done (Err (cPID e)))
                     | Ok pf => ([Itoa (PID pf) ++ [nl]], Done (Ok ()))
                     end
    end
  else ([], Done (Err (cInternal name))).

(** The arguments of top; [seconds] stands for [strconv.ParseFloat] and the
    conversion to a duration. *)
Fixpoint topArgs (seconds : gostring -> option Z) (args : list gostring) (interval : Z) (once : bool) : result error (Z * bool) :=
  match args with
  | [] => Ok (interval, once)
  | a :: args =>
      if bool_decide (a = !"-i") then
        match args with
        | [] => Err cNeedsSeconds
        | v :: args => match seconds v with
                       | Some i => topArgs seconds args i once
                       | None => Err cSeconds
                       end
        end
      else if bool_decide (a = !"--once") then topArgs seconds args interval true
      else Err (cUnknownArg a)
  end.

(** One round of [cmdTop]. *)
Definition clearScreen : gostring := to_byte 27 :: !"[2J" ++ to_byte 27 :: !"[H".

Definition topRound (now : Z) (once : bool) : list gostring * io error unit :=
  match dialControl with
  | Blocks => ([], Blocks)
  | Done (Err e) => ([], Done (Err e))
  | Done (Ok c) =>
      let head := (if once then [] else [clearScreen]) ++ [topHeader] in
      match Send errText pid Handler exited cookie ReqDumpTraffic [] c with
      | (_, Blocks) => (head, Blocks)
      | (_, Done (Err e)) => (head, Done (Err (cClient e)))
      | (c, Done (Ok first)) =>
          let '(out, r) := topLoop now c (terminator ReqDumpTraffic) (TrimRightCRLF first) (linesOf c) in
          (head ++ out, ioMap cClient r)
      end
  end.

(** The rounds of [cmdTop]: the clock of each, the last one before a signal
    cancels the wait after it. *)
Fixpoint topRounds (once : bool) (now : Z) (later : list Z) : list gostring * io error unit :=
  let '(out, r) := topRound now once in
  match r with
  | Done (Ok _) =>
      if once then (out, Done (Ok ()))
      else match later with
           | [] => (out, Done (Ok ()))
           | now :: later => let '(out', r) := topRounds once now later in (out ++ out', r)
           end
  | r => (out, r)
  end.

Definition cmdTop (seconds : gostring -> option Z) (args : list gostring) (now : Z) (later : list Z) : list gostring * io error unit :=
  match topArgs seconds args time.Second false with
  | Err e => ([], Done (Err e))
  | Ok (_, once) => topRounds once now later
  end.
End commands.

(** The command a name stands for; export and fsck take no arguments, import
    reads the standard input. *)
Inductive command :=
| CInit (args : list gostring) | CGet (args : list gostring) | CSet (args : list gostring) | CAdd (args : list gostring)
| CDel (args : list gostring) | CExport | CImport | CInvite (args : list gostring) | CJoin (args : list gostring)
| CDump (args : list gostring) | CFsck | CPcap (args : list gostring) | CTop (args : list gostring) | CSimple (name : gostring).

Definition dispatch (cmd : gostring) (args : list gostring) : option command :=
  if bool_decide (cmd = !"init") then Some (CInit args)
  else if bool_decide (cmd = !"get") then Some (CGet args)
  else if bool_decide (cmd = !"set") then Some (CSet args)
  else if bool_decide (cmd = !"add") then Some (CAdd args)
  else if bool_decide (cmd = !"del") then Some (CDel args)
  else if bool_decide (cmd = !"export") then Some CExport
  else if bool_decide (cmd = !"import") then Some CImport
  else if bool_decide (cmd = !"invite") then Some (CInvite args)
  else if bool_decide (cmd = !"join") then Some (CJoin args)
  else if bool_decide (cmd = !"dump") then Some (CDump args)
  else if bool_decide (cmd = !"fsck") then Some CFsck
  else if bool_decide (cmd = !"pcap") then Some (CPcap args)
  else if bool_decide (cmd = !"top") then Some (CTop args)
  else if bool_decide (cmd ∈ [!"stop"; !"reload"; !"retry"; !"purge"; !"pid"]) then Some (CSimple cmd)
  else None.

(** [cmdSimple]'s last branch is never reached from the command line. *)
Lemma dispatch_simple cmd args name : dispatch cmd args = Some (CSimple name) ->
  name = cmd /\ name ∈ [!"stop"; !"reload"; !"retry"; !"purge"; !"pid"].
Proof. unfold dispatch. intros E. repeat case_bool_decide; simplify_eq. done. Qed.

(** ** The commands against a running daemon *)

Section running.
Context {R : Type} `{Reconciler R, Unicode, Ed25519, X509, WGTypes, MapOrder}.
Context (errText : control.error -> gostring) (pid : Z) (nodeName : gostring) (buf : bytes).
Context (bcast : nat -> message.Envelope -> option nat) (k : nat) (now : nat -> Z).
Context (loadText : daemon.error -> gostring) (gossipText : gossip.error -> gostring).
Context (connect : gostring -> option (conn (events.Daemon R))) (fs : FS) (p : Paths) (runDir : gostring).
Implicit Types d : events.Daemon R.

(** The server's handler is the daemon's. *)
Definition handler : option (Message -> events.Daemon R -> events.Daemon R * bytes * option gostring) :=
  Some (events.controlHandler bcast k now loadText gossipText).

(** The daemon wrote its PID file and listens on its socket, in state [d]. *)
Record listens d : Prop := {
  li_pid : 0 <= pid <= max_int64;
  li_name : token nodeName;
  li_cookie : length buf = 32%nat;
  li_file : os.ReadFile fs (paths.PIDFile p runDir) = Ok (encodePIDFile (MkPIDFile pid (NewCookie buf)));
  li_socket : connect (ControlSocket p runDir) = Some (accept errText pid nodeName d);
  li_alive : events.dExited d = false
}.

Lemma dialControl_listens d : listens d ->
  dialControl errText pid handler events.dExited (NewCookie buf) connect fs p runDir = Done (Ok (MkConn Serves d [])).
Proof.
  intros [Hp Hn Hb Hf Hs _]. unfold dialControl. rewrite Hf, ParsePIDFile_encode.
  - rewrite Hs. cbn [Cookie]. by rewrite (Dial_accept errText pid handler nodeName (NewCookie buf) events.dExited buf d).
  - apply token_plain; [|apply NewCookie_plain]. cbn [Cookie]. intros E%base64_lemmas.EncodeToString_nil. by subst buf.
  - cbn [PID]. unfold is_int64. unfold max_int64 in Hp. unfold min_int64, max_int64. lia.
Qed.

(** The rows the daemon holds for a dump request. *)
Definition dumpRows (t : Z) d : list (list gostring) :=
  let g := gossip.G (events.dPlane d) in
  if t =? ReqDumpNodes then (fun n => [n]) <$> graph.Nodes k g
  else if t =? ReqDumpEdges then (fun e => [graph.From e; graph.To e; Itoa (graph.Weight e)]) <$> graph.Edges k g
  else (fun so => [so.1; so.2]) <$> map_order k (graph.AllSubnets k g).

Definition rowLine (t : Z) (fields : list gostring) : gostring := joinSp (Itoa ClassRequest :: Itoa t :: fields).

Lemma controlHandler_rows t d : t = ReqDumpNodes \/ t = ReqDumpEdges \/ t = ReqDumpSubnets ->
  events.controlHandler bcast k now loadText gossipText (MkMessage ClassRequest t []) d
  = (d, unlines ((rowLine t <$> dumpRows t d) ++ [terminator t]), None).
Proof.
  intros Ht. rewrite unlines_app. unfold unlines at 2. rewrite bind_singleton.
  assert (forall A (f : A -> list gostring) l, (l ≫= fun x => events.line t (f x)) = unlines (rowLine t <$> (f <$> l))) as Hl.
  { intros A f l. induction l as [|x l IH]; [done|]. rewrite !fmap_cons, unlines_cons, bind_cons, IH.
    unfold events.line, rowLine. by rewrite <- app_assoc. }
  destruct Ht as [->|[-> | ->]]; cbn [events.controlHandler Type' Z.eqb Pos.eqb ReqStop ReqReload ReqDumpNodes ReqDumpEdges ReqDumpSubnets];
    (f_equal; f_equal; f_equal; apply Hl).
Qed.

Lemma dumpRequest_range kind t : dumpRequest kind = Some t ->
  (t ∈ [ReqDumpNodes; ReqDumpEdges; ReqDumpSubnets]) \/ t = ReqDumpConnections \/ t = ReqDumpGraph \/ t = ReqDumpInvitations.
Proof.
  unfold dumpRequest. destruct (_ || _); [intros [= <-]; left; apply list_elem_of_here|].
  destruct (bool_decide (kind = !"edges")); [intros [= <-]; left; apply list_elem_of_further, list_elem_of_here|].
  destruct (bool_decide (kind = !"subnets")); [intros [= <-]; left; do 2 apply list_elem_of_further; apply list_elem_of_here|].
  destruct (bool_decide (kind = !"connections")); [intros [= <-]; auto|].
  destruct (bool_decide (kind = !"graph")); [intros [= <-]; auto|].
  destruct (bool_decide (kind = !"invitations")); [intros [= <-]; auto|done].
Qed.

Lemma controlHandler_default t kind d : dumpRequest kind = Some t -> t ∉ [ReqDumpNodes; ReqDumpEdges; ReqDumpSubnets] ->
  events.controlHandler bcast k now loadText gossipText (MkMessage ClassRequest t []) d = (d, rowLine t [!"0"] ++ [nl], None).
Proof.
  intros Ek Hn. destruct (dumpRequest_range kind t Ek) as [Hin|[-> |[-> | ->]]]; [by destruct Hn|reflexivity..].
Qed.

Lemma dumpRows_ne t d : Forall (fun r => r <> []) (dumpRows t d).
Proof. unfold dumpRows. repeat case_match; apply Forall_fmap, Forall_true; done. Qed.

Lemma rowLine_clean t fields : Forall (fun f => (nl ∉ f) /\ (cr ∉ f)) fields -> fields <> [] -> dumpLine t (rowLine t fields).
Proof.
  intros Hf Hne. destruct (terminator_clean t) as [T1 T2].
  assert (rowLine t fields = terminator t ++ sp :: joinSp fields) as E.
  { unfold rowLine, terminator. destruct fields as [|f fs']; [done|].
    change (joinSp (?a :: ?b :: ?c :: ?l)) with (a ++ sp :: b ++ sp :: joinSp (c :: l)).
    change (joinSp [?a; ?b]) with (a ++ sp :: b). by rewrite <- app_assoc. }
  assert ((nl ∉ joinSp fields) /\ (cr ∉ joinSp fields)) as [J1 J2].
  { clear E Hne. induction Hf as [|f fs' [Hf1 Hf2] _ [IH1 IH2]]; [split; apply not_elem_of_nil|].
    destruct fs' as [|g fs']; [done|]. change (joinSp (f :: g :: fs')) with (f ++ sp :: joinSp (g :: fs')).
    rewrite !not_elem_of_app, !not_elem_of_cons. done. }
  unfold dumpLine. rewrite E, !not_elem_of_app, !not_elem_of_cons. split_and!; try done.
  intros E2%(f_equal length). rewrite length_app in E2. cbn [length] in E2. lia.
Qed.

(** C23.  Dumping.  Against a running daemon, [dump nodes] (or [reachable]),
    [dump edges] and [dump subnets] end, leave the daemon as it is, and print
    exactly one line per node, edge or subnet the daemon holds, in its own
    order, provided no name among them holds a line end.  The nodes are all
    of the daemon's graph, whether it can reach them or not, under both names
    of the command, although its usage text says "list reachable nodes" (see
    [dump_lists_unreachable]).  [dump connections],
    [dump graph] and [dump invitations], which the daemon answers with its
    default reply, print that one line and never end: the client waits for a
    terminator that the daemon does not send.  Any other kind is refused
    before the socket is opened. *)
Theorem dump_command d kind : listens d ->
  let run := cmdDump errText pid handler events.dExited (NewCookie buf) connect fs p runDir [kind] in
  match dumpRequest kind with
  | None => run = ([], Done (Err (cKind kind)))
  | Some t =>
      if bool_decide (t ∈ [ReqDumpNodes; ReqDumpEdges; ReqDumpSubnets]) then
        Forall (Forall (fun f => (nl ∉ f) /\ (cr ∉ f))) (dumpRows t d) ->
        run = ((fun row => rowLine t row ++ [nl]) <$> dumpRows t d, Done (Ok ()))
      else run = ([rowLine t [!"0"] ++ [nl]], Blocks)
  end.
Proof.
  intros Hd. unfold cmdDump. destruct (dumpRequest kind) as [t|] eqn:Ek; [|done]. cbv zeta.
  rewrite (dialControl_listens d Hd).
  assert (is_int64 t) as Ht.
  { unfold dumpRequest in Ek. repeat case_match; simplify_eq; by vm_compute. }
  case_bool_decide as Hin.
  - intros Hc. assert (t = ReqDumpNodes \/ t = ReqDumpEdges \/ t = ReqDumpSubnets) as Ht3 by set_solver.
    rewrite (runControlDump_rows errText pid handler (NewCookie buf) events.dExited t d d (rowLine t <$> dumpRows t d) _ Ht eq_refl).
    + cbn [ioMap err_map]. by rewrite <- list_fmap_compose.
    + apply Forall_fmap. eapply Forall_impl; [exact (proj2 (Forall_and _ _) (conj Hc (dumpRows_ne t d)))|].
      intros fields [Hf1 Hf2]. by apply rowLine_clean.
    + by apply controlHandler_rows.
  - rewrite (runControlDump_blocks errText pid handler (NewCookie buf) events.dExited t d d (rowLine t [!"0"]) _ Ht eq_refl); [done|..].
    + apply rowLine_clean; [|done]. apply Forall_singleton. split; apply (bool_decide_unpack _); vm_compute; exact I.
    + by eapply controlHandler_default.
    + apply Hd.
Qed.

(** *** top *)

(** The statistics the daemon answers with, and the fields of a line. *)
Definition traffic d : list dataplane.TrafficStats :=
  match events.dRec d, rec_stats with
  | Some r, Some f => match f r with Ok l => l | Err _ => [] end
  | _, _ => []
  end.
Definition statFields (st : dataplane.TrafficStats) : list gostring :=
  [dataplane.SPeer st; Itoa (dataplane.RxBytes st); Itoa (dataplane.TxBytes st); Itoa (dataplane.LastHandshake st)].

(** The row of a peer. *)
Definition statRow (now : Z) (st : dataplane.TrafficStats) : gostring :=
  fmt.padRight 20 (dataplane.SPeer st) ++ sp :: fmt.padLeft 12 (Itoa (dataplane.RxBytes st)) ++ sp ::
  fmt.padLeft 12 (Itoa (dataplane.TxBytes st)) ++ sp :: formatHandshake now (Itoa (dataplane.LastHandshake st)) ++ [nl].

Lemma controlHandler_traffic d :
  events.controlHandler bcast k now loadText gossipText (MkMessage ClassRequest ReqDumpTraffic []) d
  = (d, unlines ((rowLine ReqDumpTraffic <$> (statFields <$> traffic d)) ++ [terminator ReqDumpTraffic]), None).
Proof.
  assert (forall l, (l ≫= events.statLine ReqDumpTraffic) = unlines (rowLine ReqDumpTraffic <$> (statFields <$> l))) as Hl.
  { intros l. induction l as [|x l IH]; [done|]. rewrite !fmap_cons, unlines_cons, bind_cons, IH.
    unfold events.statLine, events.line, rowLine, statFields. by rewrite <- app_assoc. }
  rewrite unlines_app, <- Hl. reflexivity.
Qed.

Lemma topRow_stat clock st : token (dataplane.SPeer st) -> topRow clock (rowLine ReqDumpTraffic (statFields st)) = [statRow clock st].
Proof.
  intros Hp. unfold topRow, rowLine. rewrite Fields_joinSp; [done|].
  unfold statFields. do 2 (apply List.Forall_cons; [apply Itoa_token|]). apply List.Forall_cons; [done|].
  do 3 (apply List.Forall_cons; [apply Itoa_token|]). apply List.Forall_nil.
Qed.

Lemma token_no_cr t : token t -> cr ∉ t.
Proof.
  intros [_ Hf] (i & Hi)%list_elem_of_lookup_1. rewrite Forall_forall in Hf.
  assert (i ∈ seq 0 (length t)) as Hin by (apply elem_of_seq; apply lookup_lt_Some in Hi; lia).
  specialize (Hf i Hin). cbv beta in Hf. rewrite (drop_S _ _ _ Hi) in Hf. discriminate Hf.
Qed.

Lemma statFields_clean st : token (dataplane.SPeer st) -> Forall (fun f => (nl ∉ f) /\ (cr ∉ f)) (statFields st).
Proof.
  intros Hp. assert (forall f, token f -> (nl ∉ f) /\ (cr ∉ f)) as Ht.
  { intros f Hf. split; [by apply token_no_nl|by apply token_no_cr]. }
  unfold statFields. apply List.Forall_cons; [by apply Ht|]. do 3 (apply List.Forall_cons; [apply Ht, Itoa_token|]). apply List.Forall_nil.
Qed.

(** C24.  One round of [top] against a running daemon ends, leaves the daemon as it
    is, and prints the header and exactly one row per peer the reconciler
    reports, in its order.  The names of the peers must be tokens, not empty
    and without white space, because [top] splits each line into fields. *)
Theorem top_command d clock once : listens d -> Forall (fun st => token (dataplane.SPeer st)) (traffic d) ->
  topRound errText pid handler events.dExited (NewCookie buf) connect fs p runDir clock once
  = ((if once then [] else [clearScreen]) ++ topHeader :: (statRow clock <$> traffic d), Done (Ok ())).
Proof.
  intros Hd Ht. unfold topRound. rewrite (dialControl_listens d Hd). set (rows := rowLine ReqDumpTraffic <$> (statFields <$> traffic d)).
  pose proof (controlHandler_traffic d) as Hh. fold rows in Hh.
  assert (Forall (dumpLine ReqDumpTraffic) rows) as Hrows.
  { unfold rows. apply Forall_fmap, Forall_fmap. eapply Forall_impl; [exact Ht|]. intros st Hst.
    apply rowLine_clean; [by apply statFields_clean|done]. }
  assert (exists first rest, unlines (rows ++ [terminator ReqDumpTraffic]) = (first ++ [nl]) ++ rest /\ nl ∉ first) as (first & rest & E & Hf).
  { destruct rows as [|l rows]; cbn [app]; rewrite unlines_cons; (eexists _, _; split; [by rewrite <- app_assoc|]).
    - apply terminator_clean.
    - apply Forall_cons in Hrows as [[? _] _]. done. }
  rewrite E in Hh. rewrite (Send_serves errText pid handler (NewCookie buf) events.dExited ReqDumpTraffic d d rest first _ ltac:(by vm_compute) eq_refl Hf Hh).
  rewrite (topLoop_reply clock ReqDumpTraffic rows (MkConn _ d rest) first rest Hrows E Hf eq_refl). cbn [ioMap err_map]. f_equal.
  rewrite <- app_assoc. cbn [app]. do 2 f_equal. unfold rows. clear -Ht. induction Ht as [|st l Hst _ IH]; [done|].
  rewrite !fmap_cons, bind_cons, (topRow_stat clock st Hst), IH. done.
Qed.

(** A reply that holds a line end is read, whatever it says. *)
Lemma Send_replied t d d' m Handle : is_int64 t -> handler = Some Handle ->
  Handle (MkMessage ClassRequest t []) d = (d', m ++ [nl], None) ->
  exists l, (Send errText pid handler events.dExited (NewCookie buf) t [] (MkConn Serves d [])).2 = Done (Ok l).
Proof.
  intros Ht HH Hh. destruct (cutByte nl (m ++ [nl])) as [[l rest]|] eqn:E.
  - apply cutByte_Some in E as [E Hl]. exists (l ++ [nl]).
    rewrite (Send_serves errText pid handler (NewCookie buf) events.dExited t d d' rest l Handle Ht HH Hl); [done|].
    rewrite Hh, E. by rewrite <- app_assoc.
  - exfalso. apply cutByte_None in E. apply E. apply elem_of_app. right. by apply list_elem_of_singleton.
Qed.

(** [reload] reports success even when the daemon answers that its
    configuration could not be loaded: the reply's text is not looked at. *)
Lemma reload_always_succeeds d : listens d ->
  cmdSimple errText pid handler events.dExited (NewCookie buf) connect fs p runDir !"reload" = ([], Done (Ok ())).
Proof.
  intros Hd. unfold cmdSimple. rewrite bool_decide_eq_false_2, bool_decide_eq_true_2 by done.
  rewrite (dialControl_listens d Hd).
  destruct (events.controlHandler bcast k now loadText gossipText (MkMessage ClassRequest ReqReload []) d) as [[d' m] r] eqn:Eh.
  assert (r = None /\ exists f, m = rowLine ReqReload f ++ [nl]) as (-> & f & ->).
  { unfold events.controlHandler in Eh. cbn [Type' Z.eqb Pos.eqb ReqStop ReqReload] in Eh.
    destruct (events.load d) as [d1 [[]|e]]; [destruct (events.announceLocal bcast k now d1) as [d2 [[]|e]]|];
      injection Eh as <- <- <-; (split; [done|by eexists]). }
  destruct (Send_replied ReqReload d d' (rowLine ReqReload f) _ ltac:(by vm_compute) eq_refl Eh) as [l ->]. done.
Qed.
End running.

(** A peer that never completed a handshake is shown with an age, not as
    "never": its zero time is not 0 as a number of nanoseconds. *)
Lemma no_handshake_has_age clock : exists age,
  formatHandshake clock (Itoa (kernel.UnixNano kernel.zeroTime)) = age ++ !" ago".
Proof.
  unfold formatHandshake. replace (bool_decide _ || bool_decide _) with false by (vm_compute; reflexivity).
  rewrite Atoi_Itoa by by vm_compute. eexists. reflexivity.
Qed.

(** ** A daemon with two nodes *)
Module demo.
Import toy gossip.demo events.demo.

Definition buf : bytes := replicate 32 (to_byte 7).
Definition noErrText (e : control.error) : gostring := [].
Definition fs : FS :=
  MkFS {[ paths.PIDFile daemon.demo.p !"/run" := MkFile (encodePIDFile (MkPIDFile 42 (NewCookie buf))) 384 ]} ∅.
Definition connect (path : gostring) : option (conn (events.Daemon fake.Reconciler)) :=
  if bool_decide (path = ControlSocket daemon.demo.p !"/run") then Some (accept noErrText 42 !"alice" d) else None.
Definition run (kind : gostring) : list gostring * io error unit :=
  cmdDump noErrText 42 (handler noErr 0 (fun n => Z.of_nat n) noText noText) events.dExited (NewCookie buf)
    connect fs daemon.demo.p !"/run" [kind].
End demo.
Import demo toy gossip.demo events.demo.

Lemma dump_command_witness :
  (exists rows, (rows = [[!"a"]; [!"b"]] \/ rows = [[!"b"]; [!"a"]]) /\
    run !"nodes" = ((fun row => rowLine ReqDumpNodes row ++ [nl]) <$> rows, Done (Ok ()))) /\
  run !"graph" = ([!"18 8 0" ++ [nl]], Blocks).
Proof.
  assert (listens noErrText 42 !"alice" buf connect fs daemon.demo.p !"/run" d) as Hl.
  { split; [unfold max_int64; lia|apply (bool_decide_unpack _); vm_compute; exact I|reflexivity|vm_compute; reflexivity|..].
    - unfold connect. by rewrite bool_decide_eq_true_2.
    - reflexivity. }
  split.
  - exists (dumpRows 0 ReqDumpNodes d). split; [vm_compute; auto|].
    apply (dump_command noErrText 42 !"alice" buf noErr 0 (fun n => Z.of_nat n) noText noText connect fs daemon.demo.p !"/run" d !"nodes" Hl).
    apply (bool_decide_unpack _). vm_compute. exact I.
  - exact (dump_command noErrText 42 !"alice" buf noErr 0 (fun n => Z.of_nat n) noText noText connect fs daemon.demo.p !"/run" d !"graph" Hl).
Defined.

(** A daemon that knows of a node without an edge to anything. *)
Definition lonely : events.Daemon fake.Reconciler :=
  events.setPlane (gossip.setG (graph.AddNode !"z" (gossip.G (events.dPlane d))) (events.dPlane d)) d.
Definition connectLonely (path : gostring) : option (conn (events.Daemon fake.Reconciler)) :=
  if bool_decide (path = ControlSocket daemon.demo.p !"/run") then Some (accept noErrText 42 !"alice" lonely) else None.
Definition runLonely (kind : gostring) : list gostring * io error unit :=
  cmdDump noErrText 42 (handler noErr 0 (fun n => Z.of_nat n) noText noText) events.dExited (NewCookie buf)
    connectLonely fs daemon.demo.p !"/run" [kind].

(** [dump nodes] and [dump reachable] print the node that the daemon cannot
    reach. *)
Theorem dump_lists_unreachable :
  (!"z" ∉ graph.Reachable (daemon.NodeName (events.dLoaded lonely)) (gossip.G (events.dPlane lonely))) /\
  runLonely !"reachable" = runLonely !"nodes" /\ (!"18 4 z" ++ [nl]) ∈ (runLonely !"nodes").1 /\
  (runLonely !"nodes").2 = Done (Ok ()).
Proof.
  split_and!; [apply (bool_decide_unpack _); vm_compute; exact I|reflexivity|apply (bool_decide_unpack _); vm_compute; exact I
              |vm_compute; reflexivity].
Qed.

(** With a reconciler that reports one peer. *)
Definition busy : events.Daemon fake.Reconciler :=
  events.setRec (Some (fake.MkReconciler [] false [dataplane.MkStats !"bob" 10 2000 30000000000])) d.
Definition connectBusy (path : gostring) : option (conn (events.Daemon fake.Reconciler)) :=
  if bool_decide (path = ControlSocket daemon.demo.p !"/run") then Some (accept noErrText 42 !"alice" busy) else None.

Lemma top_command_witness :
  topRound noErrText 42 (handler noErr 0 (fun n => Z.of_nat n) noText noText) events.dExited (NewCookie buf)
    connectBusy fs daemon.demo.p !"/run" 90000000000 true
  = ([topHeader; !"bob                            10         2000 1m0s ago" ++ [nl]], Done (Ok ())).
Proof.
  assert (listens noErrText 42 !"alice" buf connectBusy fs daemon.demo.p !"/run" busy) as Hl.
  { split; [unfold max_int64; lia|apply (bool_decide_unpack _); vm_compute; exact I|reflexivity|vm_compute; reflexivity|..].
    - unfold connectBusy. by rewrite bool_decide_eq_true_2.
    - reflexivity. }
  etrans; [apply (top_command noErrText 42 !"alice" buf noErr 0 (fun n => Z.of_nat n) noText noText connectBusy fs daemon.demo.p !"/run" busy 90000000000 true Hl)|].
  - apply List.Forall_cons; [apply (bool_decide_unpack _); vm_compute; exact I|apply List.Forall_nil].
  - vm_compute. reflexivity.
Defined.

(** A row of [top]: the columns are padded, and the handshake is an age. *)
Example top_row :
  topRow 90000000000 !"18 13 bob 10 2000 30000000000"
  = [!"bob                            10         2000 1m0s ago" ++ [nl]] /\
  topRow 90000000000 !"18 13 bob 10 2000 0" = [!"bob                            10         2000 never" ++ [nl]] /\
  topRow 90000000000 !"18 13 bob" = [].
Proof. vm_compute. auto. Qed.
End cli_control.
