(* ===== verification/Flags.v ===== *)
(** * Go's flag package, as far as the two programs use it

    A set of string and boolean flags, parsed from left to right up to the
    first argument that is not a flag. *)

From Stdlib Require Import Ascii String ZArith Lia.
From stdpp Require Import base tactics list strings.
From S2P Require Import Prelude.
From S2P Require Import GoStrings.

Local Open Scope Z_scope.

Module flag.

Inductive kind := StringFlag | BoolFlag.
#[global] Instance kind_eq_dec : EqDecision kind.
Proof. solve_decision. Defined.

Definition set : Type := list (gostring * kind).

Inductive error :=
| ErrHelp | errSyntax (arg : gostring) | errUndefined (name : gostring) | errBool (value name : gostring) | errNeedsArg (name : gostring).

Definition minus : byte := to_byte 45.
Definition equals : byte := to_byte 61.

(** [strconv.ParseBool] *)
Definition ParseBool (s : gostring) : option bool :=
  if bool_decide (s ∈ [!"1"; !"t"; !"T"; !"true"; !"TRUE"; !"True"]) then Some true
  else if bool_decide (s ∈ [!"0"; !"f"; !"F"; !"false"; !"FALSE"; !"False"]) then Some false
  else None.

(** What one argument says: not a flag, the terminator, a malformed flag, or a
    name with the value after its first equals sign. *)
Inductive shape := NotFlag | Terminator | Malformed | Named (name : gostring) (value : option gostring).

Definition shapeOf (s : gostring) : shape :=
  match s with
  | c0 :: (c1 :: rest) as tl =>
      if negb (bool_decide (c0 = minus)) then NotFlag
      else
        let name := if bool_decide (c1 = minus) then rest else tl in
        if bool_decide (c1 = minus) && bool_decide (rest = []) then Terminator
        else match name with
             | [] => Malformed
             | c :: _ =>
                 if bool_decide (c = minus) || bool_decide (c = equals) then Malformed
                 else match cutByte equals name with
                      | Some (n, v) => Named n (Some v)
                      | None => Named name None
                      end
             end
  | _ => NotFlag
  end.

Definition lookup (fs : set) (name : gostring) : option kind := snd <$> List.find (fun f => bool_decide (f.1 = name)) fs.

(** [FlagSet.Parse]: the assignments, in order, and the arguments left. *)
Fixpoint parse (fs : set) (args : list gostring) : list (gostring * gostring) * result error (list gostring) :=
  match args with
  | [] => ([], Ok [])
  | s :: args =>
      match shapeOf s with
      | NotFlag => ([], Ok (s :: args))
      | Terminator => ([], Ok args)
      | Malformed => ([], Err (errSyntax s))
      | Named name value =>
          match lookup fs name with
          | None => ([], Err (if bool_decide (name = !"help") || bool_decide (name = !"h") then ErrHelp else errUndefined name))
          | Some BoolFlag =>
              let v := default !"true" value in
              match ParseBool v with
              | None => ([], Err (errBool v name))
              | Some _ => let '(vs, r) := parse fs args in ((name, v) :: vs, r)
              end
          | Some StringFlag =>
              match value, args with
              | Some v, _ => let '(vs, r) := parse fs args in ((name, v) :: vs, r)
              | None, v :: args => let '(vs, r) := parse fs args in ((name, v) :: vs, r)
              | None, [] => ([], Err (errNeedsArg name))
              end
          end
      end
  end.

(** The value of a flag: its last assignment, or its default. *)
Definition get (vs : list (gostring * gostring)) (name dflt : gostring) : gostring :=
  foldl (fun v a => if bool_decide (a.1 = name) then a.2 else v) dflt vs.
Definition getBool (vs : list (gostring * gostring)) (name : gostring) : bool :=
  default false (ParseBool (get vs name !"false")).

(** [flag.ExitOnError] *)
Definition exitCode (e : error) : Z := match e with ErrHelp => 0 | _ => 2 end.

(** ** Facts *)

Lemma parse_notFlag fs s args : shapeOf s = NotFlag -> parse fs (s :: args) = ([], Ok (s :: args)).
Proof. intros E. cbn [parse]. by rewrite E. Qed.

(** What is left is a tail of the arguments. *)
Lemma parse_rest fs n args rest : (length args <= n)%nat -> (parse fs args).2 = Ok rest -> rest `suffix_of` args.
Proof.
  revert args. induction n as [|n IH]; intros args Hn.
  - destruct args; [|cbn in Hn; lia]. by intros [= <-].
  - destruct args as [|s args]; [by intros [= <-]|]. cbn [length] in Hn. cbn [parse].
    assert (forall l, (length l <= n)%nat -> (parse fs l).2 = Ok rest -> l `suffix_of` args -> rest `suffix_of` s :: args) as Hgo.
    { intros l Hl E Hs. apply suffix_cons_r. etrans; [by apply (IH l)|done]. }
    destruct (shapeOf s) as [| | |name value]; [by intros [= <-]|intros [= <-]; by apply suffix_cons_r|done|].
    destruct (lookup fs name) as [[|]|]; [|destruct (ParseBool _)|done].
    + destruct value as [v|]; [|destruct args as [|v args]]; [|done|].
      * destruct (parse fs args) as [vs r] eqn:E. cbn [snd]. intros ->. apply (Hgo args); [lia|by rewrite E|done].
      * destruct (parse fs args) as [vs r] eqn:E. cbn [snd]. intros ->.
        apply (Hgo args); [cbn [length] in Hn; lia|by rewrite E|by apply suffix_cons_r].
    + destruct (parse fs args) as [vs r] eqn:E. cbn [snd]. intros ->. apply (Hgo args); [lia|by rewrite E|done].
    + done.
Qed.

(** A flag name that can be written as is. *)
Definition plainName (name : gostring) : Prop :=
  match name with [] => False | c :: _ => c <> minus /\ equals ∉ name end.
#[global] Instance plainName_dec name : Decision (plainName name).
Proof. destruct name; apply _. Defined.

Lemma shapeOf_name name : plainName name -> shapeOf (minus :: name) = Named name None.
Proof.
  destruct name as [|c name]; [done|]. intros [Hc He]. unfold shapeOf. rewrite bool_decide_eq_true_2 by done. cbn [negb].
  rewrite (bool_decide_eq_false_2 (c = minus)) by done. cbn [andb orb].
  rewrite (bool_decide_eq_false_2 (c = minus)) by done.
  rewrite (bool_decide_eq_false_2 (c = equals)) by (intros ->; apply He; left). cbn [orb].
  destruct (cutByte equals (c :: name)) as [[n v]|] eqn:E; [|done]. apply cutByte_Some in E as [E _].
  exfalso. apply He. rewrite E. apply elem_of_app. right. left.
Qed.

(** A command line written out from values parses back to them: string flags
    as two arguments each, then arguments that are not flags. *)
Lemma parse_strings fs vs args : Forall (fun nv => plainName nv.1 /\ lookup fs nv.1 = Some StringFlag) vs ->
  parse fs ((vs ≫= fun nv => [minus :: nv.1; nv.2]) ++ args) = (vs ++ (parse fs args).1, (parse fs args).2).
Proof.
  induction 1 as [|[name v] vs [Hp Hl] _ IH]; [apply surjective_pairing|]. cbn [fst snd] in *.
  rewrite bind_cons. cbn [app fst snd]. cbn [parse]. rewrite (shapeOf_name name Hp), Hl. fold (parse fs). by rewrite IH.
Qed.

Example parse_ex :
  parse [(!"n", StringFlag); (!"fake", BoolFlag)] [!"-n"; !"vpn"; !"--fake"; !"-n=x"; !"run"; !"-n"]
  = ([(!"n", !"vpn"); (!"fake", !"true"); (!"n", !"x")], Ok [!"run"; !"-n"]).
Proof. vm_compute. reflexivity. Qed.
End flag.
