(* ===== verification/Programs.v ===== *)
(** * The two programs (cmd/gsnetd/main.go, cmd/gsnet/main.go)

    Both parse their flags, build the paths and hand over: the daemon program
    picks a reconciler and runs the daemon, the command-line program dispatches
    its first argument.  What is modelled is which of these happens and with
    what, and the exit status. *)

From Stdlib Require Import Ascii String ZArith Lia.
From stdpp Require Import base tactics list gmap strings.
From S2P Require Import Prelude.
From S2P Require Import GoStrings.
From S2P Require Import FS.
From S2P Require Import Graph.
From S2P Require Import NetIP.
From S2P Require Import Keys.
From S2P Require Import Message.
From S2P Require Import Gossip.
From S2P Require Import Transport.
From S2P Require Import TransportWire.
From S2P Require Import Dataplane.
From S2P Require Import Daemon.
From S2P Require Import Sandbox.
From S2P Require Import Script.
From S2P Require Import DaemonEvents.
From S2P Require Import DaemonRun.
From S2P Require Import DaemonInit.
From S2P Require Import CliControl.
From S2P Require Import Flags.

Local Open Scope Z_scope.

(** A value of the interface type [dataplane.Reconciler] that holds one of two
    implementations. *)
#[global] Instance sum_reconciler {A B} `{Reconciler A, Reconciler B} : Reconciler (A + B) := {
  rec_apply := fun s r => match r with
                          | inl a => let '(a, res) := rec_apply s a in (inl a, res)
                          | inr b => let '(b, res) := rec_apply s b in (inr b, res)
                          end;
  rec_shutdown := fun r => match r with
                           | inl a => let '(a, res) := rec_shutdown a in (inl a, res)
                           | inr b => let '(b, res) := rec_shutdown b in (inr b, res)
                           end;
  rec_stats := Some (fun r => match r with
                              | inl a => match rec_stats with Some f => f a | None => Ok [] end
                              | inr b => match rec_stats with Some f => f b | None => Ok [] end
                              end)
}.

#[refine, global] Instance sum_spec {A B} `{ReconcilerSpec A, ReconcilerSpec B} : ReconcilerSpec (A + B) := {
  realises := fun s r => match r with inl a => realises s a | inr b => realises s b end
}.
Proof.
  intros s [a|b] r' Hr; cbn in Hr.
  - destruct (rec_apply s a) as [a' res] eqn:E. injection Hr as <- ->. by eapply rec_apply_realises.
  - destruct (rec_apply s b) as [b' res] eqn:E. injection Hr as <- ->. by eapply rec_apply_realises.
Defined.

(** ** gsnetd *)
Module gsnetd.
Import paths events run.

Definition flags : flag.set :=
  [(!"n", flag.StringFlag); (!"c", flag.StringFlag); (!"r", flag.StringFlag); (!"l", flag.StringFlag);
   (!"D", flag.BoolFlag); (!"fake", flag.BoolFlag)].

(** What the flags say. *)
Record options := MkOptions { oPaths : Paths; oRunDir : gostring; oListen : gostring; oFake : bool }.

Definition options_of (vs : list (gostring * gostring)) : options :=
  MkOptions (MkPaths (flag.get vs !"c" !"/etc/gsnet") (flag.get vs !"n" [])) (flag.get vs !"r" !"/run")
    (flag.get vs !"l" !":51820") (flag.getBool vs !"fake").

Section main.
(** [L] is the Linux reconciler. *)
Context {L : Type} `{ReconcilerSpec L, Unicode, Ed25519, X509, WGTypes, MapOrder, sandbox.OS}.
Context (bcast : nat -> message.Envelope -> option nat) (k : nat) (now : nat -> Z).
Context (exec : script.command -> bytes * option gostring) (environ : list gostring).

(** The fields that [main] leaves out are zero. *)
Definition zeroLoaded : daemon.loaded :=
  daemon.MkLoaded [] [] (keys.MkPriv []) (keys.MkWGPriv (replicate 32 (to_byte 0))) dataplane.ModeSwitch [] 0 [] 0 0 0
    netip.PrefixZero netip.PrefixZero [].

Definition newDaemon (o : options) (rec : fake.Reconciler + L) (fs : FS) : Daemon (fake.Reconciler + L) :=
  MkDaemon (oPaths o) (oRunDir o) (Some rec) zeroLoaded (gossip.NewPlane [] graph.New) (transport.MkServer ∅)
    netip.AddrPortZero fs false.

(** [newLinux] is what [dplinux.New] returns; nothing of it is used with
    [-fake]. *)
Definition chooseReconciler (o : options) (newLinux : result gostring L) : result gostring (fake.Reconciler + L) :=
  if oFake o then Ok (inl fake.New) else inr <$> newLinux.

(** The exit status of a run: a panic exits with 2, an error with 1; a run
    that hangs has none. *)
Definition status (o : outcome run.error unit) : option Z :=
  match o with
  | Fine _ | Exits => Some 0
  | Fails errNilReconciler => Some 2
  | Fails _ => Some 1
  | Hangs => None
  end.

(** The world in which the daemon is started. *)
Definition launch (o : options) (rec : fake.Reconciler + L) (fs : FS) (os : sandbox.W) : world :=
  MkWorld (newDaemon o rec fs) os [] (transport_wire.MkListening [] None false false).

(** The world after the daemon ran, if it was started, and the exit status.
    SIGINT and SIGTERM cancel the context; they are among the reasons for
    which serving ends. *)
Definition main (args : list gostring) (newLinux : result gostring L) (a : answers) (fs : FS) (os : sandbox.W)
  : option (@world (fake.Reconciler + L) _) * option Z :=
  match flag.parse flags args with
  | (_, Err e) => (None, Some (flag.exitCode e))
  | (vs, Ok _) =>
      let o := options_of vs in
      match chooseReconciler o newLinux with
      | Err _ => (None, Some 1)
      | Ok rec =>
          let '(w, out) := Run bcast k now exec environ (oListen o) a (launch o rec fs os) in
          (Some w, status out)
      end
  end.




(** With [-fake] the Linux reconciler is never made. *)
Lemma main_fake args l1 l2 a fs os : oFake (options_of (flag.parse flags args).1) = true ->
  main args l1 a fs os = main args l2 a fs os.
Proof. unfold main, chooseReconciler. destruct (flag.parse flags args) as [vs [rest|e]]; cbn [fst]; [by intros ->|done]. Qed.
End main.
End gsnetd.

(** ** gsnet *)
Module gsnet.
Import paths cli_control.

Definition flags : flag.set :=
  [(!"n", flag.StringFlag); (!"c", flag.StringFlag); (!"r", flag.StringFlag); (!"b", flag.BoolFlag)].

Section main.
(** The commands, as the other files have them. *)
Context {W : Type} (perform : Paths -> gostring -> command -> W -> W * result gostring unit).

Definition main (args : list gostring) (w : W) : W * Z :=
  match flag.parse flags args with
  | (_, Err e) => (w, flag.exitCode e)
  | (_, Ok []) => (w, 2)
  | (vs, Ok (cmd :: rest)) =>
      let p := MkPaths (flag.get vs !"c" !"/etc/gsnet") (flag.get vs !"n" []) in
      match dispatch cmd rest with
      | None => (w, 1)
      | Some c => let '(w, r) := perform p (flag.get vs !"r" !"/run") c w in (w, if is_ok r then 0 else 1)
      end
  end.

(** The global flags, in any order and number, select the tree and the
    run directory for the command that follows; flags after the command belong
    to the command, whatever they are called; the exit status is 0 exactly if
    the command succeeded, and an unknown command does nothing. *)
Theorem gsnet_main vs cmd rest w :
  Forall (fun nv => nv.1 ∈ [!"n"; !"c"; !"r"]) vs -> flag.shapeOf cmd = flag.NotFlag ->
  main ((vs ≫= fun nv => [flag.minus :: nv.1; nv.2]) ++ cmd :: rest) w =
  match dispatch cmd rest with
  | None => (w, 1)
  | Some c =>
      let '(w, r) := perform (MkPaths (flag.get vs !"c" !"/etc/gsnet") (flag.get vs !"n" [])) (flag.get vs !"r" !"/run") c w in
      (w, if is_ok r then 0 else 1)
  end.
Proof.
  intros Hvs Hc. unfold main. rewrite flag.parse_strings.
  - rewrite flag.parse_notFlag by done. cbn [fst snd]. by rewrite app_nil_r.
  - eapply Forall_impl; [exact Hvs|]. intros [n v] Hn. cbn [fst] in *.
    rewrite !elem_of_cons in Hn. destruct_or! Hn; try subst n; try (by apply elem_of_nil in Hn);
      (split; [apply (bool_decide_unpack _); vm_compute; exact I|reflexivity]).
Qed.
End main.

(** A command that notes which tree it works on. *)
Definition noting (p : Paths) (r : gostring) (c : command) (w : list (gostring * gostring))
  : list (gostring * gostring) * result gostring unit := ((ConfRoot p, Netname p) :: w, Ok ()).

Lemma gsnet_main_witness :
  main noting [!"-n"; !"vpn"; !"-c"; !"/tmp/t"; !"get"; !"-n"] [] = ([(!"/tmp/t", !"vpn")], 0).
Proof.
  apply (gsnet_main noting [(!"n", !"vpn"); (!"c", !"/tmp/t")] !"get" [!"-n"] []).
  - apply (bool_decide_unpack _). vm_compute. exact I.
  - reflexivity.
Defined.
End gsnet.

(** ** A run on a tree that init created *)
Module demo.
Import toy gossip.demo sandbox sandbox.demo.

Definition outside : @run.answers (fake.Reconciler + fake.Reconciler) :=
  run.MkAnswers (fun _ => Ok !"[::]:51820") (Some (replicate 32 (to_byte 1))) 42 18 None None (fun d => (d, None)) true.
Definition tree : FS := MkFS (files init_lemmas.demo.fs') ({[ !"/run" ]} ∪ dirs init_lemmas.demo.fs').
Definition silent : @run.answers (fake.Reconciler + fake.Reconciler) :=
  run.MkAnswers (run.aListen outside) (run.aRandom outside) 42 18 None None (fun d => (d, None)) false.
Definition gsnetd (args : list gostring) (a : @run.answers (fake.Reconciler + fake.Reconciler)) :=
  @gsnetd.main fake.Reconciler _ _ _ _ _ _ toyOS noErr 0 (fun n => Z.of_nat n) (fun _ => ([], None)) [] args (Err []) a tree start.

(** A run that serves to its end: the listener is closed, the reconciler is
    shut down, and of the two files it made none is left. *)
Definition ran := gsnetd [!"-n"; !"vpn"; !"-fake"] outside.
Example serves_to_the_end : ran.2 = Some 0 /\
  ((fun w => transport_wire.listening (run.wListen w)) <$> ran.1) = Some false /\
  ((fun w => match events.dRec (run.wD w) with Some (inl r) => fake.Closed r | _ => false end) <$> ran.1) = Some true /\
  ((fun w => bool_decide ((dom (files (events.dFS (run.wD w))) : gset gostring) = dom (files tree))) <$> ran.1) = Some true.
Proof. split_and!; vm_compute; reflexivity. Qed.
(** A peer that connects and says nothing keeps the transport from closing. *)
Example hangs : (gsnetd [!"-n"; !"vpn"; !"-fake"] silent).2 = None.
Proof. vm_compute. reflexivity. Qed.
Example needs_linux : (gsnetd [!"-n"; !"vpn"] outside).2 = Some 1.
Proof. vm_compute. reflexivity. Qed.
Example unknown_flag : (gsnetd [!"-x"] outside).2 = Some 2.
Proof. vm_compute. reflexivity. Qed.
End demo.
