(* ===== verification/Report.v ===== *)
(** * What the commands print (internal/daemon/fsck.go: String, messages;
      cmd/gsnet/main.go: cmdFsck, cmdJoin)

    The text of a finding of [Fsck] and of the lines of the other commands,
    with Go's quoting ([%q]).  The texts of errors that findings carry along
    are arguments, apart from those of package os. *)

From Stdlib Require Import Ascii String ZArith Lia.
From stdpp Require Import base tactics list gmap strings.
From S2P Require Import Prelude.
From S2P Require Import GoStrings.
From S2P Require Import FS.
From S2P Require Import NetIP.
From S2P Require Import Config.
From S2P Require Import NodeName.
From S2P Require Import Subnet.
From S2P Require Import Keys.
From S2P Require Import Daemon.
From S2P Require Import DaemonInit.
From S2P Require Import Cli.

Local Open Scope Z_scope.

(** ** strconv.Quote *)
Module strconv.

Definition quote : byte := to_byte 34.
Definition backslash : byte := to_byte 92.

Definition hexByte (b : Z) : gostring := [netip.hexChar (b / 16); netip.hexChar (b mod 16)].
Definition hexRune (digits : nat) (r : Z) : gostring :=
  (fun i : nat => netip.hexChar ((r / 16 ^ Z.of_nat i) mod 16)) <$> reverse (seq 0 digits).

(** [unicode.IsPrint] beyond ASCII. *)
Section quote.
Context (printable : Z -> bool).

Definition isPrint (r : Z) : bool := if r <? 0x80 then (0x20 <=? r) && (r <? 0x7F) else printable r.

Definition escape (r : Z) : gostring :=
  if (r =? 34) || (r =? 92) then [backslash; to_byte r]
  else if isPrint r then encodeRune r
  else if r =? 7 then !"\a" else if r =? 8 then !"\b" else if r =? 12 then !"\f" else if r =? 10 then !"\n"
  else if r =? 13 then !"\r" else if r =? 9 then !"\t" else if r =? 11 then !"\v"
  else if (r <? 0x20) || (r =? 0x7F) then !"\x" ++ hexByte r
  else if r <? 0x10000 then !"\u" ++ hexRune 4 r
  else !"\U" ++ hexRune 8 r.

(** A byte that is not UTF-8 is written as its code. *)
Fixpoint quoteFrom (skip : nat) (s : gostring) : gostring :=
  match s with
  | [] => []
  | b :: t =>
      match skip with
      | S k => quoteFrom k t
      | O => let '(r, w) := decodeRune s in
             (if (r =? RuneError) && bool_decide (w = 1%nat) then !"\x" ++ hexByte (byte_val b) else escape r)
             ++ quoteFrom (pred w) t
      end
  end.

Definition Quote (s : gostring) : gostring := quote :: quoteFrom 0 s ++ [quote].
End quote.

(** [%o] *)
Fixpoint octal (fuel : nat) (n : Z) : gostring :=
  match fuel with
  | O => []
  | S fuel => if n <? 8 then [to_byte (48 + n)] else octal fuel (n / 8) ++ [to_byte (48 + n mod 8)]
  end.

Example quote_ex : Quote (fun _ => true) [to_byte 97; quote; nl; to_byte 255; to_byte 127] =
  quote :: !"a\" ++ quote :: !"\n\xff\x7f" ++ [quote].
Proof. vm_compute. reflexivity. Qed.
Example octal_ex : octal 20 420 = !"644".
Proof. vm_compute. reflexivity. Qed.
End strconv.

(** ** Findings *)
Module report.
Import fsck strconv cli.

Section report.
Context (printable : Z -> bool).
Context (configText : config.error -> gostring) (nameText : nodename.error -> gostring)
        (subnetText : subnet.error -> gostring) (keysText : keys.error -> gostring).

Definition errnoText (e : osError) : gostring :=
  match e with
  | ENOENT => !"no such file or directory"
  | EISDIR => !"is a directory"
  | EEXIST => !"file exists"
  | ENOTDIR => !"not a directory"
  end.
(** [*fs.PathError] *)
Definition pathError (op path : gostring) (e : osError) : gostring := op ++ !" " ++ path ++ !": " ++ errnoText e.
(** Opening a directory succeeds, reading it does not. *)
Definition readError (path : gostring) (e : osError) : gostring :=
  pathError (if bool_decide (e = EISDIR) then !"read" else !"open") path e.

Definition q (s : gostring) : gostring := Quote printable s.

Definition messageText (path : gostring) (m : message) : gostring :=
  match m with
  | CannotStat e => !"cannot stat: " ++ pathError !"stat" path e
  | FoundDirectory => !"expected file, found directory"
  | ParseFailed e => !"parse: " ++ configText e
  | NameRequired => !"Name is required"
  | NameInvalid e => !"Name invalid: " ++ nameText e
  | SubnetInvalid s e => !"Subnet " ++ q s ++ !" invalid: " ++ subnetText e
  | KeyMissing label e => label ++ !" key missing: " ++ pathError !"stat" path e
  | KeyLoose label perm => label ++ !" key has loose permissions " ++ octal 20 perm ++ !"; expected 0600"
  | KeyRead label e => label ++ !" key read: " ++ readError path e
  | KeyParse label e => label ++ !" key parse: " ++ keysText e
  | HostMissing e => !"missing: " ++ readError path e
  | Ed25519Mismatch => !"Ed25519PublicKey does not match the local private key"
  | WGMismatch => !"WGPublicKey does not match the local private key"
  | ConnectToInvalid target e => !"ConnectTo " ++ q target ++ !" invalid name: " ++ nameText e
  | ConnectToMissing target => !"ConnectTo " ++ q target ++ !" referenced but " ++ path ++ !" missing"
  end.

Definition String (f : FsckFinding) : gostring :=
  let tag := match Level f with FsckOK => !"OK" | FsckWarning => !"WARNING" | FsckError => !"ERROR" end in
  if bool_decide (Path f = []) then tag ++ !": " ++ messageText (Path f) (Message f)
  else tag ++ !": " ++ Path f ++ !": " ++ messageText (Path f) (Message f).

(** One piece of a command's standard output. *)
Definition render (o : output) : bytes :=
  match o with
  | Text s => s
  | FindingLine f => String f ++ [nl]
  | JoinedLine netname name inviter =>
      !"joined network " ++ q netname ++ !" as " ++ q name ++ !" via " ++ inviter ++ [nl]
  end.

Lemma String_error f : HasPrefix (String f) !"ERROR: " = isError f.
Proof. unfold String, isError. destruct (Level f); case_bool_decide; reflexivity. Qed.

(** The printed report tells the result: [fsck] fails exactly if one of the
    pieces it prints begins with the tag of an error. *)
Lemma fsck_report `{Unicode, Ed25519, X509, WGTypes} p fs :
  let '(w, r) := cmdFsck p (MkWorld fs []) in
  wfs w = fs /\
  (is_ok r = false <-> exists piece, piece ∈ render <$> stdout w /\ HasPrefix piece !"ERROR: " = true).
Proof.
  unfold cmdFsck. cbn [wfs stdout app]. split; [done|]. set (fl := filter _ _).
  assert (fl = [] <-> ~ exists piece, piece ∈ render <$> (FindingLine <$> Fsck fs p) /\ HasPrefix piece !"ERROR: " = true) as Hfl.
  { assert (forall f, HasPrefix (render (FindingLine f)) !"ERROR: " = isError f) as Hr.
    { intros f. rewrite <- String_error. cbn [render]. unfold String. destruct (Level f); case_bool_decide; reflexivity. }
    unfold fl. clear fl. induction (Fsck fs p) as [|f l IH]; [split; [|done]; intros _ (x & Hx & _); by apply elem_of_nil in Hx|].
    rewrite filter_cons. destruct (decide (isError f = true)) as [Hf|Hf].
    - split; [done|]. intros Hno. exfalso. apply Hno. exists (render (FindingLine f)). split; [left|]. by rewrite Hr.
    - rewrite IH. split; intros Hno (x & Hx & Hp); apply Hno; exists x; (split; [|done]); [|by right].
      rewrite !fmap_cons in Hx. apply elem_of_cons in Hx as [->|Hx]; [by rewrite Hr in Hp|done]. }
  case_bool_decide as Hl; cbn [is_ok].
  - apply nil_length_inv in Hl. split; [done|]. intros Hex. by apply Hfl in Hl.
  - split; [intros _|done]. destruct (decide (Exists (fun piece => HasPrefix piece !"ERROR: " = true)
      (render <$> (FindingLine <$> Fsck fs p)))) as [He|He].
    + apply Exists_exists in He as (x & Hx & Hp). eauto.
    + exfalso. apply Hl. rewrite (proj2 Hfl); [done|]. intros (x & Hx & Hp). apply He, Exists_exists. eauto.
Qed.
End report.

Import toy.

Example loose_key_line :
  String (fun _ => false) (fun _ => []) (fun _ => []) (fun _ => []) (fun _ => [])
    (MkFinding FsckWarning !"/etc/gsnet/vpn/wg.priv" (KeyLoose !"WireGuard" 420))
  = !"WARNING: /etc/gsnet/vpn/wg.priv: WireGuard key has loose permissions 644; expected 0600".
Proof. vm_compute. reflexivity. Qed.
End report.
