(* ===== verification/Mesh.v ===== *)
(** * From an announcement to the data planes of the mesh

    [GossipNet] says that a fact reaches every connected node, [Daemon] what
    state a daemon hands to its reconciler.  Together: the Hello a node
    announces appears in the desired state of every daemon the connections
    lead to, as long as nothing else in flight speaks about that node. *)

From Stdlib Require Import Ascii String ZArith Lia.
From stdpp Require Import base tactics list gmap strings.
From S2P Require Import Prelude.
From S2P Require Import GoStrings.
From S2P Require Import FS.
From S2P Require Import NetIP.
From S2P Require Import Graph.
From S2P Require Import Config.
From S2P Require Import Keys.
From S2P Require Import Message.
From S2P Require Import Gossip.
From S2P Require Import GossipNet.
From S2P Require Import Dataplane.
From S2P Require Import Daemon.

Import message gossip net.

Module mesh.

(** The envelope tells something about the node: a Hello or a deletion with
    that name in its payload. *)
Definition about `{Unicode} (name : gostring) (e : Envelope) : Prop :=
  (Kind e = KindAddNode \/ Kind e = KindDelNode) /\ exists h, unmarshalHello (Payload e) = Ok h /\ Name h = name.

(** A plane that has learned what the Hello says. *)
Record told (h : Hello) (p : Plane) : Prop := {
  told_node : Name h ∈ dom (graph.nodes (G p));
  told_endpoint : Endpoint h <> [] -> EndpointOf p (Name h) = Endpoint h;
  told_inner : netip.IsValid (parseHelloAddr (InnerAddr h)) = true -> InnerAddrOf p (Name h) = parseHelloAddr (InnerAddr h);
  told_underlay : netip.IsValid (parseHelloAddr (UnderlayAddr h)) = true ->
    UnderlayAddrOf p (Name h) = parseHelloAddr (UnderlayAddr h)
}.

Section planes.
Context `{Unicode, Ed25519, MapOrder}.

(** Nodes are never removed from the graph. *)
Lemma ensureNode_grows n g : dom (graph.nodes g) ⊆ dom (graph.nodes (graph.ensureNode n g)) /\ n ∈ dom (graph.nodes (graph.ensureNode n g)).
Proof.
  unfold graph.ensureNode. destruct (graph.nodes g !! n) eqn:E; cbn [graph.nodes].
  - split; [done|]. by apply elem_of_dom.
  - rewrite dom_insert. set_solver.
Qed.

Lemma delEdgesOf_nodes name es g : graph.nodes (delEdgesOf name es g) = graph.nodes g.
Proof. revert g. induction es as [|e es IH]; intros g; [done|]. cbn. unfold delEdgesOf in IH. rewrite IH. by destruct (_ || _). Qed.

Lemma learn_told h p : told h (learnHello h p).
Proof.
  assert (forall p q : Plane, G q = G p -> dom (graph.nodes (G q)) = dom (graph.nodes (G p))) as HG by congruence.
  split.
  - unfold learnHello. destruct (keys.ParseEd25519PublicBase64ish _); apply ensureNode_grows.
  - intros He. unfold learnHello, EndpointOf. rewrite (bool_decide_eq_false_2 (Endpoint h = [])) by done.
    destruct (keys.ParseEd25519PublicBase64ish _); cbn; by rewrite lookup_insert_eq.
  - intros Hv. unfold learnHello, InnerAddrOf. rewrite Hv.
    destruct (keys.ParseEd25519PublicBase64ish _); cbn; by rewrite lookup_insert_eq.
  - intros Hv. unfold learnHello, UnderlayAddrOf. rewrite Hv.
    destruct (keys.ParseEd25519PublicBase64ish _); cbn; by rewrite lookup_insert_eq.
Qed.

(** A change of the graph that loses no node. *)
Lemma told_setG h p g : dom (graph.nodes (G p)) ⊆ dom (graph.nodes g) -> told h p -> told h (setG g p).
Proof. intros Hg [Hn He Hi Hu]. split; [cbn; set_solver|done..]. Qed.

Lemma told_learn_other h h2 p : Name h2 <> Name h -> told h p -> told h (learnHello h2 p).
Proof.
  intros Hne [Hn He Hi Hu]. assert (Name h <> Name h2) as Hne' by congruence. split.
  - unfold learnHello. destruct (keys.ParseEd25519PublicBase64ish _); cbn;
      pose proof (ensureNode_grows (Name h2) (G p)); set_solver.
  - intros H'. rewrite <- (He H'). unfold learnHello, EndpointOf.
    destruct (keys.ParseEd25519PublicBase64ish _); cbn; case_bool_decide; rewrite ?lookup_insert_ne by done; done.
  - intros H'. rewrite <- (Hi H'). unfold learnHello, InnerAddrOf.
    destruct (keys.ParseEd25519PublicBase64ish _); cbn; destruct (netip.IsValid (parseHelloAddr (InnerAddr h2))); rewrite ?lookup_insert_ne by done; done.
  - intros H'. rewrite <- (Hu H'). unfold learnHello, UnderlayAddrOf.
    destruct (keys.ParseEd25519PublicBase64ish _); cbn; destruct (netip.IsValid (parseHelloAddr (UnderlayAddr h2))); rewrite ?lookup_insert_ne by done; done.
Qed.

Lemma told_forget_other h k name p : name <> Name h -> told h p -> told h (forgetNode k name p).
Proof.
  intros Hne [Hn He Hi Hu]. unfold forgetNode. split; cbn.
  - by rewrite delEdgesOf_nodes.
  - intros H'. rewrite <- (He H'). unfold EndpointOf. cbn. by rewrite lookup_delete_ne.
  - intros H'. rewrite <- (Hi H'). unfold InnerAddrOf. cbn. by rewrite lookup_delete_ne.
  - intros H'. rewrite <- (Hu H'). unfold UnderlayAddrOf. cbn. by rewrite lookup_delete_ne.
Qed.

Lemma told_apply_other h k e p : ~ about (Name h) e -> told h p -> told h (apply k e p).1.
Proof.
  intros Hab Ht. unfold apply. destruct (applyKind k e p) as [q|] eqn:E; [|done]. cbn [fst]. unfold applyKind in E.
  case_bool_decide as K1.
  { destruct (unmarshalHello (Payload e)) as [h2|] eqn:Eu; [|done]. injection E as <-. apply told_learn_other; [|done].
    intros Hn. apply Hab. split; [by left|exists h2; split; [exact Eu|exact Hn]]. }
  case_bool_decide as K2.
  { destruct (unmarshalHello (Payload e)) as [h2|] eqn:Eu; [|done]. cbn [ok mbind option_bind] in E. destruct (bool_decide (Name h2 = [])); [done|]. injection E as <-.
    apply told_forget_other; [|done]. intros Hn. apply Hab. split; [by right|exists h2; split; [exact Eu|exact Hn]]. }
  case_bool_decide.
  { destruct (unmarshalAddEdge (Payload e)) as [x|]; [|done]. injection E as <-. apply told_setG; [|done].
    unfold graph.AddEdge. cbn. pose proof (ensureNode_grows (aeFrom x) (G p)). 
    pose proof (ensureNode_grows (aeTo x) (graph.ensureNode (aeFrom x) (G p))). set_solver. }
  case_bool_decide.
  { destruct (unmarshalDelEdge (Payload e)) as [x|]; [|done]. injection E as <-. by apply told_setG. }
  case_bool_decide.
  { destruct (unmarshalAddSubnet (Payload e)) as [x|]; [|done]. injection E as <-. apply told_setG; [|done].
    unfold graph.AddSubnet. cbn [graph.nodes]. rewrite dom_alter. apply ensureNode_grows. }
  case_bool_decide.
  { destruct (unmarshalDelSubnet (Payload e)) as [x|]; [|done]. injection E as <-. apply told_setG; [|done].
    unfold graph.DelSubnet. cbn [graph.nodes]. by rewrite dom_alter. }
  by injection E as <-.
Qed.

Lemma told_apply h k e p : Kind e = KindAddNode -> unmarshalHello (Payload e) = Ok h -> told h (apply k e p).1.
Proof.
  intros Hk Hu. unfold apply, applyKind. rewrite bool_decide_eq_true_2 by done. rewrite Hu. cbn. apply learn_told.
Qed.

Lemma told_sameView h p q : graph.nodes (G q) = graph.nodes (G p) -> endpoints q = endpoints p -> inners q = inners p ->
  underlays q = underlays p -> told h p -> told h q.
Proof.
  intros Hg He Hi Hu [A1 A2 A3 A4]. split; unfold EndpointOf, InnerAddrOf, UnderlayAddrOf in *; rewrite ?Hg, ?He, ?Hi, ?Hu; done.
Qed.
End planes.

(** ** The network *)

Section network.
Context `{Unicode, Ed25519, X509, WGTypes, MapOrder}.
Context (peers : nat -> list nat) (id : gostring) (now : Z) (h : Hello) (env : Envelope).
Hypothesis Hid : ID env = id.
Hypothesis Hts : TS env = now.
Hypothesis Hkind : Kind env = KindAddNode.
Hypothesis Hbody : unmarshalHello (Payload env) = Ok h.

(** In flight: the announcement, and what does not concern it. *)
Definition unrelated (e : Envelope) : Prop := ID e <> id /\ ~ about (Name h) e.

Record quiet (s : Net) : Prop := {
  quiet_wire : forall m e, (m, e) ∈ wire s -> e = env \/ unrelated e;
  quiet_told : forall p, p ∈ planes s -> has id now p -> told h p
}.

Lemma Receive_told k e p : e = env \/ unrelated e -> (has id now p -> told h p) ->
  has id now (Receive noErr k e p).1.1 -> told h (Receive noErr k e p).1.1.
Proof.
  intros He Hp. destruct (verify p e) eqn:Hv; [|by rewrite Receive_reject].
  destruct (decide (fresh p (ID e) (TS e))) as [Hf|Hf]; [|by rewrite Receive_stale].
  rewrite Receive_accept by done. cbn [fst]. set (q := setSeen _ p). intros Hh.
  destruct He as [->|[Hne Hab]]; [by apply told_apply|]. apply told_apply_other; [done|].
  apply (told_sameView h p q); try done. apply Hp. apply has_spec in Hh as (t & Ht & Hle). apply has_spec. exists t.
  rewrite (core_seen _ _ (apply_core k e q)) in Ht. unfold q in Ht. cbn in Ht. by rewrite lookup_insert_ne in Ht.
Qed.

Lemma quiet_deliver s s' : deliver peers s s' -> quiet s -> quiet s'.
Proof.
  intros [w1 w2 i e p k Hw Hp] [Qw Qt]. assert (e = env \/ unrelated e) as He by (apply (Qw i); rewrite Hw; set_solver).
  split; cbn [wire planes].
  - intros m x Hx. rewrite app_assoc in Hx. apply elem_of_app in Hx as [Hx|Hx].
    + apply (Qw m). rewrite Hw. set_solver.
    + apply elem_of_fanout in Hx as [Hx _]. rewrite broadcasts_Receive in Hx. destruct (_ && _); [|by apply elem_of_nil in Hx].
      by apply list_elem_of_singleton in Hx as ->.
  - intros q (j & Hj)%list_elem_of_lookup_1. rewrite (lookup_insert_plane _ _ p) in Hj by done. case_decide as Hji.
    + injection Hj as <-. apply Receive_told; [done|]. apply Qt. by eapply list_elem_of_lookup_2.
    + apply Qt. by eapply list_elem_of_lookup_2.
Qed.

Lemma quiet_delivers s s' : rtc (deliver peers) s s' -> quiet s -> quiet s'.
Proof. induction 1; eauto using quiet_deliver. Qed.

(** ** The desired state *)

(** What the desired state says about the node, for a daemon that holds its
    WireGuard key. *)
Definition installed (key : bytes) (l : daemon.loaded) (s : dataplane.State) : Prop :=
  exists q, q ∈ dataplane.Peers s /\ dataplane.Name q = Name h /\ dataplane.WGPublic q = key /\
    (forall ep, Endpoint h <> [] -> netip.ParseAddrPort (Endpoint h) = Some ep -> netip.apIsValid ep = true ->
       dataplane.Endpoint q = ep) /\
    (netip.IsValid (parseHelloAddr (InnerAddr h)) = true -> dataplane.InnerAddr q = parseHelloAddr (InnerAddr h)) /\
    (netip.IsValid (parseHelloAddr (UnderlayAddr h)) = true ->
       dataplane.UnderlayAddr q = parseHelloAddr (UnderlayAddr h) /\
       (daemon.LMode l <> dataplane.ModeRouter -> dataplane.AllowedIPs q =
          [netip.PrefixFrom (parseHelloAddr (UnderlayAddr h)) (netip.BitLen (parseHelloAddr (UnderlayAddr h)))])).

Lemma told_installed fs p k l pl key : told h pl -> Name h <> daemon.NodeName l ->
  daemon.hostKey fs p (Name h) = Some key -> installed key l (daemon.buildState fs p k l pl).
Proof.
  intros [Tn Te Ti Tu] Hne Hk.
  assert (is_Some (daemon.peerFor fs p k l pl (Name h))) as [q Hq] by (apply daemon.peerFor_is_Some; [done|by exists key]).
  pose proof Hq as (Qn & _ & Qk & Qu & Qi & Qe & Qa)%daemon.peerFor_Some. exists q. split_and!.
  - unfold daemon.buildState. cbn [dataplane.Peers]. apply list_elem_of_omap. exists (Name h). split; [|done].
    by apply daemon.elem_of_Nodes.
  - done.
  - rewrite Hk in Qk. by injection Qk.
  - intros ep He Hp Hv. apply Qe; [by rewrite (Te He)|by rewrite (Te He)|done].
  - intros Hv. rewrite <- (Ti Hv). apply Qi. by rewrite (Ti Hv).
  - intros Hv. assert (dataplane.UnderlayAddr q = parseHelloAddr (UnderlayAddr h)) as Eu.
    { rewrite <- (Tu Hv). apply Qu. by rewrite (Tu Hv). }
    split; [done|]. intros Hm. rewrite Qa, Eu. unfold daemon.allowedIPsFor. rewrite bool_decide_eq_false_2 by done. cbn [negb]. by rewrite Hv.
Qed.
End network.

(** C5.  From announcement to data plane.  A node announces itself with a
    Hello that no node has yet and that all verifiers accept, while nothing
    else in flight has its fact ID or speaks about a node of that name.  Then,
    in every state the deliveries reach in which nothing is in flight any
    more, every node the connections lead to has learned it: whatever
    configuration and host files its daemon has, if a host file of that name
    holds a WireGuard key, the desired state it computes contains that peer
    with that key and with the endpoint and the addresses announced. *)
Theorem hello_reaches_data_planes `{Unicode, Ed25519, X509, WGTypes, MapOrder} peers i k now id h s s1 :
  launch peers i k now id KindAddNode (marshalHello h) s = Some s1 ->
  utf8Fields [Name h; WGPublic h; Endpoint h; InnerAddr h; UnderlayAddr h] ->
  (forall p, p ∈ planes s -> fresh p id now) ->
  (forall m e, (m, e) ∈ wire s -> unrelated id h e) ->
  (forall p, planes s !! i = Some p -> forall q, q ∈ planes s ->
     trusts (sign p (MkEnvelope id (gossip.NodeName p) KindAddNode now (marshalHello h) [])) q) ->
  forall s2, rtc (deliver peers) s1 s2 -> wire s2 = [] -> forall j, connected peers i j ->
  exists q, planes s2 !! j = Some q /\ told h q /\
    forall fs p n l key, Name h <> daemon.NodeName l -> daemon.hostKey fs p (Name h) = Some key ->
      installed h key l (daemon.buildState fs p n l q).
Proof.
  intros Hl Hc Hfr Hw Hte s2 Hr Hw2 j Hj.
  assert (forall m e p, (m, e) ∈ wire s -> ID e = id -> p ∈ planes s -> trusts e p) as Htw.
  { intros m e p He Hid. by destruct (Hw m e He). }
  destruct (inv_launch peers id now i k KindAddNode (marshalHello h) s s1 Hl Hfr Htw Hte) as (Hi & p & Hp & Hh).
  pose proof Hl as Hl'. unfold launch in Hl'. destruct (planes s !! i) as [p0|] eqn:Hp0; [|done]. cbn [mbind option_bind] in Hl'.
  rewrite originate_unfold in Hl'. set (env := sign p0 _) in *. set (q0 := setSeen _ _) in *.
  destruct (sign_fields p0 (MkEnvelope id (gossip.NodeName p0) KindAddNode now (marshalHello h) [])) as (Sid & _ & Skind & Sts & Spay & _).
  fold env in Sid, Skind, Sts, Spay. cbn [ID Kind TS Payload] in Sid, Skind, Sts, Spay.
  assert (unmarshalHello (Payload env) = Ok h) as Hb by (rewrite Spay; exact (unmarshalP_marshalP (A := Hello) h Hc)).
  assert (quiet id now h env s1) as Hq.
  { apply (inj Some) in Hl' as <-. rewrite broadcasts_app, broadcasts_apply, app_nil_l. split; cbn [wire planes].
    - intros m e [He|He]%elem_of_app; [right; by eapply Hw|]. apply elem_of_fanout in He as [He _]. left. by apply list_elem_of_singleton in He.
    - intros x (m & Hm)%list_elem_of_lookup_1. rewrite (lookup_insert_plane _ _ p0) in Hm by done. case_decide.
      + injection Hm as <-. intros _. by apply told_apply.
      + intros Hx. exfalso. apply Hx, Hfr. by eapply list_elem_of_lookup_2. }
  assert (quiet id now h env s2) as [_ Hq2] by by eapply quiet_delivers.
  destruct (has_delivers peers id now s1 s2 i p Hr Hp Hh) as (p2 & Hp2 & Hh2).
  destruct (quiet_converged peers id now s2 i j p2 (inv_delivers peers id now _ _ Hr Hi) Hw2 Hp2 Hh2 Hj) as (q & Hqj & Hhq).
  assert (told h q) as Ht by (apply Hq2; [by eapply list_elem_of_lookup_2|done]).
  exists q. split_and!; [done|done|]. intros fs pp n l key Hne Hk. by apply told_installed.
Qed.

(** ** Node "a" announces itself to the line a - b - c *)
Module demo.
Import gossip.demo toy.

Definition hello : Hello :=
  MkHello !"a" (keys.Raw (keys.Public priv)) daemon.demo.keyText !"198.51.100.7:51820" [] !"10.0.0.1/24".
Definition announced : Net := default net3 (launch line 0 0 5 !"a/hello" KindAddNode (marshalHello hello) net3).

(** Node "c" has a host file for "a". *)
Definition fs : FS :=
  MkFS {[ !"/etc/gsnet/vpn/hosts/a" := MkFile (!"WGPublicKey = " ++ daemon.demo.keyText ++ [nl]) 420 ]} ∅.
Definition l : daemon.loaded :=
  daemon.MkLoaded !"c" [] (keys.MkPriv []) (keys.MkWGPriv []) dataplane.ModeSwitch !"wg-c" 51820 !"c" 42 4789 1420
    netip.PrefixZero netip.PrefixZero [].

Lemma trusts_hello n : trusts (sign (node !"a") (MkEnvelope !"a/hello" !"a" KindAddNode 5 (marshalHello hello) [])) (node n).
Proof.
  exists lookupA, (keys.Public priv). split; [reflexivity|]. split; [vm_compute; reflexivity|].
  split; vm_compute; [discriminate|reflexivity].
Qed.
End demo.
Import gossip.demo toy demo.

Lemma hello_reaches_data_planes_witness :
  length (wire announced) = 1 /\
  forall s2, rtc (deliver line) announced s2 -> wire s2 = [] -> exists q, planes s2 !! 2 = Some q /\
    installed hello (replicate 32 (to_byte 7)) l (daemon.buildState fs daemon.demo.p 0 l q).
Proof.
  split; [vm_compute; reflexivity|]. intros s2 Hr Hw.
  destruct (hello_reaches_data_planes line 0 0 5 !"a/hello" hello net3 announced) with (s2 := s2) (j := 2%nat) as (q & Hq & _ & Hi).
  - vm_compute. reflexivity.
  - apply (bool_decide_unpack _). vm_compute. exact I.
  - intros p Hp. unfold net3 in Hp. cbn [planes] in Hp. rewrite !elem_of_cons in Hp.
    destruct Hp as [-> | [-> | [-> | Hp]]]; [exact I..|]. by apply elem_of_nil in Hp.
  - intros m e Hm. cbn [wire net3] in Hm. by apply elem_of_nil in Hm.
  - intros p Hp q Hq. injection Hp as <-. unfold net3 in Hq. cbn [planes] in Hq.
    rewrite !elem_of_cons in Hq. destruct Hq as [-> | [-> | [-> | Hq]]]; [apply trusts_hello..|]. by apply elem_of_nil in Hq.
  - exact Hr.
  - exact Hw.
  - apply (rtc_l _ 0%nat 1%nat); [|apply rtc_once]; apply (bool_decide_unpack _); vm_compute; exact I.
  - exists q. split; [exact Hq|]. apply Hi; [vm_compute; discriminate|vm_compute; reflexivity].
Defined.
End mesh.
