(* ===== verification/Heartbeat.v ===== *)
(** * The heartbeat repairs what the network lost

    Broadcasts are written once; a connection that breaks loses what it had
    not delivered, and a node that was away has missed everything.  The
    heartbeat of [internal/daemon/daemon.go] sends the whole outbox again.
    Here that tick, the bytes it becomes on a connection, the lines the peer
    reads from them and the envelopes its daemon handles are composed. *)

From Stdlib Require Import Ascii String ZArith Lia.
From stdpp Require Import base tactics list gmap strings.
From S2P Require Import Prelude.
From S2P Require Import GoStrings.
From S2P Require Import FS.
From S2P Require Import NetIP.
From S2P Require Import Graph.
From S2P Require Import Keys.
From S2P Require Import Message.
From S2P Require Import Gossip.
From S2P Require Import GossipNet.
From S2P Require Import Bufio.
From S2P Require Import Transport.
From S2P Require Import TransportWire.
From S2P Require Import Dataplane.
From S2P Require Import Daemon.
From S2P Require Import DaemonEvents.
From S2P Require Import DaemonConcurrent.

Local Open Scope Z_scope.

Module heartbeat.
Import events transport_wire.

Section repair.
Context {R : Type} `{ReconcilerSpec R, Unicode, Ed25519, X509, WGTypes, MapOrder}.
Context (bcast : nat -> message.Envelope -> option nat) (k : nat).
Implicit Types d : Daemon R.

(** The envelopes among the events. *)
Definition sent (evs : list gossip.event) : list message.Envelope :=
  omap (fun ev => match ev with gossip.Broadcasts e => Some e | gossip.Notifies _ => None end) evs.

(** The daemon's verifier after the next envelope. *)
Definition verifier d : gossip.Plane :=
  gossip.SetVerifier (daemon.lookupPubKey (dFS d) (dPaths d) (dLoaded d)) (dPlane d).

Definition hears d (envs : list message.Envelope) : Daemon R := foldl (fun d e => onGossip bcast k e d) d envs.

(** A heartbeat sends the whole outbox. *)
Lemma heartbeat_events d : (forall n e, bcast n e = None) ->
  onHeartbeat bcast k d = gossip.Broadcasts <$> (map_order k (gossip.outbox (dPlane d))).*2.
Proof.
  intros Hb. unfold onHeartbeat, gossip.ResendOutbox. generalize ((map_order k (gossip.outbox (dPlane d))).*2). intros l.
  generalize 0%nat. induction l as [|e l IH]; intros n; [done|]. cbn [gossip.resend]. rewrite Hb.
  specialize (IH (S n)). destruct (gossip.resend bcast (S n) l) as [evs r]. cbn [fst] in *. by rewrite IH.
Qed.

Lemma heartbeat_outbox d : (forall n e, bcast n e = None) ->
  sent (onHeartbeat bcast k d) = (map_order k (gossip.outbox (dPlane d))).*2.
Proof.
  intros Hb. rewrite heartbeat_events by done. generalize ((map_order k (gossip.outbox (dPlane d))).*2). intros l.
  unfold sent. induction l as [|e l IH]; [done|]. cbn [fmap list_fmap omap list_omap]. by f_equal.
Qed.

Lemma elem_of_heartbeat d e : (forall n x, bcast n x = None) ->
  e ∈ sent (onHeartbeat bcast k d) <-> exists id, gossip.outbox (dPlane d) !! id = Some e.
Proof.
  intros Hb. rewrite heartbeat_outbox by done. rewrite list_elem_of_fmap. split.
  - intros ([id e'] & -> & Hin). exists id. rewrite map_order_perm in Hin. by apply elem_of_map_to_list.
  - intros [id Hid]. exists (id, e). split; [done|]. rewrite map_order_perm. by apply elem_of_map_to_list.
Qed.

(** One envelope: nothing seen is forgotten, and a trusted one is recorded. *)
Lemma onGossip_seen d e : let d' := onGossip bcast k e d in
  dFS d' = dFS d /\ dPaths d' = dPaths d /\ dLoaded d' = dLoaded d /\ gossip.seen_le (dPlane d) (dPlane d') /\
  (net.trusts e (verifier d) -> net.has (message.ID e) (message.TS e) (dPlane d')).
Proof.
  unfold onGossip, observed. fold (verifier d).
  pose proof (gossip.Receive_monotone bcast k e (verifier d)) as Hm. pose proof (gossip.Receive_claims bcast k e (verifier d)) as Hc.
  destruct (gossip.Receive bcast k e (verifier d)) as [[pl evs] r]. cbn [fst] in *.
  destruct (notify_keeps k evs (setPlane pl d)) as (-> & -> & -> & -> & _). split_and!; [done..|exact Hm|].
  intros Ht. apply Hc. by apply net.trusts_verify.
Qed.

Lemma hears_seen d envs : gossip.seen_le (dPlane d) (dPlane (hears d envs)).
Proof.
  revert d. induction envs as [|e envs IH]; intros d; [done|]. destruct (onGossip_seen d e) as (_ & _ & _ & Hm & _).
  etrans; [exact Hm|apply IH].
Qed.

Lemma hears_has d envs : Forall (fun e => net.trusts e (verifier d)) envs ->
  forall e, e ∈ envs -> net.has (message.ID e) (message.TS e) (dPlane (hears d envs)).
Proof.
  revert d. induction envs as [|e0 envs IH]; intros d Hd e; [by intros ?%elem_of_nil|].
  apply Forall_cons in Hd as [H1' H2']. destruct (onGossip_seen d e0) as (E1 & E2 & E3 & _ & Hh).
  intros [->|Hin]%elem_of_cons.
  - unfold net.has. eapply gossip.fresh_antitone; [|by apply Hh]. apply (hears_seen (onGossip bcast k e0 d)).
  - apply (IH (onGossip bcast k e0 d)); [|done]. eapply Forall_impl; [exact H2'|].
    intros x (f & pub & Hf & Hx). exists f, pub. split; [|exact Hx]. cbn in Hf |- *. by rewrite E1, E2, E3.
Qed.

(** C6.  One heartbeat makes up for everything that was lost.  Let the facts in
    the sender's outbox be such that the receiver's configuration verifies
    them, and write one heartbeat to a connection.  Wherever the network
    breaks it, the receiver forgets nothing it knew; and if it does not break,
    the receiver then has every fact of the sender at the sender's version or
    a newer one, whatever it had missed before. *)
Theorem heartbeat_repairs (accepts : bytes -> bytes -> nat) (s r : Daemon R) :
  (forall n e, bcast n e = None) -> gossip.wf (dPlane s) ->
  (forall id e, gossip.outbox (dPlane s) !! id = Some e -> wireable e /\ net.trusts e (verifier r)) ->
  let c := writeLines accepts newConn (lineOf <$> sent (onHeartbeat bcast k s)) in
  let r' := hears r (transport.handleGossip (bufio.wire (w c))) in
  gossip.seen_le (dPlane r) (dPlane r') /\
  (isClosed c = false ->
   forall id e, gossip.outbox (dPlane s) !! id = Some e -> net.has id (message.TS e) (dPlane r')) /\
  ((forall on l, (length l <= accepts on l)%nat) -> isClosed c = false).
Proof.
  intros Hb Hw Hout c r'. split_and!; [apply hears_seen| |by apply received_open].
  intros Ho id e He. destruct (gossip.wf_outbox _ Hw id e He) as [<- _ _ _]. unfold r', c.
  assert (Forall (fun x => wireable x /\ net.trusts x (verifier r)) (sent (onHeartbeat bcast k s))) as Hs.
  { apply Forall_forall. intros x [i Hi]%elem_of_heartbeat; [by eapply Hout|done]. }
  rewrite received_all by (done || by eapply Forall_impl; [exact Hs|intros x []]).
  apply hears_has; [eapply Forall_impl; [exact Hs|by intros x []]|]. apply elem_of_heartbeat; [done|by exists (message.ID e)].
Qed.
End repair.

(** ** Node "a" announced itself while "b" was away *)
Module demo.
Import toy gossip.demo goroutines.demo.

Definition hello : message.Hello :=
  message.MkHello !"a" (keys.Raw (keys.Public priv)) daemon.demo.keyText !"198.51.100.7:51820" [] [].

Definition sender : Daemon fake.Reconciler :=
  MkDaemon daemon.demo.p !"/run" (Some fake.New) l (gossip.AnnounceHello noErr 0 5 planeA hello).1.1 (transport.MkServer ∅)
    netip.AddrPortZero fs false.

Lemma sender_wf : gossip.wf (dPlane sender).
Proof. apply gossip.wf_originate. eapply gossip.wf_planeStep; [apply gossip.step_signer|]. apply gossip.wf_NewPlane, graph.wf_New. Qed.

Lemma sender_outbox : gossip.outbox (dPlane sender) = {[ !"a/hello" := helloA 5 !"198.51.100.7:51820" ]}.
Proof. vm_compute. reflexivity. Qed.

Lemma sender_wireable : wireable (helloA 5 !"198.51.100.7:51820").
Proof.
  refine (wireable_payload (A := message.Hello) !"a/hello" !"a" message.KindAddNode 5 hello _ _ _ _);
    apply (bool_decide_unpack _); vm_compute; exact I.
Qed.
End demo.
Import demo toy gossip.demo goroutines.demo.

Lemma heartbeat_repairs_witness :
  net.has !"a/hello" 5 (dPlane (hears noErr 0 d0 (transport.handleGossip
    (bufio.wire (w (writeLines (fun _ s => length s) newConn (lineOf <$> sent (onHeartbeat noErr 0 sender)))))))).
Proof.
  destruct (heartbeat_repairs noErr 0 (fun _ s => length s) sender d0) as (_ & Hall & Ho).
  - reflexivity.
  - apply sender_wf.
  - intros id e. rewrite sender_outbox. intros [<- <-]%lookup_singleton_Some. split; [apply sender_wireable|].
    eexists _, (keys.Public priv). split_and!; [reflexivity|vm_compute; reflexivity|vm_compute; discriminate|vm_compute; reflexivity].
  - apply (Hall (Ho (fun _ _ => le_n _)) !"a/hello" (helloA 5 !"198.51.100.7:51820")). rewrite sender_outbox.
    by rewrite lookup_singleton_eq.
Defined.
End heartbeat.
