(* ===== verification/EndToEnd.v ===== *)
(** * From an invitation to a tunnel

    The commands "gsnet invite" and "gsnet join", the daemons of both nodes,
    the gossip stream between them and their data planes, composed: the tree
    that join leaves behind starts a daemon whose announcement the inviter
    accepts, and the other way round, and each ends up as a WireGuard peer of
    the other. *)

From Stdlib Require Import Ascii String ZArith Lia.
From stdpp Require Import base tactics list gmap strings.
From S2P Require Import Prelude.
From S2P Require Import GoStrings.
From S2P Require Import NodeName.
From S2P Require Import FS.
From S2P Require Import FilePath.
From S2P Require Import NetIP.
From S2P Require Import Graph.
From S2P Require Import JSONStrings.
From S2P Require Import Config.
From S2P Require Import Subnet.
From S2P Require Import Keys.
From S2P Require Import Message.
From S2P Require Import Gossip.
From S2P Require Import GossipNet.
From S2P Require Import Invite.
From S2P Require Import Transport.
From S2P Require Import TransportWire.
From S2P Require Import Dataplane.
From S2P Require Import Daemon.
From S2P Require Import DaemonJoin.
From S2P Require Import DaemonInit.
From S2P Require Import DaemonEvents.
From S2P Require Import DaemonRun.
From S2P Require Import Cli.
From S2P Require Import CliJoin.
From S2P Require Import Mesh.
From S2P Require Import Heartbeat.

Local Open Scope Z_scope.

Module tunnel.
Import paths events.

(** ** What a daemon announces is heard *)

Section announcing.
Context {R : Type} `{ReconcilerSpec R, Unicode, Ed25519, X509, WGTypes, MapOrder}.
Context (bcast : nat -> message.Envelope -> option nat) (k : nat) (now : nat -> Z).
Implicit Types d : Daemon R.


(** ** Another daemon hears it *)


End announcing.

(** ** The two nodes *)

Section two_nodes.
Context {R : Type} `{ReconcilerSpec R, Unicode, Ed25519, SHA256, SessionCrypto, MapOrder, X509, init_lemmas.WGText}.
Context (bcast : nat -> message.Envelope -> option nat) (k : nat) (nowA nowB : nat -> Z).
Context (rndOf : bytes -> bytes).
Context (pA : Paths) (wA : cli.world) (self addr : gostring) (port : Z)
        (edA : keys.Ed25519Private) (hes : list config.Entry) (invitee : gostring) (buf : bytes)
        (pB : Paths) (wB : cli.world) (edB : keys.Ed25519Private) (wgB : keys.WGPrivate) (pem rnd1 rnd2 : bytes).
Context (Hbcast : forall n e, bcast n e = None) (Hok : reconciles (R := R)).
Context (Hj : cli_join.joinable rndOf pA wA self addr port edA hes invitee buf pB wB edB wgB pem rnd1 rnd2).














Context (bcastJ : nat -> message.Envelope -> option nat) (kJ : nat) (nowJ : Z) (plA : gossip.Plane).
Context (joinErrText : join.error -> gostring) (errText : transport.failure -> gostring) (b64Err : gostring -> gostring).

End two_nodes.

(** ** Alice invites Bob *)
Module demo.
Import toy transport.demo gossip.demo init_lemmas.demo cli_join.demo.




End demo.
Import demo toy transport.demo gossip.demo init_lemmas.demo cli_join.demo.

End tunnel.
